(* ===== verification/_CoqProject ===== *)
-Q . S2P
Prelude.v
Format.v
Sort.v
Crc16.v
Messages.v
Frame.v
Validation.v
Builders.v
Queue.v
Store.v
FileStore.v
Postgres.v
Retry.v
Session.v
RemoteHost.v
Stats.v
Config.v
Policy.v
IPGuard.v
Metrics.v
Bus.v
CommandBuilder.v
Schema.v
Server.v
FlushLock.v
Delivery.v
Conn.v
Sim.v
SimRun.v
Exchange.v
System.v
Main.v
Shutdown.v
Pages.v
Endpoints.v
