(* ===== verification/Prelude.v ===== *)
(** * TCPadapter: a verification of the adapter between controllers and the message bus

    TCPadapter (Go, under [src/]) accepts TCP connections from access
    controllers, keeps a queue of commands for each of them, delivers the
    commands as frames within the buffer the controller advertises, retries
    them until they are acknowledged, and publishes acknowledgements and
    telemetry on a bus.  Sessions are saved in a store so that queued and
    unacknowledged commands survive a restart.

    ** Parts, files and sources

    Text and data
    - [Prelude]: machine integers, Go results ([Ok], [Err], [Panic]), slices and
      indexing with their panics, little-endian bytes, strings as bytes, the
      hint database [go] and the lemmas the other files share.
    - [Format]: what is used of [fmt], [strings] and [encoding/hex].
    - [Sort]: [sort.Slice] and comparisons field by field.

    Protocol ([internal/protocol])
    - [Crc16] ([crc16.go]), [Messages] ([messages.go], [constants.go]),
      [Frame] ([frame.go]), [Validation] ([server_payload_validation.go],
      [cmd12.go] to [cmd15.go]), [Builders] ([server_payload_builders.go]).

    State
    - [Queue] ([internal/queue/queue.go]).
    - [Store] ([internal/store/store.go]: the interface, as the classes [Store]
      and [StoreLaws], and the memory store); [FileStore] (the file store) and
      [Postgres] ([postgres_store.go]), instances of both classes.
    - [Retry], [Session], [Stats] ([internal/session/manager.go]): delays, the
      session manager, its reports.
    - [Config] ([internal/config/config.go]).

    Server ([internal/server])
    - [Policy] ([command_policy.go]); [IPGuard] (admission of connections) with
      [RemoteHost] ([connRemoteHost]); [Metrics] (counters and debug logs);
      [CommandBuilder] and [Schema] ([command_builder.go]: the handler that
      builds payloads, and the forms the page shows); [Server] (the state and
      the monad [ST] of computations on it); [FlushLock] ([withFlushLock]);
      [Delivery] ([flushQueue], [EnqueueCommand], [processInFlight], the sweep);
      [Conn] ([handleConn]); [Shutdown] (probes and shutdown); [Pages] and
      [Endpoints] ([observability.go]: what the handlers answer; the routes).
    - [Bus] ([internal/kafka/kafka.go]): the log lines of the bus.

    Programs
    - [System]: the composition of accept loop, handlers, sweep and callers as a
      step relation; [Main] ([cmd/tcpadapter/main.go]): the process, from the
      configuration and the store to the running server, and histories of
      processes on one machine.
    - [Sim] and [SimRun] ([cmd/controller-sim/main.go]): the simulated
      controller, the other end of the protocol; its messages, and the program
      with its flags, connections and reconnects.  [Exchange]: a command and its
      acknowledgements through both ends.

    ** How the code is modelled

    A Go function is a Rocq function with the same name; a method of a type is
    a function on the record of its fields.  Fallible functions give [res];
    [Panic] is a run-time panic of Go (an index or a slice out of range), so
    that "does not panic" is a theorem and not an assumption.  Integers are [Z]
    with the wrap-around of their width written out.  A method that holds a
    mutex for its whole body is one function; maps are [gmap], and the order in
    which Go ranges over a map is an argument ([MapRange], or a list of visits
    where the loop changes the map).  The clock, the results of writes, what
    the network delivers, JSON coding, the system calls of the file store, the
    answers of the database and the random draws of the simulator are arguments
    of the definitions, with what is used of them as laws of a class ([JSON],
    [World], [Codec], [Database], [Unmarshal]).

    Goroutines are the interleaving of steps.  In [System] a round of a handler,
    a sweep and a call of [EnqueueCommand] are one step each.  Below that, each
    method of the session manager holds its mutex, and
    [Session.manager_invariant] holds for any sequence of its methods, so for any
    interleaving of goroutines that call them; flushes of one controller exclude
    each other ([FlushLock]).

    ** Fuel

    [Session.dropLoop] runs with the length of the queue plus one, and each of
    its rounds drops a command; [Delivery.flushLoop] runs with the budget plus
    one, and each round that goes on has sent a frame of at least one byte.  In
    both cases the theorems give the result, so that the fuel is shown to
    suffice.  A connection's handler has no bound of its own: its rounds are
    the ones the network provides ([Conn.connLoop]), and [Shutdown] shows that
    it ends once the connection is closed.

    ** What the theorems show

    - The running server ([System]): sessions and connections correspond one to
      one in every reachable state, and every frame written to a connection is
      a valid command in the framing the controller registered with.  Across
      processes ([Main]): an accepted command is served by the next process on
      the same file or database, whatever happened on the machine before.
    - Delivery: a flush accounts for every queued command (it stays queued, is
      in flight, or its end is published), within the controller's buffer; the
      flushes of a controller run one at a time ([FlushLock]); what a poll in
      firmware mode never sends.
    - Connections ([Conn], [Shutdown], [IPGuard]): no input makes the handler
      panic; an acknowledgement settles exactly the command it names;
      unregistered peers are rejected and counted; hosts are blocked exactly
      when they reach the limit; a closed connection ends its handler.
    - Sessions: the manager's invariant; enqueueing within the limits, with
      deduplication; timeouts and retries; atomic acknowledgement; an accepted
      command survives a restart; the reports do not depend on the order of
      maps; the delays of retries are bounded.
    - The queue refines a log of commands.  The file store is equivalent to the
      memory store and keeps its contents through failures and crashes; the
      PostgreSQL store is atomic also when replies are lost, and reads back what
      it wrote.
    - Protocol: frames round-trip, the encoding is canonical, damage of up to
      two adjacent bytes is detected, the framing of a registration is
      recognised; validation and builders are characterised exactly, field by
      field; what the simulator sends is what the server parses, and a
      connection of the simulator is a session the server accepts; a command
      sent to a healthy simulated controller is delivered ([Exchange]).
    - Pages: the command builder only produces valid payloads and its preview
      decodes to them; what was built there is what the enqueue page queues;
      the metrics page counts exactly; the values the forms propose build valid
      commands; the debug pages are closed unless they are switched on.

    Some theorems state what the code does where its comments say otherwise
    ([Delivery.fw_mode_starves], [Session.oversized_command_empties_queue],
    [Session.enqueue_dedup], [Sim.compact_acks_ignored],
    [Schema.form_defaults_build], [Bus.telemetry_log_reveals_id]).

    ** Not modelled

    The texts of the four HTML pages (markup and scripts that run in the
    browser, about 1100 lines of string constants in [observability.go] and
    [command_builder.go]) are parameters of [Endpoints].  Log lines other than
    those of the bus have no effect on the state.  Tickers, signals and
    listeners appear as steps and arguments: a tick is a step of the sweep, a
    signal ends a run, the result of listening is an argument of [Main.main].
    SQL is modelled statement by statement, on the one table the store uses. *)

From stdpp Require Export base tactics list numbers strings gmap.
From Stdlib Require Export ZArith Lia.

#[global] Open Scope Z_scope.

(** ** Machine integers

    Go's fixed-width integers are [Z] with the wrap-around written at every
    operation that can leave the range. *)

Definition u8 (z : Z) : Z := z mod 2 ^ 8.

Definition u16 (z : Z) : Z := z mod 2 ^ 16.

Definition u32 (z : Z) : Z := z mod 2 ^ 32.

Definition u64 (z : Z) : Z := z mod 2 ^ 64.

(** Two's complement [int64] (also Go's [int] and [time.Duration]). *)
Definition i64 (z : Z) : Z := (z + 2 ^ 63) mod 2 ^ 64 - 2 ^ 63.

Definition is_byte (b : Z) : Prop := 0 <= b < 256.

(** A Go [[]byte]. *)
Abbreviation bytes := (list Z).

Definition wf_bytes (l : bytes) : Prop := Forall is_byte l.

(** ** Errors and outcomes

    A Go error is a format string with its arguments (the message is their
    rendering), possibly wrapping another error. *)

Inductive arg :=
  | AZ (z : Z)
  | AS (s : string).

Inductive error :=
  | Errorf (format : string) (args : list arg)
  | Wrapf (format : string) (args : list arg) (inner : error).

#[global] Instance arg_eq_dec : EqDecision arg.
Proof. solve_decision. Defined.

#[global] Instance error_eq_dec : EqDecision error.
Proof. solve_decision. Defined.

(** What a fallible function does: it returns a value, returns an error, or
    panics (an index or a slice bound out of range). *)
Inductive res (A : Type) :=
  | Ok (a : A)
  | Err (e : error)
  | Panic.
Arguments Ok {A} a.
Arguments Err {A} e.
Arguments Panic {A}.

#[global] Instance Ok_inj A : Inj (=) (=) (@Ok A).
Proof. by intros ?? [=]. Qed.

#[global] Instance res_ret : MRet res := fun A a => Ok a.
#[global] Instance res_bind : MBind res := fun A B f m =>
  match m with
  | Ok a => f a
  | Err e => Err e
  | Panic => Panic
  end.

Definition res_is_ok {A} (r : res A) : bool :=
  match r with Ok _ => true | _ => false end.

(** [if cond { return err }]. *)
Definition fail_if (c : bool) (e : error) : res unit :=
  if c then Err e else Ok tt.

(** [%w]: the error path of a call wrapped with more context. *)
Definition wrap {A} (format : string) (args : list arg) (r : res A) : res A :=
  match r with
  | Ok a => Ok a
  | Err e => Err (Wrapf format args e)
  | Panic => Panic
  end.

(** A [for] loop over a list whose body may return early. *)
Fixpoint iterM {A} (f : A -> res unit) (l : list A) : res unit :=
  match l with
  | [] => Ok tt
  | a :: l' => f a ≫= fun _ => iterM f l'
  end.

(** Go's [switch] on an integer: the first case listing the value. *)
Fixpoint switch {A} (x : Z) (cases : list (list Z * A)) (dflt : A) : A :=
  match cases with
  | [] => dflt
  | (vs, a) :: cs => if existsb (Z.eqb x) vs then a else switch x cs dflt
  end.

(** ** Slices *)

(** [l[i]]. *)
Definition index (l : bytes) (i : nat) : res Z :=
  match l !! i with
  | Some b => Ok b
  | None => Panic
  end.

(** [l[a:b]]. *)
Definition slice (l : bytes) (a b : nat) : res bytes :=
  if (a <=? b)%nat && (b <=? length l)%nat then Ok (take (b - a) (drop a l)) else Panic.

(** [len(l)] as a Go [int]. *)
Definition len {A} (l : list A) : Z := Z.of_nat (length l).

(** ** Little-endian encodings ([encoding/binary]) *)

Fixpoint le_bytes (n : nat) (v : Z) : bytes :=
  match n with
  | O => []
  | S n' => v mod 256 :: le_bytes n' (v / 256)
  end.

Fixpoint le_value (l : bytes) : Z :=
  match l with
  | [] => 0
  | b :: l' => b + 256 * le_value l'
  end.

(** ** Strings as byte sequences *)

Definition byte_of_ascii (c : Ascii.ascii) : Z := Z.of_N (Ascii.N_of_ascii c).

Definition ascii_of_byte (b : Z) : Ascii.ascii := Ascii.ascii_of_N (Z.to_N b).

(** [[]byte(s)]. *)
Fixpoint bytes_of_string (s : string) : bytes :=
  match s with
  | String.EmptyString => []
  | String.String c s' => byte_of_ascii c :: bytes_of_string s'
  end.

(** [string(l)]. *)
Fixpoint string_of_bytes (l : bytes) : string :=
  match l with
  | [] => String.EmptyString
  | b :: l' => String.String (ascii_of_byte b) (string_of_bytes l')
  end.

(** ** Lemmas and automation *)

Create HintDb go.

Lemma switch_ind {A} (P : A -> Prop) x cases dflt :
  Forall (fun c => P c.2) cases -> P dflt -> P (switch x cases dflt).
Proof.
  induction cases as [|[vs a] cs IH]; simpl; intros Hc Hd; [done|].
  inversion_clear Hc. destruct (existsb _ _); eauto.
Qed.

(** Two [switch]es with the same case labels. *)
Lemma switch_rel {A B} (R : A -> B -> Prop) x cs1 cs2 d1 d2 :
  Forall2 (fun a b => a.1 = b.1 /\ R a.2 b.2) cs1 cs2 -> R d1 d2 ->
  R (switch x cs1 d1) (switch x cs2 d2).
Proof.
  intros Hc Hd. induction Hc as [|[vs a] [ws b] cs ds [Hv Hab] _ IH]; cbn in *; [done|].
  subst ws. by destruct (existsb _ _).
Qed.

(** Case analysis on a [switch] that remembers which case was taken. *)
Lemma switch_cases {A} x (cases : list (list Z * A)) dflt :
  (exists vs a, (vs, a) ∈ cases /\ x ∈ vs /\ switch x cases dflt = a)
  \/ ((forall vs a, (vs, a) ∈ cases -> x ∉ vs) /\ switch x cases dflt = dflt).
Proof.
  induction cases as [|[vs a] cs IH]; simpl.
  - right. split; [|done]. intros ?? []%not_elem_of_nil.
  - destruct (existsb (Z.eqb x) vs) eqn:E.
    + left. exists vs, a. split_and!; [left| |done].
      apply existsb_exists in E as (y & Hy & ->%Z.eqb_eq).
      by apply list_elem_of_In.
    + destruct IH as [(vs' & a' & ? & ? & ?)|[Hn ?]].
      * left. exists vs', a'. split_and!; [by right|done|done].
      * right. split; [|done].
        intros vs' a' [[= -> ->]|Hin]%elem_of_cons Hx; [|by eapply Hn].
        enough (existsb (Z.eqb x) vs = true) by congruence.
        apply existsb_exists. exists x. split; [by apply list_elem_of_In|].
        apply Z.eqb_refl.
Qed.

(** *** Outcomes *)

Definition no_panic {A} (r : res A) : Prop :=
  match r with Panic => False | _ => True end.

Lemma bind_ok {A B} (m : res A) (f : A -> res B) b :
  m ≫= f = Ok b <-> exists a, m = Ok a /\ f a = Ok b.
Proof.
  destruct m; cbn; split; try by intros (? & [=] & ?); subst.
  all: try discriminate. eauto.
Qed.

Lemma bind_unit_ok {B} (m : res unit) (k : res B) b :
  m ≫= (fun _ => k) = Ok b <-> m = Ok tt /\ k = Ok b.
Proof. destruct m as [[]| |]; cbn; split; try done; by intros [? ?]. Qed.

Lemma bind_err {A B} (m : res A) (f : A -> res B) e :
  m ≫= f = Err e <-> m = Err e \/ exists a, m = Ok a /\ f a = Err e.
Proof.
  destruct m; cbn; split; try by intros [[=]|(? & [=] & ?)]; subst.
  all: try discriminate; eauto. intros [= ->]. by left.
Qed.

Lemma fail_if_ok c e x : fail_if c e = Ok x <-> c = false.
Proof. by destruct c, x. Qed.

Lemma wrap_ok {A} fmt args (r : res A) a : wrap fmt args r = Ok a <-> r = Ok a.
Proof. by destruct r. Qed.

Lemma iterM_ok {A} (f : A -> res unit) l x :
  iterM f l = Ok x <-> Forall (fun a => f a = Ok tt) l.
Proof.
  destruct x. induction l as [|a l IH]; cbn [iterM].
  - split; [constructor|done].
  - rewrite bind_ok, Forall_cons. split.
    + intros ([] & ? & ?). by rewrite <- IH.
    + intros [? ?]. exists tt. by rewrite IH.
Qed.

Lemma no_panic_Ok {A} (a : A) : no_panic (Ok a).
Proof. done. Qed.

Lemma no_panic_Err {A} e : no_panic (@Err A e).
Proof. done. Qed.

Lemma no_panic_fail_if c e : no_panic (fail_if c e).
Proof. by destruct c. Qed.

Lemma no_panic_wrap {A} fmt args (r : res A) : no_panic r -> no_panic (wrap fmt args r).
Proof. by destruct r. Qed.

Lemma no_panic_bind {A B} (m : res A) (f : A -> res B) :
  no_panic m -> (forall a, m = Ok a -> no_panic (f a)) -> no_panic (m ≫= f).
Proof. destruct m; cbn; auto. Qed.

Lemma no_panic_iterM {A} (f : A -> res unit) l :
  (forall a, a ∈ l -> no_panic (f a)) -> no_panic (iterM f l).
Proof.
  induction l as [|a l IH]; cbn [iterM]; intros H; [done|].
  apply no_panic_bind; [apply H; left|]. intros _ _. apply IH.
  intros b ?. apply H. by right.
Qed.

(** *** Slices *)

Lemma index_ok l i b : index l i = Ok b <-> l !! i = Some b.
Proof. unfold index. by destruct (l !! i); split; intros [=]; subst. Qed.

Lemma index_lt l i : (i < length l)%nat -> exists b, index l i = Ok b /\ l !! i = Some b.
Proof. intros [b H]%lookup_lt_is_Some. exists b. by rewrite index_ok. Qed.

Lemma no_panic_index l i : (i < length l)%nat -> no_panic (index l i).
Proof. intros (b & -> & _)%index_lt. done. Qed.

Lemma slice_ok l a b s :
  slice l a b = Ok s <->
  (a <= b)%nat /\ (b <= length l)%nat /\ s = take (b - a) (drop a l).
Proof.
  unfold slice.
  destruct (Nat.leb_spec a b), (Nat.leb_spec b (length l)); cbn.
  all: split; [intros [=]; subst|intros (? & ? & ->)]; split_and?; done || lia.
Qed.

Lemma slice_length l a b s : slice l a b = Ok s -> length s = (b - a)%nat.
Proof.
  intros (? & ? & ->)%slice_ok. rewrite length_take, length_drop. lia.
Qed.

Lemma no_panic_slice l a b :
  (a <= b)%nat -> (b <= length l)%nat -> no_panic (slice l a b).
Proof.
  intros ? ?. unfold slice.
  by rewrite (proj2 (Nat.leb_le _ _)), (proj2 (Nat.leb_le _ _)).
Qed.

Lemma index_mid l1 b l2 i : i = length l1 -> index (l1 ++ b :: l2) i = Ok b.
Proof. intros ->. apply index_ok. by rewrite lookup_app_r, Nat.sub_diag by lia. Qed.

(** A slice between two prefixes of known length. *)
Lemma slice_app_mid l1 l2 l3 a b :
  a = length l1 -> b = (length l1 + length l2)%nat ->
  slice (l1 ++ l2 ++ l3) a b = Ok l2.
Proof.
  intros -> ->. apply slice_ok. rewrite !length_app.
  split_and!; [lia|lia|].
  rewrite drop_app_length.
  replace (length l1 + length l2 - length l1)%nat with (length l2) by lia.
  by rewrite take_app_length.
Qed.

(** Cutting a prefix off a sequence. *)
Lemma list_cut {A} (n : nat) (l : list A) :
  (n <= length l)%nat -> exists l1 l2, l = l1 ++ l2 /\ length l1 = n.
Proof.
  intros ?. exists (take n l), (drop n l). rewrite take_drop, length_take. split; [done|lia].
Qed.

Lemma list_cut1 {A} (l : list A) : (1 <= length l)%nat -> exists a l', l = a :: l'.
Proof. destruct l as [|a l']; cbn; [lia|]. by exists a, l'. Qed.

Lemma index_at l l1 b l2 i : l = l1 ++ b :: l2 -> i = length l1 -> index l i = Ok b.
Proof. intros ->. apply index_mid. Qed.

Lemma slice_at l l1 m l2 a b :
  l = l1 ++ m ++ l2 -> a = length l1 -> b = (length l1 + length m)%nat -> slice l a b = Ok m.
Proof. intros ->. apply slice_app_mid. Qed.

(** *** Bytes *)

Lemma wf_bytes_app l1 l2 : wf_bytes (l1 ++ l2) <-> wf_bytes l1 /\ wf_bytes l2.
Proof. apply Forall_app. Qed.

Lemma wf_bytes_lookup l i b : wf_bytes l -> l !! i = Some b -> is_byte b.
Proof. intros H Hl. by eapply Forall_lookup_1 in Hl. Qed.

Lemma wf_bytes_check l :
  forallb (fun b => (0 <=? b) && (b <? 256)) l = true -> wf_bytes l.
Proof.
  rewrite forallb_forall. intros H. apply Forall_forall. intros b Hb%list_elem_of_In.
  apply H in Hb. unfold is_byte. lia.
Qed.

Lemma length_le_bytes n v : length (le_bytes n v) = n.
Proof. revert v. induction n; cbn; auto. Qed.

Lemma wf_le_bytes n v : wf_bytes (le_bytes n v).
Proof.
  revert v. induction n; cbn; intros v; constructor; [|apply IHn].
  unfold is_byte. apply Z.mod_pos_bound. lia.
Qed.

Lemma le_value_le_bytes n v : le_value (le_bytes n v) = v mod 256 ^ Z.of_nat n.
Proof.
  revert v. induction n as [|n IH]; intros v; cbn [le_bytes le_value].
  - by rewrite Z.mod_1_r.
  - rewrite IH, Nat2Z.inj_succ, Z.pow_succ_r by lia.
    by rewrite Z.rem_mul_r by lia.
Qed.

Lemma le_value_bound l : wf_bytes l -> 0 <= le_value l < 256 ^ len l.
Proof.
  unfold len. induction 1 as [|b l Hb Hl IH]; cbn [le_value length]; [cbn; lia|].
  rewrite Nat2Z.inj_succ, Z.pow_succ_r by lia.
  unfold is_byte in Hb. lia.
Qed.

Lemma le_bytes_le_value l : wf_bytes l -> le_bytes (length l) (le_value l) = l.
Proof.
  induction 1 as [|b l Hb Hl IH]; cbn [le_bytes le_value length]; [done|].
  unfold is_byte in Hb.
  f_equal.
  - rewrite (Z.mul_comm 256), Z.mod_add by lia. by apply Z.mod_small.
  - rewrite (Z.mul_comm 256), Z.div_add by lia.
    by rewrite Z.div_small, Z.add_0_l by lia.
Qed.

Lemma le_bytes_inj n v w :
  0 <= v < 256 ^ Z.of_nat n -> 0 <= w < 256 ^ Z.of_nat n ->
  le_bytes n v = le_bytes n w -> v = w.
Proof.
  intros ?? H%(f_equal le_value). rewrite !le_value_le_bytes in H.
  by rewrite !Z.mod_small in H.
Qed.

Lemma le2_id l : wf_bytes l -> length l = 2%nat -> le_bytes 2 (le_value l) = l.
Proof. intros ? Hl. rewrite <- Hl at 1. by apply le_bytes_le_value. Qed.

Lemma u16_le_value v : 0 <= v < 2 ^ 16 -> le_value (le_bytes 2 v) = v.
Proof. intros. rewrite le_value_le_bytes. by apply Z.mod_small. Qed.

(** *** Strings *)

Lemma is_byte_of_ascii c : is_byte (byte_of_ascii c).
Proof.
  unfold is_byte, byte_of_ascii.
  pose proof (Ascii.N_ascii_bounded c). lia.
Qed.

Lemma wf_bytes_of_string s : wf_bytes (bytes_of_string s).
Proof. induction s; constructor; auto using is_byte_of_ascii. Qed.

Lemma byte_of_ascii_of_byte b : is_byte b -> byte_of_ascii (ascii_of_byte b) = b.
Proof.
  unfold is_byte, byte_of_ascii, ascii_of_byte. intros ?.
  rewrite Ascii.N_ascii_embedding; lia.
Qed.

Lemma bytes_of_string_of_bytes l : wf_bytes l -> bytes_of_string (string_of_bytes l) = l.
Proof.
  induction 1; cbn; [done|]. f_equal; [by apply byte_of_ascii_of_byte|done].
Qed.

Lemma string_of_bytes_of_string s : string_of_bytes (bytes_of_string s) = s.
Proof.
  induction s as [|c s IH]; cbn; [done|]. rewrite IH. f_equal.
  unfold ascii_of_byte, byte_of_ascii. by rewrite N2Z.id, Ascii.ascii_N_embedding.
Qed.

(** *** Machine integers *)

Lemma i64_small z : - 2 ^ 63 <= z < 2 ^ 63 -> i64 z = z.
Proof. intros ?. unfold i64. rewrite Z.mod_small; lia. Qed.

Lemma i64_range z : - 2 ^ 63 <= i64 z < 2 ^ 63.
Proof.
  unfold i64. pose proof (Z.mod_pos_bound (z + 2 ^ 63) (2 ^ 64) ltac:(lia)). lia.
Qed.

(** *** Tactics *)

#[export] Hint Resolve no_panic_Ok no_panic_Err no_panic_fail_if no_panic_wrap : go.
#[export] Hint Resolve wf_le_bytes wf_bytes_of_string is_byte_of_ascii : go.

(** Split successful monadic computations in the hypotheses into their steps. *)
Ltac res_inv :=
  repeat match goal with
  | H : _ ≫= _ = Ok _ |- _ => apply bind_ok in H as (? & ? & ?)
  | H : fail_if _ _ = Ok _ |- _ => apply fail_if_ok in H
  | H : wrap _ _ _ = Ok _ |- _ => apply wrap_ok in H
  | H : index _ _ = Ok _ |- _ => apply index_ok in H
  | H : Ok _ = Ok _ |- _ => apply (inj Ok) in H
  | H : Err _ = Ok _ |- _ => discriminate H
  | H : Panic = Ok _ |- _ => discriminate H
  | x : unit |- _ => destruct x
  end.

(** Walk through a computation whose indexing is guarded. *)
Ltac no_panic_step :=
  match goal with
  | |- no_panic (_ ≫= _) => apply no_panic_bind; [|intros ? ?; res_inv]
  | |- no_panic (iterM _ _) => apply no_panic_iterM; intros ? ?
  | |- no_panic (index _ _) => apply no_panic_index
  | |- no_panic (slice _ _ _) => apply no_panic_slice
  | |- no_panic (if ?b then _ else _) => destruct b eqn:?
  | |- no_panic (let '(_, _) := ?p in _) => destruct p eqn:?
  | |- no_panic _ => solve [auto with go]
  end.
