(* ===== verification/Format.v ===== *)
(** * Text: [fmt], [strings] and [encoding/hex]

    The rendering of errors and keys, and the string functions the server's
    metrics use.  Strings are byte sequences.  [TrimSpace] and [ToLower] are
    modelled on ASCII, which is what the program's messages are made of.
    [sprintf] renders the verbs of the program's keys, identifiers and error
    texts except [%q], which the metrics page has a definition of its own
    for. *)

From Stdlib Require Import Ascii.
From stdpp Require Import pretty.
From S2P Require Import Prelude.

(** ** [fmt.Sprintf] *)

(** [%d] of an integer, [%s] and [%v] of a string. *)
Definition show_arg (a : arg) : string :=
  match a with
  | AZ z => pretty z
  | AS s => s
  end.

Definition is_verb (c : Ascii.ascii) : bool :=
  existsb (Ascii.eqb c) ["d"%char; "s"%char; "v"%char; "w"%char].

(** The formats of the program have as many verbs as arguments. *)
Fixpoint sprintf (format : string) (args : list arg) : string :=
  match format with
  | String.EmptyString => ""
  | String.String c rest =>
      if Ascii.eqb c "%"%char then
        match rest, args with
        | String.String v rest', a :: args' =>
            if is_verb v then show_arg a +:+ sprintf rest' args'
            else String.String c (sprintf rest args)
        | _, _ => String.String c (sprintf rest args)
        end
      else String.String c (sprintf rest args)
  end.

(** [err.Error()]: the wrapped error is the last argument. *)
Fixpoint render (e : error) : string :=
  match e with
  | Errorf format args => sprintf format args
  | Wrapf format args inner => sprintf format (args ++ [AS (render inner)])
  end.

(** ** [strings] *)

Definition is_space (b : Z) : bool := (b =? 32) || ((9 <=? b) && (b <=? 13)).

Fixpoint trimLeft (l : bytes) : bytes :=
  match l with
  | [] => []
  | b :: l' => if is_space b then trimLeft l' else l
  end.

Definition TrimSpace (l : bytes) : bytes := reverse (trimLeft (reverse (trimLeft l))).

Definition lower (b : Z) : Z := if (65 <=? b) && (b <=? 90) then b + 32 else b.

Definition ToLower (l : bytes) : bytes := map lower l.

(** [ReplaceAll] of one byte by another. *)
Definition replaceByte (old new : Z) (l : bytes) : bytes := map (fun b => if b =? old then new else b) l.

(** [strings.Index] of a one-byte string; -1 if it does not occur. *)
Fixpoint IndexByte (c : Z) (l : bytes) : Z :=
  match l with
  | [] => -1
  | b :: l' => if b =? c then 0 else let i := IndexByte c l' in if i <? 0 then i else i + 1
  end.

(** [strings.Split] at a one-byte separator. *)
Fixpoint Split (c : Z) (l : bytes) : list bytes :=
  match l with
  | [] => [[]]
  | b :: l' =>
      if b =? c then [] :: Split c l' else
      match Split c l' with
      | [] => [[b]]
      | p :: ps => (b :: p) :: ps
      end
  end.

(** [strings.SplitN] at a one-byte separator into at most two pieces. *)
Fixpoint SplitN2 (c : Z) (l : bytes) : list bytes :=
  match l with
  | [] => [[]]
  | b :: l' =>
      if b =? c then [[]; l'] else
      match SplitN2 c l' with
      | [] => [[b]]
      | p :: ps => (b :: p) :: ps
      end
  end.

(** ** [encoding/hex] *)

Definition hexDigit (n : Z) : Z := if n <? 10 then 48 + n else 87 + n.

(** [hex.EncodeToString]. *)
Fixpoint EncodeToString (l : bytes) : string :=
  match l with
  | [] => ""
  | b :: l' =>
      String.String (ascii_of_byte (hexDigit (b / 16)))
        (String.String (ascii_of_byte (hexDigit (b mod 16))) (EncodeToString l'))
  end.

Definition fromHexChar (c : Z) : option Z :=
  if (48 <=? c) && (c <=? 57) then Some (c - 48)
  else if (97 <=? c) && (c <=? 102) then Some (c - 97 + 10)
  else if (65 <=? c) && (c <=? 70) then Some (c - 65 + 10)
  else None.

(** [hex.DecodeString]; [None] is its error. *)
Fixpoint DecodeString (s : string) : option bytes :=
  match s with
  | String.EmptyString => Some []
  | String.String a (String.String b s') =>
      hi ← fromHexChar (byte_of_ascii a);
      lo ← fromHexChar (byte_of_ascii b);
      rest ← DecodeString s';
      Some (Z.lor (Z.shiftl hi 4) lo :: rest)
  | _ => None
  end.

(** ** Lemmas *)

Lemma bytes_of_string_app s t : bytes_of_string (s +:+ t) = bytes_of_string s ++ bytes_of_string t.
Proof. induction s as [|c s IH]; cbn; [done|]. by rewrite <- IH. Qed.

Lemma string_of_bytes_app l k : string_of_bytes (l ++ k) = string_of_bytes l +:+ string_of_bytes k.
Proof. induction l as [|b l IH]; cbn; [done|]. by rewrite IH. Qed.

Lemma hexDigit_back n : 0 <= n < 16 ->
  is_byte (hexDigit n) /\ fromHexChar (hexDigit n) = Some n.
Proof.
  intros Hn. assert (n ∈ map Z.of_nat (seq 0 16)) as Hin.
  { rewrite <- (Z2Nat.id n) by lia. apply list_elem_of_fmap. exists (Z.to_nat n). split; [done|].
    apply elem_of_seq. lia. }
  cbn in Hin. unfold is_byte. set_unfold in Hin.
  repeat (destruct Hin as [->|Hin]; [vm_compute; intuition congruence|]). done.
Qed.

(** What was encoded decodes to itself. *)
Lemma DecodeString_EncodeToString l : wf_bytes l -> DecodeString (EncodeToString l) = Some l.
Proof.
  induction 1 as [|b l Hb _ IH]; [done|]. cbn [EncodeToString DecodeString].
  assert (0 <= b / 16 < 16) as Hhi by (unfold is_byte in Hb; split; [apply Z.div_pos|apply Z.div_lt_upper_bound]; lia).
  assert (0 <= b mod 16 < 16) as Hlo by (apply Z.mod_pos_bound; lia).
  destruct (hexDigit_back _ Hhi) as [? H1], (hexDigit_back _ Hlo) as [? H2].
  rewrite !byte_of_ascii_of_byte, H1, H2, IH by done. cbn. do 2 f_equal.
  rewrite Z.shiftl_mul_pow2 by lia. rewrite <- Z.add_nocarry_lor.
  - change (2 ^ 4) with 16. pose proof (Z.div_mod b 16). lia.
  - apply Z.bits_inj'. intros k Hk. rewrite Z.land_spec, Z.bits_0.
    destruct (Z.lt_ge_cases k 4) as [Hk4|Hk4].
    + by rewrite (Z.mul_pow2_bits_low _ 4 k) by lia.
    + change 16 with (2 ^ 4). rewrite (Z.mod_pow2_bits_high b 4 k) by lia. apply andb_false_r.
Qed.

Lemma Split_none c l : Forall (fun b => b <> c) l -> Split c l = [l].
Proof.
  induction 1 as [|b l Hb _ IH]; [done|]. cbn. rewrite (proj2 (Z.eqb_neq _ _)) by done. by rewrite IH.
Qed.

Lemma Split_app c l r : Forall (fun b => b <> c) l -> Split c (l ++ c :: r) = l :: Split c r.
Proof.
  induction 1 as [|b l Hb _ IH]; cbn; [by rewrite Z.eqb_refl|].
  rewrite (proj2 (Z.eqb_neq _ _)) by done. by rewrite IH.
Qed.

Lemma SplitN2_app c l r : Forall (fun b => b <> c) l -> SplitN2 c (l ++ c :: r) = [l; r].
Proof.
  induction 1 as [|b l Hb _ IH]; cbn; [by rewrite Z.eqb_refl|].
  rewrite (proj2 (Z.eqb_neq _ _)) by done. by rewrite IH.
Qed.

(** [l[:IndexByte(l)]] is what stands before the first occurrence. *)
Lemma IndexByte_pos c l : 0 < IndexByte c l ->
  exists pre post, l = pre ++ c :: post /\ Forall (fun b => b <> c) pre
    /\ Z.to_nat (IndexByte c l) = length pre /\ pre <> [].
Proof.
  enough (forall l, 0 <= IndexByte c l -> exists pre post, l = pre ++ c :: post
    /\ Forall (fun b => b <> c) pre /\ IndexByte c l = len pre) as Hall.
  { intros Hi. destruct (Hall l) as (pre & post & -> & Hf & Hl); [lia|]. exists pre, post.
    rewrite Hl in *. unfold len in *. split_and!; [done|done|lia|]. intros ->. cbn in *. lia. }
  clear l. induction l as [|b l IH]; cbn; intros Hi; [lia|].
  destruct (Z.eqb_spec b c) as [->|Hb]; [by exists [], l|].
  destruct (Z.ltb_spec (IndexByte c l) 0); [lia|].
  destruct IH as (pre & post & -> & Hf & Hl); [done|]. exists (b :: pre), post.
  split_and!; [done|by constructor|]. rewrite Hl. unfold len. cbn. lia.
Qed.

Lemma trimLeft_head l : match trimLeft l with [] => True | b :: _ => is_space b = false end.
Proof. induction l as [|b l IH]; cbn; [done|]. by destruct (is_space b) eqn:E. Qed.

Lemma trimLeft_suffix l : exists pre, l = pre ++ trimLeft l.
Proof.
  induction l as [|b l [pre IH]]; cbn; [by exists []|].
  destruct (is_space b); [|by exists []]. exists (b :: pre). cbn. by rewrite <- IH.
Qed.

Lemma trimLeft_snoc l b : is_space b = false -> exists l', trimLeft (l ++ [b]) = l' ++ [b].
Proof.
  intros Hb. induction l as [|a l [l' IH]]; cbn; [rewrite Hb; by exists []|].
  destruct (is_space a); [by exists l'|]. by exists (a :: l).
Qed.

(** A text that starts with something other than a space is not trimmed away. *)
Lemma TrimSpace_cons b l : is_space b = false -> exists l', TrimSpace (b :: l) = b :: l'.
Proof.
  intros Hb. unfold TrimSpace. cbn [trimLeft]. rewrite Hb, reverse_cons.
  destruct (trimLeft_snoc (reverse l) b Hb) as [l' ->]. exists (reverse l'). by rewrite reverse_snoc.
Qed.

Lemma TrimSpace_head l : match TrimSpace l with [] => True | b :: _ => is_space b = false end.
Proof.
  unfold TrimSpace. pose proof (trimLeft_head l) as Hh. destruct (trimLeft l) as [|b r]; [done|].
  rewrite reverse_cons. destruct (trimLeft_snoc (reverse r) b Hh) as [l' ->]. by rewrite reverse_snoc.
Qed.

Lemma TrimSpace_incl l b : b ∈ TrimSpace l -> b ∈ l.
Proof.
  unfold TrimSpace. rewrite elem_of_reverse. intros Hb.
  destruct (trimLeft_suffix (reverse (trimLeft l))) as [p1 H1], (trimLeft_suffix l) as [p2 H2].
  assert (b ∈ reverse (trimLeft l)) as Hr by (rewrite H1; set_solver).
  rewrite elem_of_reverse in Hr. rewrite H2. set_solver.
Qed.
