(* ===== verification/Sort.v ===== *)
(** * [sort.Slice]

    The program sorts with comparison functions that compare one field after
    another.  [sort.Slice] is not stable, so its result is determined only up to
    the order of elements that compare equal; the comparisons of this program
    end with a unique key, and then the result is determined: it does not depend
    on the order of the input. *)

From Stdlib Require Import Sorting.Sorted Structures.OrdersEx.
From stdpp Require Import sorting.
From S2P Require Import Prelude.

Section Sort.
Context {A : Type}.
Implicit Types (less : A -> A -> bool) (l : list A).

(** [not_after less a b]: [a] may stand before [b]. *)
Definition not_after less : relation A := fun a b => less b a = false.

#[global] Instance not_after_dec less : RelDecision (not_after less).
Proof. unfold not_after. solve_decision. Defined.

Definition sortSlice less l : list A := merge_sort (not_after less) l.

(** What [sort.Slice] requires of a comparison: a strict weak ordering. *)
Class WeakOrder less : Prop := {
  less_asym a b : less a b = true -> less b a = false;
  less_incomparable_trans a b c : less b a = false -> less c b = false -> less c a = false
}.

Lemma sortSlice_perm less l : sortSlice less l ≡ₚ l.
Proof. apply merge_sort_Permutation. Qed.

Lemma sortSlice_sorted less `{!WeakOrder less} l : StronglySorted (not_after less) (sortSlice less l).
Proof.
  apply StronglySorted_merge_sort.
  - intros a b c. apply less_incomparable_trans.
  - intros a b. unfold not_after. destruct (less b a) eqn:E; [right; by apply less_asym|by left].
Qed.

(** A comparison that tells any two elements apart determines the result. *)
Lemma sortSlice_unique less `{!WeakOrder less} l l' :
  l ≡ₚ l' -> (forall a b, a ∈ l -> b ∈ l -> less a b = false -> less b a = false -> a = b) ->
  StronglySorted (not_after less) l' -> sortSlice less l = l'.
Proof.
  intros Hp Heq Hs. apply (StronglySorted_unique_strong (not_after less)).
  - intros a b Ha Hb. rewrite sortSlice_perm in Ha. rewrite <- Hp in Hb. unfold not_after. intros ? ?. by apply Heq.
  - by apply sortSlice_sorted.
  - done.
  - by rewrite sortSlice_perm.
Qed.

(** The first [n] of a sorted list precede the others. *)
Lemma sorted_take_before less l n a b :
  StronglySorted (not_after less) l -> a ∈ take n l -> b ∈ drop n l -> less b a = false.
Proof.
  intros Hs Ha Hb. rewrite <- (take_drop n l) in Hs. by apply (StronglySorted_app_1_elem_of _ _ _ _ _ Hs).
Qed.

(** ** Comparing field by field *)

(** [if f a != f b { return f a > f b }; return rest]. *)
Definition byDesc (f : A -> Z) (rest : A -> A -> bool) : A -> A -> bool := fun a b =>
  if negb (f a =? f b) then f b <? f a else rest a b.

#[global] Instance byDesc_order f rest : WeakOrder rest -> WeakOrder (byDesc f rest).
Proof.
  intros [Hasym Htrans]. split; unfold byDesc.
  - intros a b. rewrite (Z.eqb_sym (f b)). destruct (Z.eqb_spec (f a) (f b)); cbn; [apply Hasym|lia].
  - intros a b c. destruct (Z.eqb_spec (f b) (f a)), (Z.eqb_spec (f c) (f b)), (Z.eqb_spec (f c) (f a)); cbn; try lia.
    apply Htrans.
Qed.

(** [f a < f b] on strings. *)
Definition byName (f : A -> string) : A -> A -> bool := fun a b => String.ltb (f a) (f b).

Lemma ltb_compare s t : String.ltb s t = true <-> String.compare s t = Lt.
Proof. unfold String.ltb. by destruct (String.compare s t). Qed.

#[global] Instance byName_order f : WeakOrder (byName f).
Proof.
  split; unfold byName.
  - intros a b Hab%ltb_compare. apply not_true_iff_false. rewrite ltb_compare, String.compare_antisym, Hab. done.
  - intros a b c. rewrite <- !not_true_iff_false, !ltb_compare. intros Hba Hcb Hca.
    destruct (String.compare (f b) (f a)) eqn:E; [|done|].
    + apply String.compare_eq_iff in E. rewrite E in Hcb. done.
    + apply Hcb. change (String_as_OT.lt (f c) (f a)) in Hca.
      assert (String_as_OT.lt (f a) (f b)) as Hab.
      { unfold String_as_OT.lt. change String_as_OT.compare with String.compare.
        rewrite String.compare_antisym, E. done. }
      pose proof (transitivity Hca Hab) as Ht. exact Ht.
Qed.

Lemma byName_total f a b : byName f a b = false -> byName f b a = false -> f a = f b.
Proof.
  unfold byName. rewrite <- !not_true_iff_false, !ltb_compare, (String.compare_antisym (f b)).
  intros H1 H2. apply String.compare_eq_iff. by destruct (String.compare (f a) (f b)).
Qed.

Lemma byDesc_total f rest a b :
  byDesc f rest a b = false -> byDesc f rest b a = false -> rest a b = false /\ rest b a = false.
Proof.
  unfold byDesc. rewrite (Z.eqb_sym (f b)). destruct (Z.eqb_spec (f a) (f b)); cbn; [done|lia].
Qed.

(** The reverse of a comparison. *)
#[global] Instance flip_order less : WeakOrder less -> WeakOrder (flip less).
Proof. intros [Hasym Htrans]. split; unfold flip; eauto. Qed.

End Sort.

#[global] Typeclasses Opaque byDesc byName.
