(* ===== verification/Crc16.v ===== *)
(** * CRC-16/MODBUS ([internal/protocol/crc16.go])

    The bitwise checksum as the code computes it, the algebra of its shift
    register (it is linear over xor and invertible), and what that gives the
    frame codec: every corruption confined to two adjacent bytes changes the
    checksum. *)

From S2P Require Import Prelude.

(** One round of the inner loop. *)
Definition crc_bit (crc : Z) : Z :=
  if Z.land crc 1 =? 0 then Z.shiftr crc 1 else Z.lxor (Z.shiftr crc 1) 0xA001.

(** The inner loop: eight rounds. *)
Definition crc_shift8 (crc : Z) : Z := Nat.iter 8 crc_bit crc.

(** One round of the outer loop: fold in a byte, then shift eight times. *)
Definition crc_byte (crc b : Z) : Z := crc_shift8 (Z.lxor crc b).

Definition CRC16Modbus (data : bytes) : Z := foldl crc_byte 0xFFFF data.

Definition is_u16 (z : Z) : Prop := 0 <= z < 2 ^ 16.

(** ** Range *)

Lemma lxor_range n a b :
  0 <= n -> 0 <= a < 2 ^ n -> 0 <= b < 2 ^ n -> 0 <= Z.lxor a b < 2 ^ n.
Proof.
  intros Hn Ha Hb. assert (0 <= Z.lxor a b) by (apply Z.lxor_nonneg; lia).
  split; [done|].
  destruct (decide (Z.lxor a b = 0)) as [->|]; [lia|].
  apply Z.log2_lt_pow2; [lia|].
  eapply Z.le_lt_trans; [apply Z.log2_lxor; lia|].
  destruct (decide (a = 0)) as [->|], (decide (b = 0)) as [->|]; [done| | |].
  all: apply Z.max_lub_lt; try (apply Z.log2_lt_pow2; lia).
  all: cbn [Z.log2]; destruct (decide (n = 0)) as [->|]; lia.
Qed.

Lemma is_byte_u16 b : is_byte b -> is_u16 b.
Proof. unfold is_byte, is_u16. lia. Qed.

Lemma shiftr1_range c : is_u16 c -> 0 <= Z.shiftr c 1 < 2 ^ 15.
Proof.
  unfold is_u16. rewrite Z.shiftr_div_pow2 by lia. change (2 ^ 1) with 2.
  intros ?. split; [apply Z.div_pos; lia|]. apply Z.div_lt_upper_bound; lia.
Qed.

Lemma crc_bit_range c : is_u16 c -> is_u16 (crc_bit c).
Proof.
  intros Hc. pose proof (shiftr1_range c Hc). unfold crc_bit.
  destruct (_ =? _); unfold is_u16 in *; [lia|].
  apply lxor_range; lia.
Qed.

Lemma crc_iter_range n c : is_u16 c -> is_u16 (Nat.iter n crc_bit c).
Proof. intros. induction n; cbn; auto using crc_bit_range. Qed.

Lemma crc_byte_range c b : is_u16 c -> is_byte b -> is_u16 (crc_byte c b).
Proof.
  intros ? ?%is_byte_u16. apply (crc_iter_range 8), (lxor_range 16); done || lia.
Qed.

Lemma crc_fold_range l c : is_u16 c -> wf_bytes l -> is_u16 (foldl crc_byte c l).
Proof.
  intros Hc Hl. revert c Hc.
  induction Hl as [|b l Hb Hl IH]; cbn; intros c Hc; [done|].
  by apply IH, crc_byte_range.
Qed.

Lemma CRC16Modbus_range l : wf_bytes l -> is_u16 (CRC16Modbus l).
Proof. apply crc_fold_range. unfold is_u16. lia. Qed.

(** ** Linearity and injectivity of the shift register *)

Lemma land1_testbit c : (Z.land c 1 =? 0) = negb (Z.testbit c 0).
Proof.
  change 1 with (Z.ones 1). rewrite Z.land_ones, Z.bit0_odd by lia.
  change (2 ^ 1) with 2. rewrite Zmod_odd. by destruct (Z.odd c).
Qed.

Lemma crc_bit_lxor a b : crc_bit (Z.lxor a b) = Z.lxor (crc_bit a) (crc_bit b).
Proof.
  unfold crc_bit. rewrite !land1_testbit, Z.lxor_spec, Z.shiftr_lxor.
  destruct (Z.testbit a 0), (Z.testbit b 0); cbn [negb xorb].
  all: apply Z.bits_inj'; intros n _; rewrite !Z.lxor_spec.
  all: by destruct (Z.testbit (Z.shiftr a 1) n), (Z.testbit (Z.shiftr b 1) n),
    (Z.testbit 0xA001 n).
Qed.

Lemma crc_iter_lxor n a b :
  Nat.iter n crc_bit (Z.lxor a b) = Z.lxor (Nat.iter n crc_bit a) (Nat.iter n crc_bit b).
Proof.
  induction n as [|n IH]; [done|]. cbn [Nat.iter nat_rect].
  unfold Nat.iter in IH. by rewrite IH, crc_bit_lxor.
Qed.

(** The bit shifted out reappears as bit 15, so a register value that maps to
    zero is zero. *)
Lemma crc_bit_zero c : is_u16 c -> crc_bit c = 0 -> c = 0.
Proof.
  intros Hc H. pose proof (shiftr1_range c Hc) as Hs.
  unfold crc_bit in H. rewrite land1_testbit, Z.bit0_odd in H.
  rewrite Z.shiftr_div_pow2 in * by lia. change (2 ^ 1) with 2 in *.
  destruct (Z.odd c) eqn:E; cbn in H.
  - apply Z.lxor_eq in H. lia.
  - pose proof (Zmod_odd c) as Hm. rewrite E in Hm. change (c mod 2 = 0) in Hm.
    change (c / 2 = 0) in H. pose proof (Z.div_mod c 2). lia.
Qed.

Lemma lxor_eq_iff a b : Z.lxor a b = 0 <-> a = b.
Proof. split; [apply Z.lxor_eq|]. intros ->. apply Z.lxor_nilpotent. Qed.

Lemma crc_iter_zero n c : is_u16 c -> Nat.iter n crc_bit c = 0 -> c = 0.
Proof.
  intros Hc. induction n as [|n IH]; cbn; [done|].
  intros ?%crc_bit_zero; [auto|]. by apply crc_iter_range.
Qed.

Lemma crc_iter_inj n a b :
  is_u16 a -> is_u16 b -> Nat.iter n crc_bit a = Nat.iter n crc_bit b -> a = b.
Proof.
  intros Ha Hb H. apply lxor_eq_iff, (crc_iter_zero n).
  - by apply (lxor_range 16).
  - rewrite crc_iter_lxor. by apply lxor_eq_iff.
Qed.

Lemma crc_shift8_lxor a b :
  crc_shift8 (Z.lxor a b) = Z.lxor (crc_shift8 a) (crc_shift8 b).
Proof. apply crc_iter_lxor. Qed.

Lemma crc_shift8_inj a b :
  is_u16 a -> is_u16 b -> crc_shift8 a = crc_shift8 b -> a = b.
Proof. apply crc_iter_inj. Qed.

Lemma crc_byte_eq c b : crc_byte c b = crc_shift8 (Z.lxor c b).
Proof. done. Qed.

#[local] Opaque crc_shift8.

Lemma lxor_cancel_l c a b : Z.lxor c a = Z.lxor c b -> a = b.
Proof.
  intros H%(f_equal (Z.lxor c)).
  by rewrite <- !Z.lxor_assoc, Z.lxor_nilpotent, !Z.lxor_0_l in H.
Qed.

Lemma lxor_cancel_r c a b : Z.lxor a c = Z.lxor b c -> a = b.
Proof. rewrite !(Z.lxor_comm _ c). apply lxor_cancel_l. Qed.

Lemma crc_byte_inj_state b c c' :
  is_byte b -> is_u16 c -> is_u16 c' -> crc_byte c b = crc_byte c' b -> c = c'.
Proof.
  rewrite !crc_byte_eq. intros ?%is_byte_u16 ?? H%crc_shift8_inj; [by eapply lxor_cancel_r| |].
  all: by apply (lxor_range 16).
Qed.

Lemma crc_fold_inj l c c' :
  wf_bytes l -> is_u16 c -> is_u16 c' ->
  foldl crc_byte c l = foldl crc_byte c' l -> c = c'.
Proof.
  intros Hl. revert c c'. induction Hl as [|b l Hb Hl IH]; cbn; [done|].
  intros c c' Hc Hc' H. eapply crc_byte_inj_state, IH; eauto using crc_byte_range.
Qed.

(** Eight shifts move every non-zero byte out of the low eight bits: the
    lookup table of the polynomial, entry by entry. *)
Lemma crc_table_high d : is_byte d -> crc_shift8 d < 256 -> d = 0.
Proof.
  assert (forallb (fun n => let d := Z.of_nat n in
    (d =? 0) || (256 <=? crc_shift8 d)) (seq 0 256) = true) as Ht
    by (vm_compute; reflexivity).
  rewrite forallb_forall in Ht. intros Hd Hlt. unfold is_byte in Hd.
  specialize (Ht (Z.to_nat d)). rewrite in_seq in Ht.
  specialize (Ht ltac:(lia)). cbn zeta in Ht. rewrite Z2Nat.id in Ht by lia.
  apply orb_true_iff in Ht as [?%Z.eqb_eq|?%Z.leb_le]; lia.
Qed.

Lemma lxor_byte_range a b : is_byte a -> is_byte b -> is_byte (Z.lxor a b).
Proof. unfold is_byte. change 256 with (2 ^ 8). by apply lxor_range. Qed.

(** Two bytes in a row: the state after them determines both. *)
Lemma crc_two_inj c a a' b b' :
  is_u16 c -> is_byte a -> is_byte a' -> is_byte b -> is_byte b' ->
  crc_byte (crc_byte c a) b = crc_byte (crc_byte c a') b' -> a = a' /\ b = b'.
Proof.
  intros Hc Ha Ha' Hb Hb' H.
  rewrite !(crc_byte_eq (crc_byte _ _)) in H. apply crc_shift8_inj in H;
    [|apply (lxor_range 16); try done; by (apply crc_byte_range || apply is_byte_u16)..].
  rewrite !crc_byte_eq in H. rewrite !crc_shift8_lxor, !Z.lxor_assoc in H.
  apply lxor_cancel_l in H.
  assert (crc_shift8 (Z.lxor a a') = Z.lxor b b') as Hd.
  { rewrite crc_shift8_lxor. apply (lxor_cancel_r (Z.lxor (crc_shift8 a') b)).
    rewrite <- (Z.lxor_assoc (Z.lxor _ _)), (Z.lxor_assoc (crc_shift8 a)).
    rewrite Z.lxor_nilpotent, Z.lxor_0_r, H, (Z.lxor_comm b b').
    rewrite (Z.lxor_comm (crc_shift8 a') b), <- Z.lxor_assoc, (Z.lxor_assoc b').
    rewrite Z.lxor_nilpotent, Z.lxor_0_r. apply Z.lxor_comm. }
  pose proof (lxor_byte_range b b' Hb Hb') as Hr. rewrite <- Hd in Hr.
  assert (a = a') as ->.
  { apply lxor_eq_iff, crc_table_high; [by apply lxor_byte_range|apply Hr]. }
  split; [done|]. by apply lxor_cancel_l in H.
Qed.

(** ** Error detection *)

Lemma crc_window_inj c w w' :
  is_u16 c -> wf_bytes w -> wf_bytes w' -> length w = length w' -> (length w <= 2)%nat ->
  foldl crc_byte c w = foldl crc_byte c w' -> w = w'.
Proof.
  intros Hc Hw Hw' Hl Hn.
  unfold wf_bytes in *.
  destruct w as [|a [|b [|]]], w' as [|a' [|b' [|]]]; cbn in *; try lia; [done| |].
  all: rewrite !Forall_cons in *; destruct_and!.
  - rewrite !crc_byte_eq. intros E%crc_shift8_inj.
    1: apply lxor_cancel_l in E; by subst.
    all: apply (lxor_range 16); first [done|by apply is_byte_u16].
  - intros []%crc_two_inj; by subst.
Qed.

(** Two messages of equal length that differ only inside a window of at
    most two adjacent bytes have different checksums, whatever surrounds the
    window. *)
Lemma CRC16Modbus_detects_window (pre w w' post : bytes) :
  wf_bytes pre -> wf_bytes w -> wf_bytes w' -> wf_bytes post ->
  length w = length w' -> (length w <= 2)%nat -> w <> w' ->
  CRC16Modbus (pre ++ w ++ post) <> CRC16Modbus (pre ++ w' ++ post).
Proof.
  intros Hpre Hw Hw' Hpost Hl Hn Hne H. apply Hne.
  unfold CRC16Modbus in H. rewrite !foldl_app in H.
  assert (is_u16 (foldl crc_byte 0xFFFF pre))
    by (apply crc_fold_range; [unfold is_u16; lia|done]).
  apply crc_fold_inj in H; eauto using crc_fold_range, crc_window_inj.
Qed.

Lemma CRC16Modbus_detects_window_witness :
  CRC16Modbus ([0x31; 0x32] ++ [0x33; 0x34] ++ [0x35])
  <> CRC16Modbus ([0x31; 0x32] ++ [0x33; 0xB4] ++ [0x35]).
Proof.
  apply (CRC16Modbus_detects_window [0x31; 0x32] [0x33; 0x34] [0x33; 0xB4] [0x35]).
  all: try (repeat constructor; unfold is_byte; lia); done || (cbn; lia).
Defined.

(** The catalogue's check value: the checksum of the ASCII digits 1 to 9. *)
Example CRC16Modbus_check_value :
  CRC16Modbus (bytes_of_string "123456789") = 0x4B37.
Proof. reflexivity. Qed.
