(* ===== verification/Messages.v ===== *)
(** * Controller messages ([internal/protocol/messages.go], [constants.go])

    The parsers of the frames a controller sends (registration, status 1,
    acknowledgement 11, firmware status 4) and the interpretation of
    acknowledgement codes.  The parsers read bytes that come from the network,
    so the first property is that no input makes them panic. *)

From S2P Require Import Prelude.

(** ** Data *)

Record Registration := mkRegistration {
  IMEI : string;
  ProtocolVersion : Z;
  HWVersion : Z;
}.

Record Status1 := mkStatus1 {
  ControllerTime : Z;
  Flags : Z;
  BufferFree1 : Z;
}.

Record Ack11 := mkAck11 {
  CommandSeq : Z;
  ExecutionCode : Z;
  AckControllerTime : Z;
  BufferFreeBytes : Z;
}.

Record FWStatus4 := mkFWStatus4 {
  FWCommandSeq : Z;
  ProgressOrErr : Z;
  FWExecutionCode : Z;
}.

Record Ack11Status := mkAck11Status {
  Status : string;
  Terminal : bool;
  Reason : string;
}.

(** ** Operations *)

Definition is_digit (b : Z) : bool := (48 <=? b) && (b <=? 57).

(** [strings.IndexFunc] over the runes of the string: every byte from 0x80 up
    belongs to a rune above ['9'] (or decodes to U+FFFD), so the test is a
    test of the bytes. *)
Definition isDigitsOnly (value : string) : bool := forallb is_digit (bytes_of_string value).

(** [for end > 0 && imeiRaw[end-1] == 0 { end-- }]. *)
Fixpoint trimZeros (imeiRaw : bytes) (end_ : nat) : res nat :=
  match end_ with
  | O => Ok O
  | S e => b ← index imeiRaw e; if b =? 0 then trimZeros imeiRaw e else Ok (S e)
  end.

Definition ParseRegistrationPayload (payload : bytes) : res Registration :=
  _ ← fail_if (len payload <? 18) (Errorf "registration payload too short: %d" [AZ (len payload)]);
  b0 ← index payload 0;
  _ ← fail_if (negb (b0 =? 1)) (Errorf "unexpected cmd id: %d" [AZ b0]);
  imeiRaw ← slice payload 1 16;
  end_ ← trimZeros imeiRaw (length imeiRaw);
  raw ← slice imeiRaw 0 end_;
  let imei := string_of_bytes raw in
  _ ← fail_if (String.eqb imei "") (Errorf "empty imei" []);
  _ ← fail_if (negb (isDigitsOnly imei)) (Errorf "invalid imei: %q" [AS imei]);
  pv ← index payload 16;
  hw ← index payload 17;
  Ok (mkRegistration imei pv hw).

Definition isKnownCommandID (cmd : Z) : bool :=
  switch cmd
    [([1; 2; 3; 4; 5; 6; 7; 8; 9; 10; 11; 12; 13; 14; 15; 16; 17; 18; 19; 20; 21; 22; 23; 24; 25; 27],
      true)]
    false.

Definition ParseStatus1Payload (payload : bytes) : res Status1 :=
  _ ← fail_if (len payload <? 9) (Errorf "status1 payload too short: %d" [AZ (len payload)]);
  b0 ← index payload 0;
  _ ← fail_if (negb (b0 =? 2)) (Errorf "unexpected cmd id: %d" [AZ b0]);
  t ← slice payload 1 5;
  f ← slice payload 5 7;
  free ← slice payload 7 9;
  Ok (mkStatus1 (le_value t) (le_value f) (le_value free)).

Definition ParseAck11Payload (payload : bytes) : res Ack11 :=
  _ ← fail_if (len payload <? 9) (Errorf "ack11 payload too short: %d" [AZ (len payload)]);
  b0 ← index payload 0;
  _ ← fail_if (negb (b0 =? 11)) (Errorf "unexpected cmd id: %d" [AZ b0]);
  seq ← index payload 1;
  code ← index payload 2;
  t ← slice payload 3 7;
  free ← slice payload 7 9;
  Ok (mkAck11 seq code (le_value t) (le_value free)).

Definition ParseFWStatus4Payload (payload : bytes) : res FWStatus4 :=
  _ ← fail_if (len payload <? 4) (Errorf "fw status payload too short: %d" [AZ (len payload)]);
  b0 ← index payload 0;
  _ ← fail_if (negb (b0 =? 4)) (Errorf "unexpected cmd id: %d" [AZ b0]);
  seq ← index payload 1;
  progress ← index payload 2;
  code ← index payload 3;
  Ok (mkFWStatus4 seq progress code).

Definition Status1ReadyForFW (flags : Z) : bool := negb (Z.land flags (Z.shiftl 1 11) =? 0).

Definition IsFWFinished (progress : Z) : bool := progress =? 248.

Definition IsFWFailed (progress : Z) : bool := (249 <=? progress) && (progress <=? 255).

Definition InterpretAck11ExecutionCode (code : Z) : Ack11Status :=
  switch code
    [([0], mkAck11Status "delivered" true "ok");
     ([1], mkAck11Status "failed" true "parameter_error");
     ([2], mkAck11Status "failed" true "execution_error");
     ([3], mkAck11Status "failed" true "invalid_result");
     ([4], mkAck11Status "failed" true "password_required");
     ([5], mkAck11Status "in_progress" false "command_started");
     ([6], mkAck11Status "expired" true "stale_command");
     ([254], mkAck11Status "failed" true "crc_error");
     ([255], mkAck11Status "unsupported" true "command_not_supported")]
    (mkAck11Status "failed" true "unknown_code").

Definition IsAckExecutionCodeAllowed (code : Z) : bool :=
  switch code [([0; 1; 2; 3; 4; 5; 6; 7; 254; 255], true)] false.

(** ** Lemmas *)

Lemma trimZeros_spec l n :
  (n <= length l)%nat ->
  exists e, trimZeros l n = Ok e /\ (e <= n)%nat
    /\ (forall i b, (e <= i < n)%nat -> l !! i = Some b -> b = 0)
    /\ (e <> O -> exists b, l !! (e - 1)%nat = Some b /\ b <> 0).
Proof.
  induction n as [|n IH]; intros Hn.
  - exists O. split_and!; [done|lia|lia|done].
  - cbn [trimZeros]. destruct (index_lt l n) as (b & -> & Hb); [lia|]. cbn.
    destruct (Z.eqb_spec b 0) as [->|Hne].
    + destruct (IH ltac:(lia)) as (e & -> & He & Hz & Hnz).
      exists e. split_and!; [done|lia| |done].
      intros i b' ? Hi. destruct (decide (i = n)) as [->|]; [congruence|].
      eapply (Hz i); [lia|done].
    + exists (S n). split_and!; [done|lia|lia|]. intros _. exists b.
      by rewrite Nat.sub_succ, Nat.sub_0_r.
Qed.

(** Trimming a zero-padded string gives back the string. *)
Lemma trimZeros_padded ds n :
  Forall (fun b => b <> 0) ds ->
  trimZeros (ds ++ replicate n 0) (length (ds ++ replicate n 0)) = Ok (length ds).
Proof.
  intros Hds. rewrite length_app, length_replicate.
  induction n as [|n IH].
  - rewrite Nat.add_0_r, app_nil_r.
    destruct ds as [|d ds _] using rev_ind; [done|].
    rewrite length_app, Nat.add_1_r. cbn [trimZeros].
    rewrite (proj2 (index_ok _ _ d)) by (by rewrite lookup_app_r, Nat.sub_diag by lia).
    apply Forall_app in Hds as [_ Hd]. rewrite Forall_singleton in Hd.
    cbn. by rewrite (proj2 (Z.eqb_neq _ _) Hd).
  - rewrite <- plus_n_Sm. cbn [trimZeros].
    rewrite (proj2 (index_ok _ _ 0)).
    + cbn. rewrite <- IH. clear IH.
      assert (forall e, (e <= length ds + n)%nat ->
        trimZeros (ds ++ replicate (S n) 0) e = trimZeros (ds ++ replicate n 0) e) as Hext.
      { induction e as [|e IH]; intros He; [done|]. cbn [trimZeros].
        assert ((ds ++ replicate (S n) 0) !! e = (ds ++ replicate n 0) !! e) as Heq.
        { rewrite replicate_S_end, app_assoc, lookup_app_l; [done|].
          rewrite length_app, length_replicate. lia. }
        unfold index. rewrite Heq, IH by lia. done. }
      by apply Hext.
    + rewrite lookup_app_r by lia. apply lookup_replicate. lia.
Qed.

Lemma is_digit_spec b : is_digit b = true <-> 48 <= b <= 57.
Proof. unfold is_digit. rewrite andb_true_iff, !Z.leb_le. done. Qed.

Lemma isDigitsOnly_string ds :
  wf_bytes ds -> isDigitsOnly (string_of_bytes ds) = forallb is_digit ds.
Proof. intros. unfold isDigitsOnly. by rewrite bytes_of_string_of_bytes. Qed.

Lemma string_of_bytes_empty ds : String.eqb (string_of_bytes ds) "" = true <-> ds = [].
Proof. by destruct ds. Qed.

Lemma ltb_len_false {A} (l : list A) n : (len l <? n) = false -> n <= len l.
Proof. apply Z.ltb_ge. Qed.

Lemma no_panic_trimZeros l n : (n <= length l)%nat -> no_panic (trimZeros l n).
Proof. intros (e & -> & _)%trimZeros_spec. done. Qed.

Lemma trimZeros_le l n e : trimZeros l n = Ok e -> (n <= length l)%nat -> (e <= n)%nat.
Proof. intros H (e' & He & ? & _)%trimZeros_spec. rewrite He in H. res_inv. by subst. Qed.

(** The guards of the parsers as facts on [nat] lengths. *)
Ltac len_facts :=
  repeat match goal with
  | H : (len _ <? _) = false |- _ => apply Z.ltb_ge in H
  | H : slice _ _ _ = Ok ?s |- _ =>
      let Hs := fresh "Hs" in pose proof (slice_length _ _ _ _ H) as Hs;
      apply slice_ok in H as (? & ? & ?)
  end; unfold len in *.

(** The bytes the registration parser accepts: the command id, an IMEI of 1 to
    15 digits padded with zeros to 15 bytes, two version bytes, and anything
    after them. *)
Definition registration_wire (ds : bytes) (pv hw : Z) (rest : bytes) : bytes :=
  1 :: (ds ++ replicate (15 - length ds) 0) ++ pv :: hw :: rest.

Lemma parse_registration_wire ds pv hw rest :
  (1 <= length ds <= 15)%nat -> Forall (fun b => 48 <= b <= 57) ds ->
  ParseRegistrationPayload (registration_wire ds pv hw rest)
  = Ok (mkRegistration (string_of_bytes ds) pv hw).
Proof.
  intros Hlen Hds. unfold ParseRegistrationPayload, registration_wire.
  set (pad := ds ++ replicate (15 - length ds) 0).
  assert (length pad = 15%nat) as Hpad
    by (unfold pad; rewrite length_app, length_replicate; lia).
  assert (wf_bytes ds) as Hwf.
  { eapply Forall_impl; [exact Hds|]. unfold is_byte. cbn. lia. }
  set (w := 1 :: pad ++ pv :: hw :: rest).
  assert ((len w <? 18) = false) as ->.
  { apply Z.ltb_ge. unfold len, w. cbn. rewrite length_app, Hpad. cbn. lia. }
  assert (slice w 1 16 = Ok pad) as Hs by (apply (slice_app_mid [1]); cbn; lia).
  assert (index w 16 = Ok pv) as H16 by (apply (index_mid (1 :: pad)); cbn; lia).
  assert (index w 17 = Ok hw) as H17.
  { unfold w. change (pv :: hw :: rest) with ([pv] ++ hw :: rest). rewrite app_assoc.
    apply (index_mid (1 :: pad ++ [pv])). cbn. rewrite length_app. cbn. lia. }
  assert (trimZeros pad (length pad) = Ok (length ds)) as Ht.
  { apply trimZeros_padded. eapply Forall_impl; [exact Hds|]. cbn. lia. }
  assert (slice pad 0 (length ds) = Ok ds) as Hd by by apply (slice_app_mid []).
  assert (String.eqb (string_of_bytes ds) "" = false) as He.
  { apply not_true_iff_false. rewrite string_of_bytes_empty. intros ->. cbn in Hlen. lia. }
  assert (isDigitsOnly (string_of_bytes ds) = true) as Hdig.
  { rewrite isDigitsOnly_string, forallb_forall by done. intros b Hb.
    apply is_digit_spec. rewrite Forall_forall in Hds. by apply Hds, list_elem_of_In. }
  change (index w 0) with (@Ok Z 1). cbn [fail_if mbind res_bind negb Z.eqb Pos.eqb].
  rewrite Hs. cbn [mbind res_bind]. rewrite Ht. cbn [mbind res_bind].
  rewrite Hd. cbn [mbind res_bind]. rewrite He, Hdig, H16, H17. done.
Qed.

(** No byte sequence received from the network makes a message parser
    panic: every index and slice is behind a sufficient length check. *)
Lemma no_panic_parsers (payload : bytes) :
  no_panic (ParseRegistrationPayload payload)
  /\ no_panic (ParseStatus1Payload payload)
  /\ no_panic (ParseAck11Payload payload)
  /\ no_panic (ParseFWStatus4Payload payload).
Proof.
  split_and!; unfold ParseRegistrationPayload, ParseStatus1Payload, ParseAck11Payload,
    ParseFWStatus4Payload.
  all: repeat (no_panic_step || (apply no_panic_trimZeros; lia)); len_facts; try lia.
  by eapply trimZeros_le.
Qed.

(** What trimming leaves behind is padding. *)
Lemma trimZeros_split l e :
  trimZeros l (length l) = Ok e -> l = take e l ++ replicate (length l - e) 0.
Proof.
  intros H. destruct (trimZeros_spec l (length l) (le_n _)) as (e' & He & Hle & Hz & _).
  rewrite He in H. res_inv. subst e'.
  rewrite <- (take_drop e l) at 1. f_equal.
  symmetry. apply replicate_as_Forall. rewrite length_drop. split; [done|].
  apply Forall_lookup_2. intros i b Hi. rewrite lookup_drop in Hi.
  symmetry. eapply (Hz (e + i)%nat); [|done]. apply lookup_lt_Some in Hi. lia.
Qed.

Lemma forallb_digits ds :
  forallb is_digit ds = true -> Forall (fun b => 48 <= b <= 57) ds.
Proof.
  rewrite forallb_forall. intros H. apply Forall_forall. intros b Hb.
  apply is_digit_spec, H. by apply list_elem_of_In.
Qed.

Lemma parse_registration_inv payload r :
  wf_bytes payload -> ParseRegistrationPayload payload = Ok r ->
  exists ds pv hw rest,
    payload = registration_wire ds pv hw rest
    /\ (1 <= length ds <= 15)%nat /\ Forall (fun b => 48 <= b <= 57) ds
    /\ r = mkRegistration (string_of_bytes ds) pv hw.
Proof.
  intros Hwf H. unfold ParseRegistrationPayload in H. res_inv.
  repeat match goal with x : _ |- _ => progress subst x end.
  len_facts.
  rename x0 into b0, x2 into raw, x3 into e, x4 into ds, x7 into pv, x8 into hw.
  assert (raw = ds ++ replicate (15 - length ds) 0) as Hraw.
  { rewrite (trimZeros_split raw e) at 1 by done. subst ds. rewrite drop_0, Nat.sub_0_r.
    rewrite length_take. f_equal. f_equal. lia. }
  assert (wf_bytes ds) as Hds.
  { subst ds raw. by repeat (apply Forall_take || apply Forall_drop). }
  exists ds, pv, hw, (drop 18 payload). split_and!.
  - unfold registration_wire. rewrite <- Hraw.
    assert (b0 = 1) by (by apply negb_false_iff, Z.eqb_eq in H1). subst b0.
    rewrite <- (drop_S payload hw 17), <- (drop_S payload pv 16) by done.
    replace (drop 16 payload) with (drop 15 (drop 1 payload)) by by rewrite drop_drop.
    subst raw. change (16 - 1)%nat with 15%nat. rewrite take_drop.
    by rewrite <- (drop_S payload 1 0).
  - destruct ds; [done|cbn; lia].
  - lia.
  - apply forallb_digits. rewrite <- isDigitsOnly_string by done. by apply negb_false_iff.
  - done.
Qed.

(** C36: the registration parser accepts exactly the registration packets (an
    IMEI of 1 to 15 digits, zero padded, and two version bytes) and returns
    their fields. *)
Theorem ParseRegistrationPayload_spec (payload : bytes) (r : Registration) :
  wf_bytes payload ->
  ParseRegistrationPayload payload = Ok r <->
  exists ds pv hw rest,
    payload = registration_wire ds pv hw rest
    /\ (1 <= length ds <= 15)%nat /\ Forall (fun b => 48 <= b <= 57) ds
    /\ r = mkRegistration (string_of_bytes ds) pv hw.
Proof.
  intros Hwf. split.
  - by apply parse_registration_inv.
  - intros (ds & pv & hw & rest & -> & Hl & Hd & ->). by apply parse_registration_wire.
Qed.

Lemma ParseRegistrationPayload_spec_witness :
  exists ds pv hw rest,
    registration_wire (bytes_of_string "860000000000001") 1 2 [] = registration_wire ds pv hw rest
    /\ (1 <= length ds <= 15)%nat /\ Forall (fun b => 48 <= b <= 57) ds
    /\ mkRegistration "860000000000001" 1 2 = mkRegistration (string_of_bytes ds) pv hw.
Proof.
  apply (ParseRegistrationPayload_spec
    (registration_wire (bytes_of_string "860000000000001") 1 2 [])
    (mkRegistration "860000000000001" 1 2)).
  - apply wf_bytes_check. reflexivity.
  - vm_compute. reflexivity.
Defined.

(** Acknowledgement codes: only code 5 keeps a command in flight, a
    delivery is reported exactly for code 0, and every code maps to one of the
    five published statuses. *)
Lemma InterpretAck11ExecutionCode_spec (code : Z) :
  let st := InterpretAck11ExecutionCode code in
  (Terminal st = false <-> code = 5)
  /\ (Status st = "delivered"%string <-> code = 0)
  /\ (Status st = "expired"%string <-> code = 6)
  /\ (Status st = "unsupported"%string <-> code = 255)
  /\ Status st ∈ ["delivered"; "failed"; "in_progress"; "expired"; "unsupported"]%string.
Proof.
  cbn zeta. unfold InterpretAck11ExecutionCode. cbn [switch existsb orb].
  repeat match goal with |- context [?c =? ?n] => destruct (Z.eqb_spec c n) end; subst.
  all: cbn [orb Terminal Status]; split_and!; try (split; intros ?; congruence || lia).
  all: set_solver.
Qed.
