(* ===== verification/Frame.v ===== *)
(** * The frame codec ([internal/protocol/frame.go])

    A frame on the wire is the marker ["SLDN"], a little-endian length, the
    data (TTL, in sequenced mode a sequence number, the payload) and the
    CRC-16 of length and data.  The reader is the byte stream a connection
    will still deliver, and the error it ends with. *)

From S2P Require Import Prelude Crc16 Messages.

(** ** Data *)

Definition ErrInvalidMarker : error := Errorf "invalid start marker" [].

Definition ErrFrameTooShort : error := Errorf "frame too short" [].

Definition ErrCRC : error := Errorf "crc mismatch" [].

Definition ErrEOF : error := Errorf "EOF" [].

Definition ErrUnexpectedEOF : error := Errorf "unexpected EOF" [].

(** ['S', 'L', 'D', 'N']. *)
Definition StartMarker : bytes := [83; 76; 68; 78].

Inductive FrameMode :=
  | FrameModeAuto
  | FrameModeSequenced
  | FrameModeCompact.

#[global] Instance FrameMode_eq_dec : EqDecision FrameMode.
Proof. solve_decision. Defined.

Record Frame := mkFrame {
  TTL : Z;
  Seq : Z;
  Payload : bytes;
  Mode : FrameMode;
}.

(** A [*bufio.Reader]: the bytes that will arrive, then the error. *)
Record Reader := mkReader {
  avail : bytes;
  readErr : error;
}.

(** ** Operations *)

Definition CommandID (f : Frame) : Z * bool :=
  match Payload f with
  | [] => (0, false)
  | b :: _ => (b, true)
  end.

Definition isCompact (m : FrameMode) : bool := bool_decide (m = FrameModeCompact).

Definition EncodeFrame (f : Frame) : res bytes :=
  _ ← fail_if (len (Payload f) =? 0) (Errorf "payload must include command id" []);
  let dataLen := 1 + len (Payload f) + (if isCompact (Mode f) then 0 else 1) in
  _ ← fail_if (0xFFFF <? dataLen) (Errorf "frame too large: %d" [AZ dataLen]);
  let buf := StartMarker ++ le_bytes 2 (u16 dataLen) ++ [TTL f]
               ++ (if isCompact (Mode f) then [] else [Seq f]) ++ Payload f in
  let crc := CRC16Modbus (drop 4 buf) in
  Ok (buf ++ le_bytes 2 crc).

(** [io.ReadFull]: all [n] bytes, or an error once the stream has ended. *)
Definition ReadFull (r : Reader) (n : nat) : res bytes * Reader :=
  if (n <=? length (avail r))%nat
  then (Ok (take n (avail r)), mkReader (drop n (avail r)) (readErr r))
  else
    let e := if decide (readErr r = ErrEOF)
             then (match avail r with [] => ErrEOF | _ => ErrUnexpectedEOF end)
             else readErr r in
    (Err e, mkReader [] (readErr r)).

Definition compactFrame (data : bytes) : res Frame :=
  ttl ← index data 0;
  payload ← slice data 1 (length data);
  Ok (mkFrame ttl 0 payload FrameModeCompact).

Definition sequencedFrame (data : bytes) : res Frame :=
  ttl ← index data 0;
  seq ← index data 1;
  payload ← slice data 2 (length data);
  Ok (mkFrame ttl seq payload FrameModeSequenced).

Definition readAutoFrame (data : bytes) : res Frame :=
  if (length data <? 2)%nat then Err ErrFrameTooShort else
  compact ← compactFrame data;
  if res_is_ok (ParseRegistrationPayload (Payload compact)) then Ok compact else
  if (length data <? 3)%nat then Ok compact else
  sequenced ← sequencedFrame data;
  if res_is_ok (ParseRegistrationPayload (Payload sequenced)) then Ok sequenced else
  let '(compactCmd, compactOK) := CommandID compact in
  let '(sequencedCmd, sequencedOK) := CommandID sequenced in
  if compactOK && negb sequencedOK then Ok compact else
  if sequencedOK && negb compactOK then Ok sequenced else
  if compactOK && negb (isKnownCommandID sequencedCmd) && isKnownCommandID compactCmd
  then Ok compact else
  if sequencedOK && negb (isKnownCommandID compactCmd) && isKnownCommandID sequencedCmd
  then Ok sequenced else
  Ok compact.

(** The [switch mode] at the end of the reader. *)
Definition frameOfData (mode : FrameMode) (data : bytes) : res Frame :=
  match mode with
  | FrameModeCompact =>
      if (length data <? 2)%nat then Err ErrFrameTooShort else compactFrame data
  | FrameModeAuto => readAutoFrame data
  | FrameModeSequenced =>
      if (length data <? 3)%nat then Err ErrFrameTooShort else sequencedFrame data
  end.

(** The part of the reader after both reads: checksum, then the frame. *)
Definition decodeBody (mode : FrameMode) (lenField dataAndCRC : bytes) (dataLen : nat) : res Frame :=
  crcField ← slice dataAndCRC dataLen (length dataAndCRC);
  data ← slice dataAndCRC 0 dataLen;
  let wireCRC := le_value crcField in
  let calcCRC := CRC16Modbus (lenField ++ data) in
  if negb (wireCRC =? calcCRC) then Err ErrCRC else frameOfData mode data.

Definition ReadFrameWithMode (r : Reader) (mode : FrameMode) : res Frame * Reader :=
  match ReadFull r 6 with
  | (Ok header, r1) =>
      if negb (bool_decide (take 4 header = StartMarker)) then (Err ErrInvalidMarker, r1) else
      let lenField := drop 4 header in
      let dataLen := Z.to_nat (le_value lenField) in
      if (dataLen <? 1)%nat then (Err ErrFrameTooShort, r1) else
      match ReadFull r1 (dataLen + 2) with
      | (Ok dataAndCRC, r2) => (decodeBody mode lenField dataAndCRC dataLen, r2)
      | (Err e, r2) => (Err e, r2)
      | (Panic, r2) => (Panic, r2)
      end
  | (Err e, r1) => (Err e, r1)
  | (Panic, r1) => (Panic, r1)
  end.

Definition ReadFrame (r : Reader) : res Frame * Reader :=
  ReadFrameWithMode r FrameModeSequenced.

(** A frame whose fields are bytes. *)
Definition wf_frame (f : Frame) : Prop :=
  is_byte (TTL f) /\ is_byte (Seq f) /\ wf_bytes (Payload f).

(** The data section: what the length field counts. *)
Definition frameData (f : Frame) : bytes :=
  TTL f :: (if isCompact (Mode f) then [] else [Seq f]) ++ Payload f.

(** A whole frame around a data section. *)
Definition wire (data : bytes) : bytes :=
  let body := le_bytes 2 (len data) ++ data in
  StartMarker ++ body ++ le_bytes 2 (CRC16Modbus body).

(** ** Lemmas *)

Lemma frameData_len f :
  len (frameData f) = 1 + len (Payload f) + (if isCompact (Mode f) then 0 else 1).
Proof. unfold frameData, len. destruct (isCompact _); cbn; lia. Qed.

Lemma EncodeFrame_ok f w :
  EncodeFrame f = Ok w <->
  Payload f <> [] /\ len (frameData f) <= 0xFFFF /\ w = wire (frameData f).
Proof.
  rewrite frameData_len. unfold EncodeFrame. cbn zeta.
  set (n := 1 + _ + _).
  assert (0 <= n) by (unfold n, len; destruct (isCompact _); lia).
  destruct (Z.eqb_spec (len (Payload f)) 0) as [He|He]; cbn [fail_if mbind res_bind].
  { split; [done|]. intros [[] _]. destruct (Payload f); [done|cbn in He; unfold len in He; cbn in He; lia]. }
  assert (Payload f <> []) by (intros Hp; by rewrite Hp in He).
  destruct (Z.ltb_spec 0xFFFF n); cbn [fail_if mbind res_bind].
  { split; [done|lia]. }
  unfold u16. rewrite (Z.mod_small n) by lia.
  unfold wire. rewrite frameData_len. fold n.
  rewrite drop_app_length' by done. unfold frameData. cbn [app].
  rewrite <- !app_assoc. cbn [app].
  split; [intros [= <-]; by split_and!|by intros (_ & _ & ->)].
Qed.

Lemma wf_wire data : wf_bytes data -> wf_bytes (wire data).
Proof.
  intros. unfold wire. rewrite !wf_bytes_app. split_and!; auto with go.
  by apply wf_bytes_check.
Qed.

Lemma ReadFull_app l rest e n :
  n = length l -> ReadFull (mkReader (l ++ rest) e) n = (Ok l, mkReader rest e).
Proof.
  intros ->. unfold ReadFull. cbn.
  rewrite (proj2 (Nat.leb_le _ _)) by (rewrite length_app; lia).
  by rewrite take_app_length, drop_app_length.
Qed.

Lemma ReadFull_inv r n l r' :
  ReadFull r n = (Ok l, r') ->
  length l = n /\ avail r = l ++ avail r' /\ readErr r' = readErr r.
Proof.
  unfold ReadFull. destruct (Nat.leb_spec n (length (avail r))); [|done].
  intros [= <- <-]. cbn. rewrite take_drop, length_take. split_and!; [lia|done|done].
Qed.

Lemma ReadFull_no_panic r n : no_panic (ReadFull r n).1.
Proof. unfold ReadFull. by destruct (_ <=? _)%nat. Qed.

Lemma decodeBody_app mode lenField data crc :
  length crc = 2%nat ->
  decodeBody mode lenField (data ++ crc) (length data) =
  if le_value crc =? CRC16Modbus (lenField ++ data) then frameOfData mode data else Err ErrCRC.
Proof.
  intros Hc. unfold decodeBody.
  assert (slice (data ++ crc) (length data) (length (data ++ crc)) = Ok crc) as ->.
  { rewrite <- (app_nil_r crc) at 1. apply slice_app_mid; [done|by rewrite length_app]. }
  cbn [mbind res_bind].
  assert (slice (data ++ crc) 0 (length data) = Ok data) as -> by by apply (slice_app_mid []).
  cbn [mbind res_bind]. by destruct (_ =? _).
Qed.

(** Reading a stream that starts with a marker, a length, that much data and
    any two checksum bytes. *)
Lemma read_raw data crc rest e mode :
  1 <= len data <= 0xFFFF -> length crc = 2%nat ->
  ReadFrameWithMode
    (mkReader (StartMarker ++ le_bytes 2 (len data) ++ data ++ crc ++ rest) e) mode =
  (if le_value crc =? CRC16Modbus (le_bytes 2 (len data) ++ data)
   then frameOfData mode data else Err ErrCRC, mkReader rest e).
Proof.
  intros Hl Hc. unfold ReadFrameWithMode.
  rewrite (app_assoc StartMarker), ReadFull_app by done.
  rewrite take_app_length', drop_app_length' by done.
  rewrite bool_decide_eq_true_2 by done. cbn [negb].
  rewrite u16_le_value by lia. unfold len in *. rewrite Nat2Z.id.
  destruct (Nat.ltb_spec (length data) 1); [lia|].
  rewrite (app_assoc data), ReadFull_app by (rewrite length_app; lia).
  by rewrite decodeBody_app.
Qed.

Lemma read_wire data rest e mode :
  wf_bytes data -> 1 <= len data <= 0xFFFF ->
  ReadFrameWithMode (mkReader (wire data ++ rest) e) mode =
  (frameOfData mode data, mkReader rest e).
Proof.
  intros Hwf Hl. unfold wire. rewrite <- !app_assoc, read_raw by (done || lia).
  rewrite u16_le_value, Z.eqb_refl; [done|].
  apply CRC16Modbus_range. rewrite wf_bytes_app. auto with go.
Qed.

Lemma wf_reader_app l1 r : wf_bytes (l1 ++ avail r) -> wf_bytes l1 /\ wf_bytes (avail r).
Proof. apply wf_bytes_app. Qed.

Lemma read_inv r mode f r' :
  wf_bytes (avail r) -> ReadFrameWithMode r mode = (Ok f, r') ->
  exists data, avail r = wire data ++ avail r' /\ readErr r' = readErr r
    /\ 1 <= len data <= 0xFFFF /\ wf_bytes data /\ frameOfData mode data = Ok f.
Proof.
  intros Hwf. unfold ReadFrameWithMode.
  destruct (ReadFull r 6) as [[h| |] r1] eqn:E1; [|done..].
  apply ReadFull_inv in E1 as (Hh & Ha & He1).
  destruct (bool_decide_reflect (take 4 h = StartMarker)) as [Hm|]; cbn [negb]; [|done].
  rewrite Ha, wf_bytes_app in Hwf. destruct Hwf as [Hwh Hw1].
  assert (wf_bytes (drop 4 h)) as Hwl by by apply Forall_drop.
  assert (length (drop 4 h) = 2%nat) as Hl2 by (rewrite length_drop; lia).
  pose proof (le_value_bound _ Hwl) as Hb. unfold len in Hb. rewrite Hl2 in Hb. cbn in Hb.
  set (n := Z.to_nat (le_value (drop 4 h))) in *.
  destruct (Nat.ltb_spec n 1); [done|].
  destruct (ReadFull r1 (n + 2)) as [[d| |] r2] eqn:E2; [|done..].
  apply ReadFull_inv in E2 as (Hd & Ha2 & He2).
  intros [= Hf <-].
  rewrite <- (take_drop n d) in Hf.
  assert (length (take n d) = n) as Hn by (rewrite length_take; lia).
  rewrite <- Hn in Hf at 3.
  rewrite decodeBody_app in Hf by (rewrite length_drop; lia).
  destruct (Z.eqb_spec (le_value (drop n d)) (CRC16Modbus (drop 4 h ++ take n d))) as [Hcrc|];
    [|done].
  rewrite Ha2, wf_bytes_app in Hw1. destruct Hw1 as [Hwd _].
  exists (take n d).
  assert (drop 4 h = le_bytes 2 (len (take n d))) as Hlen.
  { unfold len. rewrite Hn. unfold n. rewrite Z2Nat.id by lia. by rewrite le2_id. }
  split_and!; [|congruence|unfold len; lia|unfold len; lia|by apply Forall_take|done].
  unfold wire. rewrite <- Hlen, <- Hcrc, le2_id by (try apply Forall_drop; rewrite ?length_drop; done || lia).
  rewrite <- !app_assoc, <- Hm, (app_assoc (take 4 h)), take_drop.
  by rewrite (app_assoc (take n d)), take_drop, <- Ha2, <- Ha.
Qed.

Lemma compactFrame_cons t p : compactFrame (t :: p) = Ok (mkFrame t 0 p FrameModeCompact).
Proof.
  unfold compactFrame. cbn [index lookup list_lookup mbind res_bind].
  assert (slice (t :: p) 1 (length (t :: p)) = Ok p) as ->; [|done].
  rewrite <- (app_nil_r p) at 1. by apply (slice_app_mid [t]).
Qed.

Lemma sequencedFrame_cons t s p :
  sequencedFrame (t :: s :: p) = Ok (mkFrame t s p FrameModeSequenced).
Proof.
  unfold sequencedFrame. cbn [index lookup list_lookup mbind res_bind].
  assert (slice (t :: s :: p) 2 (length (t :: s :: p)) = Ok p) as ->; [|done].
  rewrite <- (app_nil_r p) at 1. by apply (slice_app_mid [t; s]).
Qed.

(** The shapes the automatic mode can return. *)
Lemma readAutoFrame_cases data :
  readAutoFrame data = Err ErrFrameTooShort /\ (length data < 2)%nat
  \/ (exists t p, data = t :: p /\ p <> []
      /\ readAutoFrame data = Ok (mkFrame t 0 p FrameModeCompact))
  \/ (exists t s p, data = t :: s :: p /\ p <> []
      /\ readAutoFrame data = Ok (mkFrame t s p FrameModeSequenced)).
Proof.
  unfold readAutoFrame. destruct data as [|t [|s p]]; [by left; split; [|cbn; lia]..|].
  cbn [length Nat.ltb Nat.leb]. right. rewrite compactFrame_cons. cbn [mbind res_bind Payload].
  destruct (res_is_ok _); [by left; exists t, (s :: p)|].
  destruct p as [|b p]; [by left; exists t, [s]|].
  cbn [length Nat.ltb Nat.leb]. rewrite sequencedFrame_cons. cbn [mbind res_bind Payload].
  destruct (res_is_ok _); [by right; exists t, s, (b :: p)|].
  cbn [CommandID Payload andb negb].
  destruct (isKnownCommandID b), (isKnownCommandID s); cbn [andb negb].
  all: first [by left; exists t, (s :: b :: p)|by right; exists t, s, (b :: p)].
Qed.

(** A decoded frame is the data section it came from, with nothing lost: its
    own data section is the one read, and its payload is not empty. *)
Lemma frameOfData_inv mode data f :
  frameOfData mode data = Ok f ->
  frameData f = data /\ Payload f <> [] /\ Mode f <> FrameModeAuto
  /\ (Mode f = FrameModeCompact -> Seq f = 0).
Proof.
  unfold frameOfData. destruct mode.
  - destruct (readAutoFrame_cases data) as [[-> _]|[(t & p & -> & Hp & ->)|(t & s & p & -> & Hp & ->)]];
      [done|intros [= <-]; by split_and!..].
  - destruct data as [|t [|s [|b p]]]; [done..|]. cbn [length Nat.ltb Nat.leb].
    rewrite sequencedFrame_cons. intros [= <-]. by split_and!.
  - destruct data as [|t [|s p]]; [done..|]. cbn [length Nat.ltb Nat.leb].
    rewrite compactFrame_cons. intros [= <-]. by split_and!.
Qed.

Lemma frameOfData_no_panic mode data : no_panic (frameOfData mode data).
Proof.
  unfold frameOfData. destruct mode.
  - destruct (readAutoFrame_cases data) as [[-> _]|[(t & p & -> & _ & ->)|(t & s & p & -> & _ & ->)]];
      done.
  - destruct data as [|t [|s [|b p]]]; [done..|]. cbn [length Nat.ltb Nat.leb].
    by rewrite sequencedFrame_cons.
  - destruct data as [|t [|s p]]; [done..|]. cbn [length Nat.ltb Nat.leb].
    by rewrite compactFrame_cons.
Qed.

Lemma wf_frameData f : wf_frame f -> wf_bytes (frameData f).
Proof.
  intros (? & ? & ?). unfold frameData. constructor; [done|].
  rewrite wf_bytes_app. split; [|done]. destruct (isCompact _); [apply Forall_nil; done|].
  by apply Forall_singleton.
Qed.

Lemma frameData_bounds f w :
  EncodeFrame f = Ok w -> 1 <= len (frameData f) <= 0xFFFF /\ w = wire (frameData f).
Proof.
  intros (Hp & Hl & ->)%EncodeFrame_ok. rewrite frameData_len in *. unfold len in *.
  split; [|done]. destruct (isCompact _); lia.
Qed.

(** ** Properties *)

(** The frame the receiver sees: the sequence number is on the wire only in
    sequenced mode. *)
Definition received (f : Frame) : Frame :=
  if isCompact (Mode f) then mkFrame (TTL f) 0 (Payload f) (Mode f) else f.

(** A frame read in its own mode. *)
Lemma frame_reads_back (f : Frame) (w rest : bytes) (e : error) :
  wf_frame f -> Mode f <> FrameModeAuto -> EncodeFrame f = Ok w ->
  ReadFrameWithMode (mkReader (w ++ rest) e) (Mode f) = (Ok (received f), mkReader rest e).
Proof.
  intros Hwf Hm Henc. pose proof Henc as (Hp & _ & _)%EncodeFrame_ok.
  apply frameData_bounds in Henc as [Hl ->].
  rewrite read_wire by auto using wf_frameData. f_equal.
  destruct f as [t s p []]; [done| |]; unfold received, frameData, frameOfData;
    cbn [TTL Seq Payload Mode] in *; (destruct p as [|b p]; [done|]).
  - change (isCompact FrameModeSequenced) with false. cbn [app length Nat.ltb Nat.leb].
    by rewrite sequencedFrame_cons.
  - change (isCompact FrameModeCompact) with true. cbn [app length Nat.ltb Nat.leb].
    by rewrite compactFrame_cons.
Qed.

(** C7: round trip: a frame that encodes is read back, field by field, by a
    reader in the frame's own mode, which consumes exactly the frame's bytes
    and leaves the rest of the stream. *)
Theorem frame_roundtrip (f : Frame) (w rest : bytes) (e : error) :
  wf_frame f -> Mode f <> FrameModeAuto -> EncodeFrame f = Ok w ->
  ReadFrameWithMode (mkReader (w ++ rest) e) (Mode f) = (Ok (received f), mkReader rest e).
Proof. by apply frame_reads_back. Qed.

Lemma frame_roundtrip_witness :
  ReadFrameWithMode
    (mkReader ([83; 76; 68; 78; 3; 0; 255; 7; 17; 146; 12] ++ [83]) ErrEOF) FrameModeSequenced
  = (Ok (mkFrame 255 7 [17] FrameModeSequenced), mkReader [83] ErrEOF).
Proof.
  apply (frame_roundtrip (mkFrame 255 7 [17] FrameModeSequenced)).
  - split_and!; [unfold is_byte; cbn; lia..|by apply wf_bytes_check].
  - done.
  - vm_compute. reflexivity.
Defined.

(** C24: the encoding is canonical: whatever mode the reader is in, a frame it
    accepts re-encodes to exactly the bytes it consumed (the server's raw
    message log, which stores the re-encoded frame, shows what was received). *)
Theorem frame_canonical (r r' : Reader) (mode : FrameMode) (f : Frame) :
  wf_bytes (avail r) -> ReadFrameWithMode r mode = (Ok f, r') ->
  exists w, EncodeFrame f = Ok w /\ avail r = w ++ avail r' /\ readErr r' = readErr r.
Proof.
  intros Hwf H. apply read_inv in H as (data & Ha & He & Hl & Hd & Hf); [|done].
  apply frameOfData_inv in Hf as (<- & Hp & _).
  exists (wire (frameData f)). split_and!; [|done..]. apply EncodeFrame_ok.
  split_and!; done || lia.
Qed.

Lemma frame_canonical_witness :
  exists w, EncodeFrame (mkFrame 255 7 [17] FrameModeSequenced) = Ok w
    /\ [83; 76; 68; 78; 3; 0; 255; 7; 17; 146; 12] = w ++ [] /\ ErrEOF = ErrEOF.
Proof.
  apply (frame_canonical (mkReader [83; 76; 68; 78; 3; 0; 255; 7; 17; 146; 12] ErrEOF)
    (mkReader [] ErrEOF) FrameModeSequenced).
  - by apply wf_bytes_check.
  - vm_compute. reflexivity.
Defined.

(** In automatic mode a compact registration is recognised as compact ... *)
Lemma auto_compact_registration t ds pv hw rest :
  (1 <= length ds <= 15)%nat -> Forall (fun b => 48 <= b <= 57) ds ->
  readAutoFrame (t :: registration_wire ds pv hw rest)
  = Ok (mkFrame t 0 (registration_wire ds pv hw rest) FrameModeCompact).
Proof.
  intros Hl Hd. unfold readAutoFrame, registration_wire at 1. cbn [length Nat.ltb Nat.leb].
  rewrite compactFrame_cons. cbn [mbind res_bind Payload].
  by rewrite parse_registration_wire.
Qed.

(** ... and a sequenced one is never mistaken for a compact one: read as
    compact, its IMEI field would start with the command id byte. *)
Lemma sequenced_not_compact_registration s ds pv hw rest :
  res_is_ok (ParseRegistrationPayload (s :: registration_wire ds pv hw rest)) = false.
Proof.
  destruct (ParseRegistrationPayload (s :: registration_wire ds pv hw rest)) as [reg| |] eqn:E; [|done..].
  exfalso. unfold ParseRegistrationPayload, registration_wire in E. res_inv.
  repeat match goal with x : _ |- _ => progress subst x end.
  match goal with Ht : trimZeros ?raw (length ?raw) = Ok ?e |- _ =>
    pose proof (trimZeros_split raw e Ht) as Hsplit;
    pose proof (trimZeros_le _ _ _ Ht (le_n _)) as Hle; rename e into e0 end.
  match goal with Hs : slice (s :: _) 1 16 = Ok _ |- _ => apply slice_ok in Hs as (_ & _ & ->) end.
  match goal with Hs : slice _ 0 _ = Ok ?d |- _ => apply slice_ok in Hs as (_ & _ & ->) end.
  cbn [drop take Nat.sub] in *. rewrite Nat.sub_0_r in *.
  destruct e0 as [|e0]; cbn in *; [done|].
  match goal with H : negb (is_digit _ && _) = false |- _ => discriminate H end.
Qed.

Lemma auto_sequenced_registration t s ds pv hw rest :
  (1 <= length ds <= 15)%nat -> Forall (fun b => 48 <= b <= 57) ds ->
  readAutoFrame (t :: s :: registration_wire ds pv hw rest)
  = Ok (mkFrame t s (registration_wire ds pv hw rest) FrameModeSequenced).
Proof.
  intros Hl Hd. unfold readAutoFrame. rewrite compactFrame_cons.
  cbn [length Nat.ltb Nat.leb mbind res_bind Payload].
  rewrite sequenced_not_compact_registration, sequencedFrame_cons.
  unfold registration_wire at 1. cbn [length Nat.ltb Nat.leb mbind res_bind Payload].
  by rewrite parse_registration_wire.
Qed.

(** A registration read in the automatic mode. *)
Lemma auto_mode_registration (f : Frame) (ds : bytes) (pv hw : Z) (w rest tail : bytes) (e : error) :
  wf_frame f -> Mode f <> FrameModeAuto ->
  Payload f = registration_wire ds pv hw rest ->
  (1 <= length ds <= 15)%nat -> Forall (fun b => 48 <= b <= 57) ds ->
  EncodeFrame f = Ok w ->
  ReadFrameWithMode (mkReader (w ++ tail) e) FrameModeAuto = (Ok (received f), mkReader tail e).
Proof.
  intros Hwf Hm Hp Hl Hd Henc. apply frameData_bounds in Henc as [Hb ->].
  rewrite read_wire by auto using wf_frameData. f_equal.
  destruct f as [t s p []]; cbn [TTL Seq Payload Mode] in *; [done|subst p..].
  - by apply auto_sequenced_registration.
  - by apply auto_compact_registration.
Qed.

(** C20: a server that does not know the controller's framing yet detects it
    from the registration: for every registration packet in either framing,
    with any sequence number, the automatic mode returns the frame that was
    sent, in the mode it was sent in. *)
Theorem auto_mode_detects_registration (f : Frame) (ds : bytes) (pv hw : Z) (w rest tail : bytes) (e : error) :
  wf_frame f -> Mode f <> FrameModeAuto ->
  Payload f = registration_wire ds pv hw rest ->
  (1 <= length ds <= 15)%nat -> Forall (fun b => 48 <= b <= 57) ds ->
  EncodeFrame f = Ok w ->
  ReadFrameWithMode (mkReader (w ++ tail) e) FrameModeAuto = (Ok (received f), mkReader tail e).
Proof. by apply auto_mode_registration. Qed.

Lemma auto_mode_detects_registration_witness :
  ReadFrameWithMode
    (mkReader (wire (255 :: 1 :: registration_wire (bytes_of_string "860000000000001") 1 1 []) ++ []) ErrEOF)
    FrameModeAuto
  = (Ok (mkFrame 255 1 (registration_wire (bytes_of_string "860000000000001") 1 1 []) FrameModeSequenced),
     mkReader [] ErrEOF).
Proof.
  apply (auto_mode_detects_registration
    (mkFrame 255 1 (registration_wire (bytes_of_string "860000000000001") 1 1 []) FrameModeSequenced)
    (bytes_of_string "860000000000001") 1 1 _ [] [] ErrEOF).
  - split_and!; [unfold is_byte; cbn; lia..|by apply wf_bytes_check].
  - done.
  - reflexivity.
  - cbn. lia.
  - by apply forallb_digits.
  - vm_compute. reflexivity.
Defined.

(** C25: a frame damaged in its data within two adjacent bytes is rejected with
    the checksum error in every mode, and the reader stands at the next frame. *)
Theorem damaged_frame_rejected (pre win win' post rest : bytes) (e : error) (mode : FrameMode) :
  wf_bytes pre -> wf_bytes win -> wf_bytes win' -> wf_bytes post ->
  length win = length win' -> (length win <= 2)%nat -> win <> win' ->
  1 <= len (pre ++ win ++ post) <= 0xFFFF ->
  let data := pre ++ win ++ post in
  let damaged := pre ++ win' ++ post in
  let crc := le_bytes 2 (CRC16Modbus (le_bytes 2 (len data) ++ data)) in
  ReadFrameWithMode
    (mkReader (StartMarker ++ le_bytes 2 (len data) ++ damaged ++ crc ++ rest) e) mode
  = (Err ErrCRC, mkReader rest e).
Proof.
  intros Hpre Hw Hw' Hpost Hl Hn Hne Hlen data damaged crc.
  assert (len data = len damaged) as Heq
    by (unfold data, damaged, len; rewrite !length_app; lia).
  fold data in Hlen. rewrite Heq, read_raw by (done || lia). unfold crc.
  assert (wf_bytes (le_bytes 2 (len data) ++ pre)) as Hwp
    by (rewrite wf_bytes_app; auto with go).
  rewrite u16_le_value.
  2:{ apply CRC16Modbus_range. unfold data. rewrite app_assoc, !wf_bytes_app.
      by rewrite wf_bytes_app in Hwp. }
  rewrite (proj2 (Z.eqb_neq _ _)); [done|]. rewrite <- Heq. unfold data at 2, damaged.
  rewrite !(app_assoc (le_bytes _ _)). intros Hcrc.
  unfold CRC16Modbus in Hcrc. rewrite !foldl_app in Hcrc.
  apply Hne. eapply crc_window_inj; [|exact Hw|exact Hw'|done|done|].
  2:{ eapply crc_fold_inj; [exact Hpost| | |exact Hcrc]. all: apply crc_fold_range; [|done].
      all: rewrite <- foldl_app; apply crc_fold_range; done || (unfold is_u16; lia). }
  rewrite <- foldl_app. apply crc_fold_range; done || (unfold is_u16; lia).
Qed.

Lemma damaged_frame_rejected_witness :
  ReadFrameWithMode
    (mkReader (StartMarker ++ [3; 0] ++ [255; 7; 18] ++ [146; 12] ++ [83]) ErrEOF)
    FrameModeSequenced
  = (Err ErrCRC, mkReader [83] ErrEOF).
Proof.
  apply (damaged_frame_rejected [255; 7] [17] [18] [] [83] ErrEOF FrameModeSequenced).
  all: try by apply wf_bytes_check.
  all: done || (unfold len; cbn; lia).
Defined.

Lemma ReadFull_errors r n e :
  (ReadFull r n).1 = Err e -> e = ErrUnexpectedEOF \/ e = readErr r.
Proof.
  unfold ReadFull. destruct (_ <=? _)%nat; [done|]. cbn. intros [= <-].
  destruct (decide (readErr r = ErrEOF)); [|by right].
  destruct (avail r); [right; congruence|by left].
Qed.

Lemma ReadFull_readErr r n : readErr (ReadFull r n).2 = readErr r.
Proof. unfold ReadFull. by destruct (_ <=? _)%nat. Qed.

Lemma frameOfData_errors mode data e : frameOfData mode data = Err e -> e = ErrFrameTooShort.
Proof.
  unfold frameOfData. destruct mode.
  - destruct (readAutoFrame_cases data) as [[-> _]|[(? & ? & _ & _ & ->)|(? & ? & ? & _ & _ & ->)]];
      by intros [=].
  - destruct data as [|? [|? [|? ?]]]; cbn [length Nat.ltb Nat.leb]; [by intros [=]..|].
    by rewrite sequencedFrame_cons.
  - destruct data as [|? [|? ?]]; cbn [length Nat.ltb Nat.leb]; [by intros [=]..|].
    by rewrite compactFrame_cons.
Qed.

Lemma decodeBody_split mode lenField d n :
  length d = (n + 2)%nat ->
  decodeBody mode lenField d n =
  if le_value (drop n d) =? CRC16Modbus (lenField ++ take n d)
  then frameOfData mode (take n d) else Err ErrCRC.
Proof.
  intros Hd. rewrite <- decodeBody_app by (rewrite length_drop; lia).
  rewrite take_drop, length_take. f_equal. lia.
Qed.

(** Reading never panics and fails only with the three frame errors or the
    error of the connection; a frame that is too short, misaligned or damaged
    is never returned. *)
Lemma ReadFrameWithMode_errors (r : Reader) (mode : FrameMode) :
  no_panic (ReadFrameWithMode r mode).1
  /\ forall err, (ReadFrameWithMode r mode).1 = Err err ->
       err ∈ [ErrInvalidMarker; ErrFrameTooShort; ErrCRC; ErrUnexpectedEOF; readErr r].
Proof.
  unfold ReadFrameWithMode. setoid_rewrite elem_of_cons. repeat setoid_rewrite elem_of_cons.
  pose proof (ReadFull_errors r 6) as He. pose proof (ReadFull_no_panic r 6) as Hp.
  pose proof (ReadFull_readErr r 6) as Hr.
  destruct (ReadFull r 6) as [[h|e|] r1]; cbn [fst snd] in *; [|split; [done|]|done].
  2: by intros ? [= ->]; destruct (He _ eq_refl); tauto.
  destruct (negb _); [split; [done|]; intros ? [= <-]; tauto|].
  destruct (_ <? _)%nat; [split; [done|]; intros ? [= <-]; tauto|].
  set (n := Z.to_nat _).
  pose proof (ReadFull_errors r1 (n + 2)) as He2. pose proof (ReadFull_no_panic r1 (n + 2)) as Hp2.
  destruct (ReadFull r1 (n + 2)) as [[d|e|] r2] eqn:E2; cbn [fst snd] in *; [|split; [done|]|done].
  2: by intros ? [= ->]; destruct (He2 _ eq_refl); subst; rewrite ?Hr; tauto.
  apply ReadFull_inv in E2 as (Hd & _ & _).
  rewrite decodeBody_split by done.
  destruct (_ =? _); [|split; [done|]; intros ? [= <-]; tauto].
  split; [apply frameOfData_no_panic|]. intros err ->%frameOfData_errors. tauto.
Qed.
