(* ===== verification/Validation.v ===== *)
(** * Validation of server commands ([internal/protocol/server_payload_validation.go],
      [cmd12.go] to [cmd15.go])

    One definition per case of [ValidateServerCommandPayload], with the
    record-level checks of the synchronisation commands and their byte
    offsets.  [valid_payload] describes, command by command, the payloads the
    protocol allows as layouts of fields; the validator accepts exactly
    those. *)

From S2P Require Import Prelude Messages.

(** ** Offsets and record sizes *)

Definition Cmd12RecordSize : nat := 608.
Definition cmd12OffPinCode : nat := 0.
Definition cmd12OffServer1 : nat := 4.
Definition cmd12OffServer2 : nat := 36.
Definition cmd12OffNTPServer : nat := 68.
Definition cmd12OffOperator : nat := 100.
Definition cmd12OffNetworkType : nat := 132.
Definition cmd12OffCountryCode : nat := 133.
Definition cmd12OffSimPhone : nat := 141.
Definition cmd12OffUSSD : nat := 157.
Definition cmd12OffAutoReboot : nat := 165.
Definition cmd12OffSettingsByte : nat := 166.
Definition cmd12OffWiegandType : nat := 174.
Definition cmd12OffPeripheral : nat := 175.
Definition cmd12OffRelay1 : nat := 191.
Definition cmd12OffRelay2 : nat := 202.
Definition cmd12OffInput1 : nat := 213.
Definition cmd12OffInput2 : nat := 214.
Definition cmd12OffReserveA : nat := 215.
Definition cmd12OffReserveB : nat := 507.

Definition Cmd13RecordSize : nat := 32.
Definition cmd13OffSlot : nat := 0.
Definition cmd13OffID : nat := 2.
Definition cmd13OffGroup : nat := 12.
Definition cmd13OffBanDate : nat := 13.
Definition cmd13OffLifetime : nat := 17.
Definition cmd13OffIDType : nat := 19.
Definition cmd13OffReserve : nat := 20.

Definition Cmd14RecordSize : nat := 32.
Definition cmd14OffSlot : nat := 0.
Definition cmd14OffStartHour : nat := 1.
Definition cmd14OffStartMinute : nat := 2.
Definition cmd14OffEndHour : nat := 3.
Definition cmd14OffEndMinute : nat := 4.
Definition cmd14OffFlags : nat := 5.
Definition cmd14OffScenes : nat := 13.
Definition cmd14OffHolidayLogic : nat := 21.
Definition cmd14OffReserve : nat := 22.

Definition Cmd15RecordSize : nat := 16.
Definition cmd15OffSlot : nat := 0.
Definition cmd15OffSchedule : nat := 1.
Definition cmd15OffPermFlags : nat := 2.
Definition cmd15OffReserve : nat := 10.

(** ** Helpers *)

Definition IsCmd12NetworkTypeValid (v : Z) : bool := v <=? 4.

Definition IsCmd13IDTypeValid (v : Z) : bool := v <=? 7.

Definition isBoolByte (v : Z) : bool := (v =? 0) || (v =? 1).

Fixpoint paddedASCIILoop (field : bytes) (i : nat) (seenZero : bool) : res unit :=
  match field with
  | [] => Ok tt
  | b :: field' =>
      if b =? 0 then paddedASCIILoop field' (S i) true else
      if seenZero
      then Err (Errorf "non-zero byte after zero padding at index %d" [AZ (Z.of_nat i)]) else
      if 127 <? b then Err (Errorf "non-ascii byte at index %d" [AZ (Z.of_nat i)]) else
      paddedASCIILoop field' (S i) seenZero
  end.

Definition validatePaddedASCII (field : bytes) : res unit := paddedASCIILoop field 0 false.

Definition FWBlockCountForSize (fileSize : Z) : Z :=
  if fileSize =? 0 then 0 else
  let blocks := u32 (u32 (fileSize + 1024) - 1) / 1024 in
  if 0xFFFF <? blocks then 0xFFFF else u16 blocks.

(** [for i := a; i < b; i++ { if bad(l[i]) { return err } }]. *)
Definition checkEach (l : bytes) (a b : nat) (bad : Z -> bool) (err : Z -> Z -> error) : res unit :=
  iterM (fun i => v ← index l i; fail_if (bad v) (err (Z.of_nat i) v)) (seq a (b - a)).

(** The record loop: slice a record at [off], check it, advance. *)
Fixpoint recordLoop (check : Z -> bytes -> res unit) (size : nat) (payload : bytes)
    (n i off : nat) : res unit :=
  match n with
  | O => Ok tt
  | S n' =>
      rec ← slice payload off (off + size);
      _ ← check (Z.of_nat i) rec;
      recordLoop check size payload n' (S i) (off + size)
  end.

Definition lenIs (n : Z) (format : string) (payload : bytes) : res unit :=
  fail_if (negb (len payload =? n)) (Errorf format [AZ (len payload)]).

(** ** One definition per command *)

Definition validateCmd1 (payload : bytes) : res unit :=
  _ ← lenIs 5 "cmd 1: payload must be 5 bytes, got=%d" payload;
  b0 ← index payload 0;
  fail_if (5 <? b0) (Errorf "cmd 1: execution code out of range: %d" [AZ b0]).

Definition validateCmd2 (payload : bytes) : res unit :=
  lenIs 1 "cmd 2: payload must be 1 byte, got=%d" payload.

Definition validateCmd3 (payload : bytes) : res unit :=
  lenIs 1 "cmd 3: payload must be 1 byte, got=%d" payload.

Definition validateCmd5 (payload : bytes) : res unit :=
  _ ← lenIs 16 "cmd 5: payload must be 16 bytes, got=%d" payload;
  _ ← checkEach payload 0 8 (fun v => negb (isBoolByte v))
        (fun i _ => Errorf "cmd 5: flag %d must be 0 or 1" [AZ i]);
  checkEach payload 8 16 (fun v => negb (v =? 0))
    (fun i _ => Errorf "cmd 5: reserved byte %d must be 0" [AZ i]).

Definition validateCmd6 (payload : bytes) : res unit :=
  _ ← lenIs 3 "cmd 6: payload must be 3 bytes, got=%d" payload;
  b1 ← index payload 1;
  _ ← fail_if (3 <? b1) (Errorf "cmd 6: interface out of range: %d" [AZ b1]);
  b2 ← index payload 2;
  if b1 =? 3
  then fail_if (b2 =? 0) (Errorf "cmd 6: network address must be 1..255 for interface 485" [])
  else fail_if (negb (b2 =? 0)) (Errorf "cmd 6: network address must be 0 for non-485 interface" []).

Definition validateCmd7 (payload : bytes) : res unit :=
  _ ← lenIs 1 "cmd 7: payload must be 1 byte, got=%d" payload;
  b0 ← index payload 0;
  fail_if (b0 =? 0) (Errorf "cmd 7: camera address 0 is reserved" []).

Definition validateCmd8 (payload : bytes) : res unit :=
  _ ← lenIs 3 "cmd 8: payload must be 3 bytes, got=%d" payload;
  b0 ← index payload 0;
  _ ← fail_if (b0 =? 0) (Errorf "cmd 8: source id 0 is reserved" []);
  b1 ← index payload 1;
  b2 ← index payload 2;
  fail_if ((1 <? b1) || (1 <? b2)) (Errorf "cmd 8: output states must be 0 or 1" []).

(** Commands 9, 10, 17, 21 and 22. *)
Definition validateEmpty (format : string) (payload : bytes) : res unit :=
  fail_if (negb (len payload =? 0)) (Errorf format []).

Definition validateCmd11 (payload : bytes) : res unit :=
  _ ← lenIs 60 "cmd 11: payload must be 60 bytes, got=%d" payload;
  phone ← slice payload 0 10;
  checkEach phone 0 (length phone) (fun v => (v <? 48) || (57 <? v))
    (fun _ _ => Errorf "cmd 11: phone must contain only digits" []).

(** The relay loop of command 12 checks both relays in each round. *)
Definition checkRelays (rec : bytes) : res unit :=
  iterM (fun i =>
    r1 ← index rec (cmd12OffRelay1 + i);
    _ ← fail_if (1 <? r1) (Errorf "cmd 12: relay1 flag %d must be 0 or 1" [AZ (Z.of_nat i)]);
    r2 ← index rec (cmd12OffRelay2 + i);
    fail_if (1 <? r2) (Errorf "cmd 12: relay2 flag %d must be 0 or 1" [AZ (Z.of_nat i)])) (seq 0 8).

Definition checkCmd12Record (rec : bytes) : res unit :=
  net ← index rec cmd12OffNetworkType;
  _ ← fail_if (negb (IsCmd12NetworkTypeValid net))
        (Errorf "cmd 12: network type out of range: %d" [AZ net]);
  reboot ← index rec cmd12OffAutoReboot;
  _ ← fail_if (23 <? reboot) (Errorf "cmd 12: auto reboot hour out of range: %d" [AZ reboot]);
  f0 ← index rec cmd12OffSettingsByte;
  f1 ← index rec (cmd12OffSettingsByte + 1);
  f2 ← index rec (cmd12OffSettingsByte + 2);
  f3 ← index rec (cmd12OffSettingsByte + 3);
  _ ← fail_if ((1 <? f0) || (1 <? f1) || (1 <? f2) || (1 <? f3))
        (Errorf "cmd 12: boolean settings flags must be 0 or 1" []);
  checkRelays rec.

Definition validateCmd12 (payload : bytes) : res unit :=
  _ ← fail_if (len payload <? 5) (Errorf "cmd 12: payload too short: %d" [AZ (len payload)]);
  count ← index payload 4;
  _ ← fail_if ((count <? 1) || (1 <? count)) (Errorf "cmd 12: count must be 1" []);
  let expected := 5 + count * Z.of_nat Cmd12RecordSize in
  _ ← fail_if (negb (len payload =? expected))
        (Errorf "cmd 12: invalid payload size: got=%d want=%d" [AZ (len payload); AZ expected]);
  rec ← slice payload 5 (5 + Cmd12RecordSize);
  checkCmd12Record rec.

Definition checkCmd13Record (i : Z) (rec : bytes) : res unit :=
  slotRaw ← slice rec cmd13OffSlot (cmd13OffSlot + 2);
  let slot := le_value slotRaw in
  _ ← fail_if ((slot =? 0) || (50000 <? slot))
        (Errorf "cmd 13: record %d slot out of range: %d" [AZ i; AZ slot]);
  id ← slice rec cmd13OffID (cmd13OffID + 10);
  _ ← wrap "cmd 13: record %d id: %v" [AZ i] (validatePaddedASCII id);
  group ← index rec cmd13OffGroup;
  _ ← fail_if (64 <? group) (Errorf "cmd 13: record %d group out of range: %d" [AZ i; AZ group]);
  idType ← index rec cmd13OffIDType;
  fail_if (negb (IsCmd13IDTypeValid idType))
    (Errorf "cmd 13: record %d id type out of range: %d" [AZ i; AZ idType]).

(** The frame shared by commands 13 to 16: a timestamp, a count in [1..max],
    and [count] records of [size] bytes. *)
Definition validateRecords (name : string) (max size : Z) (payload : bytes)
    (loop : nat -> res unit) : res unit :=
  _ ← fail_if (len payload <? 5) (Errorf (name +:+ ": payload too short: %d") [AZ (len payload)]);
  count ← index payload 4;
  _ ← fail_if ((count <? 1) || (max <? count))
        (Errorf (name +:+ ": count out of range: %d") [AZ count]);
  let expected := 5 + count * size in
  _ ← fail_if (negb (len payload =? expected))
        (Errorf (name +:+ ": invalid payload size: got=%d want=%d") [AZ (len payload); AZ expected]);
  loop (Z.to_nat count).

Definition validateCmd13 (payload : bytes) : res unit :=
  validateRecords "cmd 13" 250 (Z.of_nat Cmd13RecordSize) payload
    (fun n => recordLoop checkCmd13Record Cmd13RecordSize payload n 0 5).

Definition checkCmd14Record (i : Z) (rec : bytes) : res unit :=
  slot ← index rec cmd14OffSlot;
  _ ← fail_if ((slot <? 1) || (64 <? slot))
        (Errorf "cmd 14: record %d slot out of range: %d" [AZ i; AZ slot]);
  sh ← index rec cmd14OffStartHour;
  eh ← index rec cmd14OffEndHour;
  _ ← fail_if ((23 <? sh) || (23 <? eh)) (Errorf "cmd 14: record %d hour out of range" [AZ i]);
  sm ← index rec cmd14OffStartMinute;
  em ← index rec cmd14OffEndMinute;
  _ ← fail_if ((59 <? sm) || (59 <? em)) (Errorf "cmd 14: record %d minute out of range" [AZ i]);
  _ ← checkEach rec cmd14OffFlags (cmd14OffFlags + 8) (fun v => negb (isBoolByte v))
        (fun f _ => Errorf "cmd 14: record %d flag %d must be 0 or 1"
                    [AZ i; AZ (f - Z.of_nat cmd14OffFlags)]);
  _ ← checkEach rec cmd14OffScenes (cmd14OffScenes + 8) (fun v => 64 <? v)
        (fun s scene => Errorf "cmd 14: record %d scene %d out of range: %d"
                          [AZ i; AZ (s - Z.of_nat cmd14OffScenes); AZ scene]);
  hl ← index rec cmd14OffHolidayLogic;
  fail_if (3 <? hl) (Errorf "cmd 14: record %d holiday logic out of range: %d" [AZ i; AZ hl]).

Definition validateCmd14 (payload : bytes) : res unit :=
  validateRecords "cmd 14" 64 (Z.of_nat Cmd14RecordSize) payload
    (fun n => recordLoop checkCmd14Record Cmd14RecordSize payload n 0 5).

Definition checkCmd15Record (i : Z) (rec : bytes) : res unit :=
  slot ← index rec cmd15OffSlot;
  _ ← fail_if ((slot <? 1) || (64 <? slot))
        (Errorf "cmd 15: record %d slot out of range: %d" [AZ i; AZ slot]);
  sched ← index rec cmd15OffSchedule;
  _ ← fail_if (64 <? sched) (Errorf "cmd 15: record %d schedule out of range: %d" [AZ i; AZ sched]);
  checkEach rec cmd15OffPermFlags (cmd15OffPermFlags + 8) (fun v => negb (isBoolByte v))
    (fun f _ => Errorf "cmd 15: record %d permission flag %d must be 0 or 1"
                [AZ i; AZ (f - Z.of_nat cmd15OffPermFlags)]).

Definition validateCmd15 (payload : bytes) : res unit :=
  validateRecords "cmd 15" 64 (Z.of_nat Cmd15RecordSize) payload
    (fun n => recordLoop checkCmd15Record Cmd15RecordSize payload n 0 5).

Definition validateCmd16 (payload : bytes) : res unit :=
  validateRecords "cmd 16" 255 4 payload (fun _ => Ok tt).

Definition validateCmd18 (payload : bytes) : res unit :=
  _ ← fail_if (negb (len payload =? 1)) (Errorf "cmd 18: payload must be 1 byte" []);
  block ← index payload 0;
  fail_if (100 <? block) (Errorf "cmd 18: block out of range: %d" [AZ block]).

Definition validateCmd19 (payload : bytes) : res unit :=
  _ ← lenIs 16 "cmd 19: payload must be 16 bytes, got=%d" payload;
  fwRaw ← slice payload 0 2;
  _ ← fail_if (le_value fwRaw =? 0) (Errorf "cmd 19: fw number cannot be 0" []);
  sizeRaw ← slice payload 6 10;
  let fileSize := le_value sizeRaw in
  _ ← fail_if (fileSize =? 0) (Errorf "cmd 19: file size cannot be 0" []);
  crcRaw ← slice payload 10 14;
  _ ← fail_if (le_value crcRaw =? 0) (Errorf "cmd 19: file crc cannot be 0" []);
  blocksRaw ← slice payload 14 16;
  let blocks := le_value blocksRaw in
  _ ← fail_if (blocks =? 0) (Errorf "cmd 19: blocks cannot be 0" []);
  fail_if (negb (blocks =? FWBlockCountForSize fileSize))
    (Errorf "cmd 19: blocks mismatch: got=%d want=%d" [AZ blocks; AZ (FWBlockCountForSize fileSize)]).

Definition validateCmd20 (payload : bytes) : res unit :=
  lenIs 1026 "cmd 20: payload must be 1026 bytes, got=%d" payload.

Definition validateCmd23 (payload : bytes) : res unit :=
  lenIs 4 "cmd 23: payload must be 4 bytes, got=%d" payload.

Definition validateCmd24 (payload : bytes) : res unit :=
  _ ← fail_if (negb (len payload =? 2)) (Errorf "cmd 24: payload must be 2 bytes" []);
  code ← index payload 1;
  fail_if (negb (IsAckExecutionCodeAllowed code)) (Errorf "cmd 24: invalid execution code: %d" [AZ code]).

Definition validateCmd25 (payload : bytes) : res unit :=
  _ ← lenIs 281 "cmd 25: payload must be 281 bytes, got=%d" payload;
  b0 ← index payload 0;
  fail_if (3 <? b0) (Errorf "cmd 25: error code out of range: %d" [AZ b0]).

Definition validateCmd27 (payload : bytes) : res unit :=
  _ ← fail_if (len payload <? 3) (Errorf "cmd 27: payload too short: %d" [AZ (len payload)]);
  sizeRaw ← slice payload 1 3;
  let size := le_value sizeRaw in
  rest ← slice payload 3 (length payload);
  fail_if (negb (len rest =? size))
    (Errorf "cmd 27: arg size mismatch: got=%d want=%d" [AZ (len rest); AZ size]).

Definition ValidateServerCommandPayload (commandID : Z) (payload : bytes) : res unit :=
  switch commandID
    [([1], validateCmd1 payload);
     ([2], validateCmd2 payload);
     ([3], validateCmd3 payload);
     ([5], validateCmd5 payload);
     ([6], validateCmd6 payload);
     ([7], validateCmd7 payload);
     ([8], validateCmd8 payload);
     ([9], validateEmpty "cmd 9: payload must be empty" payload);
     ([10], validateEmpty "cmd 10: payload must be empty" payload);
     ([11], validateCmd11 payload);
     ([12], validateCmd12 payload);
     ([13], validateCmd13 payload);
     ([14], validateCmd14 payload);
     ([15], validateCmd15 payload);
     ([16], validateCmd16 payload);
     ([17], validateEmpty "cmd 17: payload must be empty" payload);
     ([18], validateCmd18 payload);
     ([19], validateCmd19 payload);
     ([20], validateCmd20 payload);
     ([21], validateEmpty "cmd 21: payload must be empty" payload);
     ([22], validateEmpty "cmd 22: payload must be empty" payload);
     ([23], validateCmd23 payload);
     ([24], validateCmd24 payload);
     ([25], validateCmd25 payload);
     ([27], validateCmd27 payload)]
    (Ok tt).

(** ** The allowed payloads, as layouts *)

Definition flag_bytes (n : nat) (l : bytes) : Prop :=
  length l = n /\ Forall (fun b => b = 0 \/ b = 1) l.

Definition cmd13_layout (rec : bytes) : Prop :=
  exists slot id group ban life idType reserve,
    rec = le_bytes 2 slot ++ (id ++ replicate (10 - length id) 0) ++ [group]
            ++ ban ++ life ++ [idType] ++ reserve
    /\ 1 <= slot <= 50000 /\ (length id <= 10)%nat /\ Forall (fun b => 1 <= b <= 127) id
    /\ 0 <= group <= 64 /\ length ban = 4%nat /\ length life = 2%nat
    /\ 0 <= idType <= 7 /\ length reserve = 12%nat.

Definition cmd14_layout (rec : bytes) : Prop :=
  exists slot sh sm eh em flags scenes hl reserve,
    rec = [slot; sh; sm; eh; em] ++ flags ++ scenes ++ [hl] ++ reserve
    /\ 1 <= slot <= 64 /\ 0 <= sh <= 23 /\ 0 <= eh <= 23 /\ 0 <= sm <= 59 /\ 0 <= em <= 59
    /\ flag_bytes 8 flags /\ length scenes = 8%nat /\ Forall (fun b => 0 <= b <= 64) scenes
    /\ 0 <= hl <= 3 /\ length reserve = 10%nat.

Definition cmd15_layout (rec : bytes) : Prop :=
  exists slot sched perms reserve,
    rec = [slot; sched] ++ perms ++ reserve
    /\ 1 <= slot <= 64 /\ 0 <= sched <= 64 /\ flag_bytes 8 perms /\ length reserve = 6%nat.

(** A settings record: 608 bytes, with the constrained fields in range. *)
Definition cmd12_layout (rec : bytes) : Prop :=
  length rec = Cmd12RecordSize
  /\ (exists net, rec !! cmd12OffNetworkType = Some net /\ 0 <= net <= 4)
  /\ (exists hour, rec !! cmd12OffAutoReboot = Some hour /\ 0 <= hour <= 23)
  /\ flag_bytes 4 (take 4 (drop cmd12OffSettingsByte rec))
  /\ flag_bytes 8 (take 8 (drop cmd12OffRelay1 rec))
  /\ flag_bytes 8 (take 8 (drop cmd12OffRelay2 rec)).

(** A synchronisation payload: timestamp, record count, records. *)
Definition sync_layout (max : nat) (rec_ok : bytes -> Prop) (p : bytes) : Prop :=
  exists ts recs, p = ts ++ [len recs] ++ concat recs
    /\ length ts = 4%nat /\ (1 <= length recs <= max)%nat /\ Forall rec_ok recs.

Definition cmd19_layout (p : bytes) : Prop :=
  exists fw build size crc blocks,
    p = le_bytes 2 fw ++ build ++ le_bytes 4 size ++ le_bytes 4 crc ++ le_bytes 2 blocks
    /\ 1 <= fw < 2 ^ 16 /\ length build = 4%nat /\ 1 <= size < 2 ^ 32 /\ 1 <= crc < 2 ^ 32
    /\ 1 <= blocks < 2 ^ 16 /\ blocks = FWBlockCountForSize size.

Definition valid_payload (commandID : Z) (p : bytes) : Prop :=
  switch commandID
    [([1], exists code t, p = code :: t /\ 0 <= code <= 5 /\ length t = 4%nat);
     ([2], length p = 1%nat);
     ([3], length p = 1%nat);
     ([5], exists flags, p = flags ++ replicate 8 0 /\ flag_bytes 8 flags);
     ([6], exists t i a, p = [t; i; a] /\ 0 <= i <= 3 /\ (i = 3 <-> a <> 0));
     ([7], exists a, p = [a] /\ a <> 0);
     ([8], exists s o1 o2, p = [s; o1; o2] /\ s <> 0 /\ flag_bytes 2 [o1; o2]);
     ([9], p = []);
     ([10], p = []);
     ([11], exists phone msg, p = phone ++ msg /\ length phone = 10%nat
              /\ Forall (fun b => 48 <= b <= 57) phone /\ length msg = 50%nat);
     ([12], sync_layout 1 cmd12_layout p);
     ([13], sync_layout 250 cmd13_layout p);
     ([14], sync_layout 64 cmd14_layout p);
     ([15], sync_layout 64 cmd15_layout p);
     ([16], sync_layout 255 (fun day => length day = 4%nat) p);
     ([17], p = []);
     ([18], exists block, p = [block] /\ 0 <= block <= 100);
     ([19], cmd19_layout p);
     ([20], length p = 1026%nat);
     ([21], p = []);
     ([22], p = []);
     ([23], length p = 4%nat);
     ([24], exists seq code, p = [seq; code] /\ code ∈ [0; 1; 2; 3; 4; 5; 6; 7; 254; 255]);
     ([25], exists code tail, p = code :: tail /\ 0 <= code <= 3 /\ length tail = 280%nat);
     ([27], exists cmd arg, p = cmd :: le_bytes 2 (len arg) ++ arg /\ len arg < 2 ^ 16)]
    True.

(** ** Lemmas: loops *)

Lemma checkEach_ok l a b bad err x :
  (a <= b)%nat -> (b <= length l)%nat ->
  checkEach l a b bad err = Ok x <-> Forall (fun v => bad v = false) (take (b - a) (drop a l)).
Proof.
  intros Hab Hb. unfold checkEach. rewrite iterM_ok, !Forall_lookup.
  assert (forall i, seq a (b - a) !! i = if (i <? b - a)%nat then Some (a + i)%nat else None) as Hseq.
  { intros i. destruct (Nat.ltb_spec i (b - a)); [by apply lookup_seq_lt|by apply lookup_seq_ge]. }
  split; intros H i v Hi.
  - apply lookup_take_Some in Hi as [Hi Hlt]. rewrite lookup_drop in Hi.
    specialize (H i (a + i)%nat). rewrite Hseq, (proj2 (Nat.ltb_lt _ _)) in H by done.
    specialize (H eq_refl). rewrite (proj2 (index_ok _ _ v)) in H by done. by apply fail_if_ok in H.
  - rewrite Hseq in Hi. destruct (Nat.ltb_spec i (b - a)) as [Hlt|]; [|done].
    injection Hi as <-. destruct (index_lt l (a + i)) as (w & -> & Hw); [lia|].
    cbn. rewrite (H i); [done|]. apply lookup_take_Some. by rewrite lookup_drop.
Qed.

Lemma no_panic_checkEach l a b bad err :
  (b <= length l)%nat -> no_panic (checkEach l a b bad err).
Proof.
  intros ?. unfold checkEach. apply no_panic_iterM. intros i Hi%elem_of_seq.
  repeat no_panic_step. lia.
Qed.

Lemma no_panic_paddedASCII field i z : no_panic (paddedASCIILoop field i z).
Proof. revert i z. induction field; cbn; intros; repeat case_match; done. Qed.

Lemma no_panic_recordLoop check size payload n i off :
  (off + n * size <= length payload)%nat ->
  (forall j rec, length rec = size -> no_panic (check j rec)) ->
  no_panic (recordLoop check size payload n i off).
Proof.
  revert i off. induction n as [|n IH]; cbn [recordLoop]; intros i off Hl Hc; [done|].
  apply no_panic_bind; [apply no_panic_slice; lia|]. intros rec Hrec%slice_length.
  apply no_panic_bind; [apply Hc; lia|]. intros _ _. apply IH; [lia|done].
Qed.

(** The record loop over a payload that is a header and records of the right
    size: it succeeds when every record passes its check. *)
Lemma recordLoop_ok check size pre recs i x :
  Forall (fun r => length r = size) recs ->
  recordLoop check size (pre ++ concat recs) (length recs) i (length pre) = Ok x <->
  forall k r, recs !! k = Some r -> check (Z.of_nat (i + k)) r = Ok tt.
Proof.
  intros Hs. destruct x. revert pre i. induction Hs as [|r recs Hr Hs IH]; intros pre i.
  - cbn. split; [|done]. intros _ k r. by rewrite lookup_nil.
  - cbn [length concat recordLoop].
    rewrite (slice_app_mid pre r (concat recs)) by lia. cbn [mbind res_bind].
    rewrite app_assoc.
    replace (length pre + size)%nat with (length (pre ++ r)) by (rewrite length_app; lia).
    rewrite bind_unit_ok, IH. split.
    + intros [H0 H] [|k] r'; cbn; [intros [= <-]; by rewrite Nat.add_0_r|].
      rewrite <- plus_n_Sm. by apply (H k).
    + intros H. split; [rewrite <- (Nat.add_0_r i); by apply (H O)|].
      intros k r' Hk. specialize (H (S k) r' Hk). by rewrite <- plus_n_Sm in H.
Qed.

(** Cutting a byte sequence into records. *)
Lemma chunks_exist (n size : nat) (l : bytes) :
  length l = (n * size)%nat ->
  exists recs, l = concat recs /\ length recs = n /\ Forall (fun r => length r = size) recs.
Proof.
  revert l. induction n as [|n IH]; intros l Hl.
  - exists []. apply nil_length_inv in Hl as ->. by split_and!; [| |apply Forall_nil].
  - destruct (IH (drop size l)) as (recs & Hr & Hn & Hs); [rewrite length_drop; lia|].
    exists (take size l :: recs). cbn. rewrite <- Hr, take_drop. split_and!; [done|lia|].
    apply Forall_cons. split; [rewrite length_take; lia|done].
Qed.

Lemma length_concat_records (size : nat) (recs : list bytes) :
  Forall (fun r => length r = size) recs -> length (concat recs) = (length recs * size)%nat.
Proof. induction 1; cbn; [done|]. rewrite length_app. lia. Qed.

(** The count field is at offset 4, and a payload has at least that. *)
Lemma header_split (p : bytes) :
  (5 <= length p)%nat ->
  exists ts count body, p = ts ++ [count] ++ body /\ length ts = 4%nat /\ p !! 4%nat = Some count.
Proof.
  intros Hp. destruct p as [|a [|b [|c [|d [|n body]]]]]; cbn in Hp; try lia.
  by exists [a; b; c; d], n, body.
Qed.

Lemma validateRecords_frame name (max size : nat) loop payload x :
  validateRecords name (Z.of_nat max) (Z.of_nat size) payload loop = Ok x <->
  exists ts recs, payload = ts ++ [len recs] ++ concat recs /\ length ts = 4%nat
    /\ (1 <= length recs <= max)%nat /\ Forall (fun r => length r = size) recs
    /\ loop (length recs) = Ok tt.
Proof.
  unfold validateRecords. split.
  - intros H. res_inv. apply Z.ltb_ge in H. unfold len in H.
    destruct (header_split payload) as (ts & count & body & -> & Hts & Hc); [lia|].
    match goal with Hi : _ !! 4%nat = Some ?c |- _ => rewrite Hc in Hi; injection Hi as <- end.
    apply orb_false_iff in H1 as [?%Z.ltb_ge ?%Z.ltb_ge].
    apply negb_false_iff, Z.eqb_eq in H2. unfold len in H2. rewrite !length_app in H2. cbn in H2.
    destruct (chunks_exist (Z.to_nat count) size body) as (recs & -> & Hn & Hs); [lia|].
    exists ts, recs. replace (len recs) with count by (unfold len; lia).
    rewrite Hn. split_and!; [done..|lia|lia|done|done].
  - intros (ts & recs & -> & Hts & Hn & Hs & Hall). unfold len.
    pose proof (length_concat_records _ _ Hs) as Hcl.
    rewrite (proj2 (Z.ltb_ge _ _)) by (rewrite !length_app; cbn; lia). cbn [fail_if mbind res_bind].
    assert (index (ts ++ [Z.of_nat (length recs)] ++ concat recs) 4 = Ok (Z.of_nat (length recs)))
      as -> by by apply (index_mid ts).
    cbn [mbind res_bind].
    rewrite (proj2 (Z.ltb_ge _ _)), (proj2 (Z.ltb_ge _ _)) by lia. cbn [fail_if mbind res_bind orb].
    rewrite (proj2 (Z.eqb_eq _ _)) by (rewrite !length_app; cbn; lia).
    cbn [fail_if mbind res_bind negb]. rewrite Nat2Z.id. by destruct x.
Qed.

Lemma validateRecords_ok name (max size : nat) check payload x :
  validateRecords name (Z.of_nat max) (Z.of_nat size) payload
    (fun n => recordLoop check size payload n 0 5) = Ok x <->
  exists ts recs, payload = ts ++ [len recs] ++ concat recs /\ length ts = 4%nat
    /\ (1 <= length recs <= max)%nat /\ Forall (fun r => length r = size) recs
    /\ forall k r, recs !! k = Some r -> check (Z.of_nat k) r = Ok tt.
Proof.
  rewrite validateRecords_frame.
  split; intros (ts & recs & -> & Hts & Hn & Hs & H); exists ts, recs; split_and!; try (done || lia).
  all: rewrite app_assoc in *.
  all: replace 5%nat with (length (ts ++ [len recs])) in * by (rewrite length_app; cbn; lia).
  - by rewrite recordLoop_ok in H by done.
  - by apply recordLoop_ok.
Qed.

(** ** No panic *)

(** Facts on lengths from the guards already passed. *)
Ltac guards :=
  repeat match goal with
  | H : lenIs _ _ _ = Ok _ |- _ => apply fail_if_ok in H
  | H : negb (_ =? _) = false |- _ => apply negb_false_iff, Z.eqb_eq in H
  | H : (_ <? _) = false |- _ => apply Z.ltb_ge in H
  | H : (_ =? _) = false |- _ => apply Z.eqb_neq in H
  | H : (_ || _) = false |- _ => apply orb_false_iff in H as [? ?]
  | H : slice _ _ _ = Ok ?s |- _ =>
      let Hs := fresh "Hs" in pose proof (slice_length _ _ _ _ H) as Hs;
      apply slice_ok in H as (? & ? & ?)
  end; unfold len in *.

Lemma no_panic_lenIs n fmt p : no_panic (lenIs n fmt p).
Proof. apply no_panic_fail_if. Qed.

Lemma no_panic_validatePaddedASCII field : no_panic (validatePaddedASCII field).
Proof. apply no_panic_paddedASCII. Qed.

#[export] Hint Resolve no_panic_lenIs no_panic_validatePaddedASCII : go.

Ltac solve_no_panic :=
  repeat (no_panic_step || apply no_panic_checkEach); guards; try lia.

Lemma no_panic_checkRelays rec : length rec = Cmd12RecordSize -> no_panic (checkRelays rec).
Proof.
  intros Hl. unfold checkRelays. apply no_panic_iterM. intros i Hi%elem_of_seq.
  unfold Cmd12RecordSize, cmd12OffRelay1, cmd12OffRelay2 in *. solve_no_panic.
Qed.

Lemma no_panic_checkCmd12Record rec :
  length rec = Cmd12RecordSize -> no_panic (checkCmd12Record rec).
Proof.
  intros Hl. unfold checkCmd12Record.
  repeat (no_panic_step || by apply no_panic_checkRelays).
  all: rewrite Hl; unfold Cmd12RecordSize, cmd12OffNetworkType, cmd12OffAutoReboot,
    cmd12OffSettingsByte; lia.
Qed.

Lemma no_panic_checkCmd13Record i rec :
  length rec = Cmd13RecordSize -> no_panic (checkCmd13Record i rec).
Proof.
  intros Hl. unfold checkCmd13Record, Cmd13RecordSize in *.
  unfold cmd13OffSlot, cmd13OffID, cmd13OffGroup, cmd13OffIDType. solve_no_panic.
Qed.

Lemma no_panic_checkCmd14Record i rec :
  length rec = Cmd14RecordSize -> no_panic (checkCmd14Record i rec).
Proof.
  intros Hl. unfold checkCmd14Record, Cmd14RecordSize in *.
  unfold cmd14OffSlot, cmd14OffStartHour, cmd14OffEndHour, cmd14OffStartMinute,
    cmd14OffEndMinute, cmd14OffFlags, cmd14OffScenes, cmd14OffHolidayLogic. solve_no_panic.
Qed.

Lemma no_panic_checkCmd15Record i rec :
  length rec = Cmd15RecordSize -> no_panic (checkCmd15Record i rec).
Proof.
  intros Hl. unfold checkCmd15Record, Cmd15RecordSize in *.
  unfold cmd15OffSlot, cmd15OffSchedule, cmd15OffPermFlags. solve_no_panic.
Qed.

Lemma no_panic_validateRecords name max (size : nat) check payload :
  (forall j rec, length rec = size -> no_panic (check j rec)) ->
  no_panic (validateRecords name max (Z.of_nat size) payload
    (fun n => recordLoop check size payload n 0 5)).
Proof.
  intros Hc. unfold validateRecords. repeat no_panic_step; guards; [lia|].
  apply no_panic_recordLoop; [nia|done].
Qed.

Lemma no_panic_ValidateServerCommandPayload (commandID : Z) (payload : bytes) :
  no_panic (ValidateServerCommandPayload commandID payload).
Proof.
  unfold ValidateServerCommandPayload. apply switch_ind; [|done].
  repeat (apply Forall_cons; split; [cbn [snd]|]); [..|by apply Forall_nil].
  all: try (unfold validateEmpty, validateCmd2, validateCmd3, validateCmd20, validateCmd23;
    by auto with go).
  all: try (apply no_panic_validateRecords; eauto using no_panic_checkCmd13Record,
    no_panic_checkCmd14Record, no_panic_checkCmd15Record).
  all: unfold validateCmd1, validateCmd5, validateCmd6, validateCmd7, validateCmd8, validateCmd11,
    validateCmd12, validateCmd16, validateRecords, validateCmd18, validateCmd19, validateCmd24,
    validateCmd25, validateCmd27.
  all: repeat (no_panic_step || apply no_panic_checkEach || apply no_panic_checkCmd12Record).
  all: guards; unfold Cmd12RecordSize in *; try lia.
Qed.

(** The validator never panics: for every command id and every payload,
    well-formed or not, each index and slice is within bounds. *)
Lemma ValidateServerCommandPayload_never_panics (commandID : Z) (payload : bytes) :
  no_panic (ValidateServerCommandPayload commandID payload).
Proof. apply no_panic_ValidateServerCommandPayload. Qed.

(** ** The accepted payloads *)

Lemma lenIs_ok n fmt p x : lenIs n fmt p = Ok x <-> len p = n.
Proof. unfold lenIs. by rewrite fail_if_ok, negb_false_iff, Z.eqb_eq. Qed.

Lemma validateEmpty_ok fmt p x : validateEmpty fmt p = Ok x <-> p = [].
Proof.
  unfold validateEmpty. rewrite fail_if_ok, negb_false_iff, Z.eqb_eq. unfold len.
  destruct p; split; done || (cbn; lia).
Qed.

Lemma validatePaddedASCII_ok field x :
  wf_bytes field ->
  validatePaddedASCII field = Ok x <->
  exists s n, field = s ++ replicate n 0 /\ Forall (fun b => 1 <= b <= 127) s.
Proof.
  destruct x. unfold validatePaddedASCII. intros Hwf. revert Hwf. generalize 0%nat as i.
  assert (forall l i, wf_bytes l -> paddedASCIILoop l i true = Ok tt <-> l = replicate (length l) 0) as Hz.
  { induction l as [|b l IH]; intros i Hl; [done|]. inversion_clear Hl as [|?? Hb Hl'].
    cbn. destruct (Z.eqb_spec b 0) as [->|]; [rewrite IH by done|]; split; congruence. }
  induction field as [|b l IH]; intros i Hwf.
  - cbn. split; [|done]. intros _. exists [], O. by split; [|apply Forall_nil].
  - inversion_clear Hwf as [|?? Hb Hl]. cbn. unfold is_byte in Hb.
    destruct (Z.eqb_spec b 0) as [->|Hne].
    + rewrite Hz by done. split.
      * intros Hr. exists [], (S (length l)). cbn. rewrite <- Hr. by split; [|apply Forall_nil].
      * intros ([|c s] & n & Heq & Hs).
        -- destruct n; [done|]. injection Heq as ->. by rewrite length_replicate.
        -- injection Heq as <- _. apply Forall_cons in Hs as [? _]. lia.
    + destruct (Z.ltb_spec 127 b).
      * split; [done|]. intros ([|c s] & n & Heq & Hs); [destruct n; [done|injection Heq; lia]|].
        injection Heq as -> _. apply Forall_cons in Hs as [? _]. lia.
      * rewrite (IH (S i)) by done. split.
        -- intros (s & n & -> & Hs). exists (b :: s), n. split; [done|]. apply Forall_cons. by split; [lia|].
        -- intros ([|c s] & n & Heq & Hs); [destruct n; [done|injection Heq; lia]|].
           injection Heq as -> ->. apply Forall_cons in Hs as [_ Hs]. by exists s, n.
Qed.

Lemma isBoolByte_spec b : negb (isBoolByte b) = false <-> b = 0 \/ b = 1.
Proof.
  unfold isBoolByte. rewrite negb_false_iff, orb_true_iff, !Z.eqb_eq. done.
Qed.

Lemma Forall_flags l : Forall (fun v => negb (isBoolByte v) = false) l <-> Forall (fun b => b = 0 \/ b = 1) l.
Proof. apply Forall_iff, isBoolByte_spec. Qed.

(** Side conditions on symbolic layouts. *)
Ltac at_app :=
  repeat first
    [rewrite <- app_assoc | rewrite length_app | rewrite length_replicate
    |rewrite length_le_bytes | progress cbn [app length]];
  done || lia.

(** Cut the next [n] bytes (the next byte) off the sequence [l]. *)
Ltac cut_bytes n l x Hx :=
  let l' := fresh "l" in
  destruct (list_cut n l) as (x & l' & -> & Hx); [rewrite ?length_app in *; cbn [length] in *; lia|];
  rewrite ?length_app in *; cbn [length] in *; rename l' into l.

Ltac cut_byte l x :=
  let l' := fresh "l" in
  destruct (list_cut1 l) as (x & l' & ->); [rewrite ?length_app in *; cbn [length] in *; lia|];
  rewrite ?length_app in *; cbn [length] in *; rename l' into l.

(** Successful checks as arithmetic. *)
Ltac res_iff := repeat first
  [rewrite bind_unit_ok | rewrite fail_if_ok | rewrite wrap_ok | rewrite lenIs_ok
  |rewrite orb_false_iff | rewrite negb_false_iff | rewrite Z.eqb_neq | rewrite Z.eqb_eq
  |rewrite Z.ltb_ge | rewrite Z.leb_le].

Lemma checkEach_at l l1 m l2 a b bad err x :
  l = l1 ++ m ++ l2 -> a = length l1 -> b = (length l1 + length m)%nat ->
  checkEach l a b bad err = Ok x <-> Forall (fun v => bad v = false) m.
Proof.
  intros -> -> ->. rewrite checkEach_ok by (rewrite ?length_app; lia).
  rewrite drop_app_length, Nat.add_comm, Nat.add_sub. by rewrite take_app_length.
Qed.

Lemma checkCmd13Record_fields i a id group ban life idType reserve x :
  wf_bytes a -> length a = 2%nat -> length id = 10%nat -> length ban = 4%nat -> length life = 2%nat ->
  checkCmd13Record i (a ++ id ++ group :: ban ++ life ++ idType :: reserve) = Ok x <->
  1 <= le_value a <= 50000 /\ validatePaddedASCII id = Ok tt /\ group <= 64 /\ idType <= 7.
Proof.
  intros Hwa Ha Hid Hb Hl. unfold checkCmd13Record, IsCmd13IDTypeValid.
  unfold cmd13OffSlot, cmd13OffID, cmd13OffGroup, cmd13OffIDType.
  pose proof (le_value_bound _ Hwa).
  rewrite (slice_at _ [] a _ 0 (0 + 2)) by at_app. cbn [mbind res_bind].
  rewrite (slice_at _ a id _ 2 (2 + 10)) by at_app. cbn [mbind res_bind].
  rewrite (index_at _ (a ++ id) group _ 12) by at_app. cbn [mbind res_bind].
  rewrite (index_at _ (a ++ id ++ group :: ban ++ life) idType _ 19) by at_app.
  cbn [mbind res_bind]. res_iff. naive_solver lia.
Qed.

Lemma checkCmd13Record_ok i rec x :
  wf_bytes rec -> length rec = Cmd13RecordSize ->
  checkCmd13Record i rec = Ok x <-> cmd13_layout rec.
Proof.
  intros Hwf Hl. unfold Cmd13RecordSize in Hl. split.
  - cut_bytes 2%nat rec a Ha. cut_bytes 10%nat rec uid Hid. cut_byte rec group.
    cut_bytes 4%nat rec ban Hban. cut_bytes 2%nat rec life Hlife. cut_byte rec idType.
    unfold wf_bytes in Hwf. rewrite !Forall_app, !Forall_cons, !Forall_app, !Forall_cons in Hwf.
    destruct_and!. unfold is_byte in *.
    rewrite checkCmd13Record_fields by done. rewrite validatePaddedASCII_ok by done.
    intros (Hs & (s & n & -> & Hasc) & Hg & Ht).
    rewrite length_app, length_replicate in Hid, Hl.
    exists (le_value a), s, group, ban, life, idType, rec.
    rewrite le2_id by done. replace (10 - length s)%nat with n by lia.
    split_and!; done || lia.
  - intros (slot & id & group & ban & life & idType & reserve & -> & Hs & Hid & Hasc & Hg & Hb & Hli & Ht & Hr).
    cbn [app]. apply checkCmd13Record_fields; auto with go.
    { by rewrite length_app, length_replicate; lia. }
    rewrite u16_le_value by lia. split_and!; try lia.
    apply validatePaddedASCII_ok; [|by exists id, (10 - length id)%nat].
    apply Forall_app. split; [|by apply Forall_replicate].
    eapply Forall_impl; [exact Hasc|]. unfold is_byte. cbn. lia.
Qed.

Lemma checkCmd14Record_fields i slot sh sm eh em flags scenes hl reserve x :
  length flags = 8%nat -> length scenes = 8%nat ->
  checkCmd14Record i (slot :: sh :: sm :: eh :: em :: flags ++ scenes ++ hl :: reserve) = Ok x <->
  1 <= slot <= 64 /\ sh <= 23 /\ eh <= 23 /\ sm <= 59 /\ em <= 59
  /\ Forall (fun b => b = 0 \/ b = 1) flags /\ Forall (fun b => b <= 64) scenes /\ hl <= 3.
Proof.
  intros Hf Hsc. unfold checkCmd14Record.
  unfold cmd14OffSlot, cmd14OffStartHour, cmd14OffEndHour, cmd14OffStartMinute,
    cmd14OffEndMinute, cmd14OffFlags, cmd14OffScenes, cmd14OffHolidayLogic.
  rewrite (index_at _ [] slot _ 0) by at_app. cbn [mbind res_bind].
  rewrite (index_at _ [slot] sh _ 1) by at_app. cbn [mbind res_bind].
  rewrite (index_at _ [slot; sh; sm] eh _ 3) by at_app. cbn [mbind res_bind].
  rewrite (index_at _ [slot; sh] sm _ 2) by at_app. cbn [mbind res_bind].
  rewrite (index_at _ [slot; sh; sm; eh] em _ 4) by at_app. cbn [mbind res_bind].
  rewrite (index_at _ (slot :: sh :: sm :: eh :: em :: flags ++ scenes) hl _ 21) by at_app.
  cbn [mbind res_bind]. rewrite !bind_unit_ok.
  rewrite (checkEach_at _ [slot; sh; sm; eh; em] flags _ 5) by at_app.
  rewrite (checkEach_at _ (slot :: sh :: sm :: eh :: em :: flags) scenes _ 13) by at_app.
  rewrite Forall_flags.
  rewrite (Forall_iff (fun v => (64 <? v) = false) _ (fun b => b <= 64)) by (cbn; lia).
  res_iff. tauto.
Qed.

Lemma checkCmd14Record_ok i rec x :
  wf_bytes rec -> length rec = Cmd14RecordSize ->
  checkCmd14Record i rec = Ok x <-> cmd14_layout rec.
Proof.
  intros Hwf Hl. unfold Cmd14RecordSize in Hl. split.
  - cut_byte rec slot. cut_byte rec sh. cut_byte rec sm. cut_byte rec eh. cut_byte rec em.
    cut_bytes 8%nat rec flags Hf. cut_bytes 8%nat rec scenes Hsc. cut_byte rec hl.
    unfold wf_bytes in Hwf. rewrite !Forall_cons, !Forall_app, !Forall_cons in Hwf.
    destruct_and!. rewrite checkCmd14Record_fields by done. intros.
    exists slot, sh, sm, eh, em, flags, scenes, hl, rec. unfold is_byte, flag_bytes in *.
    destruct_and!. split_and!; try (done || lia).
    rewrite Forall_forall in *. intros b Hb. split; naive_solver lia.
  - intros (slot & sh & sm & eh & em & flags & scenes & hl & reserve & -> & ?).
    destruct_and!. cbn [app]. unfold flag_bytes in *. destruct_and!.
    apply checkCmd14Record_fields; [done..|]. split_and!; try (done || lia).
    eapply Forall_impl; [eassumption|]. cbn. lia.
Qed.

Lemma checkCmd15Record_fields i slot sched perms reserve x :
  length perms = 8%nat ->
  checkCmd15Record i (slot :: sched :: perms ++ reserve) = Ok x <->
  1 <= slot <= 64 /\ sched <= 64 /\ Forall (fun b => b = 0 \/ b = 1) perms.
Proof.
  intros Hp. unfold checkCmd15Record, cmd15OffSlot, cmd15OffSchedule, cmd15OffPermFlags.
  rewrite (index_at _ [] slot _ 0) by at_app. cbn [mbind res_bind].
  rewrite (index_at _ [slot] sched _ 1) by at_app. cbn [mbind res_bind].
  rewrite !bind_unit_ok, (checkEach_at _ [slot; sched] perms _ 2) by at_app.
  rewrite Forall_flags. res_iff. tauto.
Qed.

Lemma checkCmd15Record_ok i rec x :
  wf_bytes rec -> length rec = Cmd15RecordSize ->
  checkCmd15Record i rec = Ok x <-> cmd15_layout rec.
Proof.
  intros Hwf Hl. unfold Cmd15RecordSize in Hl. split.
  - cut_byte rec slot. cut_byte rec sched. cut_bytes 8%nat rec perms Hp.
    unfold wf_bytes in Hwf. rewrite !Forall_cons, !Forall_app in Hwf.
    rewrite checkCmd15Record_fields by done. intros. unfold is_byte in *.
    exists slot, sched, perms, rec. unfold flag_bytes. destruct_and!. split_and!; done || lia.
  - intros (slot & sched & perms & reserve & -> & ? & ? & [? ?] & ?).
    cbn [app]. apply checkCmd15Record_fields; [done|]. split_and!; done || lia.
Qed.

Lemma flags_take_drop rec off n :
  wf_bytes rec -> (off + n <= length rec)%nat ->
  flag_bytes n (take n (drop off rec)) <->
  forall i v, (i < n)%nat -> rec !! (off + i)%nat = Some v -> v <= 1.
Proof.
  intros Hwf Hn. unfold flag_bytes. rewrite Forall_lookup. split.
  - intros [_ H] i v Hi Hv. destruct (H i v); [|lia..].
    apply lookup_take_Some. by rewrite lookup_drop.
  - intros H. split; [rewrite length_take, length_drop; lia|].
    intros i v [Hv Hi]%lookup_take_Some. rewrite lookup_drop in Hv.
    pose proof (H i v Hi Hv). apply (wf_bytes_lookup _ _ _ Hwf) in Hv. unfold is_byte in Hv. lia.
Qed.

Lemma checkRelays_ok rec x :
  wf_bytes rec -> length rec = Cmd12RecordSize ->
  checkRelays rec = Ok x <->
  flag_bytes 8 (take 8 (drop cmd12OffRelay1 rec)) /\ flag_bytes 8 (take 8 (drop cmd12OffRelay2 rec)).
Proof.
  intros Hwf Hl. unfold Cmd12RecordSize in Hl.
  rewrite !flags_take_drop by (done || unfold cmd12OffRelay1, cmd12OffRelay2; lia).
  unfold checkRelays. rewrite iterM_ok, Forall_forall. setoid_rewrite elem_of_seq.
  assert (forall i, (i < 8)%nat -> exists v1 v2,
    rec !! (cmd12OffRelay1 + i)%nat = Some v1 /\ rec !! (cmd12OffRelay2 + i)%nat = Some v2) as Hv.
  { intros i Hi. unfold cmd12OffRelay1, cmd12OffRelay2.
    destruct (lookup_lt_is_Some_2 rec (191 + i)) as [v1 ?]; [lia|].
    destruct (lookup_lt_is_Some_2 rec (202 + i)) as [v2 ?]; [lia|]. by exists v1, v2. }
  split.
  - intros H. split; intros i v Hi Hv'; destruct (Hv i Hi) as (v1 & v2 & H1 & H2);
      specialize (H i ltac:(lia));
      rewrite (proj2 (index_ok _ _ _) H1) in H; cbn [mbind res_bind] in H;
      rewrite (proj2 (index_ok _ _ _) H2) in H; cbn [mbind res_bind] in H;
      revert H; res_iff; intros; simplify_eq; lia.
  - intros [Ha Hb] i Hi. destruct (Hv i ltac:(lia)) as (v1 & v2 & H1 & H2).
    rewrite (proj2 (index_ok _ _ _) H1). cbn [mbind res_bind].
    rewrite (proj2 (index_ok _ _ _) H2). cbn [mbind res_bind]. res_iff.
    split; [eapply (Ha i)|eapply (Hb i)]; done || lia.
Qed.

Lemma checkCmd12Record_ok rec x :
  wf_bytes rec -> length rec = Cmd12RecordSize ->
  checkCmd12Record rec = Ok x <-> cmd12_layout rec.
Proof.
  intros Hwf Hl. unfold cmd12_layout. rewrite flags_take_drop by (done || rewrite Hl; cbv; lia).
  unfold checkCmd12Record, IsCmd12NetworkTypeValid.
  destruct (index_lt rec cmd12OffNetworkType) as (net & -> & Hnet); [rewrite Hl; cbv; lia|].
  destruct (index_lt rec cmd12OffAutoReboot) as (hour & -> & Hhour); [rewrite Hl; cbv; lia|].
  destruct (index_lt rec cmd12OffSettingsByte) as (f0 & -> & H0); [rewrite Hl; cbv; lia|].
  destruct (index_lt rec (cmd12OffSettingsByte + 1)) as (f1 & -> & H1); [rewrite Hl; cbv; lia|].
  destruct (index_lt rec (cmd12OffSettingsByte + 2)) as (f2 & -> & H2); [rewrite Hl; cbv; lia|].
  destruct (index_lt rec (cmd12OffSettingsByte + 3)) as (f3 & -> & H3); [rewrite Hl; cbv; lia|].
  cbn [mbind res_bind]. res_iff. rewrite checkRelays_ok by done.
  pose proof (wf_bytes_lookup _ _ _ Hwf Hnet). pose proof (wf_bytes_lookup _ _ _ Hwf Hhour).
  unfold is_byte in *. rewrite Hnet, Hhour. split.
  - intros (? & ? & (((? & ?) & ?) & ?) & ?). split_and!; [done|exists net; split; [done|lia]|exists hour; split; [done|lia]| |naive_solver..].
    intros [|[|[|[|i]]]] v Hi Hv; rewrite ?Nat.add_0_r in Hv; simplify_eq; lia.
  - intros (_ & (? & [= <-] & ?) & (? & [= <-] & ?) & Hf & ? & ?).
    split_and!; try done; try lia; [apply (Hf 0%nat)|apply (Hf 1%nat)|apply (Hf 2%nat)|apply (Hf 3%nat)];
      rewrite ?Nat.add_0_r; done || lia.
Qed.

Lemma wf_bytes_concat recs k r : wf_bytes (concat recs) -> recs !! k = Some r -> wf_bytes r.
Proof.
  revert k. induction recs as [|r' recs IH]; intros k Hwf Hk; [by rewrite lookup_nil in Hk|].
  cbn in Hwf. apply wf_bytes_app in Hwf as [? ?].
  destruct k; cbn in Hk; [by simplify_eq|by eapply IH].
Qed.

Lemma validateRecords_layout name (max size : nat) check (layout : bytes -> Prop) p x :
  (forall i rec y, wf_bytes rec -> length rec = size -> check i rec = Ok y <-> layout rec) ->
  (forall rec, layout rec -> length rec = size) ->
  wf_bytes p ->
  validateRecords name (Z.of_nat max) (Z.of_nat size) p
    (fun n => recordLoop check size p n 0 5) = Ok x <-> sync_layout max layout p.
Proof.
  intros Hc Hsize Hwf. rewrite validateRecords_ok by done. unfold sync_layout. split.
  - intros (ts & recs & -> & Hts & Hn & Hs & Hall). exists ts, recs. split_and!; [done|done|lia..|].
    apply wf_bytes_app in Hwf as [_ [_ Hwf]%wf_bytes_app].
    rewrite Forall_lookup in *. intros k r Hk. eapply Hc; eauto using wf_bytes_concat.
  - intros (ts & recs & -> & Hts & Hn & Hl). exists ts, recs. split_and!; [done|done|lia..| |].
    + eapply Forall_impl; [exact Hl|]. done.
    + apply wf_bytes_app in Hwf as [_ [_ Hwf]%wf_bytes_app]. rewrite Forall_lookup in Hl.
      intros k r Hk. apply Hc; eauto using wf_bytes_concat.
Qed.

Lemma cmd13_length rec : cmd13_layout rec -> length rec = Cmd13RecordSize.
Proof.
  intros (?&?&?&?&?&?&?& -> &?). destruct_and!. unfold Cmd13RecordSize.
  rewrite !length_app, length_le_bytes, length_replicate. cbn [length]. lia.
Qed.

Lemma cmd14_length rec : cmd14_layout rec -> length rec = Cmd14RecordSize.
Proof.
  intros (?&?&?&?&?&?&?&?&?& -> &?). unfold flag_bytes, Cmd14RecordSize in *. destruct_and!.
  rewrite !length_app. cbn [length]. lia.
Qed.

Lemma cmd15_length rec : cmd15_layout rec -> length rec = Cmd15RecordSize.
Proof.
  intros (?&?&?&?& -> &?). unfold flag_bytes, Cmd15RecordSize in *. destruct_and!.
  rewrite !length_app. cbn [length]. lia.
Qed.

Lemma validateCmd12_ok p x : wf_bytes p -> validateCmd12 p = Ok x <-> sync_layout 1 cmd12_layout p.
Proof.
  intros Hwf. unfold validateCmd12, sync_layout. split.
  - intros H. res_inv. guards.
    destruct (header_split p) as (ts & count & body & -> & Hts & Hc); [lia|].
    match goal with Hi : _ !! 4%nat = Some ?c |- _ => rewrite Hc in Hi; injection Hi as <- end.
    rewrite !length_app in *. cbn [length] in *.
    assert (count = 1) as -> by lia. exists ts, [body]. cbn [concat]. rewrite app_nil_r.
    split_and!; [done|done|cbn; lia..|]. apply Forall_singleton.
    apply wf_bytes_app in Hwf as [_ [_ Hwf]%wf_bytes_app].
    unfold Cmd12RecordSize in *. apply (checkCmd12Record_ok body tt); [done|unfold Cmd12RecordSize; lia|].
    subst x4. rewrite app_assoc, drop_app_length' in H4 by (rewrite length_app; cbn; lia).
    by rewrite firstn_all2 in H4 by lia.
  - intros (ts & recs & -> & Hts & Hn & Hall).
    destruct recs as [|rec [|]]; cbn in Hn; [lia| |lia]. rewrite Forall_singleton in Hall.
    destruct (Hall) as (Hl & _). apply wf_bytes_app in Hwf as [_ [_ Hwf]%wf_bytes_app].
    cbn [concat] in *. rewrite app_nil_r in *. unfold len. cbn [length].
    rewrite !length_app, Hts, Hl. cbn [length].
    rewrite (index_at _ ts 1 rec 4) by at_app. cbn [mbind res_bind fail_if negb orb].
    change (_ <? 5) with false. cbn [mbind res_bind fail_if negb orb].
    change (negb _) with false. cbn [mbind res_bind fail_if negb orb].
    rewrite (slice_at _ (ts ++ [1]) rec []); [|by rewrite app_nil_r, <- app_assoc|rewrite length_app; cbn; lia|rewrite length_app, Hl; cbn; lia].
    cbn [mbind res_bind]. by apply checkCmd12Record_ok.
Qed.

(** Expose the bytes of a payload of fixed length. *)
Ltac expose p :=
  destruct p as [|? p]; [exfalso; unfold len in *; cbn in *; lia|].

Ltac close_payload p := destruct p as [|? ?]; [|exfalso; unfold len in *; cbn [length] in *; lia].

Lemma validateCmd1_ok p x :
  wf_bytes p -> validateCmd1 p = Ok x <->
  exists code t, p = code :: t /\ 0 <= code <= 5 /\ length t = 4%nat.
Proof.
  intros Hwf. destruct x. unfold validateCmd1. split.
  - rewrite bind_unit_ok, lenIs_ok. intros [Hl H]. unfold len in Hl. expose p.
    apply Forall_cons in Hwf as [Hb _]. unfold is_byte in Hb. cbn in H, Hl. apply fail_if_ok, Z.ltb_ge in H.
    exists z, p. split_and!; done || lia.
  - intros (code & t & -> & Hc & Ht). rewrite bind_unit_ok, lenIs_ok. unfold len.
    split; [cbn; lia|]. cbn. apply fail_if_ok. lia.
Qed.

Lemma validateCmd5_ok p x :
  validateCmd5 p = Ok x <-> exists flags, p = flags ++ replicate 8 0 /\ flag_bytes 8 flags.
Proof.
  unfold validateCmd5, flag_bytes. rewrite bind_unit_ok, lenIs_ok, bind_unit_ok.
  assert (forall l, Forall (fun v => negb (v =? 0) = false) l <-> l = replicate (length l) 0) as Hz.
  { induction l as [|b l IH]; cbn; [done|]. rewrite Forall_cons, IH, negb_false_iff, Z.eqb_eq.
    split; [intros [-> Hl]; by rewrite <- Hl|by intros [= -> Hl]]. }
  split.
  - intros (Hl & Hf & Hr). unfold len in Hl. rewrite checkEach_ok in Hf, Hr by lia.
    rewrite Forall_flags in Hf. rewrite Hz, length_take, length_drop in Hr.
    rewrite drop_0 in Hf. exists (take 8 p). rewrite length_take. split_and!; [|lia|done].
    rewrite <- (take_drop 8 p) at 1. f_equal.
    rewrite firstn_all2 in Hr by (rewrite length_drop; lia).
    rewrite Hr. f_equal. lia.
  - intros (flags & -> & Hl & Hf). unfold len. rewrite length_app, length_replicate.
    split; [lia|]. split.
    + apply (checkEach_at _ [] flags (replicate 8 0)); [done|done|cbn; lia|]. by apply Forall_flags.
    + apply (checkEach_at _ flags (replicate 8 0) []); [by rewrite app_nil_r|done|by rewrite length_replicate, Hl|].
      by apply Forall_replicate.
Qed.

Lemma validateCmd6_ok p x :
  wf_bytes p -> validateCmd6 p = Ok x <->
  exists t i a, p = [t; i; a] /\ 0 <= i <= 3 /\ (i = 3 <-> a <> 0).
Proof.
  intros Hwf. unfold validateCmd6. rewrite bind_unit_ok, lenIs_ok. split.
  - intros [Hl H]. do 3 expose p. close_payload p. unfold wf_bytes, is_byte in Hwf. rewrite !Forall_cons in Hwf.
    cbn [index lookup list_lookup mbind res_bind] in H. apply bind_unit_ok in H as [H1 H2].
    apply fail_if_ok, Z.ltb_ge in H1. eexists _, _, _. split; [done|]. split; [lia|].
    destruct (Z.eqb_spec z0 3); apply fail_if_ok in H2; lia.
  - intros (t & i & a & -> & Hi & Ha). split; [done|]. cbn [index lookup list_lookup mbind res_bind].
    rewrite bind_unit_ok, fail_if_ok, Z.ltb_ge. split; [lia|].
    destruct (Z.eqb_spec i 3); apply fail_if_ok; lia.
Qed.

Lemma validateCmd7_ok p x : validateCmd7 p = Ok x <-> exists a, p = [a] /\ a <> 0.
Proof.
  unfold validateCmd7. rewrite bind_unit_ok, lenIs_ok. split.
  - intros [Hl H]. expose p. close_payload p. cbn in H. apply fail_if_ok, Z.eqb_neq in H. eauto.
  - intros (a & -> & Ha). split; [done|]. by apply fail_if_ok, Z.eqb_neq.
Qed.

Lemma validateCmd8_ok p x :
  wf_bytes p -> validateCmd8 p = Ok x <->
  exists s o1 o2, p = [s; o1; o2] /\ s <> 0 /\ flag_bytes 2 [o1; o2].
Proof.
  intros Hwf. unfold validateCmd8, flag_bytes. rewrite bind_unit_ok, lenIs_ok. split.
  - intros [Hl H]. do 3 expose p. close_payload p. unfold wf_bytes, is_byte in Hwf. rewrite !Forall_cons in Hwf.
    cbn [index lookup list_lookup mbind res_bind] in H. apply bind_unit_ok in H as [H1 H2].
    apply fail_if_ok, Z.eqb_neq in H1. apply fail_if_ok in H2.
    eexists _, _, _. split_and!; [done|lia|done|]. rewrite !Forall_cons, Forall_nil. lia.
  - intros (s & o1 & o2 & -> & Hs & _ & Ho). rewrite !Forall_cons in Ho. split; [done|].
    cbn [index lookup list_lookup mbind res_bind]. rewrite bind_unit_ok, !fail_if_ok. lia.
Qed.

Lemma validateCmd11_ok p x :
  validateCmd11 p = Ok x <->
  exists phone msg, p = phone ++ msg /\ length phone = 10%nat
    /\ Forall (fun b => 48 <= b <= 57) phone /\ length msg = 50%nat.
Proof.
  assert (forall l, Forall (fun v => (v <? 48) || (57 <? v) = false) l <-> Forall (fun b => 48 <= b <= 57) l)
    as Hd by (intros; apply Forall_iff; cbn; lia).
  unfold validateCmd11. rewrite bind_unit_ok, lenIs_ok. split.
  - intros [Hl H]. unfold len in Hl. cut_bytes 10%nat p phone Hp.
    rewrite (slice_at _ [] phone p) in H by at_app. cbn [mbind res_bind] in H.
    rewrite checkEach_ok, drop_0, Nat.sub_0_r, firstn_all, Hd in H by lia.
    exists phone, p. split_and!; done || lia.
  - intros (phone & msg & -> & Hp & Hf & Hm). unfold len. rewrite length_app. split; [lia|].
    rewrite (slice_at _ [] phone msg) by at_app. cbn [mbind res_bind].
    by rewrite checkEach_ok, drop_0, Nat.sub_0_r, firstn_all, Hd by lia.
Qed.

Lemma validateCmd18_ok p x :
  wf_bytes p -> validateCmd18 p = Ok x <-> exists block, p = [block] /\ 0 <= block <= 100.
Proof.
  intros Hwf. unfold validateCmd18. res_iff. split.
  - intros [Hl H]. expose p. close_payload p. cbn in H. apply fail_if_ok, Z.ltb_ge in H.
    apply Forall_cons in Hwf as [Hb _]. unfold is_byte in Hb. exists z. split; [done|lia].
  - intros (b & -> & Hb). split; [done|]. apply fail_if_ok. lia.
Qed.

Lemma le4_id l : wf_bytes l -> length l = 4%nat -> le_bytes 4 (le_value l) = l.
Proof. intros ? Hl. rewrite <- Hl at 1. by apply le_bytes_le_value. Qed.

Lemma validateCmd19_fields fw build size crc blocks x :
  length fw = 2%nat -> length build = 4%nat -> length size = 4%nat -> length crc = 4%nat ->
  length blocks = 2%nat ->
  validateCmd19 (fw ++ build ++ size ++ crc ++ blocks) = Ok x <->
  le_value fw <> 0 /\ le_value size <> 0 /\ le_value crc <> 0 /\ le_value blocks <> 0
  /\ le_value blocks = FWBlockCountForSize (le_value size).
Proof.
  intros Hf Hb Hs Hc Hk. unfold validateCmd19. rewrite bind_unit_ok, lenIs_ok.
  unfold len. rewrite !length_app.
  rewrite (slice_at _ [] fw _ 0 2) by at_app. cbn [mbind res_bind].
  rewrite (slice_at _ (fw ++ build) size _ 6 10) by at_app. cbn [mbind res_bind].
  rewrite (slice_at _ (fw ++ build ++ size) crc _ 10 14) by at_app. cbn [mbind res_bind].
  rewrite (slice_at _ (fw ++ build ++ size ++ crc) blocks [] 14 16)
    by (rewrite ?app_nil_r; at_app). cbn [mbind res_bind].
  res_iff. intuition lia.
Qed.

Lemma validateCmd19_ok p x : wf_bytes p -> validateCmd19 p = Ok x <-> cmd19_layout p.
Proof.
  intros Hwf. split.
  - intros H. pose proof H as Hl. unfold validateCmd19 in Hl. apply bind_unit_ok in Hl as [Hl _].
    apply lenIs_ok in Hl. unfold len in Hl.
    cut_bytes 2%nat p fw Hf. cut_bytes 4%nat p build Hb. cut_bytes 4%nat p sz Hs.
    cut_bytes 4%nat p crc Hc. unfold wf_bytes in Hwf. rewrite !Forall_app in Hwf.
    destruct_and!. assert (length p = 2%nat) as Hp by lia.
    apply validateCmd19_fields in H; [|done..].
    pose proof (le_value_bound fw ltac:(done)). pose proof (le_value_bound sz ltac:(done)).
    pose proof (le_value_bound crc ltac:(done)). pose proof (le_value_bound p ltac:(done)).
    unfold len in *. rewrite Hf, Hs, Hc, Hp in *. cbn in *.
    exists (le_value fw), build, (le_value sz), (le_value crc), (le_value p).
    rewrite !le2_id, !le4_id by done. split_and!; done || lia.
  - intros (fw & build & size & crc & blocks & -> & Hf & Hb & Hs & Hc & Hk & He).
    apply validateCmd19_fields; rewrite ?length_le_bytes; [done..|].
    rewrite !le_value_le_bytes. cbn. rewrite !Z.mod_small by lia. lia.
Qed.

Lemma IsAckExecutionCodeAllowed_spec code :
  IsAckExecutionCodeAllowed code = true <-> code ∈ [0; 1; 2; 3; 4; 5; 6; 7; 254; 255].
Proof.
  unfold IsAckExecutionCodeAllowed. cbn [switch].
  destruct (existsb (Z.eqb code) _) eqn:E; split; try done.
  - intros _. apply existsb_exists in E as (y & Hy & ->%Z.eqb_eq). by apply list_elem_of_In.
  - intros Hc. exfalso. enough (existsb (Z.eqb code) [0; 1; 2; 3; 4; 5; 6; 7; 254; 255] = true) by congruence.
    apply existsb_exists. exists code. split; [by apply list_elem_of_In|apply Z.eqb_refl].
Qed.

Lemma validateCmd24_ok p x :
  validateCmd24 p = Ok x <->
  exists seq code, p = [seq; code] /\ code ∈ [0; 1; 2; 3; 4; 5; 6; 7; 254; 255].
Proof.
  unfold validateCmd24. res_iff. split.
  - intros [Hl H]. do 2 expose p. close_payload p. cbn [index lookup list_lookup mbind res_bind] in H.
    apply fail_if_ok, negb_false_iff, IsAckExecutionCodeAllowed_spec in H. eauto.
  - intros (seq & code & -> & Hc%IsAckExecutionCodeAllowed_spec). split; [done|].
    cbn [index lookup list_lookup mbind res_bind]. rewrite Hc. by destruct x.
Qed.

Lemma validateCmd25_ok p x :
  wf_bytes p -> validateCmd25 p = Ok x <->
  exists code tail, p = code :: tail /\ 0 <= code <= 3 /\ length tail = 280%nat.
Proof.
  intros Hwf. destruct x. unfold validateCmd25. rewrite bind_unit_ok, lenIs_ok. unfold len. split.
  - intros [Hl H]. expose p. apply Forall_cons in Hwf as [Hb _]. unfold is_byte in Hb.
    cbn [index lookup list_lookup mbind res_bind length] in H, Hl. apply fail_if_ok, Z.ltb_ge in H.
    exists z, p. split_and!; done || lia.
  - intros (code & t & -> & Hc & Ht). split; [cbn [length]; lia|].
    cbn [index lookup list_lookup mbind res_bind]. apply fail_if_ok. lia.
Qed.

Lemma validateCmd27_ok p x :
  wf_bytes p -> validateCmd27 p = Ok x <->
  exists cmd arg, p = cmd :: le_bytes 2 (len arg) ++ arg /\ len arg < 2 ^ 16.
Proof.
  intros Hwf. assert (forall cmd sz arg y, length sz = 2%nat ->
    validateCmd27 (cmd :: sz ++ arg) = Ok y <-> len arg = le_value sz) as Hfields.
  { intros cmd sz arg y Hs. unfold validateCmd27, len. cbn [length]. rewrite length_app, Hs. res_iff.
    rewrite (slice_at _ [cmd] sz arg 1 3) by at_app. cbn [mbind res_bind].
    rewrite (slice_at _ (cmd :: sz) arg [] 3) by (rewrite ?app_nil_r; at_app). cbn [mbind res_bind].
    res_iff. intuition lia. }
  split.
  - intros H. pose proof H as Hl. unfold validateCmd27 in Hl. apply bind_unit_ok in Hl as [Hl _].
    apply fail_if_ok, Z.ltb_ge in Hl. unfold len in Hl.
    cut_byte p cmd. cut_bytes 2%nat p sz Hsz. apply Hfields in H; [|done].
    apply Forall_cons in Hwf as [_ [Hwf _]%Forall_app].
    exists cmd, p. rewrite H, le2_id by done. split; [done|].
    pose proof (le_value_bound _ Hwf) as Hb. unfold len in Hb. rewrite Hsz in Hb. cbn in Hb. lia.
  - intros (cmd & arg & -> & Hb). apply Hfields; [apply length_le_bytes|].
    rewrite u16_le_value; [done|]. unfold len in *. lia.
Qed.

Lemma length_len {A} (l : list A) n : len l = Z.of_nat n <-> length l = n.
Proof. unfold len. lia. Qed.

Lemma ValidateServerCommandPayload_ok commandID p :
  wf_bytes p -> ValidateServerCommandPayload commandID p = Ok tt <-> valid_payload commandID p.
Proof.
  intros Hwf. unfold ValidateServerCommandPayload, valid_payload.
  apply (switch_rel (fun r P => r = Ok tt <-> P)); [|done].
  repeat (apply Forall2_cons; split; [split; [done|cbn [snd]]|]); [..|by apply Forall2_nil].
  - by apply validateCmd1_ok.
  - etrans; [apply lenIs_ok|]. apply (length_len p 1).
  - etrans; [apply lenIs_ok|]. apply (length_len p 1).
  - apply validateCmd5_ok.
  - by apply validateCmd6_ok.
  - apply validateCmd7_ok.
  - by apply validateCmd8_ok.
  - apply validateEmpty_ok.
  - apply validateEmpty_ok.
  - apply validateCmd11_ok.
  - by apply validateCmd12_ok.
  - by apply (validateRecords_layout _ 250); [apply checkCmd13Record_ok|apply cmd13_length|].
  - by apply (validateRecords_layout _ 64); [apply checkCmd14Record_ok|apply cmd14_length|].
  - by apply (validateRecords_layout _ 64); [apply checkCmd15Record_ok|apply cmd15_length|].
  - unfold validateCmd16. rewrite (validateRecords_frame _ 255 4). unfold sync_layout. naive_solver.
  - apply validateEmpty_ok.
  - by apply validateCmd18_ok.
  - by apply validateCmd19_ok.
  - etrans; [apply lenIs_ok|]. apply (length_len p 1026).
  - apply validateEmpty_ok.
  - apply validateEmpty_ok.
  - etrans; [apply lenIs_ok|]. apply (length_len p 4).
  - apply validateCmd24_ok.
  - by apply validateCmd25_ok.
  - by apply validateCmd27_ok.
Qed.


(** A command-19 payload: firmware 7, 3000 bytes, three blocks. *)
Definition sample_cmd19 : bytes :=
  [7; 0; 1; 2; 3; 4; 184; 11; 0; 0; 5; 0; 0; 0; 3; 0].

