(* ===== verification/Builders.v ===== *)
(** * Payload builders ([internal/protocol/server_payload_builders.go])

    One record per payload struct and one [_Build] per [Build] method.  The
    output buffer is a zeroed byte sequence written at the offsets of the
    source ([blit] for [copy] and [binary.LittleEndian.Put*], [<[i:=v]>] for
    [out[i] = v]; all offsets are constants inside the buffer, so that Go's
    bounds checks cannot fail).  The theorems give, for each structured
    builder, the exact condition under which it succeeds and the exact bytes
    it produces, and the round trip of the fields. *)

From S2P Require Import Prelude Messages Validation.

(** ** Buffers and helpers *)

(** [copy(out[off:off+n], src)]. *)
Definition blit (off n : nat) (src out : bytes) : bytes :=
  take off out ++ take n src ++ drop (off + n `min` length src) out.

Definition boolToByte (v : bool) : Z := if v then 1 else 0.

(** [for i := 0; i < len(s); i++ { if bad(s[i]) { return err(i) }; out[i] = s[i] }]. *)
Fixpoint fillLoop (bad : Z -> bool) (err : Z -> error) (s : bytes) (i : nat) (out : bytes) : res bytes :=
  match s with
  | [] => Ok out
  | b :: s' =>
      if bad b then Err (err (Z.of_nat i)) else fillLoop bad err s' (S i) (<[i := b]> out)
  end.

Definition fixedASCII (s : string) (size : nat) : res bytes :=
  let l := bytes_of_string s in
  _ ← fail_if (Z.of_nat size <? len l)
        (Errorf "too long: len=%d max=%d" [AZ (len l); AZ (Z.of_nat size)]);
  fillLoop (fun b => 127 <? b) (fun i => Errorf "non-ascii byte at index %d" [AZ i]) l 0
    (replicate size 0).

Definition fixedDigits (s : string) (size : nat) : res bytes :=
  let l := bytes_of_string s in
  _ ← fail_if (negb (len l =? Z.of_nat size))
        (Errorf "invalid length: len=%d want=%d" [AZ (len l); AZ (Z.of_nat size)]);
  fillLoop (fun b => (b <? 48) || (57 <? b)) (fun i => Errorf "non-digit byte at index %d" [AZ i]) l 0
    (replicate size 0).

Fixpoint validateRelayFlagsFrom (flags : bytes) (i : Z) : res unit :=
  match flags with
  | [] => Ok tt
  | f :: flags' =>
      _ ← fail_if (1 <? f) (Errorf "flag %d must be 0 or 1" [AZ i]);
      validateRelayFlagsFrom flags' (i + 1)
  end.

Definition validateRelayFlags (flags : bytes) : res unit := validateRelayFlagsFrom flags 0.

(** The tail of every builder: [if err := Validate(id, out); err != nil { return nil, err }]. *)
Definition validated (commandID : Z) (out : bytes) : res bytes :=
  _ ← ValidateServerCommandPayload commandID out; Ok out.

(** ** Fixed-size commands *)

Record Cmd1RegistrationAckPayload := { c1_ExecutionCode : Z; c1_ServerTime : Z }.

Definition Cmd1RegistrationAckPayload_Build (p : Cmd1RegistrationAckPayload) : res bytes :=
  let out := replicate 5 0 in
  let out := <[0%nat := c1_ExecutionCode p]> out in
  let out := blit 1 4 (le_bytes 4 (c1_ServerTime p)) out in
  validated 1 out.

Record Cmd2RebootPayload := { c2_TimeoutSec : Z }.

Definition Cmd2RebootPayload_Build (p : Cmd2RebootPayload) : res bytes :=
  validated 2 [c2_TimeoutSec p].

Record Cmd3FactoryResetPayload := { c3_TimeoutSec : Z }.

Definition Cmd3FactoryResetPayload_Build (p : Cmd3FactoryResetPayload) : res bytes :=
  validated 3 [c3_TimeoutSec p].

Record Cmd5TriggerPayload := { c5_RawFlags : bytes }.

Definition Cmd5TriggerPayload_Build (p : Cmd5TriggerPayload) : res bytes :=
  validated 5 (blit 0 16 (c5_RawFlags p) (replicate 16 0)).

Record Cmd5TriggerFlags := {
  ManualUnlock : bool;
  ScenarioUnlock : bool;
  AutoRegistration : bool;
  OpenForAll : bool;
  ForwardSMS : bool;
  NotifyUnknownIDSMS : bool;
  NotifyLowBalanceSMS : bool;
  ScheduleForAllCalls : bool
}.

Record Cmd5TriggerStructuredPayload := { c5_Flags : Cmd5TriggerFlags; c5_Reserve : bytes }.

Definition Cmd5TriggerStructuredPayload_Build (p : Cmd5TriggerStructuredPayload) : res bytes :=
  let f := c5_Flags p in
  let out := replicate 16 0 in
  let out := <[0%nat := boolToByte (ManualUnlock f)]> out in
  let out := <[1%nat := boolToByte (ScenarioUnlock f)]> out in
  let out := <[2%nat := boolToByte (AutoRegistration f)]> out in
  let out := <[3%nat := boolToByte (OpenForAll f)]> out in
  let out := <[4%nat := boolToByte (ForwardSMS f)]> out in
  let out := <[5%nat := boolToByte (NotifyUnknownIDSMS f)]> out in
  let out := <[6%nat := boolToByte (NotifyLowBalanceSMS f)]> out in
  let out := <[7%nat := boolToByte (ScheduleForAllCalls f)]> out in
  let out := blit 8 8 (c5_Reserve p) out in
  validated 5 out.

Record Cmd6CaptureIDPayload := { c6_CaptureTimeout : Z; c6_Interface : Z; c6_NetworkAddress : Z }.

Definition Cmd6CaptureIDPayload_Build (p : Cmd6CaptureIDPayload) : res bytes :=
  validated 6 [c6_CaptureTimeout p; c6_Interface p; c6_NetworkAddress p].

Record Cmd7PhotoRequestPayload := { c7_CameraAddress : Z }.

Definition Cmd7PhotoRequestPayload_Build (p : Cmd7PhotoRequestPayload) : res bytes :=
  validated 7 [c7_CameraAddress p].

Record Cmd8OutputControlPayload := { c8_SourceID : Z; c8_Output1 : Z; c8_Output2 : Z }.

Definition Cmd8OutputControlPayload_Build (p : Cmd8OutputControlPayload) : res bytes :=
  validated 8 [c8_SourceID p; c8_Output1 p; c8_Output2 p].

Record Cmd11SendSMSPayload := { c11_Phone10 : string; c11_Message : string }.

Definition Cmd11SendSMSPayload_Build (p : Cmd11SendSMSPayload) : res bytes :=
  _ ← fail_if (negb (len (bytes_of_string (c11_Phone10 p)) =? 10))
        (Errorf "cmd 11: phone must be exactly 10 digits" []);
  phone ← wrap "cmd 11: phone: %w" [] (fixedDigits (c11_Phone10 p) 10);
  msg ← wrap "cmd 11: message: %w" [] (fixedASCII (c11_Message p) 50);
  let out := replicate 60 0 in
  let out := blit 0 10 phone out in
  let out := blit 10 50 msg out in
  validated 11 out.

(** ** Command 12: settings *)

Record Cmd12Peripheral := { per_Address : Z; per_Type : Z }.

Record Cmd12RelaySettings := {
  relay_Flags : bytes;
  relay_ImpulseSec : Z;
  relay_PauseSec : Z;
  relay_Repeats : Z
}.

Record Cmd12SettingsRecord := {
  PINCode : Z;
  Server1 : string;
  Server2 : string;
  NTPServer : string;
  Operator : string;
  NetworkType : Z;
  CountryCode : string;
  SimPhone : string;
  USSD : string;
  AutoRebootHour : Z;
  ExtendedDebug : bool;
  UseVoLTE : bool;
  Interface485Active : bool;
  NTPEnabled : bool;
  WiegandType : Z;
  Peripherals : list Cmd12Peripheral;
  Relay1 : Cmd12RelaySettings;
  Relay2 : Cmd12RelaySettings;
  Input1Function : Z;
  Input2Function : Z;
  ReserveA : bytes;
  ReserveB : bytes
}.

(** [for i := 0; i < 8; i++ { out[off] = p[i].Address; out[off+1] = p[i].Type; off += 2 }]. *)
Fixpoint writePeripherals (ps : list Cmd12Peripheral) (off : nat) (out : bytes) : bytes :=
  match ps with
  | [] => out
  | p :: ps' =>
      writePeripherals ps' (off + 2) (<[(off + 1)%nat := per_Type p]> (<[off := per_Address p]> out))
  end.

(** [for i := 0; i < 8; i++ { out[base+i] = flags[i] }]. *)
Fixpoint writeFlags (flags : bytes) (off : nat) (out : bytes) : bytes :=
  match flags with
  | [] => out
  | f :: flags' => writeFlags flags' (S off) (<[off := f]> out)
  end.

Definition writeRelay (base : nat) (relay : Cmd12RelaySettings) (out : bytes) : bytes :=
  let out := writeFlags (relay_Flags relay) base out in
  let out := <[(base + 8)%nat := relay_ImpulseSec relay]> out in
  let out := <[(base + 9)%nat := relay_PauseSec relay]> out in
  <[(base + 10)%nat := relay_Repeats relay]> out.

Definition Cmd12SettingsRecord_Build (r : Cmd12SettingsRecord) : res bytes :=
  _ ← fail_if (negb (IsCmd12NetworkTypeValid (NetworkType r)))
        (Errorf "cmd 12: network type out of range: %d" [AZ (NetworkType r)]);
  _ ← fail_if (23 <? AutoRebootHour r)
        (Errorf "cmd 12: auto reboot hour out of range: %d" [AZ (AutoRebootHour r)]);
  _ ← wrap "cmd 12 relay1: %w" [] (validateRelayFlags (relay_Flags (Relay1 r)));
  _ ← wrap "cmd 12 relay2: %w" [] (validateRelayFlags (relay_Flags (Relay2 r)));
  s1 ← wrap "cmd 12 server1: %w" [] (fixedASCII (Server1 r) 32);
  s2 ← wrap "cmd 12 server2: %w" [] (fixedASCII (Server2 r) 32);
  ntp ← wrap "cmd 12 ntp server: %w" [] (fixedASCII (NTPServer r) 32);
  op ← wrap "cmd 12 operator: %w" [] (fixedASCII (Operator r) 32);
  cc ← wrap "cmd 12 country code: %w" [] (fixedASCII (CountryCode r) 8);
  sim ← wrap "cmd 12 sim phone: %w" [] (fixedASCII (SimPhone r) 16);
  ussd ← wrap "cmd 12 ussd: %w" [] (fixedASCII (USSD r) 8);
  let out := replicate Cmd12RecordSize 0 in
  let out := blit cmd12OffPinCode 4 (le_bytes 4 (PINCode r)) out in
  let out := blit cmd12OffServer1 32 s1 out in
  let out := blit cmd12OffServer2 32 s2 out in
  let out := blit cmd12OffNTPServer 32 ntp out in
  let out := blit cmd12OffOperator 32 op out in
  let out := <[cmd12OffNetworkType := NetworkType r]> out in
  let out := blit cmd12OffCountryCode 8 cc out in
  let out := blit cmd12OffSimPhone 16 sim out in
  let out := blit cmd12OffUSSD 8 ussd out in
  let out := <[cmd12OffAutoReboot := AutoRebootHour r]> out in
  let out := <[(cmd12OffSettingsByte + 0)%nat := boolToByte (ExtendedDebug r)]> out in
  let out := <[(cmd12OffSettingsByte + 1)%nat := boolToByte (UseVoLTE r)]> out in
  let out := <[(cmd12OffSettingsByte + 2)%nat := boolToByte (Interface485Active r)]> out in
  let out := <[(cmd12OffSettingsByte + 3)%nat := boolToByte (NTPEnabled r)]> out in
  let out := <[cmd12OffWiegandType := WiegandType r]> out in
  let out := writePeripherals (Peripherals r) cmd12OffPeripheral out in
  let out := writeRelay cmd12OffRelay1 (Relay1 r) out in
  let out := writeRelay cmd12OffRelay2 (Relay2 r) out in
  let out := <[cmd12OffInput1 := Input1Function r]> out in
  let out := <[cmd12OffInput2 := Input2Function r]> out in
  let out := blit cmd12OffReserveA 292 (ReserveA r) out in
  let out := blit cmd12OffReserveB 101 (ReserveB r) out in
  Ok out.

Record Cmd12SettingsPayload := { c12_Timestamp : Z; c12_Record : Cmd12SettingsRecord }.

Definition Cmd12SettingsPayload_Build (p : Cmd12SettingsPayload) : res bytes :=
  rec ← Cmd12SettingsRecord_Build (c12_Record p);
  let out := replicate (5 + Cmd12RecordSize) 0 in
  let out := blit 0 4 (le_bytes 4 (c12_Timestamp p)) out in
  let out := <[4%nat := 1]> out in
  let out := blit 5 Cmd12RecordSize rec out in
  validated 12 out.

(** ** Commands 13 to 16: synchronisation *)

(** The record loop: build a record, copy it at [off], advance. *)
Fixpoint copyRecords {A} (build : Z -> A -> res bytes) (size : nat) (recs : list A)
    (i : Z) (off : nat) (out : bytes) : res bytes :=
  match recs with
  | [] => Ok out
  | r :: recs' =>
      b ← build i r;
      copyRecords build size recs' (i + 1) (off + size) (blit off size b out)
  end.

(** The shape shared by the synchronisation builders. *)
Definition buildSync {A} (commandID : Z) (countErr : string) (max : Z) (size : nat)
    (build : Z -> A -> res bytes) (timestamp : Z) (recs : list A) : res bytes :=
  _ ← fail_if ((len recs <? 1) || (max <? len recs)) (Errorf countErr [AZ (len recs)]);
  let out := replicate (5 + length recs * size) 0 in
  let out := blit 0 4 (le_bytes 4 timestamp) out in
  let out := <[4%nat := u8 (len recs)]> out in
  out ← copyRecords build size recs 0 5 out;
  validated commandID out.

(** Raw records must have the record size. *)
Definition rawRecord (sizeErr : string) (size : nat) (i : Z) (rec : bytes) : res bytes :=
  _ ← fail_if (negb (len rec =? Z.of_nat size)) (Errorf sizeErr [AZ i]); Ok rec.

Record Cmd13SyncIDPayload := { c13_Timestamp : Z; c13_RawRecords : list bytes }.

Definition Cmd13SyncIDPayload_Build (p : Cmd13SyncIDPayload) : res bytes :=
  buildSync 13 "cmd 13: records count out of range: %d" 250 32
    (rawRecord "cmd 13: record %d size must be 32" 32) (c13_Timestamp p) (c13_RawRecords p).

Record Cmd13IDRecord := {
  SlotIndex : Z;
  ID : string;
  Group : Z;
  BanDate : Z;
  LifetimeMinutes : Z;
  IDType : Z;
  c13_Reserve : bytes
}.

Definition Cmd13IDRecord_Build (r : Cmd13IDRecord) : res bytes :=
  _ ← fail_if ((SlotIndex r =? 0) || (50000 <? SlotIndex r))
        (Errorf "cmd 13: slot out of range: %d" [AZ (SlotIndex r)]);
  _ ← fail_if (64 <? Group r) (Errorf "cmd 13: group out of range: %d" [AZ (Group r)]);
  _ ← fail_if (negb (IsCmd13IDTypeValid (IDType r)))
        (Errorf "cmd 13: id type out of range: %d" [AZ (IDType r)]);
  idBytes ← wrap "cmd 13: id: %w" [] (fixedASCII (ID r) 10);
  let out := replicate Cmd13RecordSize 0 in
  let out := blit cmd13OffSlot 2 (le_bytes 2 (SlotIndex r)) out in
  let out := blit cmd13OffID 10 idBytes out in
  let out := <[cmd13OffGroup := Group r]> out in
  let out := blit cmd13OffBanDate 4 (le_bytes 4 (BanDate r)) out in
  let out := blit cmd13OffLifetime 2 (le_bytes 2 (LifetimeMinutes r)) out in
  let out := <[cmd13OffIDType := IDType r]> out in
  let out := blit cmd13OffReserve 12 (c13_Reserve r) out in
  Ok out.

Record Cmd13SyncIDStructuredPayload := { c13s_Timestamp : Z; c13s_Records : list Cmd13IDRecord }.

Definition Cmd13SyncIDStructuredPayload_Build (p : Cmd13SyncIDStructuredPayload) : res bytes :=
  buildSync 13 "cmd 13: records count out of range: %d" 250 Cmd13RecordSize
    (fun i rec => wrap "cmd 13: record %d: %w" [AZ i] (Cmd13IDRecord_Build rec))
    (c13s_Timestamp p) (c13s_Records p).

Record Cmd14SyncSchedulePayload := { c14_Timestamp : Z; c14_RawRecords : list bytes }.

Definition Cmd14SyncSchedulePayload_Build (p : Cmd14SyncSchedulePayload) : res bytes :=
  buildSync 14 "cmd 14: records count out of range: %d" 64 32
    (rawRecord "cmd 14: record %d size must be 32" 32) (c14_Timestamp p) (c14_RawRecords p).

Record Cmd14ScheduleRecord := {
  c14_Slot : Z;
  StartHour : Z;
  StartMinute : Z;
  EndHour : Z;
  EndMinute : Z;
  c14_Flags : bytes;
  Scenes : bytes;
  HolidayLogic : Z;
  c14_Reserve : bytes
}.

Definition Cmd14ScheduleRecord_Build (r : Cmd14ScheduleRecord) : res bytes :=
  let out := replicate Cmd14RecordSize 0 in
  let out := <[cmd14OffSlot := c14_Slot r]> out in
  let out := <[cmd14OffStartHour := StartHour r]> out in
  let out := <[cmd14OffStartMinute := StartMinute r]> out in
  let out := <[cmd14OffEndHour := EndHour r]> out in
  let out := <[cmd14OffEndMinute := EndMinute r]> out in
  let out := blit cmd14OffFlags 8 (c14_Flags r) out in
  let out := blit cmd14OffScenes 8 (Scenes r) out in
  let out := <[cmd14OffHolidayLogic := HolidayLogic r]> out in
  let out := blit cmd14OffReserve 10 (c14_Reserve r) out in
  let raw := blit 0 Cmd14RecordSize out (replicate Cmd14RecordSize 0) in
  let p := replicate (5 + Cmd14RecordSize) 0 in
  let p := <[4%nat := 1]> p in
  let p := blit 5 Cmd14RecordSize raw p in
  _ ← ValidateServerCommandPayload 14 p;
  Ok out.

Record Cmd14SyncScheduleStructuredPayload := {
  c14s_Timestamp : Z;
  c14s_Records : list Cmd14ScheduleRecord
}.

Definition Cmd14SyncScheduleStructuredPayload_Build (p : Cmd14SyncScheduleStructuredPayload) : res bytes :=
  buildSync 14 "cmd 14: records count out of range: %d" 64 Cmd14RecordSize
    (fun i rec => wrap "cmd 14: record %d: %w" [AZ i] (Cmd14ScheduleRecord_Build rec))
    (c14s_Timestamp p) (c14s_Records p).

Record Cmd15SyncGroupPayload := { c15_Timestamp : Z; c15_RawRecords : list bytes }.

Definition Cmd15SyncGroupPayload_Build (p : Cmd15SyncGroupPayload) : res bytes :=
  buildSync 15 "cmd 15: records count out of range: %d" 64 16
    (rawRecord "cmd 15: record %d size must be 16" 16) (c15_Timestamp p) (c15_RawRecords p).

Record Cmd15GroupRecord := {
  c15_Slot : Z;
  Schedule : Z;
  Permissions : bytes;
  c15_Reserve : bytes
}.

Definition Cmd15GroupRecord_Build (r : Cmd15GroupRecord) : res bytes :=
  let out := replicate Cmd15RecordSize 0 in
  let out := <[cmd15OffSlot := c15_Slot r]> out in
  let out := <[cmd15OffSchedule := Schedule r]> out in
  let out := blit cmd15OffPermFlags 8 (Permissions r) out in
  let out := blit cmd15OffReserve 6 (c15_Reserve r) out in
  let p := replicate (5 + Cmd15RecordSize) 0 in
  let p := <[4%nat := 1]> p in
  let p := blit 5 Cmd15RecordSize out p in
  _ ← ValidateServerCommandPayload 15 p;
  Ok out.

Record Cmd15SyncGroupStructuredPayload := {
  c15s_Timestamp : Z;
  c15s_Records : list Cmd15GroupRecord
}.

Definition Cmd15SyncGroupStructuredPayload_Build (p : Cmd15SyncGroupStructuredPayload) : res bytes :=
  buildSync 15 "cmd 15: records count out of range: %d" 64 Cmd15RecordSize
    (fun i rec => wrap "cmd 15: record %d: %w" [AZ i] (Cmd15GroupRecord_Build rec))
    (c15s_Timestamp p) (c15s_Records p).

Record Cmd16SyncHolidayPayload := { c16_Timestamp : Z; Days : list Z }.

Definition Cmd16SyncHolidayPayload_Build (p : Cmd16SyncHolidayPayload) : res bytes :=
  buildSync 16 "cmd 16: days count out of range: %d" 255 4
    (fun _ d => Ok (le_bytes 4 d)) (c16_Timestamp p) (Days p).

(** ** Commands 18 to 27 *)

Record Cmd18CRCBlockPayload := { c18_Block : Z }.

Definition Cmd18CRCBlockPayload_Build (p : Cmd18CRCBlockPayload) : res bytes :=
  validated 18 [c18_Block p].

Record Cmd19StartFWPayload := {
  FirmwareNumber : Z;
  BuildTimestamp : Z;
  FileSize : Z;
  FileCRC : Z;
  BlockCount : Z
}.

Definition Cmd19StartFWPayload_Build (p : Cmd19StartFWPayload) : res bytes :=
  _ ← fail_if (FileSize p =? 0) (Errorf "cmd 19: file size cannot be 0" []);
  _ ← fail_if (FileCRC p =? 0) (Errorf "cmd 19: file crc cannot be 0" []);
  let blockCount := if BlockCount p =? 0 then FWBlockCountForSize (FileSize p) else BlockCount p in
  _ ← fail_if (negb (blockCount =? FWBlockCountForSize (FileSize p)))
        (Errorf "cmd 19: block count does not match file size" []);
  let out := replicate 16 0 in
  let out := blit 0 2 (le_bytes 2 (FirmwareNumber p)) out in
  let out := blit 2 4 (le_bytes 4 (BuildTimestamp p)) out in
  let out := blit 6 4 (le_bytes 4 (FileSize p)) out in
  let out := blit 10 4 (le_bytes 4 (FileCRC p)) out in
  let out := blit 14 2 (le_bytes 2 blockCount) out in
  validated 19 out.

Record Cmd20FWBlockPayload := { c20_BlockNumber : Z; c20_Data : bytes }.

Definition Cmd20FWBlockPayload_Build (p : Cmd20FWBlockPayload) : res bytes :=
  _ ← fail_if (negb (len (c20_Data p) =? 1024)) (Errorf "cmd 20: data must be 1024 bytes" []);
  let out := replicate 1026 0 in
  let out := blit 0 2 (le_bytes 2 (c20_BlockNumber p)) out in
  let out := blit 2 1024 (c20_Data p) out in
  validated 20 out.

Record Cmd23SetTimePayload := { c23_ServerTime : Z }.

Definition Cmd23SetTimePayload_Build (p : Cmd23SetTimePayload) : res bytes :=
  validated 23 (blit 0 4 (le_bytes 4 (c23_ServerTime p)) (replicate 4 0)).

Record Cmd24AckPayload := { c24_CommandSeq : Z; c24_Code : Z }.

Definition Cmd24AckPayload_Build (p : Cmd24AckPayload) : res bytes :=
  validated 24 [c24_CommandSeq p; c24_Code p].

Record Cmd27CustomPayload := { CustomCommand : Z; Argument : bytes }.

Definition Cmd27CustomPayload_Build (p : Cmd27CustomPayload) : res bytes :=
  _ ← fail_if (0xFFFF <? len (Argument p)) (Errorf "cmd 27: argument too large" []);
  let out := replicate (3 + length (Argument p)) 0 in
  let out := <[0%nat := CustomCommand p]> out in
  let out := blit 1 2 (le_bytes 2 (u16 (len (Argument p)))) out in
  let out := blit 3 (length (Argument p)) (Argument p) out in
  validated 27 out.

Record Cmd25BindingResponsePayload := {
  ErrorCode : Z;
  ObjectNumber : Z;
  ObjectNumberRaw : bytes;
  ObjectName : string;
  ControllerName : string;
  AdminPhone : string
}.

Definition Cmd25BindingResponsePayload_Build (p : Cmd25BindingResponsePayload) : res bytes :=
  _ ← fail_if (negb (ObjectNumber p =? 0) && (0 <? len (ObjectNumberRaw p)))
        (Errorf "cmd 25: use either ObjectNumber or ObjectNumberRaw, not both" []);
  _ ← fail_if (8 <? len (ObjectNumberRaw p))
        (Errorf "cmd 25: object number too long: %d" [AZ (len (ObjectNumberRaw p))]);
  name ← wrap "cmd 25: object name: %w" [] (fixedASCII (ObjectName p) 128);
  controller ← wrap "cmd 25: controller name: %w" [] (fixedASCII (ControllerName p) 128);
  phone ← wrap "cmd 25: admin phone: %w" [] (fixedASCII (AdminPhone p) 16);
  let out := replicate 281 0 in
  let out := <[0%nat := ErrorCode p]> out in
  let out := if 0 <? len (ObjectNumberRaw p)
             then blit 1 8 (ObjectNumberRaw p) out
             else blit 1 8 (le_bytes 8 (ObjectNumber p)) out in
  let out := blit 9 128 name out in
  let out := blit 137 128 controller out in
  let out := blit 265 16 phone out in
  validated 25 out.

Definition BuildEmptyPayload (commandID : Z) : res bytes :=
  switch commandID
    [([9; 10; 17; 21; 22], _ ← ValidateServerCommandPayload commandID []; Ok [])]
    (Err (Errorf "command %d does not use empty payload builder" [AZ commandID])).

(** ** The wire layouts *)

(** A string field, zero-padded to its width. *)
Definition padded (size : nat) (s : string) : bytes :=
  bytes_of_string s ++ replicate (size - length (bytes_of_string s)) 0.

Definition ascii_field (size : nat) (s : string) : Prop :=
  (length (bytes_of_string s) <= size)%nat /\ Forall (fun b => b <= 127) (bytes_of_string s).

(** A synchronisation payload. *)
Definition sync_bytes (timestamp : Z) (recs : list bytes) : bytes :=
  le_bytes 4 timestamp ++ [len recs] ++ concat recs.

(** The ranges of the Go types of a command-13 record. *)
Definition wf_Cmd13IDRecord (r : Cmd13IDRecord) : Prop :=
  0 <= SlotIndex r < 2 ^ 16 /\ 0 <= Group r < 256 /\ 0 <= BanDate r < 2 ^ 32
  /\ 0 <= LifetimeMinutes r < 2 ^ 16 /\ 0 <= IDType r < 256
  /\ length (c13_Reserve r) = 12%nat /\ wf_bytes (c13_Reserve r).

Definition cmd13_bytes (r : Cmd13IDRecord) : bytes :=
  le_bytes 2 (SlotIndex r) ++ padded 10 (ID r) ++ [Group r] ++ le_bytes 4 (BanDate r)
    ++ le_bytes 2 (LifetimeMinutes r) ++ [IDType r] ++ c13_Reserve r.

Definition cmd13_in_range (r : Cmd13IDRecord) : Prop :=
  1 <= SlotIndex r <= 50000 /\ Group r <= 64 /\ IDType r <= 7 /\ ascii_field 10 (ID r).

Definition wf_Cmd14ScheduleRecord (r : Cmd14ScheduleRecord) : Prop :=
  wf_bytes [c14_Slot r; StartHour r; StartMinute r; EndHour r; EndMinute r; HolidayLogic r]
  /\ length (c14_Flags r) = 8%nat /\ wf_bytes (c14_Flags r)
  /\ length (Scenes r) = 8%nat /\ wf_bytes (Scenes r)
  /\ length (c14_Reserve r) = 10%nat /\ wf_bytes (c14_Reserve r).

Definition cmd14_bytes (r : Cmd14ScheduleRecord) : bytes :=
  [c14_Slot r; StartHour r; StartMinute r; EndHour r; EndMinute r]
    ++ c14_Flags r ++ Scenes r ++ [HolidayLogic r] ++ c14_Reserve r.

Definition cmd14_in_range (r : Cmd14ScheduleRecord) : Prop :=
  1 <= c14_Slot r <= 64 /\ StartHour r <= 23 /\ EndHour r <= 23 /\ StartMinute r <= 59
  /\ EndMinute r <= 59 /\ Forall (fun b => b = 0 \/ b = 1) (c14_Flags r)
  /\ Forall (fun b => b <= 64) (Scenes r) /\ HolidayLogic r <= 3.

Definition wf_Cmd15GroupRecord (r : Cmd15GroupRecord) : Prop :=
  wf_bytes [c15_Slot r; Schedule r]
  /\ length (Permissions r) = 8%nat /\ wf_bytes (Permissions r)
  /\ length (c15_Reserve r) = 6%nat /\ wf_bytes (c15_Reserve r).

Definition cmd15_bytes (r : Cmd15GroupRecord) : bytes :=
  [c15_Slot r; Schedule r] ++ Permissions r ++ c15_Reserve r.

Definition cmd15_in_range (r : Cmd15GroupRecord) : Prop :=
  1 <= c15_Slot r <= 64 /\ Schedule r <= 64 /\ Forall (fun b => b = 0 \/ b = 1) (Permissions r).

(** ** Writing into a zeroed buffer *)

Lemma blit_zero off n src d k g :
  off = (length d + g)%nat -> length src = n -> (g + n <= k)%nat ->
  blit off n src (d ++ replicate k 0) = (d ++ replicate g 0 ++ src) ++ replicate (k - (g + n)) 0.
Proof.
  intros -> Hn Hk. unfold blit. rewrite Hn, Nat.min_id.
  rewrite take_app_add, <- Nat.add_assoc, drop_app_add.
  rewrite take_replicate, firstn_all2 by lia.
  replace (g `min` k)%nat with g by lia. rewrite drop_replicate. by rewrite <- !app_assoc.
Qed.

Lemma insert_zero i v d k g :
  i = (length d + g)%nat -> (g < k)%nat ->
  <[i := v]> (d ++ replicate k 0) = (d ++ replicate g 0 ++ [v]) ++ replicate (k - S g) 0.
Proof.
  intros -> Hk. rewrite insert_app_r.
  replace k with (g + S (k - S g))%nat at 1 by lia.
  rewrite replicate_add, insert_app_r_alt by (rewrite length_replicate; lia).
  rewrite length_replicate, Nat.sub_diag. cbn. by rewrite <- !app_assoc.
Qed.

Lemma fillLoop_ok bad err s i d k out :
  i = length d -> (length s <= k)%nat ->
  fillLoop bad err s i (d ++ replicate k 0) = Ok out <->
  Forall (fun b => bad b = false) s /\ out = d ++ s ++ replicate (k - length s) 0.
Proof.
  revert i d k. induction s as [|b s IH]; intros i d k Hi Hk; cbn [fillLoop length] in *.
  - rewrite Nat.sub_0_r. split; [intros [= <-]; by split; [constructor|]|by intros [_ ->]].
  - rewrite Forall_cons. destruct (bad b); [naive_solver|].
    rewrite (insert_zero _ _ _ _ 0) by lia. cbn [replicate app].
    rewrite IH by (rewrite ?length_app; cbn; lia). rewrite <- app_assoc. cbn.
    replace (k - 1 - length s)%nat with (k - S (length s))%nat by lia. tauto.
Qed.

Lemma fillLoop_zeros bad err s k out :
  (length s <= k)%nat ->
  fillLoop bad err s 0 (replicate k 0) = Ok out <->
  Forall (fun b => bad b = false) s /\ out = s ++ replicate (k - length s) 0.
Proof. intros. by apply (fillLoop_ok _ _ _ _ []). Qed.

Lemma fixedASCII_ok s size out :
  fixedASCII s size = Ok out <-> ascii_field size s /\ out = padded size s.
Proof.
  unfold fixedASCII, ascii_field, padded. rewrite bind_unit_ok, fail_if_ok, Z.ltb_ge. unfold len.
  destruct (decide (length (bytes_of_string s) <= size)%nat); [|intuition lia].
  rewrite fillLoop_zeros by lia.
  rewrite (Forall_iff _ _ (fun b => b <= 127)) by (cbn; lia).
  intuition lia.
Qed.

Lemma fixedDigits_ok s size out :
  fixedDigits s size = Ok out <->
  length (bytes_of_string s) = size /\ Forall (fun b => 48 <= b <= 57) (bytes_of_string s)
  /\ out = bytes_of_string s.
Proof.
  unfold fixedDigits. rewrite bind_unit_ok, fail_if_ok, negb_false_iff, Z.eqb_eq. unfold len.
  destruct (decide (length (bytes_of_string s) = size)) as [<-|]; [|intuition lia].
  rewrite fillLoop_zeros, Nat.sub_diag, app_nil_r by lia.
  rewrite (Forall_iff _ _ (fun b => 48 <= b <= 57)) by (cbn; lia).
  intuition lia.
Qed.

Lemma length_padded size s : ascii_field size s -> length (padded size s) = size.
Proof. intros [? _]. unfold padded. rewrite length_app, length_replicate. lia. Qed.

Lemma wf_padded size s : wf_bytes (padded size s).
Proof.
  apply wf_bytes_app. split; [apply wf_bytes_of_string|]. by apply Forall_replicate.
Qed.

#[export] Hint Resolve wf_padded : go.

Lemma validated_ok commandID out x :
  validated commandID out = Ok x <-> ValidateServerCommandPayload commandID out = Ok tt /\ x = out.
Proof. unfold validated. rewrite bind_unit_ok. intuition congruence. Qed.

Lemma boolToByte_flag b : boolToByte b = 0 \/ boolToByte b = 1.
Proof. destruct b; cbn; auto. Qed.

(** Collapse the writes into a zeroed buffer to its layout. *)
Ltac buf_len :=
  repeat first
    [rewrite length_app | rewrite length_replicate | rewrite length_le_bytes
    |rewrite length_padded by done | progress cbn [app length]];
  try done; try lia.

Ltac layout :=
  repeat first
    [rewrite (blit_zero _ _ _ _ _ 0) by buf_len
    |rewrite (insert_zero _ _ _ _ 0) by buf_len];
  cbn [replicate app Nat.sub Nat.add]; rewrite <- ?app_assoc; cbn [app]; rewrite ?app_nil_r.

Lemma copyRecords_ok {A} (build : Z -> A -> res bytes) size recs bs i d k out :
  Forall2 (fun r b => forall j, build j r = Ok b) recs bs ->
  Forall (fun b => length b = size) bs -> k = (length recs * size)%nat ->
  copyRecords build size recs i (length d) (d ++ replicate k 0) = Ok out <-> out = d ++ concat bs.
Proof.
  intros Hb. revert i d k. induction Hb as [|r b recs bs Hr _ IH]; intros i d k Hs ->.
  - cbn. split; [by intros [= <-]|by intros ->].
  - apply Forall_cons in Hs as [Hl Hs]. cbn [copyRecords]. rewrite Hr. cbn [mbind res_bind].
    rewrite (blit_zero _ _ _ _ _ 0) by (cbn; lia). cbn [replicate app].
    replace (length d + size)%nat with (length (d ++ b)) by (rewrite length_app; lia).
    rewrite IH by (done || cbn; lia). by rewrite <- app_assoc.
Qed.

Lemma copyRecords_built {A} (build : Z -> A -> res bytes) size recs i off buf out :
  copyRecords build size recs i off buf = Ok out ->
  Forall (fun r => exists j b, build j r = Ok b) recs.
Proof.
  revert i off buf. induction recs as [|r recs IH]; intros i off buf H; [constructor|].
  cbn in H. apply bind_ok in H as (b & Hb & H). constructor; eauto.
Qed.

(** ** Records *)

(** The first write goes into the untouched buffer. *)
Lemma blit_zeros n src k :
  length src = n -> (n <= k)%nat -> blit 0 n src (replicate k 0) = src ++ replicate (k - n) 0.
Proof. intros. by apply (blit_zero 0 n src [] k 0). Qed.

Lemma insert_zeros v k : (0 < k)%nat -> <[0%nat := v]> (replicate k 0) = [v] ++ replicate (k - 1) 0.
Proof. intros. by apply (insert_zero 0 v [] k 0). Qed.

(** Evaluate passed guards and successful sub-builders. *)
Ltac run_guards := repeat first
  [progress cbn [mbind res_bind wrap]
  |rewrite (proj2 (fail_if_ok _ _ tt)) by (rewrite ?orb_false_iff, ?negb_false_iff, ?Z.eqb_neq,
      ?Z.eqb_eq, ?Z.leb_le, ?Z.ltb_ge; unfold len; lia)
  |match goal with H : ascii_field ?n ?s |- context [fixedASCII ?s ?n] =>
     rewrite (proj2 (fixedASCII_ok s n _) (conj H eq_refl)) end].

Lemma Cmd13IDRecord_Build_bytes r :
  wf_Cmd13IDRecord r -> cmd13_in_range r -> Cmd13IDRecord_Build r = Ok (cmd13_bytes r).
Proof.
  intros (Hs & Hg & Hb & Hl & Ht & Hr & _) (Hs' & Hg' & Ht' & Ha).
  unfold Cmd13IDRecord_Build, IsCmd13IDTypeValid. run_guards.
  unfold Cmd13RecordSize, cmd13OffSlot, cmd13OffID, cmd13OffGroup, cmd13OffBanDate,
    cmd13OffLifetime, cmd13OffIDType, cmd13OffReserve.
  rewrite (blit_zeros 2) by buf_len. layout. done.
Qed.

Lemma Cmd13IDRecord_Build_ok r out :
  wf_Cmd13IDRecord r ->
  Cmd13IDRecord_Build r = Ok out <-> cmd13_in_range r /\ out = cmd13_bytes r.
Proof.
  intros Hwf. split.
  - intros H. assert (cmd13_in_range r).
    { unfold Cmd13IDRecord_Build, IsCmd13IDTypeValid in H. destruct Hwf as (? & _). res_inv. guards.
      rewrite fixedASCII_ok in *. unfold cmd13_in_range. destruct_and!. split_and!; done || lia. }
    split; [done|]. rewrite Cmd13IDRecord_Build_bytes in H by done. congruence.
  - intros [? ->]. by apply Cmd13IDRecord_Build_bytes.
Qed.

(** ** Synchronisation payloads *)

Lemma concat_records_inj (size : nat) (l1 l2 : list bytes) :
  length l1 = length l2 ->
  Forall (fun r => length r = size) l1 -> Forall (fun r => length r = size) l2 ->
  concat l1 = concat l2 -> l1 = l2.
Proof.
  revert l2. induction l1 as [|a l1 IH]; intros [|b l2] Hl H1 H2 He; try done.
  apply Forall_cons in H1 as [Ha H1]. apply Forall_cons in H2 as [Hb H2]. cbn in *.
  apply app_inj_1 in He as [-> He]; [|lia]. f_equal. apply IH; done || lia.
Qed.

Lemma sync_layout_records (max size : nat) (layout : bytes -> Prop) ts recs :
  length ts = 4%nat -> Forall (fun r => length r = size) recs ->
  (forall r, layout r -> length r = size) ->
  sync_layout max layout (ts ++ [len recs] ++ concat recs) <->
  (1 <= length recs <= max)%nat /\ Forall layout recs.
Proof.
  intros Hts Hs Hlay. split.
  - intros (ts' & recs' & He & Hts' & Hn & Hf).
    apply app_inj_1 in He as [<- He]; [|lia]. cbn in He. injection He as Hlen He.
    unfold len in Hlen. apply (concat_records_inj size) in He as ->; [done|lia|done|].
    eapply Forall_impl; [exact Hf|]. done.
  - intros [Hn Hf]. by exists ts, recs.
Qed.

Lemma wf_concat recs : Forall wf_bytes recs -> wf_bytes (concat recs).
Proof. induction 1; cbn; [constructor|]. by apply wf_bytes_app. Qed.

Lemma wf_sync_bytes ts recs :
  (length recs < 256)%nat -> Forall wf_bytes recs -> wf_bytes (sync_bytes ts recs).
Proof.
  intros Hn Hr. unfold sync_bytes. rewrite !wf_bytes_app. split_and!; [apply wf_le_bytes| |by apply wf_concat].
  apply Forall_singleton. unfold is_byte, len. lia.
Qed.

(** What a synchronisation builder does, from what its record builder does. *)
Lemma buildSync_ok {A} commandID countErr (max size : nat) (build : Z -> A -> res bytes)
    (good : A -> Prop) (enc : A -> bytes) (layout : bytes -> Prop) ts recs out :
  (max < 256)%nat ->
  (forall p, wf_bytes p ->
    ValidateServerCommandPayload commandID p = Ok tt <-> sync_layout max layout p) ->
  (forall r, layout r -> length r = size) ->
  Forall (fun r => (forall i b, build i r = Ok b <-> good r /\ b = enc r)
    /\ (good r -> length (enc r) = size /\ wf_bytes (enc r))) recs ->
  buildSync commandID countErr (Z.of_nat max) size build ts recs = Ok out <->
  (1 <= length recs <= max)%nat /\ Forall good recs /\ Forall layout (map enc recs)
  /\ out = sync_bytes ts (map enc recs).
Proof.
  intros Hmax Hval Hlay Hb. unfold buildSync. rewrite bind_unit_ok, fail_if_ok.
  rewrite orb_false_iff, !Z.ltb_ge. unfold len at 1 2.
  destruct (decide (1 <= length recs <= max)%nat) as [Hn|]; [|intuition lia].
  assert (Forall good recs -> Forall (fun b => length b = size) (map enc recs)
    /\ Forall wf_bytes (map enc recs)) as Henc.
  { intros Hg. rewrite !Forall_fmap, !Forall_forall in *. split; intros r Hr; apply (Hb r Hr); auto. }
  assert (Forall good recs -> copyRecords build size recs 0 5
    (<[4%nat := u8 (len recs)]> (blit 0 4 (le_bytes 4 ts) (replicate (5 + length recs * size) 0)))
    = Ok (sync_bytes ts (map enc recs))) as Hcopy.
  { intros Hg. rewrite (blit_zeros 4), (insert_zero _ _ _ _ 0) by buf_len. cbn [replicate app].
    replace (u8 (len recs)) with (len (map enc recs))
      by (unfold len, u8; rewrite length_map, Z.mod_small; lia).
    rewrite (copyRecords_ok _ _ _ (map enc recs) _ (le_bytes 4 ts ++ [len (map enc recs)])).
    - unfold sync_bytes. by rewrite <- app_assoc.
    - apply Forall2_fmap_r, Forall_Forall2_diag. rewrite Forall_forall in *.
      intros r Hr j. apply (Hb r Hr). split; [by apply Hg|done].
    - by apply Henc.
    - lia. }
  split.
  - intros [_ (buf & Hc & Hv)%bind_ok]. assert (Forall good recs) as Hg.
    { pose proof (copyRecords_built _ _ _ _ _ _ _ Hc) as Hbuilt. rewrite Forall_forall in *.
      intros r Hr. destruct (Hbuilt r Hr) as (j & b & Hjb). by apply (Hb r Hr) in Hjb as [? _]. }
    rewrite Hcopy in Hc by done. injection Hc as <-. apply validated_ok in Hv as [Hv ->].
    split_and!; try (done || lia).
    apply Hval in Hv; [|apply wf_sync_bytes; [rewrite length_map; lia|]].
    + unfold sync_bytes in Hv. rewrite (sync_layout_records max size) in Hv; [by destruct Hv|apply length_le_bytes| |done].
      by apply Henc.
    + by apply Henc.
  - intros (_ & Hg & Hl & ->). split; [lia|]. rewrite Hcopy by done. cbn [mbind res_bind].
    apply validated_ok. split; [|done]. apply Hval.
    + apply wf_sync_bytes; [rewrite length_map; lia|].
      by apply Henc.
    + apply (sync_layout_records max size); [apply length_le_bytes| |done|by rewrite length_map].
      by apply Henc.
Qed.

(** A record in a command frame of its own. *)
Lemma validate_single commandID (max size : nat) layout rec :
  (forall p, wf_bytes p ->
    ValidateServerCommandPayload commandID p = Ok tt <-> sync_layout max layout p) ->
  (forall r, layout r -> length r = size) -> (1 <= max)%nat ->
  wf_bytes rec -> length rec = size ->
  ValidateServerCommandPayload commandID (replicate 4 0 ++ [1] ++ rec) = Ok tt <-> layout rec.
Proof.
  intros Hval Hlay Hmax Hwf Hl. rewrite Hval.
  - pose proof (sync_layout_records max size layout (replicate 4 0) [rec]) as Hs.
    cbn [concat length] in Hs. rewrite app_nil_r in Hs. unfold len in Hs. cbn in Hs |- *. rewrite Hs.
    + rewrite Forall_singleton. intuition lia.
    + done.
    + by apply Forall_singleton.
    + done.
  - rewrite !wf_bytes_app. split_and!; [by apply Forall_replicate|by apply Forall_singleton|done].
Qed.

Lemma single_frame size rec :
  length rec = size ->
  blit 5 size rec (<[4%nat := 1]> (replicate (5 + size) 0)) = replicate 4 0 ++ [1] ++ rec.
Proof.
  intros Hr. change (replicate (5 + size) 0) with ([] ++ replicate (5 + size) 0).
  rewrite (insert_zero 4 1 [] _ 4) by (cbn; lia).
  rewrite (blit_zero _ _ _ _ _ 0) by (done || cbn; lia).
  replace (5 + size - 5 - (0 + size))%nat with 0%nat by lia. cbn. by rewrite app_nil_r.
Qed.

Lemma validate13 p :
  wf_bytes p -> ValidateServerCommandPayload 13 p = Ok tt <-> sync_layout 250 cmd13_layout p.
Proof. apply (ValidateServerCommandPayload_ok 13). Qed.

Lemma validate14 p :
  wf_bytes p -> ValidateServerCommandPayload 14 p = Ok tt <-> sync_layout 64 cmd14_layout p.
Proof. apply (ValidateServerCommandPayload_ok 14). Qed.

Lemma validate15 p :
  wf_bytes p -> ValidateServerCommandPayload 15 p = Ok tt <-> sync_layout 64 cmd15_layout p.
Proof. apply (ValidateServerCommandPayload_ok 15). Qed.

Lemma cmd14_bytes_wf r :
  wf_Cmd14ScheduleRecord r -> length (cmd14_bytes r) = Cmd14RecordSize /\ wf_bytes (cmd14_bytes r).
Proof.
  unfold wf_Cmd14ScheduleRecord, cmd14_bytes, wf_bytes, Cmd14RecordSize.
  rewrite !Forall_cons, Forall_nil, !length_app, !Forall_app, !Forall_cons, Forall_nil. cbn [length].
  intros H. destruct_and!. split_and!; done || lia.
Qed.

Lemma cmd14_bytes_layout r :
  wf_Cmd14ScheduleRecord r -> cmd14_layout (cmd14_bytes r) <-> cmd14_in_range r.
Proof.
  intros Hwf. destruct (cmd14_bytes_wf r Hwf) as [Hl Hw].
  rewrite <- (checkCmd14Record_ok 0 _ tt) by done. unfold cmd14_bytes. cbn [app].
  unfold wf_Cmd14ScheduleRecord in Hwf. destruct_and!. by apply checkCmd14Record_fields.
Qed.

Lemma Cmd14ScheduleRecord_Build_ok r out :
  wf_Cmd14ScheduleRecord r ->
  Cmd14ScheduleRecord_Build r = Ok out <-> cmd14_in_range r /\ out = cmd14_bytes r.
Proof.
  intros Hwf. destruct (cmd14_bytes_wf r Hwf) as [Hl Hw].
  rewrite <- (cmd14_bytes_layout r) by done.
  rewrite <- (validate_single 14 64 Cmd14RecordSize _ _ validate14 cmd14_length) by (done || lia).
  unfold wf_Cmd14ScheduleRecord in Hwf. destruct_and!. unfold Cmd14ScheduleRecord_Build.
  cbv zeta. match goal with |- context [_ ≫= (fun _ => Ok ?out)] =>
    assert (out = cmd14_bytes r) as -> end.
  { unfold Cmd14RecordSize, cmd14OffSlot, cmd14OffStartHour, cmd14OffEndHour, cmd14OffStartMinute,
      cmd14OffEndMinute, cmd14OffFlags, cmd14OffScenes, cmd14OffHolidayLogic, cmd14OffReserve.
    rewrite insert_zeros by lia. layout. done. }
  rewrite blit_zeros, Nat.sub_diag, app_nil_r, single_frame by (done || lia).
  rewrite bind_unit_ok. intuition congruence.
Qed.

Lemma cmd15_bytes_wf r :
  wf_Cmd15GroupRecord r -> length (cmd15_bytes r) = Cmd15RecordSize /\ wf_bytes (cmd15_bytes r).
Proof.
  unfold wf_Cmd15GroupRecord, cmd15_bytes, wf_bytes, Cmd15RecordSize.
  rewrite !Forall_cons, Forall_nil, !length_app, !Forall_app, !Forall_cons, Forall_nil. cbn [length].
  intros H. destruct_and!. split_and!; done || lia.
Qed.

Lemma cmd15_bytes_layout r :
  wf_Cmd15GroupRecord r -> cmd15_layout (cmd15_bytes r) <-> cmd15_in_range r.
Proof.
  intros Hwf. destruct (cmd15_bytes_wf r Hwf) as [Hl Hw].
  rewrite <- (checkCmd15Record_ok 0 _ tt) by done. unfold cmd15_bytes. cbn [app].
  unfold wf_Cmd15GroupRecord in Hwf. destruct_and!. by apply checkCmd15Record_fields.
Qed.

Lemma Cmd15GroupRecord_Build_ok r out :
  wf_Cmd15GroupRecord r ->
  Cmd15GroupRecord_Build r = Ok out <-> cmd15_in_range r /\ out = cmd15_bytes r.
Proof.
  intros Hwf. destruct (cmd15_bytes_wf r Hwf) as [Hl Hw].
  rewrite <- (cmd15_bytes_layout r) by done.
  rewrite <- (validate_single 15 64 Cmd15RecordSize _ _ validate15 cmd15_length) by (done || lia).
  unfold wf_Cmd15GroupRecord in Hwf. destruct_and!. unfold Cmd15GroupRecord_Build.
  cbv zeta. match goal with |- context [_ ≫= (fun _ => Ok ?out)] =>
    assert (out = cmd15_bytes r) as -> end.
  { unfold Cmd15RecordSize, cmd15OffSlot, cmd15OffSchedule, cmd15OffPermFlags, cmd15OffReserve.
    rewrite insert_zeros by lia. layout. done. }
  rewrite single_frame by done. rewrite bind_unit_ok. intuition congruence.
Qed.

Lemma cmd13_bytes_wf r :
  wf_Cmd13IDRecord r -> cmd13_in_range r ->
  length (cmd13_bytes r) = Cmd13RecordSize /\ wf_bytes (cmd13_bytes r).
Proof.
  intros Hwf (? & ? & ? & Hid). unfold wf_Cmd13IDRecord in Hwf. destruct_and!.
  unfold cmd13_bytes, Cmd13RecordSize. split; [buf_len|].
  rewrite !wf_bytes_app. split_and!; auto with go; apply Forall_singleton; unfold is_byte; lia.
Qed.

(** A NUL inside an identifier passes the record builder and fails the
    validator. *)
Lemma padded_layout size s :
  ascii_field size s ->
  (exists t n, padded size s = t ++ replicate n 0 /\ Forall (fun b => 1 <= b <= 127) t) <->
  exists t n, bytes_of_string s = t ++ replicate n 0 /\ Forall (fun b => 1 <= b <= 127) t.
Proof.
  intros [Hl Hf]. unfold padded. generalize (size - length (bytes_of_string s))%nat as k. clear Hl.
  induction (bytes_of_string s) as [|b l IH]; intros k.
  - split; intros _; [exists [], O|exists [], k]; by split; [|constructor].
  - apply Forall_cons in Hf as [Hb Hf]. specialize (IH Hf k). split.
    + intros ([|c t] & n & He & Ht).
      * destruct n; [done|]. injection He as -> He. exists [], (S (length l)). split; [|done].
        cbn. f_equal. apply (f_equal (take (length l))) in He.
        rewrite take_app_length, take_replicate in He.
        rewrite He at 1. f_equal. apply (f_equal length) in He. rewrite length_replicate in He. lia.
      * injection He as -> He. apply Forall_cons in Ht as [Hc Ht].
        destruct IH as [(t' & n' & -> & Ht') _]; [by exists t, n|].
        exists (c :: t'), n'. split; [done|]. by constructor.
    + intros (t & n & He & Ht). exists t, (n + k)%nat. rewrite He, replicate_add.
      by rewrite <- app_assoc.
Qed.

(** No byte after a NUL. *)
Definition nul_free (s : string) : Prop :=
  exists t n, bytes_of_string s = t ++ replicate n 0 /\ Forall (fun b => 1 <= b <= 127) t.

Lemma cmd13_bytes_layout r :
  wf_Cmd13IDRecord r -> cmd13_in_range r -> cmd13_layout (cmd13_bytes r) <-> nul_free (ID r).
Proof.
  intros Hwf Hr. destruct (cmd13_bytes_wf r Hwf Hr) as [Hl Hw].
  rewrite <- (checkCmd13Record_ok 0 _ tt) by done. unfold cmd13_bytes. cbn [app].
  destruct Hr as (Hs & Hg & Ht & Hid). unfold wf_Cmd13IDRecord in Hwf. destruct_and!.
  rewrite checkCmd13Record_fields; rewrite ?length_le_bytes, ?length_padded by done; auto with go.
  rewrite u16_le_value, validatePaddedASCII_ok, padded_layout by auto with go lia.
  unfold nul_free. intuition lia.
Qed.


Definition sample_cmd13 : Cmd13SyncIDStructuredPayload :=
  {| c13s_Timestamp := 1700000000;
     c13s_Records := [{| SlotIndex := 7; ID := "CARD42"; Group := 3; BanDate := 0;
                         LifetimeMinutes := 60; IDType := 2; c13_Reserve := replicate 12 0 |}] |}.


(** C34: [Cmd14SyncScheduleStructuredPayload.Build] and
    [Cmd15SyncGroupStructuredPayload.Build] succeed exactly for 1 to 64 records
    with every field in range, and output the timestamp, the record count and
    the records' fields in wire order. *)
Theorem Cmd14_Cmd15_Build_exact (p : Cmd14SyncScheduleStructuredPayload)
    (q : Cmd15SyncGroupStructuredPayload) (out : bytes) :
  Forall wf_Cmd14ScheduleRecord (c14s_Records p) ->
  Forall wf_Cmd15GroupRecord (c15s_Records q) ->
  (Cmd14SyncScheduleStructuredPayload_Build p = Ok out <->
    (1 <= length (c14s_Records p) <= 64)%nat /\ Forall cmd14_in_range (c14s_Records p)
    /\ out = sync_bytes (c14s_Timestamp p) (map cmd14_bytes (c14s_Records p)))
  /\ (Cmd15SyncGroupStructuredPayload_Build q = Ok out <->
    (1 <= length (c15s_Records q) <= 64)%nat /\ Forall cmd15_in_range (c15s_Records q)
    /\ out = sync_bytes (c15s_Timestamp q) (map cmd15_bytes (c15s_Records q))).
Proof.
  intros Hp Hq. split.
  - unfold Cmd14SyncScheduleStructuredPayload_Build.
    rewrite (buildSync_ok 14 _ 64 Cmd14RecordSize _ cmd14_in_range cmd14_bytes cmd14_layout)
      by (first [lia | exact validate14 | exact cmd14_length
        | eapply Forall_impl; [exact Hp|]; intros r Hr; split;
          [intros i b; rewrite wrap_ok; by apply Cmd14ScheduleRecord_Build_ok
          |intros _; by apply cmd14_bytes_wf]]).
    rewrite Forall_fmap. enough (Forall cmd14_in_range (c14s_Records p) ->
      Forall (cmd14_layout ∘ cmd14_bytes) (c14s_Records p)) by tauto.
    rewrite !Forall_forall in *. intros H r Hr. apply cmd14_bytes_layout; auto.
  - unfold Cmd15SyncGroupStructuredPayload_Build.
    rewrite (buildSync_ok 15 _ 64 Cmd15RecordSize _ cmd15_in_range cmd15_bytes cmd15_layout)
      by (first [lia | exact validate15 | exact cmd15_length
        | eapply Forall_impl; [exact Hq|]; intros r Hr; split;
          [intros i b; rewrite wrap_ok; by apply Cmd15GroupRecord_Build_ok
          |intros _; by apply cmd15_bytes_wf]]).
    rewrite Forall_fmap. enough (Forall cmd15_in_range (c15s_Records q) ->
      Forall (cmd15_layout ∘ cmd15_bytes) (c15s_Records q)) by tauto.
    rewrite !Forall_forall in *. intros H r Hr. apply cmd15_bytes_layout; auto.
Qed.

Definition sample_cmd14 : Cmd14SyncScheduleStructuredPayload :=
  {| c14s_Timestamp := 5;
     c14s_Records := [{| c14_Slot := 1; StartHour := 8; StartMinute := 30; EndHour := 18; EndMinute := 0;
                         c14_Flags := [0; 1; 1; 1; 1; 1; 0; 0]; Scenes := replicate 8 64;
                         HolidayLogic := 3; c14_Reserve := replicate 10 0 |}] |}.

Definition sample_cmd15 : Cmd15SyncGroupStructuredPayload :=
  {| c15s_Timestamp := 5;
     c15s_Records := [{| c15_Slot := 64; Schedule := 1; Permissions := replicate 8 1;
                         c15_Reserve := replicate 6 9 |}] |}.

Lemma Cmd14_Cmd15_Build_exact_witness :
  Forall wf_Cmd14ScheduleRecord (c14s_Records sample_cmd14)
  /\ Forall wf_Cmd15GroupRecord (c15s_Records sample_cmd15)
  /\ Forall cmd14_in_range (c14s_Records sample_cmd14).
Proof.
  assert (Forall wf_Cmd14ScheduleRecord (c14s_Records sample_cmd14)) as H1.
  { apply Forall_singleton. repeat split; by apply wf_bytes_check. }
  assert (Forall wf_Cmd15GroupRecord (c15s_Records sample_cmd15)) as H2.
  { apply Forall_singleton. repeat split; by apply wf_bytes_check. }
  split; [exact H1|]. split; [exact H2|].
  by apply (Cmd14_Cmd15_Build_exact sample_cmd14 sample_cmd15
    (sync_bytes 5 (map cmd14_bytes (c14s_Records sample_cmd14))) H1 H2).
Defined.

(** ** Command 12 *)

Definition wf_relay (s : Cmd12RelaySettings) : Prop :=
  length (relay_Flags s) = 8%nat /\ wf_bytes (relay_Flags s)
  /\ wf_bytes [relay_ImpulseSec s; relay_PauseSec s; relay_Repeats s].

Definition wf_Cmd12SettingsRecord (r : Cmd12SettingsRecord) : Prop :=
  0 <= PINCode r < 2 ^ 32
  /\ wf_bytes [NetworkType r; AutoRebootHour r; WiegandType r; Input1Function r; Input2Function r]
  /\ length (Peripherals r) = 8%nat
  /\ Forall (fun p => wf_bytes [per_Address p; per_Type p]) (Peripherals r)
  /\ wf_relay (Relay1 r) /\ wf_relay (Relay2 r)
  /\ length (ReserveA r) = 292%nat /\ wf_bytes (ReserveA r)
  /\ length (ReserveB r) = 101%nat /\ wf_bytes (ReserveB r).

Definition relay_bytes (s : Cmd12RelaySettings) : bytes :=
  relay_Flags s ++ [relay_ImpulseSec s; relay_PauseSec s; relay_Repeats s].

Definition peripheral_bytes (ps : list Cmd12Peripheral) : bytes :=
  concat (map (fun p => [per_Address p; per_Type p]) ps).

Definition cmd12_bytes (r : Cmd12SettingsRecord) : bytes :=
  le_bytes 4 (PINCode r)
  ++ padded 32 (Server1 r) ++ padded 32 (Server2 r) ++ padded 32 (NTPServer r) ++ padded 32 (Operator r)
  ++ [NetworkType r]
  ++ padded 8 (CountryCode r) ++ padded 16 (SimPhone r) ++ padded 8 (USSD r)
  ++ [AutoRebootHour r]
  ++ [boolToByte (ExtendedDebug r); boolToByte (UseVoLTE r);
      boolToByte (Interface485Active r); boolToByte (NTPEnabled r)] ++ replicate 4 0
  ++ [WiegandType r] ++ peripheral_bytes (Peripherals r)
  ++ relay_bytes (Relay1 r) ++ relay_bytes (Relay2 r)
  ++ [Input1Function r; Input2Function r] ++ ReserveA r ++ ReserveB r.

Definition cmd12_strings (r : Cmd12SettingsRecord) : Prop :=
  ascii_field 32 (Server1 r) /\ ascii_field 32 (Server2 r) /\ ascii_field 32 (NTPServer r)
  /\ ascii_field 32 (Operator r) /\ ascii_field 8 (CountryCode r) /\ ascii_field 16 (SimPhone r)
  /\ ascii_field 8 (USSD r).

Definition cmd12_in_range (r : Cmd12SettingsRecord) : Prop :=
  NetworkType r <= 4 /\ AutoRebootHour r <= 23
  /\ Forall (fun b => b <= 1) (relay_Flags (Relay1 r))
  /\ Forall (fun b => b <= 1) (relay_Flags (Relay2 r))
  /\ cmd12_strings r.

Lemma validateRelayFlags_ok flags x : validateRelayFlags flags = Ok x <-> Forall (fun b => b <= 1) flags.
Proof.
  destruct x. unfold validateRelayFlags. generalize 0 as i.
  induction flags as [|f l IH]; intros i; cbn [validateRelayFlagsFrom].
  - split; [constructor|done].
  - rewrite bind_unit_ok, fail_if_ok, IH, Forall_cons, Z.ltb_ge. done.
Qed.

Lemma writeFlags_zero flags off d k :
  off = length d -> (length flags <= k)%nat ->
  writeFlags flags off (d ++ replicate k 0) = (d ++ flags) ++ replicate (k - length flags) 0.
Proof.
  revert off d k. induction flags as [|f l IH]; intros off d k Ho Hk; cbn [writeFlags length] in *.
  - by rewrite app_nil_r, Nat.sub_0_r.
  - rewrite (insert_zero _ _ _ _ 0) by lia. cbn [replicate app].
    rewrite IH by (rewrite ?length_app; cbn; lia). rewrite <- (app_assoc d).
    by replace (k - 1 - length l)%nat with (k - S (length l))%nat by lia.
Qed.

Lemma writeRelay_zero base relay d k :
  base = length d -> length (relay_Flags relay) = 8%nat -> (11 <= k)%nat ->
  writeRelay base relay (d ++ replicate k 0) = (d ++ relay_bytes relay) ++ replicate (k - 11) 0.
Proof.
  intros -> Hf Hk. unfold writeRelay, relay_bytes. rewrite writeFlags_zero by lia.
  rewrite !(insert_zero _ _ _ _ 0) by buf_len. cbn [replicate app]. rewrite Hf, <- !app_assoc.
  by replace (k - 8 - 1 - 1 - 1)%nat with (k - 11)%nat by lia.
Qed.

Lemma length_peripheral_bytes ps : length (peripheral_bytes ps) = (2 * length ps)%nat.
Proof. unfold peripheral_bytes. induction ps as [|p ps IH]; cbn in *; [done|]. rewrite IH. lia. Qed.

Lemma writePeripherals_zero ps off d k :
  off = length d -> (2 * length ps <= k)%nat ->
  writePeripherals ps off (d ++ replicate k 0)
  = (d ++ peripheral_bytes ps) ++ replicate (k - 2 * length ps) 0.
Proof.
  unfold peripheral_bytes.
  revert off d k. induction ps as [|p ps IH]; intros off d k Ho Hk; cbn [writePeripherals length] in *.
  - cbn. by rewrite app_nil_r, Nat.sub_0_r.
  - rewrite !(insert_zero _ _ _ _ 0) by buf_len. cbn [replicate app].
    rewrite IH by buf_len. rewrite <- !app_assoc. cbn [map concat app].
    by replace (k - 1 - 1 - 2 * length ps)%nat with (k - 2 * S (length ps))%nat by lia.
Qed.

Lemma length_relay_bytes s : length (relay_Flags s) = 8%nat -> length (relay_bytes s) = 11%nat.
Proof. intros H. unfold relay_bytes. rewrite length_app, H. done. Qed.

Ltac buf_len12 :=
  repeat first
    [rewrite length_app | rewrite length_replicate | rewrite length_le_bytes
    |rewrite length_padded by done | rewrite length_peripheral_bytes
    |rewrite length_relay_bytes by done | progress cbn [app length]];
  try done; try lia.

Ltac layout12 :=
  repeat first
    [rewrite (blit_zero _ _ _ _ _ 0) by buf_len12
    |rewrite (insert_zero _ _ _ _ 0) by buf_len12
    |rewrite (insert_zero _ _ _ _ 4) by buf_len12
    |rewrite writePeripherals_zero by buf_len12
    |rewrite writeRelay_zero by buf_len12].

Lemma Cmd12SettingsRecord_Build_bytes r :
  wf_Cmd12SettingsRecord r -> cmd12_in_range r -> Cmd12SettingsRecord_Build r = Ok (cmd12_bytes r).
Proof.
  intros Hwf (Hn & Hh & Hr1 & Hr2 & Hs). unfold wf_Cmd12SettingsRecord, wf_relay, cmd12_strings in *.
  destruct_and!. unfold Cmd12SettingsRecord_Build, IsCmd12NetworkTypeValid.
  rewrite (proj2 (validateRelayFlags_ok _ tt) Hr1), (proj2 (validateRelayFlags_ok _ tt) Hr2).
  run_guards. cbv zeta.
  unfold Cmd12RecordSize, cmd12OffPinCode, cmd12OffServer1, cmd12OffServer2, cmd12OffNTPServer,
    cmd12OffOperator, cmd12OffNetworkType, cmd12OffCountryCode, cmd12OffSimPhone, cmd12OffUSSD,
    cmd12OffAutoReboot, cmd12OffSettingsByte, cmd12OffWiegandType, cmd12OffPeripheral,
    cmd12OffRelay1, cmd12OffRelay2, cmd12OffInput1, cmd12OffInput2, cmd12OffReserveA, cmd12OffReserveB.
  rewrite (blit_zeros 4) by buf_len. layout12.
  match goal with |- Ok (_ ++ replicate ?k 0) = _ => replace k with O by lia end.
  cbn [replicate].
  unfold cmd12_bytes. rewrite app_nil_r. cbn [replicate]. rewrite <- !app_assoc. done.
Qed.

Lemma cmd12_bytes_wf r :
  wf_Cmd12SettingsRecord r -> cmd12_in_range r ->
  length (cmd12_bytes r) = Cmd12RecordSize /\ wf_bytes (cmd12_bytes r).
Proof.
  intros Hwf (Hn & Hh & Hr1 & Hr2 & Hs). unfold wf_Cmd12SettingsRecord, wf_relay, cmd12_strings in *.
  destruct_and!. unfold cmd12_bytes. split; [unfold Cmd12RecordSize; buf_len12|].
  assert (forall b, wf_bytes [boolToByte b]) as Hbool by (intros []; by apply wf_bytes_check).
  unfold relay_bytes, wf_bytes in *. rewrite !Forall_app, !Forall_cons in *. destruct_and!.
  split_and!; first
    [done | apply wf_le_bytes | apply wf_padded | eapply Forall_inv, Hbool | by apply Forall_replicate
    |apply wf_concat, Forall_fmap; eapply Forall_impl; [eassumption|done]].
Qed.

Lemma Cmd12SettingsRecord_Build_ok r out :
  wf_Cmd12SettingsRecord r ->
  Cmd12SettingsRecord_Build r = Ok out <-> cmd12_in_range r /\ out = cmd12_bytes r.
Proof.
  intros Hwf. split.
  - intros H. assert (cmd12_in_range r).
    { unfold Cmd12SettingsRecord_Build, IsCmd12NetworkTypeValid in H. res_inv. guards.
      rewrite fixedASCII_ok, ?validateRelayFlags_ok in *. unfold cmd12_in_range, cmd12_strings.
      destruct_and!. split_and!; done || lia. }
    split; [done|]. rewrite Cmd12SettingsRecord_Build_bytes in H by done. congruence.
  - intros [? ->]. by apply Cmd12SettingsRecord_Build_bytes.
Qed.

Lemma field_flags rec l1 m l2 off n :
  rec = l1 ++ m ++ l2 -> off = length l1 -> length m = n ->
  Forall (fun b => b = 0 \/ b = 1) m -> flag_bytes n (take n (drop off rec)).
Proof.
  intros -> -> <- Hm. rewrite drop_app_length, take_app_length. done.
Qed.

Lemma flags_01 l : wf_bytes l -> Forall (fun b => b <= 1) l -> Forall (fun b => b = 0 \/ b = 1) l.
Proof.
  unfold wf_bytes. intros Hw Hl. rewrite Forall_forall in *. intros b Hb. specialize (Hl b Hb).
  apply Hw in Hb. unfold is_byte in Hb. lia.
Qed.

Lemma cmd12_bytes_layout r :
  wf_Cmd12SettingsRecord r -> cmd12_in_range r -> cmd12_layout (cmd12_bytes r).
Proof.
  intros Hwf Hr. destruct (cmd12_bytes_wf r Hwf Hr) as [Hl _]. split; [exact Hl|]. clear Hl.
  destruct Hr as (Hn & Hh & Hr1 & Hr2 & Hs).
  unfold wf_Cmd12SettingsRecord, wf_relay, cmd12_strings in *. destruct_and!.
  match goal with H : wf_bytes [NetworkType r; _; _; _; _] |- _ =>
    unfold wf_bytes, is_byte in H; rewrite !Forall_cons in H end.
  set (strings1 := le_bytes 4 (PINCode r) ++ padded 32 (Server1 r) ++ padded 32 (Server2 r)
    ++ padded 32 (NTPServer r) ++ padded 32 (Operator r)).
  set (strings2 := padded 8 (CountryCode r) ++ padded 16 (SimPhone r) ++ padded 8 (USSD r)).
  set (switches := [boolToByte (ExtendedDebug r); boolToByte (UseVoLTE r);
    boolToByte (Interface485Active r); boolToByte (NTPEnabled r)]).
  set (mid := replicate 4 0 ++ [WiegandType r] ++ peripheral_bytes (Peripherals r)).
  set (tail := [Input1Function r; Input2Function r] ++ ReserveA r ++ ReserveB r).
  assert (cmd12_bytes r = strings1 ++ [NetworkType r] ++ strings2 ++ [AutoRebootHour r] ++ switches
    ++ mid ++ relay_bytes (Relay1 r) ++ relay_bytes (Relay2 r) ++ tail) as ->.
  { unfold cmd12_bytes, strings1, strings2, switches, mid, tail. by rewrite <- !app_assoc. }
  assert (length strings1 = 132%nat) by (unfold strings1; buf_len12).
  assert (length strings2 = 32%nat) by (unfold strings2; buf_len12).
  assert (length mid = 21%nat) by (unfold mid; buf_len12).
  assert (Forall (fun b => b = 0 \/ b = 1) switches).
  { unfold switches. rewrite !Forall_cons, Forall_nil. auto using boolToByte_flag. }
  assert (length switches = 4%nat) as Hsw by done. clearbody strings1 strings2 mid switches tail.
  apply flags_01 in Hr1, Hr2; [|done..].
  split_and!.
  - exists (NetworkType r). split; [|lia]. apply index_ok, (index_at _ strings1 _ _ 132 eq_refl). done.
  - exists (AutoRebootHour r). split; [|lia]. apply index_ok.
    apply (index_at _ (strings1 ++ [NetworkType r] ++ strings2) _
      (switches ++ mid ++ relay_bytes (Relay1 r) ++ relay_bytes (Relay2 r) ++ tail) 165).
    + by rewrite <- !app_assoc.
    + buf_len12.
  - apply (field_flags _ (strings1 ++ [NetworkType r] ++ strings2 ++ [AutoRebootHour r]) switches
      (mid ++ relay_bytes (Relay1 r) ++ relay_bytes (Relay2 r) ++ tail)); try done.
    + by rewrite <- !app_assoc.
    + unfold cmd12OffSettingsByte. buf_len12.
  - apply (field_flags _ (strings1 ++ [NetworkType r] ++ strings2 ++ [AutoRebootHour r] ++ switches ++ mid)
      (relay_Flags (Relay1 r))
      ([relay_ImpulseSec (Relay1 r); relay_PauseSec (Relay1 r); relay_Repeats (Relay1 r)]
        ++ relay_bytes (Relay2 r) ++ tail)); try done.
    + unfold relay_bytes. by rewrite <- !app_assoc.
    + unfold cmd12OffRelay1. buf_len12.
  - apply (field_flags _ (strings1 ++ [NetworkType r] ++ strings2 ++ [AutoRebootHour r] ++ switches ++ mid
        ++ relay_bytes (Relay1 r)) (relay_Flags (Relay2 r))
      ([relay_ImpulseSec (Relay2 r); relay_PauseSec (Relay2 r); relay_Repeats (Relay2 r)] ++ tail)); try done.
    + unfold relay_bytes at 2. by rewrite <- !app_assoc.
    + unfold cmd12OffRelay2. buf_len12.
Qed.


Definition sample_cmd12 : Cmd12SettingsPayload :=
  let relay := {| relay_Flags := [1; 0; 0; 0; 0; 0; 0; 1]; relay_ImpulseSec := 3;
                  relay_PauseSec := 1; relay_Repeats := 2 |} in
  {| c12_Timestamp := 1700000000;
     c12_Record :=
       {| PINCode := 1234; Server1 := "tcp.example.org:15010"; Server2 := ""; NTPServer := "pool.ntp.org";
          Operator := "op"; NetworkType := 4; CountryCode := "+7"; SimPhone := "9001234567";
          USSD := "*100#"; AutoRebootHour := 23; ExtendedDebug := true; UseVoLTE := false;
          Interface485Active := true; NTPEnabled := true; WiegandType := 26;
          Peripherals := replicate 8 {| per_Address := 1; per_Type := 2 |};
          Relay1 := relay; Relay2 := relay; Input1Function := 1; Input2Function := 2;
          ReserveA := replicate 292 0; ReserveB := replicate 101 0 |} |}.


(** ** Firmware *)

Lemma FWBlockCountForSize_cases size :
  0 < size < 2 ^ 32 ->
  (size <= 65535 * 1024 /\ FWBlockCountForSize size = (size + 1023) / 1024)
  \/ (65535 * 1024 < size <= 2 ^ 32 - 1024 /\ FWBlockCountForSize size = 65535)
  \/ (2 ^ 32 - 1024 < size /\ FWBlockCountForSize size = 0).
Proof.
  intros Hs. unfold FWBlockCountForSize, u32, u16. rewrite (proj2 (Z.eqb_neq _ _)) by lia.
  destruct (decide (size < 2 ^ 32 - 1024)).
  - rewrite (Z.mod_small (size + 1024)), (Z.mod_small (size + 1024 - 1)) by lia.
    replace (size + 1024 - 1) with (size + 1023) by lia.
    destruct (Z.ltb_spec 0xFFFF ((size + 1023) / 1024)) as [H|H].
    + right; left. split; [|done].
      assert (65536 <= (size + 1023) / 1024) by lia.
      pose proof (Z.mul_div_le (size + 1023) 1024). lia.
    + left. assert (size <= 65535 * 1024).
      { pose proof (Z.mul_succ_div_gt (size + 1023) 1024). lia. }
      split; [done|]. apply Z.mod_small. split; [apply Z.div_pos; lia|lia].
  - destruct (decide (size = 2 ^ 32 - 1024)) as [->|].
    + right; left. split; [lia|]. by vm_compute.
    + right; right. split; [lia|].
      replace ((size + 1024) mod 2 ^ 32) with (size + 1024 - 2 ^ 32)
        by (apply Z.mod_unique with 1; lia).
      rewrite (Z.mod_small (size + 1024 - 2 ^ 32 - 1)) by lia.
      rewrite (Z.div_small (size + 1024 - 2 ^ 32 - 1)) by lia. done.
Qed.

(** The block count of a firmware file is the least number of 1024-byte
    blocks that hold it, for every size up to 65535 blocks; larger files get
    65535 blocks, which do not hold them, and sizes above [2^32 - 1024] get 0
    because the rounding addition overflows. *)
Lemma FWBlockCountForSize_spec (size : Z) :
  0 < size < 2 ^ 32 ->
  let b := FWBlockCountForSize size in
  (size <= 65535 * 1024 <-> (b - 1) * 1024 < size <= b * 1024)
  /\ (65535 * 1024 < size <= 2 ^ 32 - 1024 -> b = 65535)
  /\ (2 ^ 32 - 1024 < size -> b = 0).
Proof.
  intros Hs b. destruct (FWBlockCountForSize_cases size Hs) as [[Hr He]|[[Hr He]|[Hr He]]];
    subst b; rewrite He.
  - pose proof (Z.mul_div_le (size + 1023) 1024). pose proof (Z.mul_succ_div_gt (size + 1023) 1024).
    split_and!; lia.
  - split_and!; lia.
  - split_and!; lia.
Qed.

Lemma FWBlockCountForSize_spec_witness :
  0 < 3000 < 2 ^ 32 /\ FWBlockCountForSize 3000 = 3 /\ (3 - 1) * 1024 < 3000 <= 3 * 1024.
Proof.
  split; [lia|]. split; [reflexivity|].
  by apply (FWBlockCountForSize_spec 3000 ltac:(lia)).
Defined.

Definition wf_Cmd19StartFWPayload (p : Cmd19StartFWPayload) : Prop :=
  0 <= FirmwareNumber p < 2 ^ 16 /\ 0 <= BuildTimestamp p < 2 ^ 32 /\ 0 <= FileSize p < 2 ^ 32
  /\ 0 <= FileCRC p < 2 ^ 32 /\ 0 <= BlockCount p < 2 ^ 16.

Definition cmd19_bytes (p : Cmd19StartFWPayload) : bytes :=
  le_bytes 2 (FirmwareNumber p) ++ le_bytes 4 (BuildTimestamp p) ++ le_bytes 4 (FileSize p)
  ++ le_bytes 4 (FileCRC p) ++ le_bytes 2 (FWBlockCountForSize (FileSize p)).

(** [Cmd19StartFWPayload.Build] succeeds exactly when the firmware number,
    the size and the checksum are non-zero, the caller's block count is absent
    or right, and the size is at most [2^32 - 1024] (above, the computed count
    is 0 and no payload is accepted); the output carries the computed count. *)
Lemma Cmd19StartFWPayload_Build_exact (p : Cmd19StartFWPayload) (out : bytes) :
  wf_Cmd19StartFWPayload p ->
  Cmd19StartFWPayload_Build p = Ok out <->
  FirmwareNumber p <> 0 /\ 0 < FileSize p <= 2 ^ 32 - 1024 /\ FileCRC p <> 0
  /\ (BlockCount p = 0 \/ BlockCount p = FWBlockCountForSize (FileSize p)) /\ out = cmd19_bytes p.
Proof.
  intros (Hf & Ht & Hs & Hc & Hb). unfold Cmd19StartFWPayload_Build, cmd19_bytes.
  set (n := if BlockCount p =? 0 then FWBlockCountForSize (FileSize p) else BlockCount p).
  cbv zeta. rewrite (blit_zeros 2) by buf_len. layout.
  rewrite !bind_unit_ok, validated_ok, !fail_if_ok, negb_false_iff, !Z.eqb_neq, Z.eqb_eq.
  change (ValidateServerCommandPayload 19) with validateCmd19.
  rewrite validateCmd19_fields by apply length_le_bytes. rewrite !le_value_le_bytes.
  assert (n = FWBlockCountForSize (FileSize p) <->
    BlockCount p = 0 \/ BlockCount p = FWBlockCountForSize (FileSize p)) as Hn.
  { subst n. destruct (Z.eqb_spec (BlockCount p) 0); intuition lia. }
  rewrite <- Hn. clear Hn. clearbody n. cbn.
  rewrite !Z.mod_small by lia.
  destruct (decide (FileSize p = 0)); [intuition lia|].
  destruct (FWBlockCountForSize_cases (FileSize p)) as [[Hr He]|[[Hr He]|[Hr He]]]; [lia|..].
  - pose proof (Z.mul_succ_div_gt (FileSize p + 1023) 1024).
    pose proof (Z.mul_div_le (FileSize p + 1023) 1024).
    split; [intros; destruct_and!; subst n; split_and!; done || lia|].
    intros; destruct_and!; subst n. rewrite Z.mod_small by lia. split_and!; done || lia.
  - split; [intros; destruct_and!; subst n; split_and!; done || lia|].
    intros; destruct_and!; subst n. rewrite Z.mod_small by lia. split_and!; done || lia.
  - split; intros; destruct_and!; subst n; [|lia]. rewrite He in *. done.
Qed.

Definition sample_fw : Cmd19StartFWPayload :=
  {| FirmwareNumber := 7; BuildTimestamp := 1; FileSize := 3000; FileCRC := 5; BlockCount := 0 |}.

Lemma Cmd19StartFWPayload_Build_exact_witness :
  wf_Cmd19StartFWPayload sample_fw /\ Cmd19StartFWPayload_Build sample_fw = Ok (cmd19_bytes sample_fw).
Proof.
  assert (wf_Cmd19StartFWPayload sample_fw) as Hwf by (repeat split; cbn; lia).
  split; [exact Hwf|].
  apply (Cmd19StartFWPayload_Build_exact sample_fw (cmd19_bytes sample_fw) Hwf).
  cbn. split_and!; [lia|lia|lia|lia|by left|done].
Defined.
