(* ===== verification/Queue.v ===== *)
(** * The controller queue ([internal/queue/queue.go])

    [ControllerQueue] keeps four buffers, one per priority; a priority that is
    none of the three named ones goes to [query].  Every operation holds the
    queue's mutex for its whole body and the buffers never leave the queue
    ([Snapshot] copies), so that each operation is one atomic function on the
    record of buffers.  Times are nanoseconds on one clock; [t.Add(d)] is exact
    (a [time.Time] has a far wider range than a [Duration]).

    The abstract specification is a log of commands in arrival order: the four
    buffers refine it, and the trace theorems (nothing lost or duplicated,
    first-in first-out within a priority) follow from that. *)

From S2P Require Import Prelude.

Definition PriorityHigh : string := "high".
Definition PriorityFW : string := "fw".
Definition PrioritySync : string := "sync".
Definition PriorityQuery : string := "query".

Record Command := mkCommand {
  cmd_MessageID : string;
  cmd_TraceID : string;
  cmd_DedupKey : string;
  cmd_CommandID : Z;
  cmd_TTL : Z;
  cmd_CreatedAt : Z;
  cmd_Payload : bytes;
  cmd_Priority : string;
  cmd_Attempts : Z;
  cmd_RetrySeq : Z
}.

#[global] Instance Command_eq_dec : EqDecision Command.
Proof. solve_decision. Defined.

Definition EstimatedCommandBytes (cmd : Command) : Z :=
  let frameOverhead := 11 in
  frameOverhead + len (cmd_Payload cmd).

Definition Expired (c : Command) (now : Z) : bool :=
  if cmd_TTL c <=? 0 then false else cmd_CreatedAt c + cmd_TTL c <? now.

Record ControllerQueue := mkQueue {
  q_high : list Command;
  q_fw : list Command;
  q_sync : list Command;
  q_query : list Command
}.

Definition NewControllerQueue : ControllerQueue := mkQueue [] [] [] [].

(** [switch cmd.Priority]: append to the buffer of the priority. *)
Definition Push (cmd : Command) (q : ControllerQueue) : ControllerQueue :=
  if String.eqb (cmd_Priority cmd) PriorityHigh then
    mkQueue (q_high q ++ [cmd]) (q_fw q) (q_sync q) (q_query q)
  else if String.eqb (cmd_Priority cmd) PriorityFW then
    mkQueue (q_high q) (q_fw q ++ [cmd]) (q_sync q) (q_query q)
  else if String.eqb (cmd_Priority cmd) PrioritySync then
    mkQueue (q_high q) (q_fw q) (q_sync q ++ [cmd]) (q_query q)
  else mkQueue (q_high q) (q_fw q) (q_sync q) (q_query q ++ [cmd]).

Definition pop (buf : list Command) : option (Command * list Command) :=
  match buf with
  | [] => None
  | cmd :: buf' => Some (cmd, buf')
  end.

Definition PopNext (fwMode syncMode : bool) (q : ControllerQueue) : option Command * ControllerQueue :=
  match pop (q_high q) with
  | Some (cmd, buf) => (Some cmd, mkQueue buf (q_fw q) (q_sync q) (q_query q))
  | None =>
      if fwMode then
        match pop (q_fw q) with
        | Some (cmd, buf) => (Some cmd, mkQueue (q_high q) buf (q_sync q) (q_query q))
        | None => (None, q)
        end
      else if syncMode then
        match pop (q_sync q) with
        | Some (cmd, buf) => (Some cmd, mkQueue (q_high q) (q_fw q) buf (q_query q))
        | None => (None, q)
        end
      else
        match pop (q_fw q) with
        | Some (cmd, buf) => (Some cmd, mkQueue (q_high q) buf (q_sync q) (q_query q))
        | None =>
            match pop (q_sync q) with
            | Some (cmd, buf) => (Some cmd, mkQueue (q_high q) (q_fw q) buf (q_query q))
            | None =>
                match pop (q_query q) with
                | Some (cmd, buf) => (Some cmd, mkQueue (q_high q) (q_fw q) (q_sync q) buf)
                | None => (None, q)
                end
            end
        end
  end.

(** The [drain] loop: [keep] and [expired] grow at their ends. *)
Fixpoint drainLoop (now : Z) (l keep expired : list Command) : list Command * list Command :=
  match l with
  | [] => (keep, expired)
  | c :: l' =>
      if Expired c now then drainLoop now l' keep (expired ++ [c])
      else drainLoop now l' (keep ++ [c]) expired
  end.

Definition drain (now : Z) (l : list Command) : list Command * list Command := drainLoop now l [] [].

Definition DrainExpired (now : Z) (q : ControllerQueue) : list Command * ControllerQueue :=
  let '(high, e1) := drain now (q_high q) in
  let '(fw, e2) := drain now (q_fw q) in
  let '(sync, e3) := drain now (q_sync q) in
  let '(query, e4) := drain now (q_query q) in
  (((e1 ++ e2) ++ e3) ++ e4, mkQueue high fw sync query).

Definition Len (q : ControllerQueue) : Z :=
  len (q_high q) + len (q_fw q) + len (q_sync q) + len (q_query q).

Definition Snapshot (q : ControllerQueue) : list Command :=
  ((q_high q ++ q_fw q) ++ q_sync q) ++ q_query q.

(** [Restore] empties the buffers and distributes the commands. *)
Definition Restore (cmds : list Command) : ControllerQueue :=
  fold_left (fun q cmd => Push cmd q) cmds NewControllerQueue.

Definition HasFW (q : ControllerQueue) : bool := 0 <? len (q_fw q).

Definition HasSync (q : ControllerQueue) : bool := 0 <? len (q_sync q).

(** [DropOldest]'s candidate: buffer name, index and command. *)
Record candidate := mkCandidate { cand_buf : string; cand_idx : nat; cand_cmd : Command }.

Fixpoint consider (bufName : string) (arr : list Command) (i : nat) (pick : option candidate)
    : option candidate :=
  match arr with
  | [] => pick
  | c :: arr' =>
      let better := match pick with
                    | None => true
                    | Some p => cmd_CreatedAt c <? cmd_CreatedAt (cand_cmd p)
                    end in
      consider bufName arr' (S i) (if better then Some (mkCandidate bufName i c) else pick)
  end.

(** [copy(in[idx:], in[idx+1:])] then dropping the last element. *)
Definition removeAt (l : list Command) (idx : nat) : list Command :=
  if (length l <=? idx)%nat then l else take idx l ++ drop (S idx) l.

Definition DropOldest (q : ControllerQueue) : option Command * ControllerQueue :=
  let pick := consider "high" (q_high q) 0 None in
  let pick := consider "fw" (q_fw q) 0 pick in
  let pick := consider "sync" (q_sync q) 0 pick in
  let pick := consider "query" (q_query q) 0 pick in
  match pick with
  | None => (None, q)
  | Some p =>
      (Some (cand_cmd p),
       if String.eqb (cand_buf p) "high" then
         mkQueue (removeAt (q_high q) (cand_idx p)) (q_fw q) (q_sync q) (q_query q)
       else if String.eqb (cand_buf p) "fw" then
         mkQueue (q_high q) (removeAt (q_fw q) (cand_idx p)) (q_sync q) (q_query q)
       else if String.eqb (cand_buf p) "sync" then
         mkQueue (q_high q) (q_fw q) (removeAt (q_sync q) (cand_idx p)) (q_query q)
       else mkQueue (q_high q) (q_fw q) (q_sync q) (removeAt (q_query q) (cand_idx p)))
  end.

Definition addBytes (total : Z) (l : list Command) : Z :=
  fold_left (fun t c => t + EstimatedCommandBytes c) l total.

Definition TotalEstimatedBytes (q : ControllerQueue) : Z :=
  addBytes (addBytes (addBytes (addBytes 0 (q_high q)) (q_fw q)) (q_sync q)) (q_query q).

(** ** The specification: a log in arrival order *)

Inductive class := High | FW | Sync | Query.

#[global] Instance class_eq_dec : EqDecision class.
Proof. solve_decision. Defined.

Definition class_of (c : Command) : class :=
  if String.eqb (cmd_Priority c) PriorityHigh then High
  else if String.eqb (cmd_Priority c) PriorityFW then FW
  else if String.eqb (cmd_Priority c) PrioritySync then Sync
  else Query.

Definition of_class (k : class) (l : list Command) : list Command :=
  filter (fun c => class_of c = k) l.

(** The classes a poll may serve, in order of preference. *)
Definition eligible (fwMode syncMode : bool) : list class :=
  if fwMode then [High; FW] else if syncMode then [High; Sync] else [High; FW; Sync; Query].

(** Remove the first element satisfying [P]. *)
Fixpoint remove_first (P : Command -> bool) (log : list Command) : list Command :=
  match log with
  | [] => []
  | c :: log' => if P c then log' else c :: remove_first P log'
  end.

(** The next command to serve: the earliest arrival of the most preferred
    class that has one. *)
Fixpoint next_of (ks : list class) (log : list Command) : option Command * list Command :=
  match ks with
  | [] => (None, log)
  | k :: ks' =>
      match of_class k log with
      | [] => next_of ks' log
      | c :: _ => (Some c, remove_first (fun c => bool_decide (class_of c = k)) log)
      end
  end.

Definition buf (k : class) (q : ControllerQueue) : list Command :=
  match k with
  | High => q_high q
  | FW => q_fw q
  | Sync => q_sync q
  | Query => q_query q
  end.

(** The buffers are the log, sorted by class. *)
Definition refines (q : ControllerQueue) (log : list Command) : Prop :=
  forall k, buf k q = of_class k log.

(** A queue whose commands are in the buffers of their priorities. *)
Definition wf_queue (q : ControllerQueue) : Prop :=
  forall k, Forall (fun c => class_of c = k) (buf k q).

(** Operations as a program performs them, and what each gives back. *)
Inductive qop :=
  | OpPush (c : Command)
  | OpPop (fwMode syncMode : bool)
  | OpDrain (now : Z)
  | OpDropOldest.

Definition q_step (op : qop) (q : ControllerQueue) : list Command * ControllerQueue :=
  match op with
  | OpPush c => ([], Push c q)
  | OpPop fwMode syncMode => let '(o, q') := PopNext fwMode syncMode q in (option_list o, q')
  | OpDrain now => DrainExpired now q
  | OpDropOldest => let '(o, q') := DropOldest q in (option_list o, q')
  end.

Fixpoint q_run (ops : list qop) (q : ControllerQueue) : list (qop * list Command) * ControllerQueue :=
  match ops with
  | [] => ([], q)
  | op :: ops' =>
      let '(out, q1) := q_step op q in
      let '(tr, q2) := q_run ops' q1 in ((op, out) :: tr, q2)
  end.

Definition pushed (ops : list qop) : list Command :=
  omap (fun op => match op with OpPush c => Some c | _ => None end) ops.

(** What polls returned, in order. *)
Definition popped (tr : list (qop * list Command)) : list Command :=
  concat (map (fun e => match e.1 with OpPop _ _ => e.2 | _ => [] end) tr).

(** ** What the log does at each operation *)

Inductive spec_step : qop -> list Command -> list Command -> list Command -> Prop :=
  | spec_push c log : spec_step (OpPush c) log [] (log ++ [c])
  | spec_pop fwMode syncMode log o log' :
      next_of (eligible fwMode syncMode) log = (o, log') ->
      spec_step (OpPop fwMode syncMode) log (option_list o) log'
  | spec_drain now log :
      spec_step (OpDrain now) log
        (concat (map (fun k => filter (fun c => Expired c now = true) (of_class k log)) [High; FW; Sync; Query]))
        (filter (fun c => Expired c now = false) log)
  | spec_drop l1 c l2 :
      Forall (fun d => cmd_CreatedAt c <= cmd_CreatedAt d) (l1 ++ c :: l2) ->
      spec_step OpDropOldest (l1 ++ c :: l2) [c] (l1 ++ l2)
  | spec_drop_empty : spec_step OpDropOldest [] [] [].

(** ** Lemmas: classes *)

Lemma of_class_app k l1 l2 : of_class k (l1 ++ l2) = of_class k l1 ++ of_class k l2.
Proof. unfold of_class. by rewrite filter_app. Qed.

Lemma of_class_cons k c l :
  of_class k (c :: l) = if decide (class_of c = k) then c :: of_class k l else of_class k l.
Proof. unfold of_class. by rewrite filter_cons. Qed.

Lemma elem_of_class k c l : c ∈ of_class k l <-> class_of c = k /\ c ∈ l.
Proof. unfold of_class. by rewrite list_elem_of_filter. Qed.

Lemma of_class_all k l : Forall (fun c => class_of c = k) l -> of_class k l = l.
Proof. induction 1 as [|c l Hc _ IH]; [done|]. rewrite of_class_cons, decide_True, IH; done. Qed.

Lemma of_class_none k k' l : Forall (fun c => class_of c = k) l -> k <> k' -> of_class k' l = [].
Proof.
  intros H Hne. induction H as [|c l Hc _ IH]; [done|]. rewrite of_class_cons, decide_False; [done|congruence].
Qed.

Lemma class_split l :
  l ≡ₚ of_class High l ++ of_class FW l ++ of_class Sync l ++ of_class Query l.
Proof.
  induction l as [|c l IH]; [done|]. rewrite !of_class_cons.
  destruct (class_of c) eqn:E; rewrite ?decide_True, ?decide_False by done.
  all: rewrite IH at 1; solve_Permutation.
Qed.

Lemma of_class_remove_first k k' log :
  of_class k' (remove_first (fun c => bool_decide (class_of c = k)) log)
  = if decide (k = k') then tail (of_class k log) else of_class k' log.
Proof.
  induction log as [|c log IH]; cbn [remove_first].
  - by destruct (decide (k = k')).
  - rewrite !of_class_cons. destruct (decide (class_of c = k)) as [Hc|Hc].
    + rewrite bool_decide_true by done. subst k. by destruct (decide (class_of c = k')); subst.
    + rewrite bool_decide_false, of_class_cons, IH by done.
      destruct (decide (k = k')) as [<-|]; [by rewrite decide_False|done].
Qed.

(** ** Push, poll and drain on the log *)

Lemma buf_Push k c q : buf k (Push c q) = buf k q ++ of_class k [c].
Proof.
  rewrite of_class_cons. unfold Push, class_of.
  destruct (String.eqb (cmd_Priority c) PriorityHigh), (String.eqb (cmd_Priority c) PriorityFW),
    (String.eqb (cmd_Priority c) PrioritySync), k;
    cbn; rewrite ?app_nil_r; done.
Qed.

Lemma refines_Push q log c : refines q log -> refines (Push c q) (log ++ [c]).
Proof. intros H k. by rewrite buf_Push, H, of_class_app. Qed.

(** A buffer other than the popped one is unchanged; the popped one loses its head. *)
Lemma refines_popped q q' log k :
  refines q log ->
  (forall k', buf k' q' = if decide (k = k') then tail (buf k q) else buf k' q) ->
  refines q' (remove_first (fun c => bool_decide (class_of c = k)) log).
Proof.
  intros H Hq k'. rewrite Hq, of_class_remove_first, !H. done.
Qed.

Lemma refines_PopNext q log fwMode syncMode o q' :
  refines q log -> PopNext fwMode syncMode q = (o, q') ->
  exists log', next_of (eligible fwMode syncMode) log = (o, log') /\ refines q' log'.
Proof.
  intros H. pose proof (H High) as H1. pose proof (H FW) as H2. pose proof (H Sync) as H3.
  pose proof (H Query) as H4. cbn [buf] in *. unfold PopNext, eligible, pop.
  destruct fwMode; [|destruct syncMode].
  all: cbn [next_of]; rewrite <- ?H1, <- ?H2, <- ?H3, <- ?H4.
  all: repeat case_match; intros; simplify_eq.
  all: eexists; (split; [reflexivity|]); try done.
  all: eapply refines_popped; [exact H|]; intros []; cbn [buf]; rewrite ?decide_True, ?decide_False by done.
  all: by repeat match goal with E : _ = _ :: _ |- _ => rewrite E end.
Qed.

Lemma drainLoop_spec now l keep expired :
  drainLoop now l keep expired =
  (keep ++ filter (fun c => Expired c now = false) l, expired ++ filter (fun c => Expired c now = true) l).
Proof.
  revert keep expired. induction l as [|c l IH]; intros keep expired; cbn [drainLoop].
  - by rewrite !app_nil_r.
  - rewrite !filter_cons. destruct (Expired c now) eqn:E; rewrite IH.
    all: rewrite ?decide_True, ?decide_False by congruence; by rewrite <- app_assoc.
Qed.

Lemma drain_spec now l :
  drain now l = (filter (fun c => Expired c now = false) l, filter (fun c => Expired c now = true) l).
Proof. apply drainLoop_spec. Qed.

Lemma DrainExpired_spec now q :
  DrainExpired now q =
  (concat (map (fun k => filter (fun c => Expired c now = true) (buf k q)) [High; FW; Sync; Query]),
   mkQueue (filter (fun c => Expired c now = false) (q_high q)) (filter (fun c => Expired c now = false) (q_fw q))
     (filter (fun c => Expired c now = false) (q_sync q)) (filter (fun c => Expired c now = false) (q_query q))).
Proof.
  unfold DrainExpired. rewrite !drain_spec. cbn. rewrite app_nil_r. by rewrite <- !app_assoc.
Qed.

Lemma of_class_filter k (P : Command -> Prop) `{!forall c, Decision (P c)} l :
  of_class k (filter P l) = filter P (of_class k l).
Proof. unfold of_class. rewrite !list_filter_filter. apply list_filter_iff. tauto. Qed.

Lemma refines_DrainExpired now q log :
  refines q log ->
  refines (DrainExpired now q).2 (filter (fun c => Expired c now = false) log).
Proof.
  intros H k. rewrite DrainExpired_spec, of_class_filter, <- H. by destruct k.
Qed.

(** ** The oldest command *)

Definition buf_name (k : class) : string :=
  match k with High => "high" | FW => "fw" | Sync => "sync" | Query => "query" end.

(** [pick] is the oldest of the commands [seen] so far and names its place. *)
Definition pick_ok (q : ControllerQueue) (seen : list Command) (pick : option candidate) : Prop :=
  match pick with
  | None => seen = []
  | Some p =>
      (exists k, cand_buf p = buf_name k /\ buf k q !! cand_idx p = Some (cand_cmd p))
      /\ Forall (fun d => cmd_CreatedAt (cand_cmd p) <= cmd_CreatedAt d) seen
  end.

Lemma consider_ok q k arr : forall i seen pick,
  arr = drop i (buf k q) -> pick_ok q seen pick ->
  pick_ok q (seen ++ arr) (consider (buf_name k) arr i pick).
Proof.
  induction arr as [|c arr IH]; intros i seen pick Hd Hp; cbn [consider].
  - by rewrite app_nil_r.
  - assert (buf k q !! i = Some c) as Hi.
    { rewrite <- (Nat.add_0_r i), <- lookup_drop, <- Hd. done. }
    assert (arr = drop (S i) (buf k q)) as Hd'.
    { rewrite <- Nat.add_1_r, <- drop_drop, <- Hd. done. }
    replace (seen ++ c :: arr) with ((seen ++ [c]) ++ arr) by by rewrite <- app_assoc.
    apply IH; [done|]. destruct pick as [p|]; cbn in Hp |- *.
    + destruct Hp as [Hplace Hmin]. destruct (Z.ltb_spec (cmd_CreatedAt c) (cmd_CreatedAt (cand_cmd p))).
      * split; [by exists k|]. apply Forall_app. split; [|by apply Forall_singleton].
        eapply Forall_impl; [exact Hmin|]. cbn. lia.
      * split; [done|]. apply Forall_app. split; [done|]. by apply Forall_singleton.
    + subst seen. split; [by exists k|]. by apply Forall_singleton.
Qed.

Lemma removeAt_split l i c :
  l !! i = Some c -> exists l1 l2, l = l1 ++ c :: l2 /\ removeAt l i = l1 ++ l2.
Proof.
  intros H. exists (take i l), (drop (S i) l). split; [by rewrite take_drop_middle|].
  unfold removeAt. apply lookup_lt_Some in H. by rewrite (proj2 (Nat.leb_gt _ _)).
Qed.

Lemma buf_name_inj k k' : String.eqb (buf_name k) (buf_name k') = bool_decide (k = k').
Proof. by destruct k, k'. Qed.

(** [DropOldest] takes the oldest command out of one buffer. *)
Lemma DropOldest_spec q o q' :
  DropOldest q = (o, q') ->
  match o with
  | None => q' = q /\ Snapshot q = []
  | Some c => exists k l1 l2, buf k q = l1 ++ c :: l2
      /\ (forall k', buf k' q' = if decide (k = k') then l1 ++ l2 else buf k' q)
      /\ Forall (fun d => cmd_CreatedAt c <= cmd_CreatedAt d) (Snapshot q)
  end.
Proof.
  unfold DropOldest, Snapshot.
  pose proof (consider_ok q High (q_high q) 0 [] None eq_refl eq_refl) as H.
  apply (consider_ok q FW (q_fw q) 0 _ _ eq_refl) in H.
  apply (consider_ok q Sync (q_sync q) 0 _ _ eq_refl) in H.
  apply (consider_ok q Query (q_query q) 0 _ _ eq_refl) in H. cbn [app buf_name] in H.
  destruct (consider _ _ _ _) as [p|]; intros [= <- <-]; [|done].
  destruct H as [(k & Hk & Hi) Hmin]. apply removeAt_split in Hi as (l1 & l2 & Hb & Hr).
  exists k, l1, l2. split_and!; [done| |done]. intros k'. rewrite Hk.
  destruct k; cbn [buf_name buf] in *; cbn; rewrite Hr; by destruct k'.
Qed.

(** The same, on the log. *)
Lemma of_class_split k log l1 c l2 :
  of_class k log = l1 ++ c :: l2 ->
  exists g1 g2, log = g1 ++ c :: g2
    /\ (forall k', of_class k' (g1 ++ g2) = if decide (k = k') then l1 ++ l2 else of_class k' log).
Proof.
  revert l1. induction log as [|d log IH]; intros l1 H; [by destruct l1|].
  rewrite of_class_cons in H. destruct (decide (class_of d = k)) as [Hd|Hd].
  - destruct l1 as [|e l1]; injection H as -> H.
    + exists [], log. split; [done|]. intros k'. cbn [app]. rewrite of_class_cons, Hd.
      by destruct (decide (k = k')) as [<-|].
    + apply IH in H as (g1 & g2 & -> & Hg). exists (e :: g1), g2. split; [done|].
      intros k'. cbn [app]. rewrite !of_class_cons, Hg, Hd. by destruct (decide (k = k')).
  - apply IH in H as (g1 & g2 & -> & Hg). exists (d :: g1), g2. split; [done|].
    intros k'. cbn [app]. rewrite !of_class_cons, Hg.
    destruct (decide (k = k')) as [<-|]; [by rewrite decide_False|done].
Qed.

Lemma refines_Snapshot q log : refines q log -> Snapshot q ≡ₚ log.
Proof.
  intros H. unfold Snapshot. rewrite (class_split log), <- !(H _). cbn [buf]. by rewrite <- !app_assoc.
Qed.

Lemma refines_DropOldest q log o q' :
  refines q log -> DropOldest q = (o, q') ->
  exists log', spec_step OpDropOldest log (option_list o) log' /\ refines q' log'.
Proof.
  intros H Hd. apply DropOldest_spec in Hd. pose proof (refines_Snapshot q log H) as Hs.
  destruct o as [c|]; cbn [option_list option_rect].
  - destruct Hd as (k & l1 & l2 & Hb & Hq & Hmin). rewrite H in Hb.
    apply of_class_split in Hb as (g1 & g2 & -> & Hg). exists (g1 ++ g2). split.
    + constructor. by rewrite <- Hs.
    + intros k'. by rewrite Hg, Hq, H.
  - destruct Hd as [-> Hn]. rewrite Hn in Hs. apply Permutation_nil_l in Hs as <-.
    exists []. by split; [constructor|].
Qed.

(** ** Refinement and traces *)

Lemma q_step_refines op q log :
  refines q log ->
  exists log', spec_step op log (q_step op q).1 log' /\ refines (q_step op q).2 log'.
Proof.
  intros H. destruct op as [c|fwMode syncMode|now|]; cbn [q_step].
  - exists (log ++ [c]). split; [constructor|by apply refines_Push].
  - destruct (PopNext fwMode syncMode q) as [o q'] eqn:E. cbn.
    destruct (refines_PopNext _ _ _ _ _ _ H E) as (log' & ? & ?). exists log'. by split; [constructor|].
  - exists (filter (fun c => Expired c now = false) log). split; [|by apply refines_DrainExpired].
    rewrite DrainExpired_spec. cbn [fst].
    replace (map _ _) with (map (fun k => filter (fun c => Expired c now = true) (of_class k log)) [High; FW; Sync; Query]).
    + constructor.
    + cbn [map]. by rewrite <- !(H _).
  - destruct (DropOldest q) as [o q'] eqn:E. by apply (refines_DropOldest q).
Qed.

(** C14: the four buffers implement one arrival-ordered log: from related
    states every operation gives the same results as on the log (a poll serves
    the earliest arrival of the most preferred eligible priority, a drain
    removes exactly the expired commands, a drop removes a command no other is
    older than) and ends in related states. *)
Theorem queue_refines_log (op : qop) (q : ControllerQueue) (log : list Command) :
  refines q log ->
  exists log', spec_step op log (q_step op q).1 log' /\ refines (q_step op q).2 log'.
Proof. apply q_step_refines. Qed.

Definition sample_command (id prio : string) (created : Z) : Command :=
  mkCommand id "" "" 5 (60 * 10 ^ 9) created [1; 2] prio 0 0.

Lemma queue_refines_log_witness :
  let a := sample_command "a" "query" 1 in
  let b := sample_command "b" "high" 2 in
  refines (Push b (Push a NewControllerQueue)) [a; b]
  /\ exists log', spec_step (OpPop false false) [a; b] [b] log'
       /\ refines (mkQueue [] [] [] [a]) log'.
Proof.
  intros a b. assert (refines (Push b (Push a NewControllerQueue)) [a; b]) as H by (by intros []).
  split; [exact H|]. exact (queue_refines_log (OpPop false false) _ _ H).
Defined.

Lemma remove_first_perm k log c l :
  of_class k log = c :: l ->
  log ≡ₚ c :: remove_first (fun c => bool_decide (class_of c = k)) log.
Proof.
  induction log as [|d log IH]; cbn [remove_first]; [done|]. rewrite of_class_cons.
  case_decide as Hd; [rewrite bool_decide_true by done; by intros [= -> _]|].
  rewrite bool_decide_false by done. intros Hl%IH. rewrite Hl at 1. apply Permutation_swap.
Qed.

Lemma next_of_perm ks log o log' :
  next_of ks log = (o, log') -> log ≡ₚ option_list o ++ log'.
Proof.
  induction ks as [|k ks IH]; cbn [next_of]; [by intros [= <- <-]|].
  destruct (of_class k log) eqn:E; [done|]. intros [= <- <-]. by eapply remove_first_perm.
Qed.

Lemma next_of_class ks log o log' k :
  next_of ks log = (o, log') -> of_class k (option_list o) ++ of_class k log' = of_class k log.
Proof.
  induction ks as [|k1 ks IH]; cbn [next_of]; [by intros [= <- <-]|].
  destruct (of_class k1 log) as [|c l] eqn:E; [done|]. intros [= <- <-].
  rewrite of_class_remove_first, E. cbn [option_list option_rect tail]. rewrite of_class_cons.
  assert (c ∈ of_class k1 log) as [<- _]%elem_of_class by (rewrite E; left).
  destruct (decide (class_of c = k)) as [<-|]; [by rewrite E|done].
Qed.

Lemma filter_split_perm (f : Command -> bool) l :
  l ≡ₚ filter (fun c => f c = true) l ++ filter (fun c => f c = false) l.
Proof.
  induction l as [|c l IH]; [done|]. rewrite !filter_cons.
  destruct (f c); rewrite ?decide_True, ?decide_False by done; rewrite IH at 1; solve_Permutation.
Qed.

(** Nothing is lost or duplicated by an operation on the log. *)
Lemma spec_step_perm op log out log' :
  spec_step op log out log' -> log ++ pushed [op] ≡ₚ out ++ log'.
Proof.
  destruct 1 as [c log|fw sy log o log' E|now log|l1 c l2 H|]; cbn [pushed omap list_omap app].
  - done.
  - rewrite app_nil_r. by eapply next_of_perm.
  - rewrite app_nil_r. cbn [map concat]. rewrite app_nil_r, <- !of_class_filter, <- class_split.
    apply filter_split_perm.
  - rewrite app_nil_r. cbn. by rewrite Permutation_middle.
  - done.
Qed.

(** Polls see each class in arrival order. *)
Lemma spec_step_fifo op log out log' k :
  spec_step op log out log' ->
  of_class k (popped [(op, out)]) ++ of_class k log' `sublist_of` of_class k log ++ of_class k (pushed [op]).
Proof.
  destruct 1 as [c log|fw sy log o log' E|now log|l1 c l2 H|]; cbn [pushed omap list_omap popped map fst snd concat app].
  - rewrite of_class_app. done.
  - rewrite !app_nil_r. by rewrite (next_of_class _ _ _ _ k E).
  - rewrite app_nil_r. cbn [app of_class]. unfold of_class at 1. cbn. rewrite of_class_filter. apply sublist_filter.
  - rewrite app_nil_r. unfold of_class at 1. cbn [filter list_filter app]. rewrite !of_class_app, of_class_cons.
    apply sublist_app; [done|]. case_decide; [by apply sublist_cons|done].
  - done.
Qed.

Lemma pushed_cons op ops : pushed (op :: ops) = pushed [op] ++ pushed ops.
Proof. by destruct op. Qed.

Lemma popped_cons e tr : popped (e :: tr) = popped [e] ++ popped tr.
Proof. unfold popped. cbn. by rewrite app_nil_r. Qed.

Lemma q_run_refines ops q log tr q' :
  refines q log -> q_run ops q = (tr, q') ->
  exists log', refines q' log'
    /\ log ++ pushed ops ≡ₚ concat (map snd tr) ++ log'
    /\ forall k, of_class k (popped tr) ++ of_class k log' `sublist_of` of_class k log ++ of_class k (pushed ops).
Proof.
  revert q log tr. induction ops as [|op ops IH]; intros q log tr H Hr; cbn [q_run] in Hr.
  - injection Hr as <- <-. exists log. split; [done|]. split; [by rewrite app_nil_r|].
    intros k. by rewrite app_nil_r.
  - destruct (q_step op q) as [out q1] eqn:E1, (q_run ops q1) as [tr1 q2] eqn:E2. injection Hr as <- <-.
    destruct (q_step_refines op q log H) as (log1 & Hs & H1). rewrite E1 in Hs, H1. cbn in Hs, H1.
    destruct (IH q1 log1 tr1 H1 E2) as (log' & H' & Hp & Hf). exists log'. split; [done|]. split.
    + rewrite pushed_cons, app_assoc, (spec_step_perm _ _ _ _ Hs). cbn. by rewrite <- !app_assoc, Hp.
    + intros k. rewrite pushed_cons, popped_cons, !of_class_app, <- app_assoc.
      etrans; [apply sublist_app; [reflexivity|apply (Hf k)]|].
      rewrite !app_assoc. apply sublist_app; [by apply spec_step_fifo|done].
Qed.

Lemma refines_New : refines NewControllerQueue [].
Proof. by intros []. Qed.

(** Nothing is lost or duplicated: after any sequence of pushes, polls,
    drains and drops from an empty queue, the commands pushed are, as a
    multiset, those the operations returned and those still queued. *)
Lemma queue_conserves_commands (ops : list qop) :
  pushed ops ≡ₚ concat (map snd (q_run ops NewControllerQueue).1)
                ++ Snapshot (q_run ops NewControllerQueue).2.
Proof.
  destruct (q_run ops NewControllerQueue) as [tr q'] eqn:E.
  destruct (q_run_refines _ _ _ _ _ refines_New E) as (log' & H & Hp & _). cbn in *.
  by rewrite Hp, (refines_Snapshot _ _ H).
Qed.

(** Within a priority the queue is first-in first-out: after any sequence
    of operations from an empty queue, the commands of a priority that polls
    returned, followed by those still queued, appear in the order they were
    pushed. *)
Lemma queue_fifo_per_priority (ops : list qop) (k : class) :
  of_class k (popped (q_run ops NewControllerQueue).1) ++ buf k (q_run ops NewControllerQueue).2
  `sublist_of` of_class k (pushed ops).
Proof.
  destruct (q_run ops NewControllerQueue) as [tr q'] eqn:E.
  destruct (q_run_refines _ _ _ _ _ refines_New E) as (log' & H & _ & Hf). cbn.
  rewrite (H k). apply (Hf k).
Qed.

(** ** Snapshots *)

Lemma queue_ext q q' : (forall k, buf k q = buf k q') -> q = q'.
Proof.
  intros H. destruct q, q'. f_equal; [apply (H High)|apply (H FW)|apply (H Sync)|apply (H Query)].
Qed.

Lemma refines_wf q log : refines q log -> wf_queue q.
Proof.
  intros H k. rewrite H. apply Forall_forall. by intros c [? _]%elem_of_class.
Qed.

Lemma wf_refines q : wf_queue q -> refines q (Snapshot q).
Proof.
  intros H k. unfold Snapshot. rewrite !of_class_app.
  assert (forall k', of_class k (buf k' q) = if decide (k' = k) then buf k q else []) as Hb.
  { intros k'. destruct (decide (k' = k)) as [->|]; [by apply of_class_all|by eapply of_class_none]. }
  rewrite (Hb High : of_class k (q_high q) = _), (Hb FW : of_class k (q_fw q) = _),
    (Hb Sync : of_class k (q_sync q) = _), (Hb Query : of_class k (q_query q) = _).
  destruct k; cbn; by rewrite ?app_nil_r.
Qed.

Lemma refines_Restore log : refines (Restore log) log.
Proof.
  unfold Restore. change log with ([] ++ log) at 2. generalize refines_New.
  generalize NewControllerQueue as q, (@nil Command) as l.
  induction log as [|c log IH]; intros q l H; cbn; [by rewrite app_nil_r|].
  change (c :: log) with ([c] ++ log). rewrite app_assoc. apply IH. by apply refines_Push.
Qed.

Lemma refines_unique q q' log : refines q log -> refines q' log -> q = q'.
Proof. intros H H'. apply queue_ext. intros k. by rewrite H, H'. Qed.

Lemma Restore_Snapshot q : wf_queue q -> Restore (Snapshot q) = q.
Proof. intros H. eapply refines_unique; [apply refines_Restore|by apply wf_refines]. Qed.

Lemma wf_New : wf_queue NewControllerQueue.
Proof. apply (refines_wf _ []), refines_New. Qed.

Lemma wf_Restore log : wf_queue (Restore log).
Proof. eapply refines_wf, refines_Restore. Qed.

Lemma wf_q_step op q : wf_queue q -> wf_queue (q_step op q).2.
Proof.
  intros H%wf_refines. destruct (q_step_refines op _ _ H) as (log' & _ & H').
  by eapply refines_wf.
Qed.

Lemma wf_Push c q : wf_queue q -> wf_queue (Push c q).
Proof. apply (wf_q_step (OpPush c)). Qed.

Lemma wf_PopNext fwMode syncMode q : wf_queue q -> wf_queue (PopNext fwMode syncMode q).2.
Proof. intros H%(wf_q_step (OpPop fwMode syncMode)). cbn in H. by destruct (PopNext _ _ _). Qed.

Lemma wf_DropOldest q : wf_queue q -> wf_queue (DropOldest q).2.
Proof. intros H%(wf_q_step OpDropOldest). cbn in H. by destruct (DropOldest _). Qed.

Lemma wf_DrainExpired now q : wf_queue q -> wf_queue (DrainExpired now q).2.
Proof. apply (wf_q_step (OpDrain now)). Qed.

#[export] Hint Resolve wf_New wf_Restore wf_Push wf_PopNext wf_DropOldest wf_DrainExpired : go.

(** Every queue a program can reach survives a snapshot: restoring from
    the snapshot rebuilds the same four buffers, in the same order. *)
Lemma queue_snapshot_roundtrip (ops : list qop) :
  Restore (Snapshot (q_run ops NewControllerQueue).2) = (q_run ops NewControllerQueue).2.
Proof.
  apply Restore_Snapshot. destruct (q_run ops NewControllerQueue) as [tr q'] eqn:E.
  destruct (q_run_refines _ _ _ _ _ refines_New E) as (log' & H & _). by eapply refines_wf.
Qed.

(** ** Sizes *)

Definition total_bytes (l : list Command) : Z := addBytes 0 l.

Lemma addBytes_total t l : addBytes t l = t + total_bytes l.
Proof.
  unfold total_bytes, addBytes. revert t. induction l as [|c l IH]; intros t; cbn [fold_left]; [lia|].
  rewrite IH, (IH (0 + EstimatedCommandBytes c)). lia.
Qed.

Lemma total_bytes_cons c l : total_bytes (c :: l) = EstimatedCommandBytes c + total_bytes l.
Proof. unfold total_bytes at 1. cbn. apply addBytes_total. Qed.

Lemma total_bytes_app l1 l2 : total_bytes (l1 ++ l2) = total_bytes l1 + total_bytes l2.
Proof. unfold total_bytes at 1, addBytes at 1. rewrite fold_left_app. apply addBytes_total. Qed.

#[global] Instance total_bytes_perm : Proper ((≡ₚ) ==> (=)) total_bytes.
Proof.
  induction 1 as [|c l1 l2 _ IH|c d l|l1 l2 l3 _ IH1 _ IH2]; rewrite ?total_bytes_cons; lia.
Qed.

Lemma EstimatedCommandBytes_pos c : 11 <= EstimatedCommandBytes c.
Proof. unfold EstimatedCommandBytes, len. lia. Qed.

Lemma total_bytes_nonneg l : 0 <= total_bytes l.
Proof.
  induction l as [|c l IH]; [done|]. rewrite total_bytes_cons. pose proof (EstimatedCommandBytes_pos c). lia.
Qed.

Lemma TotalEstimatedBytes_Snapshot q : TotalEstimatedBytes q = total_bytes (Snapshot q).
Proof.
  unfold TotalEstimatedBytes, Snapshot. rewrite !total_bytes_app, !addBytes_total. lia.
Qed.

Lemma Len_Snapshot q : Len q = len (Snapshot q).
Proof. unfold Len, Snapshot, len. rewrite !length_app. lia. Qed.

Lemma Snapshot_Push c q : Snapshot (Push c q) ≡ₚ c :: Snapshot q.
Proof.
  unfold Push, Snapshot. repeat case_match; cbn; solve_Permutation.
Qed.

Lemma DropOldest_None q q' : DropOldest q = (None, q') -> q' = q /\ Snapshot q = [].
Proof. apply DropOldest_spec. Qed.

Lemma DropOldest_Some q c q' :
  DropOldest q = (Some c, q') ->
  Snapshot q ≡ₚ c :: Snapshot q' /\ Forall (fun d => cmd_CreatedAt c <= cmd_CreatedAt d) (Snapshot q).
Proof.
  intros (k & l1 & l2 & Hb & Hq & Hm)%DropOldest_spec. split; [|done]. unfold Snapshot.
  pose proof (Hq High) as H1. pose proof (Hq FW) as H2. pose proof (Hq Sync) as H3. pose proof (Hq Query) as H4.
  destruct k; cbn in *; rewrite H1, H2, H3, H4, Hb; solve_Permutation.
Qed.

Lemma Len_Push c q : Len (Push c q) = Len q + 1.
Proof. rewrite !Len_Snapshot. unfold len. rewrite (Snapshot_Push c q). cbn. lia. Qed.

Lemma TotalEstimatedBytes_Push c q :
  TotalEstimatedBytes (Push c q) = TotalEstimatedBytes q + EstimatedCommandBytes c.
Proof. rewrite !TotalEstimatedBytes_Snapshot, Snapshot_Push, total_bytes_cons. lia. Qed.

Lemma Len_nonneg q : 0 <= Len q.
Proof. rewrite Len_Snapshot. unfold len. lia. Qed.

Lemma Len_DropOldest q c q' : DropOldest q = (Some c, q') -> Len q = Len q' + 1.
Proof. intros [H _]%DropOldest_Some. rewrite !Len_Snapshot. unfold len. rewrite H. cbn. lia. Qed.

(** An operation moves commands; it neither creates nor destroys one. *)
Lemma q_step_perm op q :
  Snapshot q ++ pushed [op] ≡ₚ (q_step op q).1 ++ Snapshot (q_step op q).2.
Proof.
  destruct op as [c|fwMode syncMode|now|]; cbn [pushed omap list_omap q_step].
  - cbn. rewrite Snapshot_Push. solve_Permutation.
  - rewrite app_nil_r. unfold PopNext, pop.
    repeat case_match; simplify_eq; cbn; unfold Snapshot; cbn;
      repeat match goal with E : _ = _ :: _ |- _ => rewrite E; clear E
                           | E : _ = [] |- _ => rewrite E; clear E end; solve_Permutation.
  - rewrite app_nil_r, DrainExpired_spec. unfold Snapshot. cbn.
    rewrite (filter_split_perm (fun c => Expired c now) (q_high q)) at 1.
    rewrite (filter_split_perm (fun c => Expired c now) (q_fw q)) at 1.
    rewrite (filter_split_perm (fun c => Expired c now) (q_sync q)) at 1.
    rewrite (filter_split_perm (fun c => Expired c now) (q_query q)) at 1. solve_Permutation.
  - rewrite app_nil_r. destruct (DropOldest q) as [[c|] q'] eqn:E; cbn.
    + by apply DropOldest_Some in E as [-> _].
    + by apply DropOldest_None in E as [-> _].
Qed.

Lemma q_step_pop_length fwMode syncMode q : (length (q_step (OpPop fwMode syncMode) q).1 <= 1)%nat.
Proof. cbn. destruct (PopNext _ _ _) as [[c|] q']; cbn; lia. Qed.
