(* ===== verification/Store.v ===== *)
(** * The session store ([internal/store/store.go])

    The snapshots a manager saves and the interface it saves them through.
    [Store] is the Go interface; [StoreLaws] is what the session manager relies
    on: the store has contents (a map from controller id to the last snapshot
    saved, with the time it was last seen up to a microsecond), a successful
    call changes them as its name says, and a failed call leaves them alone.  [InMemoryStore] implements both; [OutageStore], a store
    that can be down, is the instance error paths are exercised with. *)

From S2P Require Import Prelude Queue.

(** ** Ranging over a Go map

    The order of [for k, v := range m] is unspecified: it is an argument of
    the model, of which only that it visits each entry once is known. *)
Class MapRange := {
  map_range {K V : Type} `{Countable K} : gmap K V -> list (K * V);
  map_range_perm {K V : Type} `{Countable K} (m : gmap K V) : map_range m ≡ₚ map_to_list m
}.

#[refine] Definition ascending : MapRange :=
  {| map_range := fun K V _ _ m => map_to_list m |}.
Proof. done. Defined.

Record InFlightSnapshot := mkInFlightSnapshot {
  ifs_Seq : Z;
  ifs_Command : Command;
  ifs_SentAt : Z;
  ifs_Attempts : Z
}.

Record SessionSnapshot := mkSessionSnapshot {
  snap_ControllerID : string;
  snap_LastSeen : Z;
  snap_BufferFree : Z;
  snap_FWMode : bool;
  snap_SyncMode : bool;
  snap_Pending : list Command;
  snap_InFlight : list InFlightSnapshot;
  snap_NextSeq : Z
}.

(** [type Store interface]: a nil error is [None]. *)
Class Store (S : Type) := {
  SaveSession : SessionSnapshot -> S -> option error * S;
  DeleteSession : string -> S -> option error * S;
  ListSessions : S -> res (list SessionSnapshot) * S
}.

Definition set_snap_LastSeen (t : Z) (snap : SessionSnapshot) : SessionSnapshot :=
  mkSessionSnapshot (snap_ControllerID snap) t (snap_BufferFree snap) (snap_FWMode snap) (snap_SyncMode snap)
    (snap_Pending snap) (snap_InFlight snap) (snap_NextSeq snap).

(** A store may keep the time at a lower resolution, to the microsecond. *)
Class StoreLaws (S : Type) `{Store S} := {
  contents : S -> gmap string SessionSnapshot;
  keptTime : Z -> Z;
  keptTime_near t : Z.abs (keptTime t - t) < 1000;
  SaveSession_ok snap s s' :
    SaveSession snap s = (None, s') ->
    contents s' = <[snap_ControllerID snap := set_snap_LastSeen (keptTime (snap_LastSeen snap)) snap]> (contents s);
  SaveSession_err snap s s' e :
    SaveSession snap s = (Some e, s') -> contents s' = contents s;
  DeleteSession_ok id s s' :
    DeleteSession id s = (None, s') -> contents s' = delete id (contents s);
  DeleteSession_err id s s' e :
    DeleteSession id s = (Some e, s') -> contents s' = contents s;
  ListSessions_ok s s' l :
    ListSessions s = (Ok l, s') -> l ≡ₚ (map_to_list (contents s)).*2;
  ListSessions_contents s : contents (ListSessions s).2 = contents s
}.

(** The snapshot a store keeps of a snapshot. *)
Definition keptSnapshot {S} `{StoreLaws S} (snap : SessionSnapshot) : SessionSnapshot :=
  set_snap_LastSeen (keptTime (snap_LastSeen snap)) snap.

Lemma set_snap_LastSeen_id snap : set_snap_LastSeen (snap_LastSeen snap) snap = snap.
Proof. by destruct snap. Qed.

(** Keeping the time as it is. *)
Lemma exact_time_near (t : Z) : Z.abs (t - t) < 1000.
Proof. lia. Qed.

(** ** The in-memory store *)

Record InMemoryStore := mkInMemoryStore { mem_sessions : gmap string SessionSnapshot }.

Definition NewInMemoryStore : InMemoryStore := mkInMemoryStore ∅.

Definition mem_SaveSession (snapshot : SessionSnapshot) (s : InMemoryStore) : option error * InMemoryStore :=
  (None, mkInMemoryStore (<[snap_ControllerID snapshot := snapshot]> (mem_sessions s))).

Definition mem_DeleteSession (controllerID : string) (s : InMemoryStore) : option error * InMemoryStore :=
  (None, mkInMemoryStore (delete controllerID (mem_sessions s))).

Definition mem_ListSessions `{MapRange} (s : InMemoryStore) : res (list SessionSnapshot) * InMemoryStore :=
  (Ok (map_range (mem_sessions s)).*2, s).

#[global] Instance InMemoryStore_store `{MapRange} : Store InMemoryStore := {|
  SaveSession := mem_SaveSession;
  DeleteSession := mem_DeleteSession;
  ListSessions := mem_ListSessions
|}.

#[global] Instance InMemoryStore_laws `{MapRange} : StoreLaws InMemoryStore.
Proof.
  refine {| contents := mem_sessions; keptTime := id; keptTime_near := exact_time_near |}.
  - intros snap s s' [= <-]. unfold id. by rewrite set_snap_LastSeen_id.
  - intros snap s s' e He. discriminate He.
  - by intros id s s' [= <-].
  - intros id s s' e He. discriminate He.
  - intros s s' l [= <- <-]. by rewrite map_range_perm.
  - done.
Defined.

(** ** A store that can be down *)

Record OutageStore := mkOutageStore { down : bool; backing : InMemoryStore }.

Definition storeDown : error := Errorf "store unavailable" [].

Definition when_up {A} (failed : A) (op : InMemoryStore -> A * InMemoryStore) (s : OutageStore)
    : A * OutageStore :=
  if down s then (failed, s) else
  let '(a, b) := op (backing s) in (a, mkOutageStore false b).

#[global] Instance OutageStore_store `{MapRange} : Store OutageStore := {|
  SaveSession := fun snap => when_up (Some storeDown) (mem_SaveSession snap);
  DeleteSession := fun id => when_up (Some storeDown) (mem_DeleteSession id);
  ListSessions := when_up (Err storeDown) mem_ListSessions
|}.

#[global] Instance OutageStore_laws `{MapRange} : StoreLaws OutageStore.
Proof.
  refine {| contents := fun s => mem_sessions (backing s); keptTime := id; keptTime_near := exact_time_near |}.
  all: intros; destruct s as [[] b]; cbn in *; unfold when_up in *; cbn in *; simplify_eq; try done.
  - unfold id. by rewrite set_snap_LastSeen_id.
  - by rewrite map_range_perm.
Defined.
