(* ===== verification/FileStore.v ===== *)
(** * The file store ([internal/store/store.go]: [FileStore])

    The sessions are one JSON file that every change rewrites: a temporary file
    is written, synchronised and renamed over the old one.  A file that cannot be
    decoded is moved aside, and of those moved aside the newest five are kept.

    The directory that holds the file is a map from names to files.  Every
    system call can fail; each leaves in [trail] the directory as it was before
    it, so that the trail of an operation is what a crash between its calls
    would leave behind.  The codec, the failures, the clock and the names of
    temporary files are the environment ([World]); the directory has no
    subdirectories. *)

From stdpp Require Import sorting.
From S2P Require Import Prelude Format Queue Store Sort.

(** ** The file system *)

Record File := mkFile { f_data : bytes; f_modTime : Z }.

Abbreviation dirmap := (gmap string File).

Record Disk := mkDisk { files : dirmap; calls : nat; trail : list dirmap }.

Definition ErrNotExist : error := Errorf "file does not exist" [].

(** What the program uses of [encoding/json]: what was encoded decodes to
    itself.  [Unmarshal] of ["null"] gives a nil map.  Strings are valid UTF-8,
    as the program's are: controller ids are digits and the strings of commands
    were decoded from JSON. *)
Class JSON := {
  MarshalIndent : gmap string SessionSnapshot -> res bytes;
  Unmarshal : bytes -> res (option (gmap string SessionSnapshot));
  Marshal_ok data raw : MarshalIndent data = Ok raw -> raw <> [] /\ Unmarshal raw = Ok (Some data);
  Marshal_no_panic data : no_panic (MarshalIndent data)
}.

(** The environment of a store kept in the file [base]: which system calls
    fail, how much a failed write wrote, the time at each call, and the names
    [os.CreateTemp] makes. *)
Class World (base : string) := {
  fault : nat -> option error;
  shortWrite : nat -> nat;
  timeAt : nat -> Z;
  tempName : dirmap -> string;
  fault_exists n : fault n <> Some ErrNotExist;
  tempName_fresh d : d !! tempName d = None;
  tempName_base d : tempName d <> base
}.

Section FileStore.
Context `{MapRange} `{JSON} (base : string) `{!World base}.

(** Computations on the disk; an error ends them ([if err != nil return err]). *)
Definition IO (A : Type) : Type := Disk -> res A * Disk.

#[global] Instance IO_ret : MRet IO := fun A a d => (Ok a, d).
#[global] Instance IO_bind : MBind IO := fun A B f x d =>
  match x d with
  | (Ok a, d') => f a d'
  | (Err e, d') => (Err e, d')
  | (Panic, d') => (Panic, d')
  end.

(** A result that is looked at instead of returned. *)
Definition try {A} (x : IO A) : IO (res A) := fun d => let '(r, d') := x d in (Ok r, d').

Definition io {A} (r : res A) : IO A := fun d => (r, d).

(** A system call: what it does to the directory when it fails, and when it
    does not. *)
Definition syscall {A} (failed : nat -> dirmap -> dirmap) (op : nat -> dirmap -> res A * dirmap) : IO A := fun d =>
  let n := calls d in
  let step := fun fs => mkDisk fs (S n) (trail d ++ [files d]) in
  match fault n with
  | Some e => (Err e, step (failed n (files d)))
  | None => let '(r, fs) := op n (files d) in (r, step fs)
  end.

Definition unchanged : nat -> dirmap -> dirmap := fun _ fs => fs.

(** A call that changes nothing the program reads. *)
Definition touch : IO unit := syscall unchanged (fun _ fs => (Ok tt, fs)).

Definition MkdirAll : IO unit := touch.
Definition Sync : IO unit := touch.
Definition Close : IO unit := touch.
Definition Chmod : IO unit := touch.

Definition ReadFile (name : string) : IO bytes :=
  syscall unchanged (fun _ fs =>
    match fs !! name with Some f => (Ok (f_data f), fs) | None => (Err ErrNotExist, fs) end).

Definition IsNotExist (e : error) : bool := bool_decide (e = ErrNotExist).

Definition Rename (old new : string) : IO unit :=
  syscall unchanged (fun _ fs =>
    match fs !! old with Some f => (Ok tt, <[new := f]> (delete old fs)) | None => (Err ErrNotExist, fs) end).

Definition Remove (name : string) : IO unit :=
  syscall unchanged (fun _ fs =>
    match fs !! name with Some _ => (Ok tt, delete name fs) | None => (Err ErrNotExist, fs) end).

Definition CreateTemp : IO string :=
  syscall unchanged (fun n fs => let name := tempName fs in (Ok name, <[name := mkFile [] (timeAt n)]> fs)).

(** A write that fails may have written a part. *)
Definition Write (name : string) (raw : bytes) : IO unit :=
  syscall (fun n fs => <[name := mkFile (take (shortWrite n) raw) (timeAt n)]> fs)
          (fun n fs => (Ok tt, <[name := mkFile raw (timeAt n)]> fs)).

(** [os.ReadDir]: names and modification times. *)
Definition ReadDir : IO (list (string * Z)) :=
  syscall unchanged (fun _ fs => (Ok (map (fun x => (x.1, f_modTime x.2)) (map_range fs)), fs)).

(** [e.Info()]. *)
Definition Info (entry : string * Z) : IO Z := syscall unchanged (fun _ fs => (Ok entry.2, fs)).

(** [os.Open] of the directory, [Sync] and the deferred [Close]. *)
Definition syncDir : IO unit :=
  _ ← touch;
  r ← try Sync;
  _ ← try Close;
  io r.

(** [time.Now().UnixNano()]. *)
Definition nowNano : IO Z := fun d => (Ok (timeAt (calls d)), d).

(** ** Files moved aside *)

Definition maxCorruptBackups : nat := 5.

Definition HasPrefix (s prefix : string) : bool := String.prefix prefix s.

Definition corruptPrefix : string := base +:+ ".corrupt-".

(** Newest first; among files of the same time, by name. *)
Definition newerFile : string * Z -> string * Z -> bool := byDesc snd (flip (byName fst)).

(** The loop that collects the files moved aside. *)
Fixpoint collectBackups (entries : list (string * Z)) : IO (list (string * Z)) :=
  match entries with
  | [] => mret []
  | e :: entries' =>
      if negb (HasPrefix e.1 corruptPrefix) then collectBackups entries' else
      info ← try (Info e);
      rest ← collectBackups entries';
      match info with
      | Ok mod_ => mret ((e.1, mod_) :: rest)
      | _ => mret rest
      end
  end.

Fixpoint removeAll (found : list (string * Z)) : IO unit :=
  match found with
  | [] => mret tt
  | f :: found' => _ ← try (Remove f.1); removeAll found'
  end.

Definition cleanupCorruptBackups (maxKeep : nat) : IO unit :=
  if (maxKeep =? 0)%nat then mret tt else
  entries ← ReadDir;
  found ← collectBackups entries;
  if (length found <=? maxKeep)%nat then mret tt else
  removeAll (drop maxKeep (sortSlice newerFile found)).

(** ** Reading and writing the file *)

Definition backupName (nanos : Z) : string := sprintf "%s.corrupt-%d" [AS base; AZ nanos].

Definition quarantine : IO unit :=
  t ← nowNano;
  _ ← try (Rename base (backupName t));
  _ ← try (cleanupCorruptBackups maxCorruptBackups);
  mret tt.

Definition readAllLocked : IO (gmap string SessionSnapshot) :=
  r ← try (ReadFile base);
  match r with
  | Err e => if IsNotExist e then mret ∅ else io (Err e)
  | Panic => io Panic
  | Ok raw =>
      if len raw =? 0 then mret ∅ else
      match Unmarshal raw with
      | Ok (Some data) => mret data
      | Ok None => mret ∅
      | _ => _ ← quarantine; mret ∅
      end
  end.

Definition writeAllLocked (data : gmap string SessionSnapshot) : IO unit :=
  _ ← MkdirAll;
  raw ← io (MarshalIndent data);
  tmpPath ← CreateTemp;
  r ← try (w ← try (Write tmpPath raw);
           match w with
           | Ok _ =>
               synced ← try Sync;
               match synced with
               | Ok _ =>
                   _ ← Close;
                   _ ← Chmod;
                   renamed ← try (Rename tmpPath base);
                   io (wrap "rename temp store file: %w" [] renamed)
               | _ => _ ← try Close; io synced
               end
           | _ => _ ← try Close; io w
           end);
  match r with
  | Ok _ => _ ← try syncDir; mret tt
  | _ => _ ← try (Remove tmpPath); io r
  end.

(** ** The store *)

Definition file_SaveSession (snapshot : SessionSnapshot) : IO unit :=
  data ← readAllLocked;
  writeAllLocked (<[snap_ControllerID snapshot := snapshot]> data).

Definition file_DeleteSession (controllerID : string) : IO unit :=
  data ← readAllLocked;
  writeAllLocked (delete controllerID data).

Definition file_ListSessions : IO (list SessionSnapshot) :=
  data ← readAllLocked;
  mret (map_range data).*2.

(** ** What a directory holds *)

(** The sessions a store that opens this directory finds. *)
Definition saved (fs : dirmap) : gmap string SessionSnapshot :=
  match fs !! base with
  | None => ∅
  | Some f =>
      if len (f_data f) =? 0 then ∅ else
      match Unmarshal (f_data f) with
      | Ok (Some data) => data
      | _ => ∅
      end
  end.

Lemma saved_same fs fs' : fs' !! base = fs !! base -> saved fs' = saved fs.
Proof. unfold saved. by intros ->. Qed.

Lemma saved_insert fs name f : name <> base -> saved (<[name := f]> fs) = saved fs.
Proof. intros Hne. apply saved_same. by apply lookup_insert_ne. Qed.

Lemma saved_delete fs name : name <> base -> saved (delete name fs) = saved fs.
Proof. intros Hne. apply saved_same. by apply lookup_delete_ne. Qed.

(** ** Reasoning about crashes

    [crash T P x Q]: from a directory with [P], [x] ends with [Q], and every
    directory a crash during [x] could leave behind has [T]. *)
Section Crash.
Variable T : dirmap -> Prop.

Definition crash {A} (P : dirmap -> Prop) (x : IO A) (Q : res A -> dirmap -> Prop) : Prop :=
  forall d, P (files d) -> Q (x d).1 (files (x d).2)
    /\ exists new, trail (x d).2 = trail d ++ new /\ Forall T new.

Lemma crash_ret {A} P (a : A) (Q : res A -> dirmap -> Prop) :
  (forall fs, P fs -> Q (Ok a) fs) -> crash P (mret a) Q.
Proof. intros HQ d Hd. split; [by apply HQ|]. exists []. by rewrite app_nil_r. Qed.

Lemma crash_io {A} P (r : res A) (Q : res A -> dirmap -> Prop) :
  (forall fs, P fs -> Q r fs) -> crash P (io r) Q.
Proof. intros HQ d Hd. split; [by apply HQ|]. exists []. by rewrite app_nil_r. Qed.

Lemma crash_bind {A B} P (x : IO A) (f : A -> IO B) (Q : res A -> dirmap -> Prop) (R : res B -> dirmap -> Prop) :
  crash P x Q -> (forall a, crash (Q (Ok a)) (f a) R) ->
  (forall e fs, Q (Err e) fs -> R (Err e) fs) -> (forall fs, Q Panic fs -> R Panic fs) -> crash P (x ≫= f) R.
Proof.
  intros Hx Hf He Hp d Hd. destruct (Hx d Hd) as (HQ & n1 & Ht1 & Hn1). unfold mbind, IO_bind.
  destruct (x d) as [[a|e|] d1]; cbn in *; [|by split; [apply He|exists n1]|by split; [apply Hp|exists n1]].
  destruct (Hf a d1 HQ) as (HR & n2 & Ht2 & Hn2). split; [done|]. exists (n1 ++ n2).
  rewrite Ht2, Ht1, app_assoc. split; [done|]. by apply Forall_app.
Qed.

Lemma crash_try {A} P (x : IO A) (Q : res (res A) -> dirmap -> Prop) :
  crash P x (fun r => Q (Ok r)) -> crash P (try x) Q.
Proof. intros Hx d Hd. specialize (Hx d Hd). unfold try. by destruct (x d). Qed.

Lemma crash_pre {A} (P P' : dirmap -> Prop) (x : IO A) Q :
  crash P x Q -> (forall fs, P' fs -> P fs) -> crash P' x Q.
Proof. intros Hx HP d Hd. by apply Hx, HP. Qed.

Lemma crash_post {A} P (x : IO A) (Q Q' : res A -> dirmap -> Prop) :
  crash P x Q -> (forall r fs, Q r fs -> Q' r fs) -> crash P x Q'.
Proof. intros Hx HQ d Hd. destruct (Hx d Hd). split; [by apply HQ|done]. Qed.

Lemma crash_syscall {A} P (Q : res A -> dirmap -> Prop) failed op :
  (forall fs, P fs -> T fs) -> (forall n fs e, P fs -> fault n = Some e -> Q (Err e) (failed n fs)) ->
  (forall n fs, P fs -> Q (op n fs).1 (op n fs).2) -> crash P (syscall failed op) Q.
Proof.
  intros HT Hf Ho d Hd. unfold syscall. split.
  - destruct (fault (calls d)) eqn:E; [by apply Hf|]. specialize (Ho (calls d) (files d) Hd). by destruct (op _ _).
  - exists [files d]. split; [|by apply Forall_singleton, HT]. destruct (fault _); [done|]. by destruct (op _ _).
Qed.

Lemma crash_touch P Q :
  (forall fs, P fs -> T fs) -> (forall n fs e, P fs -> fault n = Some e -> Q (Err e) fs) ->
  (forall fs, P fs -> Q (Ok tt) fs) -> crash P touch Q.
Proof. intros HT Hf Ho. by apply crash_syscall; [|intros; by eapply Hf|intros; apply Ho]. Qed.

Lemma crash_pure {A} P (phi : Prop) (x : IO A) Q :
  (phi -> crash P x Q) -> crash (fun fs => P fs /\ phi) x Q.
Proof. intros Hx d [Hd Hphi]. by apply Hx. Qed.

(** What a computation returns, from any disk. *)
Lemma crash_and_result {A} P (x : IO A) (Q : res A -> dirmap -> Prop) (R : res A -> Prop) :
  (forall d, R (x d).1) -> crash P x Q -> crash P x (fun r fs => R r /\ Q r fs).
Proof. intros HR Hx d Hd. destruct (Hx d Hd). by split; [split|]. Qed.

End Crash.

(** ** Operations that leave the saved sessions alone *)

Lemma append_assoc s t u : (s +:+ t) +:+ u = s +:+ (t +:+ u).
Proof. induction s as [|c s IH]; [done|]. exact (f_equal (String.String c) IH). Qed.

Lemma append_nil s : s +:+ "" = s.
Proof. induction s as [|c s IH]; [done|]. exact (f_equal (String.String c) IH). Qed.

Lemma prefix_append s t : String.prefix s (s +:+ t) = true.
Proof.
  induction s as [|c s IH]; [by destruct t|]. change (String.String c s +:+ t) with (String.String c (s +:+ t)). cbn.
  by destruct (Ascii.ascii_dec c c).
Qed.

Lemma prefix_shorter s t c : String.prefix (s +:+ String.String c t) s = false.
Proof.
  induction s as [|c' s IH]; [done|].
  change (String.String c' s +:+ String.String c t) with (String.String c' (s +:+ String.String c t)). cbn.
  by destruct (Ascii.ascii_dec c' c').
Qed.

Lemma corrupt_not_base name : HasPrefix name corruptPrefix = true -> name <> base.
Proof. unfold HasPrefix, corruptPrefix. intros Hp ->. by rewrite prefix_shorter in Hp. Qed.

Lemma backupName_corrupt t : HasPrefix (backupName t) corruptPrefix = true.
Proof.
  assert (backupName t = corruptPrefix +:+ (pretty.pretty t +:+ "")) as ->.
  { unfold corruptPrefix. rewrite append_assoc. reflexivity. }
  apply prefix_append.
Qed.

(** Something in the environment failed. *)
Definition faulty : Prop := (exists n e, fault n = Some e) \/ (exists data e, MarshalIndent data = Err e).

Lemma fault_faulty n e : fault n = Some e -> faulty.
Proof. left. by exists n, e. Qed.

Section Steady.
Variable T : dirmap -> Prop.
Variable m : gmap string SessionSnapshot.
Hypothesis HT : forall fs, saved fs = m -> T fs.

Abbreviation steady := (fun fs => saved fs = m).
Abbreviation still := (fun (_ : res _) (fs : dirmap) => saved fs = m).

Lemma steady_touch : crash T steady touch still.
Proof. by apply crash_touch. Qed.

Lemma steady_bind {A B} (x : IO A) (f : A -> IO B) (Q : A -> Prop) :
  crash T steady x (fun r fs => saved fs = m /\ match r with Ok a => Q a | _ => True end) ->
  (forall a, Q a -> crash T steady (f a) still) -> crash T steady (x ≫= f) still.
Proof.
  intros Hx Hf. eapply crash_bind; [exact Hx| |by intros ? ? [? _]|by intros ? [? _]].
  intros a d [Hs Ha]. by apply (Hf a Ha).
Qed.

Lemma steady_any {A} (x : IO A) :
  crash T steady x still -> crash T steady x (fun r fs => saved fs = m /\ match r with Ok _ => True | _ => True end).
Proof. intros Hx. eapply crash_post; [exact Hx|]. intros [] fs Hs; by split. Qed.

Lemma steady_try {A} (x : IO A) : crash T steady x still -> crash T steady (try x) still.
Proof. intros Hx. by apply crash_try. Qed.

Lemma steady_seq {A B} (x : IO A) (f : A -> IO B) :
  crash T steady x still -> (forall a, crash T steady (f a) still) -> crash T steady (x ≫= f) still.
Proof. intros Hx Hf. apply (steady_bind _ _ (fun _ => True)); [by apply steady_any|auto]. Qed.

Lemma steady_ret {A} (a : A) : crash T steady (mret a) still.
Proof. by apply crash_ret. Qed.

Lemma steady_Remove name : name <> base -> crash T steady (Remove name) still.
Proof.
  intros Hne. apply crash_syscall; [done|done|]. intros n fs Hs. cbn. destruct (fs !! name); cbn; [|done].
  by rewrite saved_delete.
Qed.

Lemma steady_collect entries :
  crash T steady (collectBackups entries) (fun r fs => saved fs = m /\
    match r with Ok l => Forall (fun e => e.1 <> base) l | _ => True end).
Proof.
  induction entries as [|e entries IH]; cbn [collectBackups]; [by apply crash_ret|].
  destruct (HasPrefix e.1 corruptPrefix) eqn:Ep; cbn [negb]; [|exact IH].
  eapply crash_bind with (Q := still); [apply steady_try; by apply crash_syscall| |by intros|by intros].
  intros info. eapply crash_bind; [exact IH| |by intros ? ? [? _]|by intros ? [? _]].
  intros rest. destruct info as [mod_|e'|]; apply crash_ret; [|done..].
  intros fs [Hs Hr]. split; [done|]. constructor; [by apply corrupt_not_base|done].
Qed.

Lemma steady_removeAll found :
  Forall (fun e => e.1 <> base) found -> crash T steady (removeAll found) still.
Proof.
  induction 1 as [|e found He _ IH]; cbn [removeAll]; [apply steady_ret|].
  apply steady_seq; [by apply steady_try, steady_Remove|]. intros _. exact IH.
Qed.

Lemma steady_cleanup n : crash T steady (cleanupCorruptBackups n) still.
Proof.
  unfold cleanupCorruptBackups. destruct (_ =? _)%nat; [apply steady_ret|].
  apply steady_seq; [by apply crash_syscall|]. intros entries.
  apply (steady_bind _ _ (Forall (fun e => e.1 <> base))); [apply steady_collect|]. intros found Hf.
  destruct (_ <=? _)%nat; [apply steady_ret|]. apply steady_removeAll.
  apply Forall_drop. by rewrite sortSlice_perm.
Qed.

(** Moving aside a file that cannot be decoded. *)
Lemma steady_quarantine :
  m = ∅ -> crash T steady quarantine (fun r fs => r = Ok tt /\ saved fs = m).
Proof.
  intros Hm. apply (crash_and_result _ _ _ still (fun r => r = Ok tt)).
  { intros d. unfold quarantine, mbind, IO_bind, try. cbn. by repeat case_match. }
  unfold quarantine. apply crash_bind with (Q := still); [by intros d Hd; split; [|exists []; rewrite app_nil_r]| |by intros..].
  intros t. apply steady_seq.
  - apply crash_try, crash_syscall; [done|done|]. intros n fs Hs. cbn.
    destruct (fs !! base) as [f|]; cbn; [|done].
    rewrite Hm. unfold saved. rewrite lookup_insert_ne, lookup_delete_eq; [done|].
    apply corrupt_not_base, backupName_corrupt.
  - intros _. apply steady_seq; [apply steady_try, steady_cleanup|]. intros _. apply steady_ret.
Qed.

(** Reading gives what is saved. *)
Lemma readAllLocked_spec :
  crash T steady readAllLocked (fun r fs => saved fs = m /\ match r with Ok data => data = m | Err _ => faulty | Panic => False end).
Proof.
  unfold readAllLocked. eapply crash_bind with (Q := fun r fs => saved fs = m /\
    match r with
    | Ok (Ok raw) => m = if len raw =? 0 then ∅ else match Unmarshal raw with Ok (Some data) => data | _ => ∅ end
    | Ok (Err e) => if IsNotExist e then m = ∅ else faulty
    | _ => False
    end); [| |by intros ?? [_ []]|by intros ? [_ []]].
  - apply crash_try, crash_syscall; [done| |].
    + intros n fs e Hs He. split; [done|]. unfold IsNotExist. rewrite bool_decide_eq_false_2 by (intros ->; by apply (fault_exists n)).
      by eapply fault_faulty.
    + intros n fs Hs. split; [by destruct (fs !! base)|]. rewrite <- Hs. unfold saved. by destruct (fs !! base).
  - intros [raw|e|]; apply crash_pure; [intros Hm|intros Hm|done].
    + assert (m = ∅ -> crash T steady (_ ← quarantine; mret ∅)
        (fun r fs => saved fs = m /\ match r with Ok data => data = m | Err _ => faulty | Panic => False end)) as Hq.
      { intros He. eapply crash_bind; [by apply steady_quarantine| |by intros ? ? [[=] _]|by intros ? [[=] _]].
        intros []. apply crash_ret. by intros fs [_ Hs]. }
      destruct (len raw =? 0); [by apply crash_ret|].
      destruct (Unmarshal raw) as [[data|]|e|]; [by apply crash_ret..|by apply Hq|by apply Hq].
    + destruct (IsNotExist e); [by apply crash_ret|by apply crash_io].
Qed.

End Steady.

(** ** Replacing the file *)

Section Replace.
Variable T : dirmap -> Prop.
Variables m data : gmap string SessionSnapshot.
Variable raw : bytes.
Variable tmpPath : string.
Hypothesis HTm : forall fs, saved fs = m -> T fs.
Hypothesis HTd : forall fs, saved fs = data -> T fs.
Hypothesis Hraw : MarshalIndent data = Ok raw.
Hypothesis Htmp : tmpPath <> base.

(** Before the rename the temporary file is complete; after it, it is the
    store's file. *)
Definition written (fs : dirmap) : Prop := saved fs = m /\ f_data <$> fs !! tmpPath = Some raw.

Definition replaced (r : res unit) (fs : dirmap) : Prop :=
  match r with Ok _ => saved fs = data | Err _ => saved fs = m /\ faulty | Panic => False end.

Lemma crash_wrap {A} P (x : IO A) (r : res A -> res A) Q :
  crash T P x (fun a fs => Q (r a) fs) -> crash T P (a ← try x; io (r a)) Q.
Proof.
  intros Hx d Hd. specialize (Hx d Hd). unfold mbind, IO_bind, try. by destruct (x d).
Qed.

Lemma rename_replaces : crash T written (Rename tmpPath base) replaced.
Proof.
  apply crash_syscall; [by intros fs [? _]; apply HTm|intros n fs e [? _] ?; split; [done|by eapply fault_faulty]|]. intros n fs [Hs Hf]. cbn.
  destruct (fs !! tmpPath) as [f|]; [|done]. cbn in *. injection Hf as Hf. unfold saved.
  destruct (Marshal_ok _ _ Hraw) as [Hne Hu]. rewrite lookup_insert_eq, Hf, Hu.
  destruct (Z.eqb_spec (len raw) 0) as [Hl|]; [|done]. destruct raw; [done|]. unfold len in Hl. cbn in Hl. lia.
Qed.

(** The calls between the write and the rename. *)
Lemma crash_then (x : IO unit) (f : unit -> IO unit) :
  x = touch -> (forall a, crash T written (f a) replaced) -> crash T written (x ≫= f) replaced.
Proof.
  intros -> Hf. eapply crash_bind with (Q := fun r fs => written fs /\ match r with Ok _ => True | Err _ => faulty | Panic => False end);
    [| |by intros ? ? [[]]|by intros ? [_ []]].
  - apply crash_touch; [by intros fs [? _]; apply HTm|intros; split; [done|by eapply fault_faulty]|by intros].
  - intros a. apply crash_pre with (P := written); [apply Hf|by intros fs []].
Qed.

(** [try] never ends a computation. *)
Lemma crash_bind_try {A B} P (x : IO A) (f : res A -> IO B) (Q : res A -> dirmap -> Prop) R :
  crash T P x Q -> (forall r, crash T (Q r) (f r) R) -> crash T P (try x ≫= f) R.
Proof.
  intros Hx Hf. eapply crash_bind with (Q := fun r fs => match r with Ok r => Q r fs | _ => False end); [by apply crash_try|done|done|done].
Qed.

Lemma close_fails (r : res unit) e :
  r = Err e -> crash T (fun fs => saved fs = m /\ faulty) (_ ← try Close; io r) replaced.
Proof.
  intros ->. apply crash_pure. intros Hf. eapply crash_bind_try; [by apply (steady_touch T m)|]. intros r. by apply crash_io.
Qed.

(** The part of [writeAllLocked] that the deferred removal guards. *)
Lemma write_body :
  crash T (fun fs => saved fs = m)
    (w ← try (Write tmpPath raw);
     match w with
     | Ok _ =>
         synced ← try Sync;
         match synced with
         | Ok _ =>
             _ ← Close;
             _ ← Chmod;
             renamed ← try (Rename tmpPath base);
             io (wrap "rename temp store file: %w" [] renamed)
         | _ => _ ← try Close; io synced
         end
     | _ => _ ← try Close; io w
     end) replaced.
Proof.
  eapply crash_bind_try with (Q := fun r fs => match r with Ok _ => written fs | Err _ => saved fs = m /\ faulty | Panic => False end).
  { apply crash_syscall; [done|intros n fs e Hs ?; split; [by rewrite saved_insert|by eapply fault_faulty]|].
    intros n fs Hs. cbn. split; [by rewrite saved_insert|].
    by rewrite lookup_insert_eq. }
  intros [[]|e|]; [|by eapply close_fails|by intros ? []].
  eapply crash_bind_try with (Q := fun r fs => match r with Ok _ => written fs | Err _ => saved fs = m /\ faulty | Panic => False end).
  { apply crash_touch; [by intros fs [? _]; apply HTm|intros n fs e [? _] ?; split; [done|by eapply fault_faulty]|done]. }
  intros [[]|e|]; [|by eapply close_fails|by intros ? []].
  do 2 (apply crash_then; [done|intros _]). apply crash_wrap.
  eapply crash_post; [apply rename_replaces|]. by intros [] fs.
Qed.

End Replace.

(** Writing replaces what is saved, all or nothing. *)
Lemma writeAllLocked_spec T m data :
  (forall fs, saved fs = m -> T fs) -> (forall fs, saved fs = data -> T fs) ->
  crash T (fun fs => saved fs = m) (writeAllLocked data) (replaced m data).
Proof.
  intros HTm HTd. unfold writeAllLocked.
  eapply crash_bind with (Q := fun r fs => saved fs = m /\ match r with Ok _ => True | Err _ => faulty | Panic => False end);
    [apply crash_touch; [done|intros; split; [done|by eapply fault_faulty]|done]| |done|by intros ? []].
  intros u. apply crash_pre with (P := fun fs => saved fs = m); [|by intros fs []].
  eapply crash_bind with (Q := fun r fs => saved fs = m /\ r = MarshalIndent data); [by apply crash_io| | |].
  2: { intros e fs [Hs He]. split; [done|]. right. by exists data, e. }
  2: { intros fs [_ Hp]. pose proof (Marshal_no_panic data) as Hn. by rewrite <- Hp in Hn. }
  intros raw. apply crash_pure. intros Hraw.
  eapply crash_bind with (Q := fun r fs => saved fs = m /\ match r with Ok tmp => tmp <> base | Err _ => faulty | Panic => False end);
    [| |done|by intros ? [_ []]].
  { apply crash_syscall; [done|intros; split; [done|by eapply fault_faulty]|]. intros n fs Hs. cbn. rewrite saved_insert by apply tempName_base.
    split; [done|apply tempName_base]. }
  intros tmp. apply crash_pure. intros Htmp.
  eapply crash_bind_try; [by apply write_body|]. intros [[]|e|].
  - eapply crash_bind_try with (Q := fun _ fs => saved fs = data); [|intros r; by apply crash_ret].
    cbn. unfold syncDir. apply (steady_seq T data); [by apply steady_touch|]. intros _.
    apply (steady_seq T data); [apply steady_try; by apply steady_touch|]. intros r.
    apply (steady_seq T data); [apply steady_try; by apply steady_touch|]. intros _. by apply crash_io.
  - apply crash_pure. intros Hf. eapply crash_bind_try with (Q := fun _ fs => saved fs = m); [by apply (steady_Remove T m)|].
    intros r. by apply crash_io.
  - by intros d [].
Qed.

(** ** The operations *)

Lemma update_spec T (f : gmap string SessionSnapshot -> gmap string SessionSnapshot) m :
  (forall fs, saved fs = m -> T fs) -> (forall fs, saved fs = f m -> T fs) ->
  crash T (fun fs => saved fs = m) (data ← readAllLocked; writeAllLocked (f data)) (replaced m (f m)).
Proof.
  intros HTm HTf. eapply crash_bind; [by apply readAllLocked_spec| |done|by intros ? [_ []]].
  intros data. apply crash_pure. intros ->. by apply writeAllLocked_spec.
Qed.

Lemma list_spec T m :
  (forall fs, saved fs = m -> T fs) ->
  crash T (fun fs => saved fs = m) file_ListSessions
    (fun r fs => saved fs = m /\ match r with Ok l => l = (map_range m).*2 | Err _ => faulty | Panic => False end).
Proof.
  intros HTm. eapply crash_bind; [by apply readAllLocked_spec| |done|by intros ? [_ []]].
  intros data. apply crash_ret. by intros fs [Hs ->].
Qed.

End FileStore.

(** The store: the disk it is on. *)
Record FileStore (base : string) := mkFileStore { disk : Disk }.
Arguments mkFileStore {base}.
Arguments disk {base}.

(** [NewFileStore]: nothing is read before the first operation. *)
Definition NewFileStore (base : string) (d : Disk) : FileStore base := mkFileStore d.

Section Instance.
Context `{MapRange} `{JSON} {base : string} `{!World base}.

Definition on_disk {A} (x : IO A) (s : FileStore base) : res A * FileStore base :=
  let '(r, d) := x (disk s) in (r, mkFileStore d).

Definition err_of (r : res unit) : option error :=
  match r with Ok _ => None | Err e => Some e | Panic => Some (Errorf "panic" []) end.

#[global] Instance FileStore_store : Store (FileStore base) := {|
  SaveSession snap s := let '(r, s') := on_disk (file_SaveSession base snap) s in (err_of r, s');
  DeleteSession id s := let '(r, s') := on_disk (file_DeleteSession base id) s in (err_of r, s');
  ListSessions := on_disk (file_ListSessions base)
|}.

(** What an update of the saved sessions did, whatever happened to its system
    calls: all or nothing, also at every point where a crash could stop it. *)
Definition all_or_nothing (x : IO unit) (d : Disk) (new : gmap string SessionSnapshot) : Prop :=
  let old := saved base (files d) in
  (exists crashes, trail (x d).2 = trail d ++ crashes
     /\ Forall (fun fs => saved base fs = old \/ saved base fs = new) crashes)
  /\ match (x d).1 with
     | Ok _ => saved base (files (x d).2) = new
     | Err _ => saved base (files (x d).2) = old /\ faulty base
     | Panic => False
     end.

Lemma save_all_or_nothing snap d :
  all_or_nothing (file_SaveSession base snap) d (<[snap_ControllerID snap := snap]> (saved base (files d))).
Proof.
  apply and_comm. exact (update_spec base _ (fun data => <[snap_ControllerID snap := snap]> data) _
    (fun fs Hs => or_introl Hs) (fun fs Hs => or_intror Hs) d eq_refl).
Qed.

Lemma delete_all_or_nothing id d :
  all_or_nothing (file_DeleteSession base id) d (delete id (saved base (files d))).
Proof.
  apply and_comm. exact (update_spec base _ (delete id) _
    (fun fs Hs => or_introl Hs) (fun fs Hs => or_intror Hs) d eq_refl).
Qed.

Lemma list_outcome d :
  saved base (files (file_ListSessions base d).2) = saved base (files d)
  /\ match (file_ListSessions base d).1 with
     | Ok l => l = (map_range (saved base (files d))).*2
     | Err _ => faulty base
     | Panic => False
     end.
Proof. by destruct (list_spec base (fun _ => True) _ ltac:(done) d eq_refl) as [Hl _]. Qed.

#[global] Instance FileStore_laws : StoreLaws (FileStore base).
Proof.
  refine {| contents := fun s => saved base (files (disk s)); keptTime := id; keptTime_near := exact_time_near |};
    cbn; unfold on_disk.
  - intros snap s s'. unfold id. rewrite set_snap_LastSeen_id. destruct (save_all_or_nothing snap (disk s)) as [_ Hr].
    destruct (file_SaveSession _ _ _) as [[u|e|] d]; cbn in *; [|done..]. by intros [= <-].
  - intros snap s s' e'. destruct (save_all_or_nothing snap (disk s)) as [_ Hr].
    destruct (file_SaveSession _ _ _) as [[u|e|] d]; cbn in *; [done| |done]. intros [= _ <-]. apply Hr.
  - intros id s s'. destruct (delete_all_or_nothing id (disk s)) as [_ Hr].
    destruct (file_DeleteSession _ _ _) as [[u|e|] d]; cbn in *; [|done..]. by intros [= <-].
  - intros id s s' e'. destruct (delete_all_or_nothing id (disk s)) as [_ Hr].
    destruct (file_DeleteSession _ _ _) as [[u|e|] d]; cbn in *; [done| |done]. intros [= _ <-]. apply Hr.
  - intros s s' l. destruct (list_outcome (disk s)) as [_ Hr].
    destruct (file_ListSessions _ _) as [r d]. cbn in Hr. intros [= -> <-]. subst l. by rewrite map_range_perm.
  - intros s. destruct (list_outcome (disk s)) as [Hs _]. by destruct (file_ListSessions _ _) as [r d].
Defined.

(** C5: the file store is crash safe: an update of the saved sessions is all or
    nothing.  Whatever system calls fail, and at whatever point between them the
    process dies, the file holds either the sessions before the call or those
    after it; the call returns success exactly in the second case, and an error
    only when a system call or the encoding failed. *)
Theorem file_store_crash_safe snap id (d : Disk) :
  all_or_nothing (file_SaveSession base snap) d (<[snap_ControllerID snap := snap]> (saved base (files d)))
  /\ all_or_nothing (file_DeleteSession base id) d (delete id (saved base (files d))).
Proof. split; [apply save_all_or_nothing|apply delete_all_or_nothing]. Qed.

(** ** The same as the store in memory *)

Inductive store_op :=
  | OpSave (snap : SessionSnapshot)
  | OpDelete (id : string)
  | OpList.

(** An operation's result: the error, and what was listed. *)
Definition run_op {S} `{!Store S} (op : store_op) (s : S) : res (list SessionSnapshot) * S :=
  match op with
  | OpSave snap => let '(e, s') := SaveSession snap s in (match e with None => Ok [] | Some e => Err e end, s')
  | OpDelete id => let '(e, s') := DeleteSession id s in (match e with None => Ok [] | Some e => Err e end, s')
  | OpList => ListSessions s
  end.

Fixpoint run_ops {S} `{!Store S} (ops : list store_op) (s : S) : list (res (list SessionSnapshot)) * S :=
  match ops with
  | [] => ([], s)
  | op :: ops' => let '(r, s1) := run_op op s in let '(rs, s2) := run_ops ops' s1 in (r :: rs, s2)
  end.

Definition same_state (s : FileStore base) (m : InMemoryStore) : Prop := saved base (files (disk s)) = mem_sessions m.

Lemma run_op_same op s m :
  ~ faulty base -> same_state s m -> (run_op op s).1 = (run_op op m).1 /\ same_state (run_op op s).2 (run_op op m).2.
Proof.
  intros Hok Hsame. destruct op as [snap|id|]; cbn; unfold on_disk.
  - destruct (save_all_or_nothing snap (disk s)) as [_ Hr].
    destruct (file_SaveSession _ _ _) as [[u|e|] d]; cbn in *; [|by destruct Hr|done]. split; [done|].
    unfold same_state. cbn. by rewrite Hr, Hsame.
  - destruct (delete_all_or_nothing id (disk s)) as [_ Hr].
    destruct (file_DeleteSession _ _ _) as [[u|e|] d]; cbn in *; [|by destruct Hr|done]. split; [done|].
    unfold same_state. cbn. by rewrite Hr, Hsame.
  - destruct (list_outcome (disk s)) as [Hs Hr].
    destruct (file_ListSessions _ _) as [[l|e|] d]; cbn in *; [|done|done]. split; [by rewrite Hr, Hsame|].
    unfold same_state. cbn. by rewrite Hs, Hsame.
Qed.

Lemma run_ops_same ops s m :
  ~ faulty base -> same_state s m -> (run_ops ops s).1 = (run_ops ops m).1 /\ same_state (run_ops ops s).2 (run_ops ops m).2.
Proof.
  intros Hok. revert s m. induction ops as [|op ops IH]; intros s m Hsame; [done|]. cbn.
  destruct (run_op_same op s m Hok Hsame) as [Hr Hs]. destruct (run_op op s) as [r s1], (run_op op m) as [r' m1].
  cbn in *. destruct (IH s1 m1 Hs) as [Hrs Hss]. destruct (run_ops ops s1), (run_ops ops m1). cbn in *.
  split; [by rewrite Hr, Hrs|done].
Qed.

(** C18: without failures the file store and the store in memory are
    interchangeable: started on a directory without the file, every sequence of
    saves, deletions and listings gives the same results, call by call, as on an
    empty store in memory. *)
Theorem file_store_equivalent (ops : list store_op) (d : Disk) :
  ~ faulty base -> files d !! base = None ->
  (run_ops ops (NewFileStore base d)).1 = (run_ops ops NewInMemoryStore).1.
Proof.
  intros Hok Hnone. apply run_ops_same; [done|]. unfold same_state, saved. cbn. by rewrite Hnone.
Qed.

(** ** Which of the files moved aside are kept *)

(** The files moved aside, in the order of a listing. *)
Definition backups (fs : dirmap) : list (string * Z) :=
  filter (fun e => HasPrefix e.1 (corruptPrefix base) = true) (map (fun x => (x.1, f_modTime x.2)) (map_range fs)).

Section NoFault.
Hypothesis Hok : forall n, fault n = None.

Lemma syscall_ok {A} failed (op : nat -> dirmap -> res A * dirmap) d :
  (syscall base failed op d).1 = (op (calls d) (files d)).1
  /\ files (syscall base failed op d).2 = (op (calls d) (files d)).2.
Proof. unfold syscall. rewrite Hok. by destruct (op _ _). Qed.

Lemma bind_io {A B} (x : IO A) (f : A -> IO B) d :
  (x ≫= f) d = match x d with (Ok a, d') => f a d' | (Err e, d') => (Err e, d') | (Panic, d') => (Panic, d') end.
Proof. done. Qed.

Lemma bind_try {A B} (x : IO A) (f : res A -> IO B) d : (try x ≫= f) d = f (x d).1 (x d).2.
Proof. rewrite bind_io. unfold try. by destruct (x d). Qed.

Lemma collect_ok entries d :
  (collectBackups base entries d).1 = Ok (filter (fun e => HasPrefix e.1 (corruptPrefix base) = true) entries)
  /\ files (collectBackups base entries d).2 = files d.
Proof.
  revert d. induction entries as [|e entries IH]; intros d; [done|]. cbn [collectBackups]. rewrite filter_cons.
  destruct (HasPrefix e.1 (corruptPrefix base)) eqn:Ep; cbn [negb].
  - rewrite decide_True, !bind_try, !bind_io by done.
    destruct (syscall_ok (unchanged) (fun _ fs => (Ok e.2, fs)) d) as [H1 H2]. fold (Info base e) in H1, H2.
    destruct (Info base e d) as [r d1]. cbn in H1, H2. subst r.
    cbn [fst snd]. destruct (IH d1) as [H3 H4]. destruct (collectBackups base entries d1) as [r d2]. cbn in H3, H4. subst r. cbn.
    by rewrite H4, H2, <- surjective_pairing.
  - rewrite decide_False by done. apply IH.
Qed.

Lemma removeAll_ok found d :
  files (removeAll base found d).2 = filter (fun x => x.1 ∉ found.*1) (files d).
Proof.
  revert d. induction found as [|f found IH]; intros d; cbn [removeAll].
  - symmetry. apply map_filter_id. intros. cbn. apply not_elem_of_nil.
  - rewrite bind_try. pose proof (proj2 (syscall_ok unchanged (fun _ fs =>
      match fs !! f.1 with Some _ => (Ok tt, delete f.1 fs) | None => (Err ErrNotExist, fs) end) d)) as H2.
    fold (Remove base f.1) in H2. destruct (Remove base f.1 d) as [r d1]. cbn in H2. cbn [snd]. rewrite IH, H2.
    apply map_eq. intros k. apply option_eq. intros v. rewrite !map_lookup_filter_Some. cbn. rewrite not_elem_of_cons.
    destruct (files d !! f.1) as [w|] eqn:Ef; cbn; [rewrite lookup_delete_Some|]; naive_solver.
Qed.

(** Of the files that could not be decoded and were moved aside, a clean-up
    removes all but the newest [n] (by modification time, then by name), and it
    removes no other file. *)
Lemma cleanup_keeps_newest n d :
  (0 < n)%nat ->
  exists kept gone, kept ++ gone ≡ₚ backups (files d)
    /\ length kept = Nat.min n (length (backups (files d)))
    /\ (forall a b, a ∈ kept -> b ∈ gone -> newerFile b a = false)
    /\ files (cleanupCorruptBackups base n d).2 = filter (fun x => x.1 ∉ gone.*1) (files d).
Proof.
  intros Hn. unfold cleanupCorruptBackups. destruct (Nat.eqb_spec n 0); [lia|].
  rewrite bind_io. destruct (syscall_ok unchanged
    (fun _ fs => (Ok (map (fun x => (x.1, f_modTime x.2)) (map_range fs)), fs)) d) as [H1 H2]. fold (ReadDir base) in H1, H2.
  destruct (ReadDir base d) as [r d1]. cbn in H1, H2. subst r. rewrite bind_io.
  destruct (collect_ok (map (fun x => (x.1, f_modTime x.2)) (map_range (files d))) d1) as [H3 H4].
  fold (backups (files d)) in H3. destruct (collectBackups _ _ d1) as [r d2]. cbn in H3, H4. subst r.
  destruct (Nat.leb_spec (length (backups (files d))) n).
  - exists (backups (files d)), []. rewrite app_nil_r. split_and!; [done|lia|by intros ? ? ? ?%not_elem_of_nil|].
    cbn. rewrite H4, H2. symmetry. apply map_filter_id. intros. cbn. apply not_elem_of_nil.
  - exists (take n (sortSlice newerFile (backups (files d)))), (drop n (sortSlice newerFile (backups (files d)))).
    split_and!.
    + rewrite take_drop. apply sortSlice_perm.
    + by rewrite length_take, (Permutation_length (sortSlice_perm newerFile (backups (files d)))).
    + intros a b. apply sorted_take_before, sortSlice_sorted, _.
    + by rewrite removeAll_ok, H4, H2.
Qed.

End NoFault.
End Instance.

(** ** A concrete environment *)

(** An encoding of the sessions, by numbering them. *)
#[global] Instance Command_countable : Countable Command.
Proof.
  refine (inj_countable (fun c => [encode (cmd_MessageID c); encode (cmd_TraceID c); encode (cmd_DedupKey c); encode (cmd_CommandID c);
      encode (cmd_TTL c); encode (cmd_CreatedAt c); encode (cmd_Payload c); encode (cmd_Priority c);
      encode (cmd_Attempts c); encode (cmd_RetrySeq c)])
    (fun l => match l with
     | [x0; x1; x2; x3; x4; x5; x6; x7; x8; x9] =>
         x0 ← decode x0; x1 ← decode x1; x2 ← decode x2; x3 ← decode x3; x4 ← decode x4;
         x5 ← decode x5; x6 ← decode x6; x7 ← decode x7; x8 ← decode x8; x9 ← decode x9;
         Some (mkCommand x0 x1 x2 x3 x4 x5 x6 x7 x8 x9)
     | _ => None
     end) _).
  intros []. cbn. by rewrite !decode_encode.
Defined.

#[global] Instance InFlightSnapshot_eq_dec : EqDecision InFlightSnapshot.
Proof. solve_decision. Defined.

#[global] Instance InFlightSnapshot_countable : Countable InFlightSnapshot.
Proof.
  refine (inj_countable (fun c => [encode (ifs_Seq c); encode (ifs_Command c); encode (ifs_SentAt c); encode (ifs_Attempts c)])
    (fun l => match l with
     | [x0; x1; x2; x3] =>
         x0 ← decode x0; x1 ← decode x1; x2 ← decode x2; x3 ← decode x3;
         Some (mkInFlightSnapshot x0 x1 x2 x3)
     | _ => None
     end) _).
  intros []. cbn. by rewrite !decode_encode.
Defined.

#[global] Instance SessionSnapshot_eq_dec : EqDecision SessionSnapshot.
Proof. solve_decision. Defined.

#[global] Instance SessionSnapshot_countable : Countable SessionSnapshot.
Proof.
  refine (inj_countable (fun c => [encode (snap_ControllerID c); encode (snap_LastSeen c); encode (snap_BufferFree c); encode (snap_FWMode c);
      encode (snap_SyncMode c); encode (snap_Pending c); encode (snap_InFlight c); encode (snap_NextSeq c)])
    (fun l => match l with
     | [x0; x1; x2; x3; x4; x5; x6; x7] =>
         x0 ← decode x0; x1 ← decode x1; x2 ← decode x2; x3 ← decode x3; x4 ← decode x4;
         x5 ← decode x5; x6 ← decode x6; x7 ← decode x7;
         Some (mkSessionSnapshot x0 x1 x2 x3 x4 x5 x6 x7)
     | _ => None
     end) _).
  intros []. cbn. by rewrite !decode_encode.
Defined.

Fixpoint bits (p : positive) : bytes :=
  match p with xH => [49] | xO p => 48 :: bits p | xI p => 50 :: bits p end.

Fixpoint unbits (l : bytes) : option positive :=
  match l with
  | [] => None
  | b :: l' => if b =? 49 then Some xH else p ← unbits l'; if b =? 48 then Some (xO p) else Some (xI p)
  end.

Lemma unbits_bits p : unbits (bits p) = Some p.
Proof. induction p as [p IH|p IH|]; cbn; [by rewrite IH..|done]. Qed.

#[refine] Definition demo_json : JSON := {|
  MarshalIndent := fun data => Ok (bits (encode data));
  Unmarshal := fun raw => match unbits raw ≫= decode with Some data => Ok (Some data) | None => Err (Errorf "bad" []) end
|}.
Proof.
  - intros data raw [= <-]. split; [by destruct (encode data)|]. rewrite unbits_bits. cbn. by rewrite decode_encode.
  - done.
Defined.

(** A name longer than all of [l]. *)
Definition longer (l : list string) : string := foldr String.append "." l.

Lemma append_length s t : String.length (s +:+ t) = (String.length s + String.length t)%nat.
Proof. induction s as [|c s IH]; [done|]. exact (f_equal S IH). Qed.

Lemma longer_fresh l : longer l ∉ l.
Proof.
  enough (forall s, s ∈ l -> (String.length s < String.length (longer l))%nat) as Hl by (intros Hin%Hl; lia).
  assert (0 < String.length (longer l))%nat as Hpos.
  { induction l as [|s l IH]; cbn [longer foldr]; [cbn; lia|]. rewrite append_length. unfold longer in IH. lia. }
  induction l as [|s l IH]; intros s' Hs; [by apply not_elem_of_nil in Hs|].
  unfold longer in *. cbn [foldr] in *. rewrite append_length in *.
  assert (0 < String.length (foldr String.append "." l))%nat.
  { clear. induction l as [|s l IH]; cbn [foldr]; [cbn; lia|]. rewrite append_length. lia. }
  apply elem_of_cons in Hs as [->|Hs]; [lia|]. specialize (IH ltac:(done) s' Hs). lia.
Qed.

(** A disk on which nothing fails but the calls [bad] picks out. *)
#[refine] Definition demo_world (bad : nat -> bool) : World "sessions.json" := {|
  fault := fun n => if bad n then Some (Errorf "disk full" []) else None;
  shortWrite := fun _ => 3%nat;
  timeAt := Z.of_nat;
  tempName := fun d => longer ("sessions.json" :: (map_to_list d).*1)
|}.
Proof.
  - intros n. destruct (bad n); by intros [=].
  - intros d. set (l := _ :: _). pose proof (longer_fresh l) as Hf. destruct (d !! longer l) as [f|] eqn:E; [|done].
    exfalso. apply Hf. right. apply list_elem_of_fmap. exists (longer l, f). split; [done|]. by apply elem_of_map_to_list.
  - intros d He. set (l := _ :: _) in *. apply (longer_fresh l). rewrite He. left.
Defined.

#[local] Existing Instance ascending.
#[local] Existing Instance demo_json.

Definition demo_snapshot (id : string) : SessionSnapshot := mkSessionSnapshot id 0 1500 false false [] [] 0.

(** A directory with three files that were moved aside. *)
Definition demo_files : dirmap :=
  <["sessions.json.corrupt-7" := mkFile [1] 7]> (<["sessions.json.corrupt-8" := mkFile [2] 8]>
    (<["sessions.json.corrupt-9" := mkFile [3] 9]> (<["notes.txt" := mkFile [4] 1]> ∅))).

(** Call 7 of a save, the rename, fails. *)
Lemma file_store_crash_safe_witness :
  let world := demo_world (fun n => (n =? 7)%nat) in
  all_or_nothing (base := "sessions.json") (file_SaveSession "sessions.json" (demo_snapshot "A")) (mkDisk ∅ 0 [])
    (<["A" := demo_snapshot "A"]> ∅)
  /\ (file_SaveSession "sessions.json" (demo_snapshot "A") (mkDisk ∅ 0 [])).1
     = Err (Wrapf "rename temp store file: %w" [] (Errorf "disk full" [])).
Proof.
  intros world. split; [|vm_compute; reflexivity].
  exact (proj1 (file_store_crash_safe (base := "sessions.json") (demo_snapshot "A") "A" (mkDisk ∅ 0 []))).
Defined.

Lemma demo_world_sound : ~ @faulty demo_json "sessions.json" (demo_world (fun _ => false)).
Proof. intros [(n & e & [=])|(data & e & [=])]. Qed.

Lemma file_store_equivalent_witness :
  let world := demo_world (fun _ => false) in
  let ops := [OpSave (demo_snapshot "A"); OpSave (demo_snapshot "B"); OpDelete "A"; OpList] in
  (run_ops ops (NewFileStore "sessions.json" (mkDisk ∅ 0 []))).1 = (run_ops ops NewInMemoryStore).1
  /\ (run_ops ops NewInMemoryStore).1 = [Ok []; Ok []; Ok []; Ok [demo_snapshot "B"]].
Proof.
  intros world ops. split; [|vm_compute; reflexivity].
  exact (file_store_equivalent ops (mkDisk ∅ 0 []) demo_world_sound eq_refl).
Defined.

Lemma cleanup_keeps_newest_witness :
  let world := demo_world (fun _ => false) in
  exists kept gone, kept ++ gone ≡ₚ backups (base := "sessions.json") demo_files /\ length kept = 2%nat
    /\ files (cleanupCorruptBackups "sessions.json" 2 (mkDisk demo_files 0 [])).2
       = filter (fun x => x.1 ∉ gone.*1) demo_files.
Proof.
  intros world.
  destruct (@cleanup_keeps_newest ascending "sessions.json" world (fun _ => eq_refl) 2 (mkDisk demo_files 0 []) ltac:(lia))
    as (kept & gone & Hp & Hl & _ & Hf).
  exists kept, gone. split; [exact Hp|]. split; [exact Hl|exact Hf].
Defined.
