(* ===== verification/Postgres.v ===== *)
(** * The PostgreSQL store ([internal/store/postgres_store.go])

    One row per controller in the table [adapter_sessions]; the queue and the
    commands in flight are JSONB columns.  The driver and the database are not
    part of the program: they are the environment ([Database]), of which the
    model uses what their documentation says.  A table is a map from the primary
    key to the other columns; a statement takes effect as a whole or not at all;
    a column of type INTEGER or SMALLINT refuses values outside its range, a
    TIMESTAMPTZ has a resolution of one microsecond, and JSONB keeps the value
    of the text it was given.

    A statement can be refused, and it can take effect although its caller is
    told that it failed: the reply is lost, or comes after the deadline of five
    seconds.  The statements are numbered; what becomes of each, and the time of
    the server, are functions of the number. *)

From S2P Require Import Prelude Format Queue Store FileStore.

(** ** The database *)

(** What is used of [encoding/json] for a Go type. *)
Class Codec (A : Type) := {
  jsonMarshal : A -> res bytes;
  jsonUnmarshal : bytes -> res A;
  jsonMarshal_no_panic a : no_panic (jsonMarshal a);
  jsonUnmarshal_no_panic raw : no_panic (jsonUnmarshal raw)
}.

(** What becomes of a statement. *)
Inductive reply :=
  | Answered
  | Refused (e : error)
  | ReplyLost (e : error).

(** The columns, besides the primary key [controller_id]. *)
Record Row := mkRow {
  last_seen : Z;
  buffer_free : Z;
  fw_mode : bool;
  sync_mode : bool;
  pending : bytes;
  inflight : bytes;
  next_seq : Z;
  updated_at : Z
}.

Abbreviation rows := (gmap string Row).

Class Database `{!Codec (list Command)} `{!Codec (list InFlightSnapshot)} := {
  openErr : string -> option error;
  replyTo : nat -> reply;
  serverTime : nat -> Z;
  (** how many rows a query yields before the connection breaks *)
  brokenAfter : nat -> option (nat * error);
  scanErr : string -> Row -> option error;
  timestamptz : Z -> Z;
  timestamptz_near t : Z.abs (timestamptz t - t) < 1000;
  (** the text of a JSONB value, from the text it is made of *)
  jsonb : bytes -> res bytes;
  jsonb_no_panic raw : no_panic (jsonb raw);
  jsonb_pending (l : list Command) raw text :
    jsonMarshal l = Ok raw -> jsonb raw = Ok text -> text <> [] /\ jsonUnmarshal text = Ok l;
  jsonb_inflight (l : list InFlightSnapshot) raw text :
    jsonMarshal l = Ok raw -> jsonb raw = Ok text -> text <> [] /\ jsonUnmarshal text = Ok l
}.

(** The table, if it exists, and the number of statements so far. *)
Record DB := mkDB { table : option rows; statements : nat }.

Definition ErrNoTable : error := Errorf "relation adapter_sessions does not exist" [].
Definition ErrOutOfRange : error := Errorf "out of range" [].

Definition int4 (z : Z) : res Z := if (- 2 ^ 31 <=? z) && (z <? 2 ^ 31) then Ok z else Err ErrOutOfRange.
Definition int2 (z : Z) : res Z := if (- 2 ^ 15 <=? z) && (z <? 2 ^ 15) then Ok z else Err ErrOutOfRange.

Section Postgres.
Context `{MapRange} `{Database}.

(** Computations on the database; an error ends them. *)
Definition PG (A : Type) : Type := DB -> res A * DB.

#[global] Instance PG_ret : MRet PG := fun A a db => (Ok a, db).
#[global] Instance PG_bind : MBind PG := fun A B f x db =>
  match x db with
  | (Ok a, db') => f a db'
  | (Err e, db') => (Err e, db')
  | (Panic, db') => (Panic, db')
  end.

Definition pg {A} (r : res A) : PG A := fun db => (r, db).

(** [fmt.Errorf(format, err)] around a call. *)
Definition pgWrap {A} (format : string) (x : PG A) : PG A := fun db => let '(r, db') := x db in (wrap format [] r, db').

Definition next (t : option rows) (db : DB) : DB := mkDB t (S (statements db)).

(** [db.ExecContext] of a statement: a function of [NOW()] and the table. *)
Definition exec (stmt : Z -> option rows -> res (option rows)) : PG unit := fun db =>
  match replyTo (statements db) with
  | Refused e => (Err e, next (table db) db)
  | r =>
      match stmt (serverTime (statements db)) (table db) with
      | Ok t => (match r with ReplyLost e => Err e | _ => Ok tt end, next t db)
      | Err e => (Err e, next (table db) db)
      | Panic => (Panic, next (table db) db)
      end
  end.

Definition onTable (f : rows -> res rows) (t : option rows) : res (option rows) :=
  match t with
  | None => Err ErrNoTable
  | Some rs => rs' ← f rs; Ok (Some rs')
  end.

(** ** The statements *)

(** [pgInitSchema]. *)
Definition createTable (now : Z) (t : option rows) : res (option rows) := Ok (Some (default ∅ t)).

(** [INSERT ... ON CONFLICT (controller_id) DO UPDATE]: on a conflict every
    column is set to the excluded row's. *)
Definition upsert (controllerID : string) (lastSeen bufferFree : Z) (fwMode syncMode : bool) (pendingText inFlightText : bytes)
    (nextSeq : Z) (now : Z) : option rows -> res (option rows) := onTable (fun rs =>
  buffer_free' ← int4 bufferFree;
  pending' ← jsonb pendingText;
  inflight' ← jsonb inFlightText;
  next_seq' ← int2 nextSeq;
  let excluded := mkRow (timestamptz lastSeen) buffer_free' fwMode syncMode pending' inflight' next_seq' (timestamptz now) in
  Ok match rs !! controllerID with
     | None => <[controllerID := excluded]> rs
     | Some _ =>
         <[controllerID := mkRow (last_seen excluded) (buffer_free excluded) (fw_mode excluded) (sync_mode excluded)
             (pending excluded) (inflight excluded) (next_seq excluded) (timestamptz now)]> rs
     end).

(** [DELETE FROM adapter_sessions WHERE controller_id = $1]. *)
Definition deleteRow (controllerID : string) (now : Z) : option rows -> res (option rows) :=
  onTable (fun rs => Ok (delete controllerID rs)).

(** [SELECT ... FROM adapter_sessions]: the rows [rows.Next] yields, in no
    particular order, and [rows.Err] after them. *)
Definition query : PG (list (string * Row) * option error) := fun db =>
  let n := statements db in
  (match replyTo n with
   | Refused e | ReplyLost e => Err e
   | Answered =>
       match table db with
       | None => Err ErrNoTable
       | Some rs =>
           match brokenAfter n with
           | Some (k, e) => Ok (take k (map_range rs), Some e)
           | None => Ok (map_range rs, None)
           end
       end
   end, next (table db) db).

(** ** The store *)

Record PostgresStore := mkPostgresStore { pg_db : DB }.

(** The pool's settings have no effect on the table; closing it has none
    either. *)
Definition NewPostgresStore (dsn : string) : PG unit := fun db =>
  match openErr dsn with
  | Some e => (Err (Wrapf "open postgres: %w" [] e), db)
  | None =>
      (_ ← pgWrap "ping postgres: %w" (exec (fun _ t => Ok t));
       pgWrap "init postgres schema: %w" (exec createTable)) db
  end.

Definition pg_SaveSession (snapshot : SessionSnapshot) : PG unit :=
  pendingText ← pgWrap "marshal pending: %w" (pg (jsonMarshal (snap_Pending snapshot)));
  inFlightText ← pgWrap "marshal inflight: %w" (pg (jsonMarshal (snap_InFlight snapshot)));
  pgWrap "save session: %w" (exec (upsert (snap_ControllerID snapshot) (snap_LastSeen snapshot) (snap_BufferFree snapshot)
    (snap_FWMode snapshot) (snap_SyncMode snapshot) pendingText inFlightText (snap_NextSeq snapshot))).

Definition pg_DeleteSession (controllerID : string) : PG unit :=
  pgWrap "delete session: %w" (exec (deleteRow controllerID)).

(** A JSONB column; an empty one is an empty list. *)
Definition readColumn {A} `{!Codec (list A)} (format : string) (raw : bytes) : res (list A) :=
  if len raw =? 0 then Ok [] else wrap format [] (jsonUnmarshal raw).

(** The body of the loop over the rows. *)
Definition scanRow (id : string) (r : Row) : res SessionSnapshot :=
  match scanErr id r with
  | Some e => Err (Wrapf "scan session: %w" [] e)
  | None =>
      pending' ← readColumn "unmarshal pending: %w" (pending r);
      inFlight' ← readColumn "unmarshal inflight: %w" (inflight r);
      _ ← fail_if ((next_seq r <? 0) || (255 <? next_seq r))
            (Errorf "invalid next_seq for %s: %d" [AS id; AZ (next_seq r)]);
      Ok (mkSessionSnapshot id (last_seen r) (buffer_free r) (fw_mode r) (sync_mode r) pending' inFlight' (u8 (next_seq r)))
  end.

Fixpoint scanRows (l : list (string * Row)) (out : list SessionSnapshot) : res (list SessionSnapshot) :=
  match l with
  | [] => Ok out
  | (id, r) :: l' => snap ← scanRow id r; scanRows l' (out ++ [snap])
  end.

Definition pg_ListSessions : PG (list SessionSnapshot) :=
  q ← pgWrap "list sessions query: %w" query;
  out ← pg (scanRows q.1 []);
  match q.2 with
  | Some e => pg (Err (Wrapf "list sessions rows: %w" [] e))
  | None => mret out
  end.

Definition on_db {A} (x : PG A) (s : PostgresStore) : res A * PostgresStore :=
  let '(r, db) := x (pg_db s) in (r, mkPostgresStore db).

#[global] Instance PostgresStore_store : Store PostgresStore := {|
  SaveSession snap s := let '(r, s') := on_db (pg_SaveSession snap) s in (err_of r, s');
  DeleteSession id s := let '(r, s') := on_db (pg_DeleteSession id) s in (err_of r, s');
  ListSessions := on_db pg_ListSessions
|}.

(** ** What the table says *)

(** The snapshot a row denotes. *)
Definition rowSnapshot (id : string) (r : Row) : option SessionSnapshot :=
  match readColumn "" (pending r), readColumn "" (inflight r) with
  | Ok p, Ok f => Some (mkSessionSnapshot id (last_seen r) (buffer_free r) (fw_mode r) (sync_mode r) p f (next_seq r))
  | _, _ => None
  end.

Definition pgContents (t : option rows) : gmap string SessionSnapshot := map_imap rowSnapshot (default ∅ t).

(** What the store keeps of a snapshot. *)
Definition rounded (snap : SessionSnapshot) : SessionSnapshot :=
  set_snap_LastSeen (timestamptz (snap_LastSeen snap)) snap.

Lemma pgContents_insert rs id r snap :
  rowSnapshot id r = Some snap -> pgContents (Some (<[id := r]> rs)) = <[id := snap]> (pgContents (Some rs)).
Proof.
  intros Hr. apply map_eq. intros k. unfold pgContents. cbn. rewrite map_lookup_imap.
  destruct (decide (k = id)) as [->|Hne]; [by rewrite !lookup_insert_eq|].
  by rewrite !lookup_insert_ne, map_lookup_imap by done.
Qed.

Lemma pgContents_delete rs id : pgContents (Some (delete id rs)) = delete id (pgContents (Some rs)).
Proof.
  apply map_eq. intros k. unfold pgContents. cbn. rewrite map_lookup_imap.
  destruct (decide (k = id)) as [->|Hne]; [by rewrite !lookup_delete_eq|].
  by rewrite !lookup_delete_ne, map_lookup_imap by done.
Qed.

Lemma readColumn_ok {A} `{!Codec (list A)} fmt fmt' raw (l : list A) :
  readColumn fmt raw = Ok l -> readColumn fmt' raw = Ok l.
Proof. unfold readColumn. destruct (_ =? 0); [done|]. by rewrite !wrap_ok. Qed.

Lemma readColumn_text {A} `{!Codec (list A)} fmt raw (l : list A) :
  raw <> [] -> jsonUnmarshal raw = Ok l -> readColumn fmt raw = Ok l.
Proof. intros Hne Hu. unfold readColumn. destruct raw; [done|]. cbn. by rewrite Hu. Qed.

(** What an upsert that succeeds does. *)
Lemma upsert_ok snap p f now t t' :
  jsonMarshal (snap_Pending snap) = Ok p -> jsonMarshal (snap_InFlight snap) = Ok f ->
  upsert (snap_ControllerID snap) (snap_LastSeen snap) (snap_BufferFree snap) (snap_FWMode snap) (snap_SyncMode snap) p f
    (snap_NextSeq snap) now t = Ok t' ->
  pgContents t' = <[snap_ControllerID snap := rounded snap]> (pgContents t).
Proof.
  intros Hp Hf. unfold upsert, onTable. destruct t as [rs|]; [|done].
  intros Hu. apply bind_ok in Hu as (rs' & Hu & [= <-]).
  apply bind_ok in Hu as (bf & Hbf & Hu). apply bind_ok in Hu as (p' & Hp' & Hu).
  apply bind_ok in Hu as (f' & Hf' & Hu). apply bind_ok in Hu as (ns & Hns & Hu). injection Hu as <-.
  unfold int4, int2 in Hbf, Hns. repeat case_match; try done. all: injection Hbf as <-; injection Hns as <-.
  all: apply pgContents_insert; unfold rowSnapshot; cbn.
  all: destruct (jsonb_pending _ _ _ Hp Hp') as [Hp1 Hp2], (jsonb_inflight _ _ _ Hf Hf') as [Hf1 Hf2].
  all: by rewrite (readColumn_text "" p' _ Hp1 Hp2), (readColumn_text "" f' _ Hf1 Hf2).
Qed.

(** A statement is all or nothing. *)
Lemma exec_spec stmt db :
  (forall now t, no_panic (stmt now t)) ->
  (exec stmt db).1 <> Panic
  /\ ((exec stmt db).1 = Ok tt -> stmt (serverTime (statements db)) (table db) = Ok (table (exec stmt db).2))
  /\ (forall e, (exec stmt db).1 = Err e -> table (exec stmt db).2 = table db
        \/ replyTo (statements db) = ReplyLost e /\ stmt (serverTime (statements db)) (table db) = Ok (table (exec stmt db).2)).
Proof.
  intros Hnp. specialize (Hnp (serverTime (statements db)) (table db)). unfold exec.
  destruct (replyTo _) as [|e|e] eqn:Er, (stmt _ _) as [t|e'|] eqn:Es; cbn; try done; split_and!; try done.
  all: intros e0 [= <-]; auto.
Qed.

Lemma no_panic_upsert id ls bf fw sy p f ns now t : no_panic (upsert id ls bf fw sy p f ns now t).
Proof.
  unfold upsert, onTable. destruct t as [rs|]; [|done]. unfold int4, int2.
  apply no_panic_bind; [|done]. apply no_panic_bind; [by case_match|]. intros ? _.
  apply no_panic_bind; [apply jsonb_no_panic|]. intros ? _. apply no_panic_bind; [apply jsonb_no_panic|]. intros ? _.
  apply no_panic_bind; [by case_match|done].
Qed.

(** The outcome of an update: on success the table denotes [new]; on an error
    it denotes what it did before, unless the statement's reply was lost. *)
Definition pg_outcome (x : PG unit) (db : DB) (new : gmap string SessionSnapshot) : Prop :=
  match x db with
  | (Ok _, db') => pgContents (table db') = new
  | (Err _, db') => pgContents (table db') = pgContents (table db)
      \/ (exists e, replyTo (statements db) = ReplyLost e) /\ pgContents (table db') = new
  | (Panic, _) => False
  end.

Lemma exec_outcome fmt stmt db new :
  (forall now t, no_panic (stmt now t)) ->
  (forall now t', stmt now (table db) = Ok t' -> pgContents t' = new) ->
  pg_outcome (pgWrap fmt (exec stmt)) db new.
Proof.
  intros Hnp Hnew. destruct (exec_spec stmt db Hnp) as (Hp & Ho & He). unfold pg_outcome, pgWrap.
  destruct (exec stmt db) as [[[]|e|] db']; cbn in *; [by eapply Hnew, Ho| |done].
  destruct (He e eq_refl) as [->|[Hl Hs]]; [by left|]. right. split; [by exists e|by eapply Hnew].
Qed.

Lemma pg_SaveSession_outcome snap db :
  pg_outcome (pg_SaveSession snap) db (<[snap_ControllerID snap := rounded snap]> (pgContents (table db))).
Proof.
  unfold pg_outcome, pg_SaveSession, pgWrap at 1 2, pg, mbind, PG_bind.
  destruct (jsonMarshal (snap_Pending snap)) as [p|e|] eqn:Ep; cbn;
    [|by left|pose proof (jsonMarshal_no_panic (snap_Pending snap)) as Hn; by rewrite Ep in Hn].
  destruct (jsonMarshal (snap_InFlight snap)) as [f|e|] eqn:Ef; cbn;
    [|by left|pose proof (jsonMarshal_no_panic (snap_InFlight snap)) as Hn; by rewrite Ef in Hn].
  apply exec_outcome; [intros; apply no_panic_upsert|]. intros now t'. by apply upsert_ok.
Qed.

Lemma pg_DeleteSession_outcome id db : pg_outcome (pg_DeleteSession id) db (delete id (pgContents (table db))).
Proof.
  apply exec_outcome.
  - intros now t. by destruct t.
  - intros now t'. unfold deleteRow, onTable. destruct (table db) as [rs|]; [|done]. intros [= <-].
    apply pgContents_delete.
Qed.

(** Reading changes nothing, and what is read is what the table says. *)
Lemma scanRow_snapshot id r snap : scanRow id r = Ok snap -> rowSnapshot id r = Some snap.
Proof.
  unfold scanRow. destruct (scanErr id r); [done|]. intros Hs.
  apply bind_ok in Hs as (p & Hp%(readColumn_ok _ "") & Hs). apply bind_ok in Hs as (f & Hf%(readColumn_ok _ "") & Hs).
  apply bind_ok in Hs as ([] & Hn%fail_if_ok & [= <-]). unfold rowSnapshot. rewrite Hp, Hf. do 2 f_equal.
  apply orb_false_iff in Hn as [H1%Z.ltb_ge H2%Z.ltb_ge]. symmetry. apply Z.mod_small. lia.
Qed.

Lemma scanRows_ok l out res :
  scanRows l out = Ok res -> exists snaps, res = out ++ snaps /\ Forall2 (fun p s => rowSnapshot p.1 p.2 = Some s) l snaps.
Proof.
  revert out. induction l as [|[id r] l IH]; intros out; cbn.
  - intros [= <-]. exists []. by rewrite app_nil_r.
  - intros Hs. apply bind_ok in Hs as (snap & Hr%scanRow_snapshot & Hs). apply IH in Hs as (snaps & -> & Hf).
    exists (snap :: snaps). rewrite <- app_assoc. split; [done|]. by constructor.
Qed.

Lemma contents_listed rs l snaps :
  l ≡ₚ map_to_list rs -> Forall2 (fun p s => rowSnapshot p.1 p.2 = Some s) l snaps ->
  snaps ≡ₚ (map_to_list (pgContents (Some rs))).*2.
Proof.
  intros Hl Hf. assert (NoDup l.*1) as Hnd by (rewrite Hl; apply NoDup_fst_map_to_list).
  assert (rs = list_to_map l) as -> by (rewrite <- (list_to_map_to_list rs); by apply list_to_map_proper; rewrite <- ?Hl).
  assert (pgContents (Some (list_to_map l)) = list_to_map (zip l.*1 snaps)) as ->.
  { clear Hl Hnd. induction Hf as [|[id r] snap l snaps Hr Hf IH]; cbn; [done|].
    rewrite (pgContents_insert _ _ _ snap) by done. by rewrite IH. }
  apply Forall2_length in Hf. rewrite map_to_list_to_map; [by rewrite snd_zip by (rewrite length_fmap; lia)|].
  by rewrite fst_zip by (rewrite length_fmap; lia).
Qed.

Lemma pg_ListSessions_outcome db :
  table (pg_ListSessions db).2 = table db
  /\ match (pg_ListSessions db).1 with
     | Ok l => l ≡ₚ (map_to_list (pgContents (table db))).*2
     | _ => True
     end.
Proof.
  unfold pg_ListSessions, pgWrap, query, mbind, PG_bind.
  destruct (replyTo _); [|by split..]. destruct (table db) as [rs|] eqn:Et; [|by split].
  destruct (brokenAfter _) as [[k e]|]; unfold pg; cbn.
  - destruct (scanRows _ _); cbn; by split.
  - destruct (scanRows _ _) as [out|e|] eqn:Es; cbn; [|by split..]. split; [done|].
    apply scanRows_ok in Es as (snaps & -> & Hf). eapply contents_listed; [apply map_range_perm|exact Hf].
Qed.

(** ** The contract *)

(** No reply is lost. *)
Class Reliable : Prop := no_reply_lost n e : replyTo n <> ReplyLost e.

#[global] Instance PostgresStore_laws `{!Reliable} : StoreLaws PostgresStore.
Proof.
  refine {| contents := fun s => pgContents (table (pg_db s)); keptTime := timestamptz; keptTime_near := timestamptz_near |};
    cbn; unfold on_db.
  - intros snap s s'. pose proof (pg_SaveSession_outcome snap (pg_db s)) as Ho. unfold pg_outcome in Ho.
    destruct (pg_SaveSession _ _) as [[u|e|] d]; cbn; [|done..]. by intros [= <-].
  - intros snap s s' e'. pose proof (pg_SaveSession_outcome snap (pg_db s)) as Ho. unfold pg_outcome in Ho.
    destruct (pg_SaveSession _ _) as [[u|e|] d]; cbn; [done| |done]. intros [= _ <-].
    destruct Ho as [Ho|[[e0 He] _]]; [done|]. by apply no_reply_lost in He.
  - intros id s s'. pose proof (pg_DeleteSession_outcome id (pg_db s)) as Ho. unfold pg_outcome in Ho.
    destruct (pg_DeleteSession _ _) as [[u|e|] d]; cbn; [|done..]. by intros [= <-].
  - intros id s s' e'. pose proof (pg_DeleteSession_outcome id (pg_db s)) as Ho. unfold pg_outcome in Ho.
    destruct (pg_DeleteSession _ _) as [[u|e|] d]; cbn; [done| |done]. intros [= _ <-].
    destruct Ho as [Ho|[[e0 He] _]]; [done|]. by apply no_reply_lost in He.
  - intros s s' l. destruct (pg_ListSessions_outcome (pg_db s)) as [_ Hr].
    destruct (pg_ListSessions _) as [r d]. cbn in Hr. by intros [= -> <-].
  - intros s. destruct (pg_ListSessions_outcome (pg_db s)) as [Hs _].
    destruct (pg_ListSessions _) as [r d]. cbn in *. by rewrite Hs.
Defined.

(** C6: the PostgreSQL store is atomic, also when replies are lost: a save or a
    delete that returns success has taken effect as a whole (the time a session
    was last seen is kept to the microsecond); one that returns an error has
    left the sessions as they were, or, only when the reply to the statement was
    lost, has taken effect as a whole; none panics; and listing the sessions
    changes nothing and returns exactly what the table says. *)
Theorem postgres_store_atomic (snap : SessionSnapshot) (id : string) (db : DB) :
  pg_outcome (pg_SaveSession snap) db (<[snap_ControllerID snap := rounded snap]> (pgContents (table db)))
  /\ pg_outcome (pg_DeleteSession id) db (delete id (pgContents (table db)))
  /\ table (pg_ListSessions db).2 = table db
  /\ forall l, (pg_ListSessions db).1 = Ok l -> l ≡ₚ (map_to_list (pgContents (table db))).*2.
Proof.
  destruct (pg_ListSessions_outcome db) as [Ht Hl].
  split_and!; [apply pg_SaveSession_outcome|apply pg_DeleteSession_outcome|done|]. intros l He. by rewrite He in Hl.
Qed.

(** *** Reading back *)

(** The table exists and the loop of [ListSessions] accepts its rows. *)
Definition readable (t : option rows) : Prop :=
  match t with
  | None => False
  | Some rs => map_Forall (fun id r => is_Some (rowSnapshot id r) /\ 0 <= next_seq r <= 255) rs
  end.

(** [NextSeq] is a [uint8]. *)
Definition op_typed (op : store_op) : Prop :=
  match op with OpSave snap => 0 <= snap_NextSeq snap <= 255 | _ => True end.

Lemma readable_upsert snap p f now t t' :
  0 <= snap_NextSeq snap <= 255 ->
  jsonMarshal (snap_Pending snap) = Ok p -> jsonMarshal (snap_InFlight snap) = Ok f -> readable t ->
  upsert (snap_ControllerID snap) (snap_LastSeen snap) (snap_BufferFree snap) (snap_FWMode snap) (snap_SyncMode snap) p f
    (snap_NextSeq snap) now t = Ok t' ->
  readable t'.
Proof.
  intros Hn Hp Hf Ht. unfold upsert, onTable. destruct t as [rs|]; [|done].
  intros Hu. apply bind_ok in Hu as (rs' & Hu & [= <-]).
  apply bind_ok in Hu as (bf & _ & Hu). apply bind_ok in Hu as (p' & Hp' & Hu).
  apply bind_ok in Hu as (f' & Hf' & Hu). apply bind_ok in Hu as (ns & Hns & Hu). injection Hu as <-.
  unfold int2 in Hns. destruct (_ && _); [|done]. injection Hns as <-.
  destruct (jsonb_pending _ _ _ Hp Hp') as [Hp1 Hp2], (jsonb_inflight _ _ _ Hf Hf') as [Hf1 Hf2].
  cbn. case_match; apply map_Forall_insert_2; try done; split; try done; unfold rowSnapshot; cbn.
  all: rewrite (readColumn_text "" p' _ Hp1 Hp2), (readColumn_text "" f' _ Hf1 Hf2); by eexists.
Qed.

(** A statement that keeps the table readable does so whatever its outcome. *)
Lemma readable_exec fmt stmt db :
  (forall now t', stmt now (table db) = Ok t' -> readable t') -> readable (table db) ->
  readable (table (pgWrap fmt (exec stmt) db).2).
Proof.
  intros Hs Ht. unfold pgWrap, exec. destruct (replyTo _); cbn; [|done|].
  all: destruct (stmt _ _) eqn:E; cbn; [by eapply Hs|done..].
Qed.

Lemma readable_op op (s : PostgresStore) :
  op_typed op -> readable (table (pg_db s)) -> readable (table (pg_db (run_op op s).2)).
Proof.
  intros Ho Ht. destruct op as [snap|id|]; cbn; unfold on_db.
  - destruct (pg_SaveSession snap (pg_db s)) as [r db'] eqn:E. cbn. change db' with (r, db').2. rewrite <- E. clear E.
    unfold pg_SaveSession, pgWrap at 1 2, pg, mbind, PG_bind.
    destruct (jsonMarshal (snap_Pending snap)) as [p|e|] eqn:Ep; cbn; [|done..].
    destruct (jsonMarshal (snap_InFlight snap)) as [f|e|] eqn:Ef; cbn; [|done..].
    apply readable_exec; [|done]. intros now t'. by apply readable_upsert.
  - destruct (pg_DeleteSession id (pg_db s)) as [r db'] eqn:E. cbn. change db' with (r, db').2. rewrite <- E. clear E.
    apply readable_exec; [|done]. intros now t'. unfold deleteRow, onTable. destruct (table (pg_db s)) as [rs|]; [|done].
    intros [= <-]. cbn in *. by apply map_Forall_delete.
  - pose proof (pg_ListSessions_outcome (pg_db s)) as [Hl _]. destruct (pg_ListSessions _) as [r d]. cbn in *. by rewrite Hl.
Qed.

Lemma readable_ops ops (s : PostgresStore) :
  Forall op_typed ops -> readable (table (pg_db s)) -> readable (table (pg_db (run_ops ops s).2)).
Proof.
  intros Ho. revert s. induction Ho as [|op ops Hop Ho IH]; intros s Hs; cbn; [done|].
  pose proof (readable_op op s Hop Hs) as Hs1. destruct (run_op op s) as [r s1]. cbn in Hs1. specialize (IH s1 Hs1).
  by destruct (run_ops ops s1).
Qed.

Lemma scanRows_readable l out :
  (forall id r, scanErr id r = None) ->
  Forall (fun p => is_Some (rowSnapshot p.1 p.2) /\ 0 <= next_seq p.2 <= 255) l -> exists res, scanRows l out = Ok res.
Proof.
  intros Hq Hl. revert out. induction Hl as [|[id r] l [[snap Hs] Hn] Hl IH]; intros out; cbn; [by eexists|].
  unfold scanRow. rewrite Hq. unfold rowSnapshot in Hs. cbn in Hs.
  destruct (readColumn "" (pending r)) as [p|e|] eqn:Ep; [|done..].
  destruct (readColumn "" (inflight r)) as [f|e|] eqn:Ef; [|done..].
  rewrite (readColumn_ok _ "unmarshal pending: %w" _ _ Ep), (readColumn_ok _ "unmarshal inflight: %w" _ _ Ef).
  cbn in *. rewrite (proj2 (Z.ltb_ge _ _)), (proj2 (Z.ltb_ge _ _)) by lia. cbn. apply IH.
Qed.

(** C19: what the PostgreSQL store writes it can read: from a database without
    the table, once the store has been opened and after any sequence of saves,
    deletes and listings, whichever of them failed and whichever replies were
    lost, a listing whose own query is answered succeeds and returns exactly
    the snapshots in the table; the checks on the rows never refuse a row the
    store wrote. *)
Theorem postgres_reads_back (dsn : string) (db0 db1 db : DB) (ops : list store_op) :
  table db0 = None -> NewPostgresStore dsn db0 = (Ok tt, db1) ->
  Forall op_typed ops -> pg_db (run_ops ops (mkPostgresStore db1)).2 = db ->
  replyTo (statements db) = Answered -> brokenAfter (statements db) = None -> (forall id r, scanErr id r = None) ->
  exists l, (pg_ListSessions db).1 = Ok l /\ l ≡ₚ (map_to_list (pgContents (table db))).*2.
Proof.
  intros Ht0 Hnew Hops <- Hr Hb Hq. set (db := pg_db _) in *.
  assert (table db1 = Some ∅) as Ht1.
  { unfold NewPostgresStore in Hnew. destruct (openErr dsn); [done|]. unfold pgWrap, exec, mbind, PG_bind in Hnew.
    repeat (case_match; simplify_eq/=; try done). all: by rewrite Ht0. }
  assert (readable (table db)) as Hd by (apply readable_ops; [done|]; cbn; by rewrite Ht1).
  destruct (pg_ListSessions_outcome db) as [_ Hl].
  enough (exists l, (pg_ListSessions db).1 = Ok l) as [l He] by (exists l; rewrite He in Hl; done).
  unfold pg_ListSessions, pgWrap, query, mbind, PG_bind. rewrite Hr, Hb.
  destruct (table db) as [rs|]; [|done]. unfold pg. cbn.
  destruct (scanRows_readable (map_range rs) [] Hq) as [out ->]; [|by eexists].
  rewrite map_range_perm. apply map_Forall_to_list in Hd. eapply Forall_impl; [exact Hd|]. by intros [id r].
Qed.

End Postgres.

(** ** A concrete database *)

#[refine] Definition demo_codec (A : Type) `{Countable A} : Codec A := {|
  jsonMarshal := fun a => Ok (bits (encode a));
  jsonUnmarshal := fun raw => match unbits raw ≫= decode with Some a => Ok a | None => Err (Errorf "bad" []) end
|}.
Proof. all: intros; by repeat case_match. Defined.

#[local] Existing Instance demo_codec.

Lemma demo_codec_reads {A} `{Countable A} (a : A) raw : jsonMarshal a = Ok raw -> raw <> [] /\ jsonUnmarshal raw = Ok a.
Proof. cbn. intros [= <-]. split; [by destruct (encode a)|]. rewrite unbits_bits. cbn. by rewrite decode_encode. Qed.

(** The statements [lost] picks out take effect without a reply. *)
#[refine] Definition demo_database (lost : nat -> bool) : Database := {|
  openErr := fun _ => None;
  replyTo := fun n => if lost n then ReplyLost (Errorf "timeout" []) else Answered;
  serverTime := fun n => Z.of_nat n;
  brokenAfter := fun _ => None;
  scanErr := fun _ _ => None;
  timestamptz := fun t => t - t mod 1000;
  jsonb := fun raw => Ok raw
|}.
Proof.
  - intros t. pose proof (Z.mod_pos_bound t 1000). lia.
  - done.
  - intros l raw text Hm [= <-]. by apply demo_codec_reads.
  - intros l raw text Hm [= <-]. by apply demo_codec_reads.
Defined.

#[local] Existing Instance ascending.

(** The reply to the save of "A", the third statement, is lost. *)
Lemma postgres_reads_back_witness :
  let _ := demo_database (fun n => n =? 2)%nat in
  let db1 := (NewPostgresStore "dsn" (mkDB None 0)).2 in
  let snap := set_snap_LastSeen 1234567 (demo_snapshot "A") in
  let ops := [OpSave snap; OpSave (demo_snapshot "B"); OpDelete "B"] in
  let '(rs, s) := run_ops ops (mkPostgresStore db1) in
  rs = [Err (Wrapf "save session: %w" [] (Errorf "timeout" [])); Ok []; Ok []]
  /\ exists l, (pg_ListSessions (pg_db s)).1 = Ok l /\ l ≡ₚ [set_snap_LastSeen 1234000 snap].
Proof.
  intros world db1 snap ops. destruct (run_ops ops (mkPostgresStore db1)) as [rs s] eqn:E.
  assert (rs = [Err (Wrapf "save session: %w" [] (Errorf "timeout" [])); Ok []; Ok []]) as ->.
  { change rs with (rs, s).1. rewrite <- E. vm_compute. reflexivity. }
  split; [done|]. assert (s = (run_ops ops (mkPostgresStore db1)).2) as -> by by rewrite E.
  destruct (postgres_reads_back (H0 := world) "dsn" (mkDB None 0) db1 _ ops eq_refl eq_refl
    ltac:(repeat constructor; cbn; lia) eq_refl eq_refl eq_refl (fun _ _ => eq_refl)) as (l & Hl & Hp).
  exists l. split; [exact Hl|]. rewrite Hp. vm_compute. reflexivity.
Defined.
