(* ===== verification/Retry.v ===== *)
(** * Retry delays ([internal/session/manager.go]: [retryDelay], [xorshift64])

    Exponential backoff with a deterministic jitter, at Go's widths: durations
    are [int64] nanoseconds and wrap, the generator works on [uint64]. *)

From S2P Require Import Prelude.

Definition second : Z := 10 ^ 9.
Definition minute : Z := 60 * second.

Definition maxRetryBackoffShift : Z := 6.
Definition jitterPercent : Z := 20.
Definition lateAckGrace : Z := 2 * second.

Definition xorshift64 (x : Z) : Z :=
  let x := if x =? 0 then 0x9e3779b97f4a7c15 else x in
  let x := Z.lxor x (u64 (Z.shiftl x 13)) in
  let x := Z.lxor x (Z.shiftr x 7) in
  Z.lxor x (u64 (Z.shiftl x 17)).

Definition retryDelay (attempts base seed : Z) : Z :=
  if (attempts <=? 1) || (base <=? 0) then 0 else
  let shift := attempts - 2 in
  let shift := if shift <? 0 then 0 else shift in
  let shift := if maxRetryBackoffShift <? shift then maxRetryBackoffShift else shift in
  let delay := i64 (base * Z.shiftl 1 shift) in
  if delay <? 0 then base else
  let jitterRange := Z.quot (i64 (delay * jitterPercent)) 100 in
  if jitterRange <=? 0 then delay else
  let span := i64 (i64 (jitterRange * 2) + 1) in
  if span <=? 0 then delay else
  let v := i64 (i64 (u64 (xorshift64 seed) mod u64 span) - jitterRange) in
  let out := i64 (delay + v) in
  if out <? 0 then 0 else out.

(** The backoff without jitter. *)
Definition backoff (attempts base : Z) : Z :=
  base * 2 ^ Z.min (attempts - 2) maxRetryBackoffShift.

Lemma retryDelay_nonneg attempts base seed : 0 <= retryDelay attempts base seed.
Proof.
  unfold retryDelay. repeat case_match; lia.
Qed.

(** C38: a retry waits for the exponential backoff (doubling from the second
    attempt, at most 64 times the base) give or take twenty percent, whatever
    the jitter seed, as long as the scaled base fits a [Duration] (any base up
    to 83 days); the first attempt and a disabled backoff wait nothing. *)
Theorem retryDelay_bounds (attempts base seed : Z) :
  base * 64 * 20 < 2 ^ 63 ->
  (attempts <= 1 \/ base <= 0 -> retryDelay attempts base seed = 0)
  /\ (2 <= attempts -> 0 < base ->
      Z.abs (retryDelay attempts base seed - backoff attempts base) <= backoff attempts base * 20 / 100).
Proof.
  intros Hb. split.
  { intros H. unfold retryDelay. replace (_ || _) with true by (symmetry; lia). done. }
  intros Ha Hpos. unfold retryDelay, backoff, maxRetryBackoffShift, jitterPercent.
  replace (_ || _) with false by (symmetry; lia).
  rewrite (proj2 (Z.ltb_ge (attempts - 2) 0)) by lia.
  replace (if 6 <? attempts - 2 then 6 else attempts - 2) with (Z.min (attempts - 2) 6)
    by (destruct (Z.ltb_spec 6 (attempts - 2)); lia).
  set (k := Z.min (attempts - 2) 6). assert (0 <= k <= 6) as Hk by lia.
  rewrite Z.shiftl_1_l. assert (1 <= 2 ^ k <= 64) as Hp.
  { split; [apply (Z.pow_le_mono_r 2 0 k); lia|apply (Z.pow_le_mono_r 2 k 6); lia]. }
  set (d := base * 2 ^ k). assert (0 < d <= base * 64) as Hd by nia. clearbody d. clear Hp Hk.
  rewrite (i64_small d) by lia. rewrite (proj2 (Z.ltb_ge d 0)) by lia.
  rewrite (i64_small (d * 20)) by lia. rewrite Z.quot_div_nonneg by lia.
  set (j := d * 20 / 100). assert (0 <= j /\ j * 100 <= d * 20) as Hj.
  { unfold j. split; [apply Z.div_pos; lia|]. pose proof (Z.mul_div_le (d * 20) 100). lia. }
  clearbody j. destruct (Z.leb_spec j 0); [lia|].
  rewrite (i64_small (j * 2)), (i64_small (j * 2 + 1)) by lia. rewrite (proj2 (Z.leb_gt (j * 2 + 1) 0)) by lia.
  assert (u64 (j * 2 + 1) = j * 2 + 1) as -> by (apply Z.mod_small; lia).
  pose proof (Z.mod_pos_bound (u64 (xorshift64 seed)) (j * 2 + 1) ltac:(lia)) as Hm.
  set (m := u64 (xorshift64 seed) mod (j * 2 + 1)) in *. clearbody m.
  rewrite (i64_small m), (i64_small (m - j)), (i64_small (d + (m - j))) by lia.
  destruct (Z.ltb_spec (d + (m - j)) 0); lia.
Qed.

Lemma retryDelay_bounds_witness :
  second * 64 * 20 < 2 ^ 63 /\ backoff 4 second = 4 * second
  /\ Z.abs (retryDelay 4 second 12345 - 4 * second) <= 4 * second * 20 / 100.
Proof.
  split; [reflexivity|]. split; [reflexivity|].
  apply (proj2 (retryDelay_bounds 4 second 12345 eq_refl)); [lia|reflexivity].
Defined.
