(* ===== verification/Session.v ===== *)
(** * The session manager ([internal/session/manager.go])

    One session per controller: its connection, its queue, the commands in
    flight, the deduplication table and the delivery flags.  Every method holds
    the manager's mutex for its whole body, so that each is one atomic function
    on the manager; sessions are only reached through the manager's map (the
    pointers other components hold are the map's), so that updating the map is
    updating the shared object.  Each reading of the clock is an argument.  The
    store is any instance of the [Store] interface; the order in which Go
    ranges over a map is the [MapRange] argument, or, where the loop changes
    the map it ranges over, an explicit list of visits. *)

From stdpp Require Import sorting.
From S2P Require Import Prelude Queue Store Retry Frame.

(** ** Data *)

Definition ErrSessionExists : error := Errorf "controller session already exists" [].
Definition ErrSessionNotFound : error := Errorf "controller session not found" [].
Definition ErrDuplicate : error := Errorf "duplicate command" [].
Definition ErrQueueFull : error := Errorf "controller queue is full" [].
Definition ErrQueueBytesFull : error := Errorf "controller queue bytes limit exceeded" [].
Definition ErrMaxConns : error := Errorf "max connections reached" [].

(** A [net.Conn]: its identity and its remote address. *)
Record Conn := mkConn { conn_id : Z; conn_remote : option string }.

#[global] Instance Conn_eq_dec : EqDecision Conn.
Proof. solve_decision. Defined.

Record InFlightEntry := mkInFlightEntry {
  if_Seq : Z;
  if_Command : Command;
  if_SentAt : Z;
  if_Attempts : Z
}.

Record Session := mkSession {
  ControllerID : string;
  s_Conn : option Conn;
  s_Queue : ControllerQueue;
  LastSeen : Z;
  lastTouchedPersistedAt : Z;
  BufferFree : Z;
  FWMode : bool;
  SyncMode : bool;
  Dedup : gmap string Z;
  InFlight : gmap Z InFlightEntry;
  NextSeq : Z;
  s_FrameMode : FrameMode
}.

(** Assignments to fields. *)
Definition set_Conn c s := mkSession (ControllerID s) c (s_Queue s) (LastSeen s) (lastTouchedPersistedAt s) (BufferFree s) (FWMode s) (SyncMode s) (Dedup s) (InFlight s) (NextSeq s) (s_FrameMode s).
Definition set_Queue q s := mkSession (ControllerID s) (s_Conn s) q (LastSeen s) (lastTouchedPersistedAt s) (BufferFree s) (FWMode s) (SyncMode s) (Dedup s) (InFlight s) (NextSeq s) (s_FrameMode s).
Definition set_LastSeen t s := mkSession (ControllerID s) (s_Conn s) (s_Queue s) t (lastTouchedPersistedAt s) (BufferFree s) (FWMode s) (SyncMode s) (Dedup s) (InFlight s) (NextSeq s) (s_FrameMode s).
Definition set_lastTouched t s := mkSession (ControllerID s) (s_Conn s) (s_Queue s) (LastSeen s) t (BufferFree s) (FWMode s) (SyncMode s) (Dedup s) (InFlight s) (NextSeq s) (s_FrameMode s).
Definition set_BufferFree b s := mkSession (ControllerID s) (s_Conn s) (s_Queue s) (LastSeen s) (lastTouchedPersistedAt s) b (FWMode s) (SyncMode s) (Dedup s) (InFlight s) (NextSeq s) (s_FrameMode s).
Definition set_FWMode b s := mkSession (ControllerID s) (s_Conn s) (s_Queue s) (LastSeen s) (lastTouchedPersistedAt s) (BufferFree s) b (SyncMode s) (Dedup s) (InFlight s) (NextSeq s) (s_FrameMode s).
Definition set_SyncMode b s := mkSession (ControllerID s) (s_Conn s) (s_Queue s) (LastSeen s) (lastTouchedPersistedAt s) (BufferFree s) (FWMode s) b (Dedup s) (InFlight s) (NextSeq s) (s_FrameMode s).
Definition set_Dedup d s := mkSession (ControllerID s) (s_Conn s) (s_Queue s) (LastSeen s) (lastTouchedPersistedAt s) (BufferFree s) (FWMode s) (SyncMode s) d (InFlight s) (NextSeq s) (s_FrameMode s).
Definition set_InFlight m s := mkSession (ControllerID s) (s_Conn s) (s_Queue s) (LastSeen s) (lastTouchedPersistedAt s) (BufferFree s) (FWMode s) (SyncMode s) (Dedup s) m (NextSeq s) (s_FrameMode s).
Definition set_NextSeq n s := mkSession (ControllerID s) (s_Conn s) (s_Queue s) (LastSeen s) (lastTouchedPersistedAt s) (BufferFree s) (FWMode s) (SyncMode s) (Dedup s) (InFlight s) n (s_FrameMode s).
Definition set_FrameMode f s := mkSession (ControllerID s) (s_Conn s) (s_Queue s) (LastSeen s) (lastTouchedPersistedAt s) (BufferFree s) (FWMode s) (SyncMode s) (Dedup s) (InFlight s) (NextSeq s) f.

Record DeliveryContext := mkDeliveryContext {
  dc_ControllerID : string;
  dc_Conn : option Conn;
  dc_BufferFree : Z;
  dc_FWMode : bool;
  dc_SyncMode : bool;
  dc_FrameMode : FrameMode
}.

Record InFlightOutcome := mkOutcome {
  o_Type : string;
  o_Seq : Z;
  o_Command : Command;
  o_Attempts : Z;
  o_Reason : string
}.

#[global] Instance InFlightOutcome_eq_dec : EqDecision InFlightOutcome.
Proof. solve_decision. Defined.

Record DeliveryPolicy := mkDeliveryPolicy {
  p_AckTimeout : Z;
  p_RetryBackoff : Z;
  p_MaxRetries : Z
}.

Record OverflowEvent := mkOverflowEvent {
  e_ControllerID : string;
  e_LimitType : string;
  e_Policy : string;
  e_Action : string
}.

Record Manager (S : Type) := mkManager {
  sessions : gmap string Session;
  maxConns : Z;
  maxQueueDepth : Z;
  maxQueueBytes : Z;
  overflowPolicy : string;
  store : S
}.
Arguments mkManager {S}.
Arguments sessions {S}.
Arguments maxConns {S}.
Arguments maxQueueDepth {S}.
Arguments maxQueueBytes {S}.
Arguments overflowPolicy {S}.
Arguments store {S}.

Definition touchPersistInterval : Z := 5 * second.
Definition dedupWindow : Z := 10 * minute.

(** Writes to the sessions map and to the store. *)
Definition with_sessions {S} (ss : gmap string Session) (m : Manager S) : Manager S :=
  mkManager ss (maxConns m) (maxQueueDepth m) (maxQueueBytes m) (overflowPolicy m) (store m).

Definition with_store {S} (st : S) (m : Manager S) : Manager S :=
  mkManager (sessions m) (maxConns m) (maxQueueDepth m) (maxQueueBytes m) (overflowPolicy m) st.

Definition put {S} (id : string) (s : Session) (m : Manager S) : Manager S :=
  with_sessions (<[id := s]> (sessions m)) m.

Definition forget {S} (id : string) (m : Manager S) : Manager S :=
  with_sessions (delete id (sessions m)) m.

Definition jitterSeedForEntry (entry : InFlightEntry) : Z :=
  Z.lor (Z.lor (u64 (Z.shiftl (if_Seq entry) 32))
               (u64 (Z.shiftl (Z.land (if_Attempts entry) 0xffff) 16)))
        (cmd_CommandID (if_Command entry)).

(** The fields [Create] and [createDetachedLocked] give a new session. *)
Definition newSession (controllerID : string) (conn : option Conn) (now : Z) : Session :=
  mkSession controllerID conn NewControllerQueue now now 1500 false false ∅ ∅ 0 FrameModeSequenced.

Section Manager.
Context `{MapRange} {S : Type} `{!Store S}.

Definition NewManager (maxConns maxQueueDepth maxQueueBytes : Z) (overflowPolicy : string) (st : S) : Manager S :=
  let overflowPolicy := if String.eqb overflowPolicy "" then "drop_oldest" else overflowPolicy in
  mkManager ∅ maxConns maxQueueDepth maxQueueBytes overflowPolicy st.

(** ** Persistence *)

Definition inFlightSnapshot (v : InFlightEntry) : InFlightSnapshot :=
  mkInFlightSnapshot (if_Seq v) (if_Command v) (if_SentAt v) (if_Attempts v).

Definition sessionSnapshot (s : Session) : SessionSnapshot :=
  mkSessionSnapshot (ControllerID s) (LastSeen s) (BufferFree s) (FWMode s) (SyncMode s)
    (Snapshot (s_Queue s)) (map inFlightSnapshot (map_range (InFlight s)).*2) (NextSeq s).

Definition persistLocked (s : Session) (m : Manager S) : option error * Manager S :=
  let '(err, st) := SaveSession (sessionSnapshot s) (store m) in (err, with_store st m).

(** [s] was updated in place: write it to the map, then persist it. *)
Definition putPersist (id : string) (s : Session) (m : Manager S) : option error * Manager S :=
  persistLocked s (put id s m).

(** [Restore]'s loop body. *)
Definition restoreSession (snap : SessionSnapshot) : Session :=
  let inFlight := fold_left (fun acc v =>
    <[ifs_Seq v := mkInFlightEntry (ifs_Seq v) (ifs_Command v) (ifs_SentAt v) (ifs_Attempts v)]> acc)
    (snap_InFlight snap) ∅ in
  let s := mkSession (snap_ControllerID snap) None (Restore (snap_Pending snap)) (snap_LastSeen snap)
    (snap_LastSeen snap) (snap_BufferFree snap) (snap_FWMode snap) (snap_SyncMode snap) ∅ inFlight
    (snap_NextSeq snap) FrameModeSequenced in
  if BufferFree s <=? 0 then set_BufferFree 1500 s else s.

Fixpoint restoreLoop (snapshots : list SessionSnapshot) (m : Manager S) (count : Z) : Z * Manager S :=
  match snapshots with
  | [] => (count, m)
  | snap :: snapshots' =>
      if String.eqb (snap_ControllerID snap) "" then restoreLoop snapshots' m count
      else restoreLoop snapshots' (put (snap_ControllerID snap) (restoreSession snap) m) (count + 1)
  end.

Definition Manager_Restore (m : Manager S) : res Z * Manager S :=
  let '(r, st) := ListSessions (store m) in
  let m := with_store st m in
  match r with
  | Ok snapshots => let '(count, m) := restoreLoop snapshots m 0 in (Ok count, m)
  | Err e => (Err e, m)
  | Panic => (Panic, m)
  end.

(** ** Sessions *)

Definition onlineConnectionsLocked (m : Manager S) : Z :=
  fold_left (fun n e => match s_Conn e.2 with Some _ => n + 1 | None => n end) (map_range (sessions m)) 0.

Definition Create (controllerID : string) (conn : Conn) (now : Z) (m : Manager S) : option error * Manager S :=
  match sessions m !! controllerID with
  | Some existing =>
      match s_Conn existing with
      | Some _ => (Some ErrSessionExists, m)
      | None =>
          let s := set_LastSeen now (set_Conn (Some conn) existing) in
          let s := if BufferFree s <=? 0 then set_BufferFree 1500 s else s in
          match putPersist controllerID s m with
          | (Some err, m) =>
              (Some err, put controllerID (set_LastSeen (LastSeen existing) (set_Conn (s_Conn existing) s)) m)
          | (None, m) => (None, m)
          end
      end
  | None =>
      if maxConns m <=? onlineConnectionsLocked m then (Some ErrMaxConns, m) else
      match putPersist controllerID (newSession controllerID (Some conn) now) m with
      | (Some err, m) => (Some err, forget controllerID m)
      | (None, m) => (None, m)
      end
  end.

Definition Delete (controllerID : string) (m : Manager S) : Manager S :=
  let m := forget controllerID m in
  with_store (DeleteSession controllerID (store m)).2 m.

Definition MarkOffline (controllerID : string) (now : Z) (m : Manager S) : option error * Manager S :=
  match sessions m !! controllerID with
  | Some s => putPersist controllerID (set_LastSeen now (set_Conn None s)) m
  | None => (None, m)
  end.

Definition Get (controllerID : string) (m : Manager S) : option Session := sessions m !! controllerID.

Definition Touch (controllerID : string) (now : Z) (m : Manager S) : Manager S :=
  match sessions m !! controllerID with
  | Some s =>
      let s := set_LastSeen now s in
      if now - lastTouchedPersistedAt s <? touchPersistInterval then put controllerID s m
      else (putPersist controllerID (set_lastTouched now s) m).2
  | None => m
  end.

Definition createDetachedLocked (controllerID : string) (now : Z) (m : Manager S) : option error * Manager S :=
  match putPersist controllerID (newSession controllerID None now) m with
  | (Some err, m) => (Some err, forget controllerID m)
  | (None, m) => (None, m)
  end.

(** ** Enqueueing *)

Definition bytesExceeded (m : Manager S) (cmd : Command) (q : ControllerQueue) : bool :=
  (0 <? maxQueueBytes m) && (maxQueueBytes m <? TotalEstimatedBytes q + EstimatedCommandBytes cmd).

Definition depthExceeded (m : Manager S) (q : ControllerQueue) : bool :=
  (0 <? maxQueueDepth m) && (maxQueueDepth m <? Len q + 1).

Definition fits (m : Manager S) (cmd : Command) (q : ControllerQueue) : bool :=
  if depthExceeded m q then false else if bytesExceeded m cmd q then false else true.

(** Append an event when the caller asked for events. *)
Definition emit (ev : OverflowEvent) (events : option (list OverflowEvent)) : option (list OverflowEvent) :=
  match events with None => None | Some l => Some (l ++ [ev]) end.

(** The outcome of making room: an error, or none; the queue and the events. *)
Definition room : Type := option error * ControllerQueue * option (list OverflowEvent).

(** [for !fits() { ... DropOldest ... }]. *)
Fixpoint dropLoop (fuel : nat) (m : Manager S) (controllerID : string) (cmd : Command)
    (q : ControllerQueue) (events : option (list OverflowEvent)) : option room :=
  match fuel with
  | O => None
  | Datatypes.S fuel' =>
      if fits m cmd q then Some (None, q, events) else
      let limitType := if bytesExceeded m cmd q then "bytes" else "depth" in
      match DropOldest q with
      | (None, _) =>
          if (0 <? maxQueueBytes m) && (maxQueueBytes m <? EstimatedCommandBytes cmd)
          then Some (Some ErrQueueBytesFull, q,
                 emit (mkOverflowEvent controllerID "bytes" "drop_oldest" "rejected") events)
          else Some (Some ErrQueueFull, q,
                 emit (mkOverflowEvent controllerID limitType "drop_oldest" "rejected") events)
      | (Some _, q') =>
          dropLoop fuel' m controllerID cmd q'
            (emit (mkOverflowEvent controllerID limitType "drop_oldest" "dropped") events)
      end
  end.

(** The whole [if !fits() { ... }] block.  The loop drops at most every queued
    command, so that the fuel is never spent ([dropLoop_total]). *)
Definition makeRoom (m : Manager S) (controllerID : string) (cmd : Command)
    (q : ControllerQueue) (events : option (list OverflowEvent)) : room :=
  if fits m cmd q then (None, q, events)
  else if String.eqb (overflowPolicy m) "reject" then
    if bytesExceeded m cmd q
    then (Some ErrQueueBytesFull, q, emit (mkOverflowEvent controllerID "bytes" "reject" "rejected") events)
    else (Some ErrQueueFull, q,
          if depthExceeded m q
          then emit (mkOverflowEvent controllerID "depth" "reject" "rejected") events else events)
  else if String.eqb (overflowPolicy m) "drop_oldest" then
    default (Some ErrQueueFull, q, events)
      (dropLoop (Datatypes.S (length (Snapshot q))) m controllerID cmd q events)
  else (Some ErrQueueFull, q, events).

(** [since] is the reading of the clock in [time.Since], [recorded] the one
    the key is recorded with. *)
Definition checkDedup (cmd : Command) (since recorded : Z) (s : Session) : option error * Session :=
  if String.eqb (cmd_DedupKey cmd) "" then (None, s) else
  match Dedup s !! cmd_DedupKey cmd with
  | Some t =>
      if since - t <? dedupWindow then (Some ErrDuplicate, s)
      else (None, set_Dedup (<[cmd_DedupKey cmd := recorded]> (Dedup s)) s)
  | None => (None, set_Dedup (<[cmd_DedupKey cmd := recorded]> (Dedup s)) s)
  end.

Definition enqueueLocked (controllerID : string) (cmd : Command) (created since recorded : Z)
    (events : option (list OverflowEvent)) (m : Manager S)
    : option error * option (list OverflowEvent) * Manager S :=
  let '(err, m) := match sessions m !! controllerID with
                   | Some _ => (None, m)
                   | None => createDetachedLocked controllerID created m
                   end in
  match err, sessions m !! controllerID with
  | Some e, _ => (Some e, events, m)
  | None, None => (None, events, m)
  | None, Some s =>
      match checkDedup cmd since recorded s with
      | (Some e, _) => (Some e, events, m)
      | (None, s) =>
          match makeRoom m controllerID cmd (s_Queue s) events with
          | (Some e, q, events) => (Some e, events, put controllerID (set_Queue q s) m)
          | (None, q, events) =>
              let '(e, m) := putPersist controllerID (set_Queue (Push cmd q) s) m in (e, events, m)
          end
      end
  end.

Definition Enqueue (controllerID : string) (cmd : Command) (created since recorded : Z) (m : Manager S)
    : option error * Manager S :=
  let '(e, _, m) := enqueueLocked controllerID cmd created since recorded None m in (e, m).

Definition EnqueueWithEvents (controllerID : string) (cmd : Command) (created since recorded : Z)
    (m : Manager S) : list OverflowEvent * option error * Manager S :=
  let '(e, events, m) := enqueueLocked controllerID cmd created since recorded (Some []) m in
  (default [] events, e, m).

(** ** Delivery state *)

Definition UpdateBufferFree (controllerID : string) (free : Z) (m : Manager S) : Manager S :=
  match sessions m !! controllerID with
  | Some s => put controllerID (set_BufferFree free s) m
  | None => m
  end.

Definition SetFWMode (controllerID : string) (enabled : bool) (m : Manager S) : option error * Manager S :=
  match sessions m !! controllerID with
  | Some s => putPersist controllerID (set_FWMode enabled s) m
  | None => (None, m)
  end.

Definition SetSyncMode (controllerID : string) (enabled : bool) (m : Manager S) : option error * Manager S :=
  match sessions m !! controllerID with
  | Some s => putPersist controllerID (set_SyncMode enabled s) m
  | None => (None, m)
  end.

Definition GetDeliveryContext (controllerID : string) (m : Manager S) : option DeliveryContext :=
  match sessions m !! controllerID with
  | None => None
  | Some s => Some (mkDeliveryContext (ControllerID s) (s_Conn s) (BufferFree s) (FWMode s) (SyncMode s) (s_FrameMode s))
  end.

Definition SetFrameMode (controllerID : string) (mode : FrameMode) (m : Manager S) : Manager S :=
  match sessions m !! controllerID with
  | Some s => put controllerID (set_FrameMode mode s) m
  | None => m
  end.

Definition AckSent (controllerID : string) (m : Manager S) : option error * Manager S :=
  match sessions m !! controllerID with
  | Some s => persistLocked s m
  | None => (None, m)
  end.

Definition NextCommandSeq (controllerID : string) (m : Manager S) : res Z * Manager S :=
  match sessions m !! controllerID with
  | None => (Err ErrSessionNotFound, m)
  | Some s =>
      let s := set_NextSeq (u8 (NextSeq s + 1)) s in
      let seq := NextSeq s in
      let '(_, m) := putPersist controllerID s m in (Ok seq, m)
  end.

Definition ControllerIDs (m : Manager S) : list string := (map_range (sessions m)).*1.

Definition InFlightSeqs (controllerID : string) (m : Manager S) : list Z :=
  match sessions m !! controllerID with
  | None => []
  | Some s => merge_sort Z.le (map_range (InFlight s)).*1
  end.

Definition InFlightCount (controllerID : string) (m : Manager S) : Z :=
  match sessions m !! controllerID with
  | None => 0
  | Some s => Z.of_nat (size (InFlight s))
  end.

Definition SessionCount (m : Manager S) : Z := Z.of_nat (size (sessions m)).

(** ** In-flight commands *)

Definition RegisterInFlight (controllerID : string) (seq : Z) (cmd : Command) (sentAt : Z) (m : Manager S)
    : option error * Manager S :=
  match sessions m !! controllerID with
  | None => (Some ErrSessionNotFound, m)
  | Some s =>
      let entry := mkInFlightEntry seq cmd sentAt (cmd_Attempts cmd + 1) in
      putPersist controllerID (set_InFlight (<[seq := entry]> (InFlight s)) s) m
  end.

Definition AckInFlight (controllerID : string) (seq : Z) (m : Manager S) : option (Command * Z) * Manager S :=
  match sessions m !! controllerID with
  | None => (None, m)
  | Some s =>
      match InFlight s !! seq with
      | None => (None, m)
      | Some entry =>
          let s := set_InFlight (delete seq (InFlight s)) s in
          match putPersist controllerID s m with
          | (Some _, m) => (None, put controllerID (set_InFlight (<[seq := entry]> (InFlight s)) s) m)
          | (None, m) => (Some (if_Command entry, if_Attempts entry), m)
          end
      end
  end.

Definition PeekInFlight (controllerID : string) (seq : Z) (m : Manager S) : option (Command * Z) :=
  match sessions m !! controllerID with
  | None => None
  | Some s =>
      match InFlight s !! seq with
      | None => None
      | Some entry => Some (if_Command entry, if_Attempts entry)
      end
  end.

Definition DeliveryPolicyResolver : Type := string -> Command -> DeliveryPolicy.

Definition set_retry (attempts seq : Z) (c : Command) : Command :=
  mkCommand (cmd_MessageID c) (cmd_TraceID c) (cmd_DedupKey c) (cmd_CommandID c) (cmd_TTL c)
    (cmd_CreatedAt c) (cmd_Payload c) (cmd_Priority c) attempts seq.

(** The policy of an entry, with the defaults of the loop's first lines. *)
Definition entryPolicy (controllerID : string) (resolver : option DeliveryPolicyResolver) (cmd : Command)
    : DeliveryPolicy :=
  let policy := match resolver with
                | None => mkDeliveryPolicy (10 * second) 0 3
                | Some r => r controllerID cmd
                end in
  mkDeliveryPolicy
    (if p_AckTimeout policy <=? 0 then 10 * second else p_AckTimeout policy)
    (p_RetryBackoff policy)
    (if p_MaxRetries policy <? 0 then 0 else p_MaxRetries policy).

Definition entryWait (policy : DeliveryPolicy) (entry : InFlightEntry) : Z :=
  let wait := i64 (p_AckTimeout policy
                   + retryDelay (if_Attempts entry) (p_RetryBackoff policy) (jitterSeedForEntry entry)) in
  if wait <? 0 then p_AckTimeout policy else wait.

(** The loop's variables: the queue, the in-flight map and the outcomes. *)
Definition pifState : Type := ControllerQueue * gmap Z InFlightEntry * list InFlightOutcome.

(** One round of [for seq, entry := range s.InFlight]. *)
Definition processEntry (controllerID : string) (now : Z) (resolver : option DeliveryPolicyResolver)
    (st : pifState) (seq : Z) : pifState :=
  let '(q, inFlight, out) := st in
  match inFlight !! seq with
  | None => st
  | Some entry =>
      let policy := entryPolicy controllerID resolver (if_Command entry) in
      let wait := entryWait policy entry in
      if now <? if_SentAt entry + wait then st else
      let inFlight := delete seq inFlight in
      let cmd := if_Command entry in
      if Expired cmd now then
        (q, inFlight, out ++ [mkOutcome "expired" seq cmd (if_Attempts entry) "ttl expired while waiting ack"])
      else if p_MaxRetries policy + 1 <=? if_Attempts entry then
        if now <? if_SentAt entry + i64 (wait + lateAckGrace) then (q, <[seq := entry]> inFlight, out)
        else (q, inFlight, out ++ [mkOutcome "failed" seq cmd (if_Attempts entry) "ack timeout retries exceeded"])
      else
        let cmd := set_retry (if_Attempts entry) seq cmd in
        (Push cmd q, inFlight, out ++ [mkOutcome "retrying" seq cmd (if_Attempts entry) "ack timeout"])
  end.

(** [visits] are the keys the range statement produces, in order.  An entry put
    back during the loop may be produced again or not: repetitions are
    allowed, and a key that is gone when its turn comes is not produced. *)
Definition ProcessInFlight (controllerID : string) (now : Z) (resolver : option DeliveryPolicyResolver)
    (visits : list Z) (m : Manager S) : list InFlightOutcome * option error * Manager S :=
  match sessions m !! controllerID with
  | None => ([], Some ErrSessionNotFound, m)
  | Some s =>
      let '(q, inFlight, out) :=
        fold_left (processEntry controllerID now resolver) visits (s_Queue s, InFlight s, []) in
      let '(e, m) := putPersist controllerID (set_InFlight inFlight (set_Queue q s)) m in
      (out, e, m)
  end.

End Manager.

(** ** Lemmas: writes and persistence *)

Section Theorems.
Context `{MapRange} {S : Type} `{!Store S} `{!StoreLaws S}.
Implicit Types m : Manager S.

Lemma sessions_put id s m : sessions (put id s m) = <[id := s]> (sessions m).
Proof. done. Qed.

(** What persisting does to the sessions, the limits and the store. *)
Lemma putPersist_spec id s m err m' :
  putPersist id s m = (err, m') ->
  exists st, m' = with_store st (put id s m)
    /\ contents st = match err with
                     | None => <[ControllerID s := keptSnapshot (sessionSnapshot s)]> (contents (store m))
                     | Some _ => contents (store m)
                     end.
Proof.
  unfold putPersist, persistLocked. destruct (SaveSession _ _) as [e st] eqn:E.
  intros [= <- <-]. exists st. split; [done|]. cbn in E.
  destruct e; [by apply SaveSession_err in E|by apply SaveSession_ok in E].
Qed.

Lemma putPersist_sessions id s m err m' :
  putPersist id s m = (err, m') -> sessions m' = <[id := s]> (sessions m).
Proof. by intros (st & -> & _)%putPersist_spec. Qed.

Lemma fits_ok m cmd q :
  fits m cmd q = true ->
  (0 < maxQueueDepth m -> Len (Push cmd q) <= maxQueueDepth m)
  /\ (0 < maxQueueBytes m -> TotalEstimatedBytes (Push cmd q) <= maxQueueBytes m).
Proof.
  unfold fits, depthExceeded, bytesExceeded. rewrite Len_Push, TotalEstimatedBytes_Push.
  intros Hf. repeat case_match; lia.
Qed.

(** ** Making room *)

Definition older_than (l : list Command) (d : Command) : Prop :=
  Forall (fun r => cmd_CreatedAt d <= cmd_CreatedAt r) l.

(** The loop ends for every queue; what it drops is older than what it keeps,
    one event per dropped command, and it fails only on an empty queue that
    has no room for the command. *)
Lemma dropLoop_total m id cmd fuel : forall q events,
  (length (Snapshot q) < fuel)%nat ->
  exists e q' events' dropped,
    dropLoop fuel m id cmd q events = Some (e, q', events')
    /\ Snapshot q ≡ₚ dropped ++ Snapshot q'
    /\ Forall (older_than (Snapshot q')) dropped
    /\ (wf_queue q -> wf_queue q')
    /\ match e with
       | None => fits m cmd q' = true
           /\ forall l, events = Some l -> exists l', events' = Some l' /\ length l' = (length l + length dropped)%nat
       | Some err => Snapshot q' = [] /\ fits m cmd q' = false
           /\ err = if (0 <? maxQueueBytes m) && (maxQueueBytes m <? EstimatedCommandBytes cmd)
                    then ErrQueueBytesFull else ErrQueueFull
       end.
Proof.
  induction fuel as [|fuel IH]; intros q events Hf; [lia|]. cbn [dropLoop].
  destruct (fits m cmd q) eqn:Efits.
  - exists None, q, events, []. split_and!; try done.
    intros l ->. exists l. split; [done|]. cbn. lia.
  - destruct (DropOldest q) as [[c|] q1] eqn:Ed.
    + pose proof Ed as Ewf. apply DropOldest_Some in Ed as [Hp Hold].
      destruct (IH q1 (emit (mkOverflowEvent id (if bytesExceeded m cmd q then "bytes" else "depth")
        "drop_oldest" "dropped") events)) as (e & q' & ev & dropped & -> & Hp' & Hdr & Hwf & He).
      { rewrite Hp in Hf. cbn in Hf. lia. }
      exists e, q', ev, (c :: dropped). split; [done|]. split; [by rewrite Hp, Hp'|]. split.
      { constructor; [|done]. unfold older_than. rewrite Hp, Hp' in Hold.
        apply Forall_cons in Hold as [_ Hold]. by apply Forall_app in Hold as [_ ?]. }
      split. { intros Hq. apply Hwf. pose proof (wf_DropOldest q Hq) as Hw. by rewrite Ewf in Hw. }
      destruct e; [done|]. destruct He as [? He]. split; [done|]. intros l ->.
      destruct (He _ eq_refl) as (l' & -> & Hl). exists l'. split; [done|].
      rewrite Hl, length_app. cbn. lia.
    + apply DropOldest_None in Ed as [-> Hn].
      destruct (_ && _) eqn:Eb.
      all: eexists _, q, _, []; split; [reflexivity|]; split_and!; done.
Qed.

Lemma makeRoom_spec m id cmd q e q' events l :
  makeRoom m id cmd q (Some l) = (e, q', events) ->
  exists dropped, Snapshot q ≡ₚ dropped ++ Snapshot q'
    /\ Forall (older_than (Snapshot q')) dropped
    /\ (wf_queue q -> wf_queue q')
    /\ (dropped <> [] -> overflowPolicy m = "drop_oldest" /\ fits m cmd q = false)
    /\ (e = None -> fits m cmd q' = true
        /\ exists l', events = Some l' /\ length l' = (length l + length dropped)%nat).
Proof.
  unfold makeRoom. destruct (fits m cmd q) eqn:Ef.
  { intros [= <- <- <-]. exists []. split_and!; try done.
    intros _. split; [done|]. exists l. split; [done|]. cbn. lia. }
  destruct (String.eqb (overflowPolicy m) "reject") eqn:Er.
  { intros Hr. exists []. destruct (bytesExceeded m cmd q); simplify_eq; split_and!; done. }
  destruct (String.eqb_spec (overflowPolicy m) "drop_oldest") as [Ep|].
  - destruct (dropLoop_total m id cmd (Datatypes.S (length (Snapshot q))) q (Some l)) as
      (e' & q1 & ev & dropped & -> & Hp & Hd & Hwf & He); [lia|].
    intros [= <- <- <-]. exists dropped. split_and!; try done.
    intros ->. destruct He as [? He]. split; [done|]. by apply He.
  - intros [= <- <- <-]. exists []. split_and!; done.
Qed.

(** ** Enqueueing *)

(** The commands queued for a controller. *)
Definition queued m (id : string) : list Command :=
  match sessions m !! id with Some s => Snapshot (s_Queue s) | None => [] end.

Lemma createDetachedLocked_spec id now m err m' :
  createDetachedLocked id now m = (err, m') ->
  exists st, m' = with_store st (match err with
                                 | None => put id (newSession id None now) m
                                 | Some _ => forget id m
                                 end)
    /\ contents st = match err with
                     | None => <[id := keptSnapshot (sessionSnapshot (newSession id None now))]> (contents (store m))
                     | Some _ => contents (store m)
                     end.
Proof.
  unfold createDetachedLocked. destruct (putPersist _ _ _) as [[e|] m1] eqn:E.
  all: apply putPersist_spec in E as (st & -> & Hc); intros [= <- <-]; exists st; split; try done.
  cbn. unfold forget, put, with_store, with_sessions. cbn. by rewrite delete_insert_eq.
Qed.

Lemma checkDedup_spec cmd since recorded s err s' :
  checkDedup cmd since recorded s = (err, s') ->
  s_Queue s' = s_Queue s /\ ControllerID s' = ControllerID s /\ InFlight s' = InFlight s
  /\ NextSeq s' = NextSeq s /\ BufferFree s' = BufferFree s
  /\ (err = None -> cmd_DedupKey cmd <> "" -> Dedup s' !! cmd_DedupKey cmd = Some recorded).
Proof.
  unfold checkDedup. destruct (String.eqb_spec (cmd_DedupKey cmd) ""); [by intros [= <- <-]|].
  repeat case_match; intros [= <- <-]; cbn; split_and!; try done; intros; by rewrite lookup_insert_eq.
Qed.

(** The steps of a successful enqueue: from some manager [m1] in which the
    session [s] exists. *)
Lemma enqueueLocked_steps id cmd t0 t1 t2 events m err events' m' :
  enqueueLocked id cmd t0 t1 t2 events m = (err, events', m') ->
  (exists e, sessions m !! id = None /\ err = Some e /\ queued m' id = [] /\ contents (store m') = contents (store m))
  \/ exists m1 s, sessions m1 !! id = Some s /\ Snapshot (s_Queue s) = queued m id
       /\ (wf_queue (s_Queue s) \/ sessions m !! id = Some s)
       /\ overflowPolicy m1 = overflowPolicy m /\ maxQueueDepth m1 = maxQueueDepth m
       /\ maxQueueBytes m1 = maxQueueBytes m
       /\ (forall id', id' <> id -> sessions m1 !! id' = sessions m !! id')
       /\ match checkDedup cmd t1 t2 s with
          | (Some e, _) => (err, events', m') = (Some e, events, m1)
          | (None, s1) =>
              match makeRoom m1 id cmd (s_Queue s1) events with
              | (Some e, q, ev) => (err, events', m') = (Some e, ev, put id (set_Queue q s1) m1)
              | (None, q, ev) =>
                  exists m2, putPersist id (set_Queue (Push cmd q) s1) m1 = (err, m2)
                    /\ events' = ev /\ m' = m2
              end
          end.
Proof.
  intros Hq. unfold enqueueLocked in Hq. destruct (sessions m !! id) as [s|] eqn:Es.
  - right. exists m, s. unfold queued. rewrite Es in *. split_and!; try done; [by right|].
    destruct (checkDedup _ _ _ _) as [[e|] s1]; [congruence|].
    destruct (makeRoom _ _ _ _ _) as [[[e|] q] ev]; [congruence|].
    destruct (putPersist _ _ _) as [e m2]. exists m2. by simplify_eq.
  - destruct (createDetachedLocked id t0 m) as [[e|] m1] eqn:Ec;
      apply createDetachedLocked_spec in Ec as (st & -> & Hc).
    + left. exists e. injection Hq as <- <- <-. unfold queued. cbn. rewrite lookup_delete_eq. done.
    + right. exists (with_store st (put id (newSession id None t0) m)), (newSession id None t0).
      cbn [sessions with_store put with_sessions] in Hq |- *. rewrite lookup_insert_eq in Hq.
      rewrite lookup_insert_eq. unfold queued. rewrite Es.
      split_and!; try done; [left; apply wf_New|intros id' ?; by apply lookup_insert_ne|].
      destruct (checkDedup _ _ _ _) as [[e|] s1]; [congruence|].
      destruct (makeRoom _ _ _ _ _) as [[[e|] q] ev]; [congruence|].
      destruct (putPersist _ _ _) as [e m2]. exists m2. by simplify_eq.
Qed.

Lemma enqueue_effect (id : string) (cmd : Command) (t0 t1 t2 : Z) m events m' :
  EnqueueWithEvents id cmd t0 t1 t2 m = (events, None, m') ->
  exists s' kept dropped,
    sessions m' !! id = Some s'
    /\ contents (store m') !! ControllerID s' = Some (keptSnapshot (sessionSnapshot s'))
    /\ Snapshot (s_Queue s') ≡ₚ cmd :: kept
    /\ queued m id ≡ₚ dropped ++ kept
    /\ Forall (older_than kept) dropped
    /\ length events = length dropped
    /\ (dropped <> [] -> overflowPolicy m = "drop_oldest")
    /\ (0 < maxQueueDepth m -> Len (s_Queue s') <= maxQueueDepth m)
    /\ (0 < maxQueueBytes m -> TotalEstimatedBytes (s_Queue s') <= maxQueueBytes m)
    /\ forall id', id' <> id -> sessions m' !! id' = sessions m !! id'.
Proof.
  unfold EnqueueWithEvents. destruct (enqueueLocked _ _ _ _ _ _ _) as [[err ev] m2] eqn:E.
  intros [= <- -> ->].
  apply enqueueLocked_steps in E as [(? & _ & [=] & _)|(m1 & s & Hs & Hold & _ & Hpol & Hdep & Hby & Hoth & E)].
  destruct (checkDedup cmd t1 t2 s) as [[e|] s1] eqn:Ed; [done|].
  apply checkDedup_spec in Ed as (Hq & _).
  destruct (makeRoom m1 id cmd (s_Queue s1) (Some [])) as [[[e|] q] ev1] eqn:Er; [done|].
  destruct E as (m2 & (st & -> & Hc)%putPersist_spec & -> & ->).
  apply makeRoom_spec in Er as (dropped & Hp & Ho & _ & Hd & He). destruct (He eq_refl) as (Hfit & l & -> & Hl).
  apply fits_ok in Hfit as [Hf1 Hf2].
  exists (set_Queue (Push cmd q) s1), (Snapshot q), dropped. cbn.
  rewrite lookup_insert_eq, Hc. cbn. rewrite lookup_insert_eq, <- Hold, <- Hq, <- Hpol, <- Hdep, <- Hby.
  split_and!; try done; [apply Snapshot_Push|naive_solver|].
  intros id' ?. by rewrite lookup_insert_ne, Hoth.
Qed.

Lemma enqueue_queued id cmd t0 t1 t2 m events m' :
  EnqueueWithEvents id cmd t0 t1 t2 m = (events, None, m') ->
  exists s', sessions m' !! id = Some s'
    /\ contents (store m') !! ControllerID s' = Some (keptSnapshot (sessionSnapshot s')) /\ cmd ∈ Snapshot (s_Queue s').
Proof.
  intros (s' & kept & dropped & Hs & Hc & Hp & _)%enqueue_effect. exists s'. split_and!; try done.
  rewrite Hp. left.
Qed.

(** C13: an accepted command is queued and saved within the limits: after a
    successful enqueue the controller's queue holds the command and respects
    the depth and the byte limit, the snapshot in the store is that of the
    session, other sessions are untouched, and the only commands removed are
    those the "drop_oldest" policy dropped, one event each, none of them newer
    than a command that was kept. *)
Theorem enqueue_accepted (id : string) (cmd : Command) (t0 t1 t2 : Z) m events m' :
  EnqueueWithEvents id cmd t0 t1 t2 m = (events, None, m') ->
  exists s' kept dropped,
    sessions m' !! id = Some s'
    /\ contents (store m') !! ControllerID s' = Some (keptSnapshot (sessionSnapshot s'))
    /\ Snapshot (s_Queue s') ≡ₚ cmd :: kept
    /\ queued m id ≡ₚ dropped ++ kept
    /\ Forall (older_than kept) dropped
    /\ length events = length dropped
    /\ (dropped <> [] -> overflowPolicy m = "drop_oldest")
    /\ (0 < maxQueueDepth m -> Len (s_Queue s') <= maxQueueDepth m)
    /\ (0 < maxQueueBytes m -> TotalEstimatedBytes (s_Queue s') <= maxQueueBytes m)
    /\ forall id', id' <> id -> sessions m' !! id' = sessions m !! id'.
Proof. apply enqueue_effect. Qed.

(** A key recorded less than ten minutes ago refuses the command and changes
    nothing. *)
Lemma enqueueLocked_duplicate id cmd t0 t1 t2 events m s t :
  sessions m !! id = Some s -> cmd_DedupKey cmd <> "" ->
  Dedup s !! cmd_DedupKey cmd = Some t -> t1 - t < dedupWindow ->
  enqueueLocked id cmd t0 t1 t2 events m = (Some ErrDuplicate, events, m).
Proof.
  intros Hs Hk Ht Hw. unfold enqueueLocked, checkDedup. rewrite Hs, Hs.
  rewrite (proj2 (String.eqb_neq _ _)), Ht, (proj2 (Z.ltb_lt _ _)) by done. done.
Qed.

(** Of two commands with the same deduplication key less than ten minutes
    apart only the first is considered: whatever became of it, short of a
    store failure while creating the session, the second is refused as a
    duplicate and changes nothing (in particular after the first was refused
    because the queue was full). *)
Lemma enqueue_dedup (id : string) (c1 c2 : Command) (t0 t1 t2 u0 u1 u2 : Z) m err events m1 :
  sessions m !! id <> None ->
  cmd_DedupKey c1 <> "" -> cmd_DedupKey c2 = cmd_DedupKey c1 ->
  EnqueueWithEvents id c1 t0 t1 t2 m = (events, err, m1) ->
  err <> Some ErrDuplicate -> u1 - t2 < dedupWindow ->
  EnqueueWithEvents id c2 u0 u1 u2 m1 = ([], Some ErrDuplicate, m1).
Proof.
  intros Hs Hk He Hq Herr Hw. unfold EnqueueWithEvents in *.
  destruct (enqueueLocked id c1 t0 t1 t2 (Some []) m) as [[err1 ev1] m2] eqn:E. injection Hq as _ -> ->.
  enough (exists s1, sessions m1 !! id = Some s1 /\ Dedup s1 !! cmd_DedupKey c2 = Some t2)
    as (s1 & Hs1 & Hd) by (by rewrite (enqueueLocked_duplicate _ _ _ _ _ _ _ s1 t2) by congruence).
  rewrite He. apply enqueueLocked_steps in E as [(? & ? & _)|(m0 & s & Hs0 & _ & _ & _ & _ & _ & _ & E)]; [done|].
  destruct (checkDedup c1 t1 t2 s) as [[e|] s1] eqn:Ed.
  { unfold checkDedup in Ed. repeat case_match; simplify_eq. }
  pose proof (checkDedup_spec _ _ _ _ _ _ Ed) as (_ & _ & _ & _ & _ & Hrec).
  specialize (Hrec eq_refl Hk).
  destruct (makeRoom m0 id c1 (s_Queue s1) (Some [])) as [[[e|] q] ev2].
  - injection E as -> -> ->. exists (set_Queue q s1). cbn. by rewrite lookup_insert_eq.
  - destruct E as (m2 & E & -> & ->). apply putPersist_sessions in E.
    exists (set_Queue (Push c1 q) s1). rewrite E. by rewrite lookup_insert_eq.
Qed.


(** ** The invariant *)

Definition is_u8 (z : Z) : Prop := 0 <= z < 256.

Lemma is_u8_u8 z : is_u8 (u8 z).
Proof. unfold is_u8, u8. pose proof (Z.mod_pos_bound z (2 ^ 8)). lia. Qed.

(** What is known of sequence numbers: anything that holds of every byte.  A
    command's own [RetrySeq] is a byte in the source; where nothing is said of
    the commands, nothing is required ([fun _ => True]). *)
Variable okSeq : Z -> Prop.
Hypothesis okSeq_u8 : forall z, okSeq (u8 z).

(** A session is filed under its id, its queue is sorted by priority, in-flight
    commands are filed under their sequence numbers. *)
Definition wf_session (id : string) (s : Session) : Prop :=
  ControllerID s = id /\ wf_queue (s_Queue s)
  /\ map_Forall (fun seq e => if_Seq e = seq /\ okSeq seq) (InFlight s) /\ okSeq (NextSeq s).

Definition wf_snapshot (id : string) (snap : SessionSnapshot) : Prop :=
  snap_ControllerID snap = id /\ okSeq (snap_NextSeq snap)
  /\ Forall (fun v => okSeq (ifs_Seq v)) (snap_InFlight snap).

Definition wf_manager m : Prop :=
  map_Forall wf_session (sessions m) /\ map_Forall wf_snapshot (contents (store m)).

Lemma wf_sessionSnapshot id s : wf_session id s -> wf_snapshot id (keptSnapshot (sessionSnapshot s)).
Proof.
  intros (Hid & _ & Hin & Hseq). split_and!; try done. cbn. apply Forall_fmap, Forall_fmap.
  apply Forall_forall. intros [k e] He%(elem_of_Permutation_proper _ _ _ (map_range_perm _)).
  apply elem_of_map_to_list in He. apply Hin in He as [Hk He]. cbn. by rewrite Hk.
Qed.

Lemma wf_putPersist id s m :
  wf_manager m -> wf_session id s -> wf_manager (putPersist id s m).2.
Proof.
  intros [Hm Hst] Hs. destruct (putPersist id s m) as [err m'] eqn:E.
  apply putPersist_spec in E as (st & -> & Hc). split; cbn; [by apply map_Forall_insert_2|].
  rewrite Hc. destruct err; [done|]. apply map_Forall_insert_2; [|done].
  pose proof Hs as [Hid _]. rewrite Hid. by apply wf_sessionSnapshot.
Qed.

Lemma wf_put id s m : wf_manager m -> wf_session id s -> wf_manager (put id s m).
Proof. intros [Hm Hst] Hs. split; cbn; [by apply map_Forall_insert_2|done]. Qed.

Lemma wf_forget id m : wf_manager m -> wf_manager (forget id m).
Proof. intros [Hm Hst]. split; cbn; [by apply map_Forall_delete|done]. Qed.

Lemma wf_newSession id conn now : wf_session id (newSession id conn now).
Proof. pose proof (okSeq_u8 0 : okSeq 0). split_and!; try done. apply wf_New. Qed.

Lemma wf_lookup m id s : wf_manager m -> sessions m !! id = Some s -> wf_session id s.
Proof. intros [Hm _] Hs. by apply Hm. Qed.

(** The part of a session the invariant speaks about. *)
Lemma wf_session_eq id s s' :
  wf_session id s -> ControllerID s' = ControllerID s -> s_Queue s' = s_Queue s ->
  InFlight s' = InFlight s -> NextSeq s' = NextSeq s -> wf_session id s'.
Proof. unfold wf_session. intros (? & ? & ? & ?) -> -> -> ->. done. Qed.

Lemma wf_checkDedup id cmd t1 t2 s err s' :
  wf_session id s -> checkDedup cmd t1 t2 s = (err, s') -> wf_session id s'.
Proof.
  intros Hw (Hq & Hid & Hin & Hn & _)%checkDedup_spec. by eapply wf_session_eq.
Qed.

Lemma wf_set_Queue id q s : wf_session id s -> wf_queue q -> wf_session id (set_Queue q s).
Proof. unfold wf_session. cbn. tauto. Qed.

Lemma wf_makeRoom m id cmd q events e q' events' :
  wf_queue q -> makeRoom m id cmd q events = (e, q', events') -> wf_queue q'.
Proof.
  intros Hq. unfold makeRoom.
  destruct (dropLoop_total m id cmd (Datatypes.S (length (Snapshot q))) q events)
    as (e1 & q1 & ev & dropped & -> & _ & _ & Hwf & _); [lia|].
  repeat case_match; intros; simplify_eq; cbn in *; simplify_eq; auto.
Qed.

Lemma wf_enqueueLocked id cmd t0 t1 t2 events m :
  wf_manager m -> wf_manager (enqueueLocked id cmd t0 t1 t2 events m).2.
Proof.
  intros Hm. unfold enqueueLocked.
  destruct (match sessions m !! id with Some _ => _ | None => _ end) as [err m1] eqn:E.
  assert (wf_manager m1) as Hm1.
  { destruct (sessions m !! id); [by simplify_eq|]. unfold createDetachedLocked in E.
    pose proof (wf_putPersist id _ m Hm (wf_newSession id None t0)) as Hw.
    destruct (putPersist _ _ _) as [[e|] m2]; simplify_eq; [by apply wf_forget|done]. }
  destruct err as [e|]; [done|]. destruct (sessions m1 !! id) as [s|] eqn:Es; [|done].
  destruct (checkDedup _ _ _ _) as [[e|] s1] eqn:Ed; [done|].
  pose proof (wf_checkDedup _ _ _ _ _ _ _ (wf_lookup _ _ _ Hm1 Es) Ed) as Hs1.
  destruct (makeRoom _ _ _ _ _) as [[[e|] q] ev] eqn:Er.
  all: pose proof (wf_makeRoom _ _ _ _ _ _ _ _ (proj1 (proj2 Hs1)) Er) as Hq.
  - apply wf_put; [done|]. by apply wf_set_Queue.
  - pose proof (wf_putPersist id (set_Queue (Push cmd q) s1) m1 Hm1) as Hw.
    destruct (putPersist _ _ _) as [e m2]. apply Hw, wf_set_Queue; [done|]. by apply wf_Push.
Qed.

(** ** Processing the commands in flight *)

Definition wf_inflight (inFlight : gmap Z InFlightEntry) : Prop :=
  map_Forall (fun seq e => if_Seq e = seq /\ okSeq seq) inFlight.

Lemma wf_processEntry id now resolver visits q inFlight out q' inFlight' out' :
  wf_queue q -> wf_inflight inFlight ->
  fold_left (processEntry id now resolver) visits (q, inFlight, out) = (q', inFlight', out') ->
  wf_queue q' /\ wf_inflight inFlight'.
Proof.
  revert q inFlight out. induction visits as [|seq visits IH]; intros q inFlight out Hq Hi; cbn [fold_left].
  { by intros [= <- <- <-]. }
  destruct (processEntry id now resolver (q, inFlight, out) seq) as [[q1 i1] o1] eqn:E. intros Hf.
  eapply IH; [..|exact Hf]; clear IH Hf.
  all: unfold processEntry in E; destruct (inFlight !! seq) as [entry|] eqn:El; [|by simplify_eq].
  all: repeat case_match; simplify_eq; try done; try (by apply wf_Push).
  all: try (by apply map_Forall_delete). apply map_Forall_insert_2; [by apply Hi|by apply map_Forall_delete].
Qed.

(** ** Restart *)

(** What a session is after a restart: offline, with an empty deduplication
    table and the default frame mode; the queue, the commands in flight and the
    sequence counter survive, the time it was last seen as the store keeps
    it. *)
Definition resumed (s : Session) : Session :=
  mkSession (ControllerID s) None (s_Queue s) (keptTime (LastSeen s)) (keptTime (LastSeen s))
    (if BufferFree s <=? 0 then 1500 else BufferFree s) (FWMode s) (SyncMode s) ∅ (InFlight s)
    (NextSeq s) FrameModeSequenced.

Lemma restore_entries (l : list (Z * InFlightEntry)) (acc : gmap Z InFlightEntry) :
  NoDup l.*1 -> Forall (fun p => if_Seq p.2 = p.1) l ->
  fold_left (fun acc v =>
    <[ifs_Seq v := mkInFlightEntry (ifs_Seq v) (ifs_Command v) (ifs_SentAt v) (ifs_Attempts v)]> acc)
    (map inFlightSnapshot l.*2) acc = list_to_map l ∪ acc.
Proof.
  revert acc. induction l as [|[k e] l IH]; intros acc Hnd Hs; cbn.
  - by rewrite map_empty_union.
  - apply NoDup_cons in Hnd as [Hk Hnd]. apply Forall_cons in Hs as [He Hs]. cbn in He.
    rewrite IH by done. rewrite He. replace (mkInFlightEntry k _ _ _) with e by (destruct e; cbn in *; by subst).
    rewrite <- insert_union_r, insert_union_l; [done|]. by apply not_elem_of_list_to_map_1.
Qed.

Lemma restoreSession_Snapshot id s : wf_session id s -> restoreSession (keptSnapshot (sessionSnapshot s)) = resumed s.
Proof.
  intros (Hid & Hq & Hin & Hn). unfold restoreSession, keptSnapshot, set_snap_LastSeen, sessionSnapshot, resumed. cbn [snap_InFlight snap_Pending
    snap_ControllerID snap_LastSeen snap_BufferFree snap_FWMode snap_SyncMode snap_NextSeq BufferFree].
  rewrite Restore_Snapshot by done. rewrite restore_entries.
  - rewrite map_union_empty.
    assert (list_to_map (map_range (InFlight s)) = InFlight s) as ->.
    { rewrite <- (list_to_map_to_list (InFlight s)) at 2. apply list_to_map_proper, map_range_perm.
      rewrite map_range_perm. apply NoDup_fst_map_to_list. }
    cbn. rewrite ?map_union_empty. by destruct (BufferFree s <=? 0).
  - rewrite map_range_perm. apply NoDup_fst_map_to_list.
  - rewrite map_range_perm. apply Forall_forall. intros [k e] He%elem_of_map_to_list. by apply Hin in He as [? _].
Qed.

Lemma restoreLoop_other snaps m count id :
  Forall (fun snap => snap_ControllerID snap <> id) snaps ->
  sessions (restoreLoop snaps m count).2 !! id = sessions m !! id.
Proof.
  revert m count. induction snaps as [|snap snaps IH]; intros m count Hf; cbn [restoreLoop]; [done|].
  apply Forall_cons in Hf as [Hne Hf]. case_match; rewrite IH by done; [done|]. by apply lookup_insert_ne.
Qed.

Lemma restoreLoop_found snaps m count snap :
  NoDup (map snap_ControllerID snaps) -> snap ∈ snaps -> snap_ControllerID snap <> "" ->
  sessions (restoreLoop snaps m count).2 !! snap_ControllerID snap = Some (restoreSession snap).
Proof.
  revert m count. induction snaps as [|x snaps IH]; intros m count Hnd Hin Hne; [by apply not_elem_of_nil in Hin|].
  cbn in Hnd. apply NoDup_cons in Hnd as [Hx Hnd]. cbn [restoreLoop].
  apply elem_of_cons in Hin as [<-|Hin]; [|case_match; by apply IH].
  rewrite (proj2 (String.eqb_neq _ _)) by done. rewrite restoreLoop_other.
  - apply lookup_insert_eq.
  - apply Forall_forall. intros y Hy He. apply Hx, list_elem_of_fmap. by exists y.
Qed.

Lemma listed_ids_NoDup (c : gmap string SessionSnapshot) l :
  map_Forall wf_snapshot c -> l ≡ₚ (map_to_list c).*2 -> NoDup (map snap_ControllerID l).
Proof.
  intros Hc Hl. change (NoDup (snap_ControllerID <$> l)). rewrite Hl.
  replace (snap_ControllerID <$> (map_to_list c).*2) with (map_to_list c).*1.
  - apply NoDup_fst_map_to_list.
  - rewrite <- list_fmap_compose. apply list_fmap_ext. intros i [k x] Hi%list_elem_of_lookup_2.
    apply elem_of_map_to_list in Hi. cbn. by apply Hc in Hi as [-> _].
Qed.

Lemma Manager_Restore_found m count m' id snap :
  map_Forall wf_snapshot (contents (store m)) ->
  Manager_Restore m = (Ok count, m') ->
  contents (store m) !! id = Some snap -> id <> "" ->
  sessions m' !! id = Some (restoreSession snap).
Proof.
  intros Hw Hr Hs Hne. unfold Manager_Restore in Hr. destruct (ListSessions (store m)) as [[l|e|] st] eqn:El; [|done..].
  apply ListSessions_ok in El as Hl.
  pose proof (restoreLoop_found l (with_store st m) 0 snap (listed_ids_NoDup _ _ Hw Hl)) as Hf.
  destruct (restoreLoop _ _ _) as [n m2]. injection Hr as _ <-.
  pose proof (Hw _ _ Hs) as [Hid _]. rewrite Hid in Hf. apply Hf; [|done].
  rewrite Hl. apply list_elem_of_fmap. exists (id, snap). split; [done|]. by apply elem_of_map_to_list.
Qed.

(** The session of a successful enqueue, after a restart on the same store. *)
Lemma enqueue_restored (id : string) (cmd : Command) (t0 t1 t2 : Z)
    m events m' (conns depth nbytes : Z) (policy : string) count (st : S) m2 :
  wf_manager m -> id <> "" ->
  EnqueueWithEvents id cmd t0 t1 t2 m = (events, None, m') -> contents st = contents (store m') ->
  Manager_Restore (NewManager conns depth nbytes policy st) = (Ok count, m2) ->
  exists s', sessions m' !! id = Some s' /\ sessions m2 !! id = Some (resumed s')
    /\ cmd ∈ Snapshot (s_Queue (resumed s')).
Proof.
  intros Hwf Hne He Hst Hr. pose proof (wf_enqueueLocked id cmd t0 t1 t2 (Some []) m Hwf) as Hwf'.
  pose proof (enqueue_queued _ _ _ _ _ _ _ _ He) as (s' & Hs & Hc & Hin).
  unfold EnqueueWithEvents in He. destruct (enqueueLocked _ _ _ _ _ _ _) as [[e ev] m1]. cbn in Hwf'.
  injection He as _ _ ->. exists s'. pose proof (wf_lookup _ _ _ Hwf' Hs) as Hws.
  rewrite <- (restoreSession_Snapshot id s') by done. split; [done|].
  split; [|by rewrite (restoreSession_Snapshot id s')].
  destruct Hwf' as [_ Hwf']. rewrite <- Hst in Hwf', Hc. rewrite (proj1 Hws) in Hc.
  by eapply (Manager_Restore_found (NewManager conns depth nbytes policy st)).
Qed.

(** C4: an accepted command survives a restart: when an enqueue succeeds and
    the process is restarted on the same store, the controller's session comes
    back with the whole queue in its order, the commands in flight and the
    sequence counter; only the connection, the deduplication table and the
    frame mode are reset, and the time the controller was last seen is the
    store's, less than a microsecond off. *)
Theorem accepted_command_survives_restart (id : string) (cmd : Command) (t0 t1 t2 : Z)
    m events m' (conns depth nbytes : Z) (policy : string) count m2 :
  wf_manager m -> id <> "" ->
  EnqueueWithEvents id cmd t0 t1 t2 m = (events, None, m') ->
  Manager_Restore (NewManager conns depth nbytes policy (store m')) = (Ok count, m2) ->
  exists s', sessions m' !! id = Some s' /\ sessions m2 !! id = Some (resumed s')
    /\ cmd ∈ Snapshot (s_Queue (resumed s')).
Proof. intros Hwf Hne He Hr. by eapply enqueue_restored. Qed.

(** What becomes of an entry at [now]: it stays in flight ([None]) or it is
    reported. *)
Definition fate (id : string) (now : Z) (resolver : option DeliveryPolicyResolver) (e : InFlightEntry)
    : option InFlightOutcome :=
  let policy := entryPolicy id resolver (if_Command e) in
  let due := if_SentAt e + entryWait policy e in
  let final := if_SentAt e + i64 (entryWait policy e + lateAckGrace) in
  if decide (now < due) then None
  else if Expired (if_Command e) now then
    Some (mkOutcome "expired" (if_Seq e) (if_Command e) (if_Attempts e) "ttl expired while waiting ack")
  else if decide (if_Attempts e <= p_MaxRetries policy) then
    Some (mkOutcome "retrying" (if_Seq e) (set_retry (if_Attempts e) (if_Seq e) (if_Command e))
            (if_Attempts e) "ack timeout")
  else if decide (now < final) then None
  else Some (mkOutcome "failed" (if_Seq e) (if_Command e) (if_Attempts e) "ack timeout retries exceeded").

(** The commands put back into the queue. *)
Definition retried (out : list InFlightOutcome) : list Command :=
  map o_Command (filter (fun o => o_Type o = "retrying") out).

Lemma retried_app o1 o2 : retried (o1 ++ o2) = retried o1 ++ retried o2.
Proof. unfold retried. by rewrite filter_app, map_app. Qed.

Lemma fate_seq id now resolver e o : fate id now resolver e = Some o -> o_Seq o = if_Seq e.
Proof. unfold fate. repeat case_match; intros [= <-]; done. Qed.

Lemma fate_retrying id now resolver e o :
  fate id now resolver e = Some o -> o_Type o = "retrying" ->
  if_Attempts e <= p_MaxRetries (entryPolicy id resolver (if_Command e))
  /\ Expired (if_Command e) now = false
  /\ o_Command o = set_retry (if_Attempts e) (if_Seq e) (if_Command e).
Proof.
  unfold fate. generalize (entryPolicy id resolver (if_Command e)) as p. intros p.
  destruct (decide (now < _)); [done|]. destruct (Expired (if_Command e) now); [by intros [= <-]|].
  destruct (decide (if_Attempts e <= p_MaxRetries p)); [by intros [= <-]|].
  destruct (decide (now < _)); [done|]. by intros [= <-].
Qed.

(** A round of the loop, in terms of [fate]. *)
Lemma processEntry_fate id now resolver q i out seq e :
  i !! seq = Some e -> if_Seq e = seq ->
  match fate id now resolver e with
  | None => processEntry id now resolver (q, i, out) seq = (q, i, out)
  | Some o => exists q', processEntry id now resolver (q, i, out) seq = (q', delete seq i, out ++ [o])
      /\ Snapshot q' ≡ₚ retried [o] ++ Snapshot q
  end.
Proof.
  intros Hi Hseq. unfold fate, processEntry. rewrite Hi.
  set (policy := entryPolicy id resolver (if_Command e)). set (wait := entryWait policy e).
  destruct (Z.ltb_spec now (if_SentAt e + wait)); [by rewrite decide_True by lia|rewrite decide_False by lia].
  destruct (Expired (if_Command e) now); [rewrite Hseq; eexists; split; [reflexivity|done]|].
  destruct (Z.leb_spec (p_MaxRetries policy + 1) (if_Attempts e)).
  - rewrite decide_False by lia.
    destruct (Z.ltb_spec now (if_SentAt e + i64 (wait + lateAckGrace))).
    + rewrite decide_True by lia. by rewrite insert_delete_id.
    + rewrite decide_False by lia. rewrite Hseq. eexists. split; [reflexivity|done].
  - rewrite decide_True by lia. rewrite Hseq. eexists. split; [reflexivity|]. apply Snapshot_Push.
Qed.

(** The state of the loop after some visits of an in-flight map [i0]. *)
Definition processed id now resolver (i0 : gmap Z InFlightEntry) (q0 : ControllerQueue) (visited : list Z)
    (st : pifState) : Prop :=
  let '(q, i, out) := st in
  (forall seq e, i !! seq = Some e <->
     i0 !! seq = Some e /\ ~ (exists o, o ∈ out /\ o_Seq o = seq))
  /\ NoDup (map o_Seq out)
  /\ (forall o, o ∈ out -> exists e, i0 !! o_Seq o = Some e /\ fate id now resolver e = Some o)
  /\ (forall seq e o, seq ∈ visited -> i0 !! seq = Some e -> fate id now resolver e = Some o -> o ∈ out)
  /\ Snapshot q ≡ₚ retried out ++ Snapshot q0.

Lemma processed_step id now resolver i0 q0 visited st seq :
  wf_inflight i0 -> processed id now resolver i0 q0 visited st ->
  processed id now resolver i0 q0 (visited ++ [seq]) (processEntry id now resolver st seq).
Proof.
  intros Hwf. destruct st as [[q i] out]. intros (Hi & Hnd & Hout & Hdone & Hq).
  destruct (i !! seq) as [e|] eqn:El.
  - pose proof (proj1 (Hi seq e) El) as [H0 Hfresh]. pose proof (Hwf _ _ H0) as [Hs _].
    pose proof (processEntry_fate id now resolver q i out seq e El Hs) as Hp.
    destruct (fate id now resolver e) as [o|] eqn:Ef.
    + destruct Hp as (q' & -> & Hq'). pose proof (fate_seq _ _ _ _ _ Ef) as Ho. rewrite Hs in Ho.
      split_and!.
      * intros k x. rewrite lookup_delete_Some, Hi. setoid_rewrite elem_of_app.
        setoid_rewrite list_elem_of_singleton. naive_solver.
      * rewrite map_app. apply NoDup_app. split_and!; [done| |apply NoDup_singleton].
        intros k Hk. cbn. rewrite list_elem_of_singleton. intros ->.
        apply list_elem_of_fmap in Hk as (o' & Ho' & Hin). apply Hfresh. exists o'. split; [done|congruence].
      * intros o' [Hin| ->%list_elem_of_singleton]%elem_of_app; [by apply Hout|]. exists e. by rewrite Ho.
      * intros k x o' [Hv| ->%list_elem_of_singleton]%elem_of_app Hx Hf; apply elem_of_app.
        -- left. by eapply Hdone.
        -- right. apply list_elem_of_singleton. congruence.
      * rewrite Hq', Hq, retried_app. rewrite app_assoc. by rewrite (Permutation_app_comm (retried [o])).
    + rewrite Hp. split_and!; try done.
      intros k x o' [Hv| ->%list_elem_of_singleton]%elem_of_app Hx Hf; [by eapply Hdone|congruence].
  - assert (processEntry id now resolver (q, i, out) seq = (q, i, out)) as ->
      by (unfold processEntry; by rewrite El).
    split_and!; try done. intros k x o' [Hv| ->%list_elem_of_singleton]%elem_of_app Hx Hf; [by eapply Hdone|].
    destruct (decide (o' ∈ out)) as [|Hn]; [done|]. exfalso.
    enough (i !! seq = Some x) by congruence. apply Hi. split; [done|]. intros (o2 & Ho2 & Hs2).
    destruct (Hout o2 Ho2) as (e2 & He2 & Hf2). rewrite Hs2 in He2. by simplify_eq.
Qed.

Lemma processed_visits id now resolver i0 q0 visits :
  wf_inflight i0 ->
  processed id now resolver i0 q0 visits
    (fold_left (processEntry id now resolver) visits (q0, i0, [])).
Proof.
  intros Hwf. rewrite <- (app_nil_l visits) at 1.
  assert (processed id now resolver i0 q0 [] (q0, i0, [])) as Hinit.
  { split_and!; try done.
    - intros k e. split; [|by intros [? _]]. intros ?. split; [done|]. by intros (o & Ho%not_elem_of_nil & _).
    - constructor.
    - by intros o Ho%not_elem_of_nil.
    - by intros k e o Hk%not_elem_of_nil. }
  revert Hinit. generalize (q0, i0, @nil InFlightOutcome) as st, (@nil Z) as visited.
  induction visits as [|seq visits IH]; intros st visited Hst; cbn [fold_left]; [by rewrite app_nil_r|].
  change (seq :: visits) with ([seq] ++ visits). rewrite app_assoc. apply IH. by apply processed_step.
Qed.

(** C12: processing the commands in flight neither loses nor repeats one,
    whatever the order in which Go visits the map and even if entries are
    visited twice: each entry either stays in flight (its deadline has not
    passed, or it is out of retries and within the grace window) or is reported
    exactly once as expired, failed or retrying; the retried commands, and only
    they, are back in the queue; a retry is only granted while the attempts
    made are within the policy's limit. *)
Theorem ProcessInFlight_spec (id : string) (now : Z) (resolver : option DeliveryPolicyResolver)
    (visits : list Z) m s :
  wf_manager m -> sessions m !! id = Some s ->
  (forall seq, is_Some (InFlight s !! seq) -> seq ∈ visits) ->
  exists out err m' s',
    ProcessInFlight id now resolver visits m = (out, err, m') /\ sessions m' !! id = Some s'
    /\ (forall o, o ∈ out <-> exists e, InFlight s !! o_Seq o = Some e /\ fate id now resolver e = Some o)
    /\ NoDup (map o_Seq out)
    /\ (forall seq e, InFlight s' !! seq = Some e <->
          InFlight s !! seq = Some e /\ fate id now resolver e = None)
    /\ Snapshot (s_Queue s') ≡ₚ retried out ++ Snapshot (s_Queue s)
    /\ (forall o, o ∈ out -> o_Type o = "retrying" ->
          exists e, InFlight s !! o_Seq o = Some e
            /\ if_Attempts e <= p_MaxRetries (entryPolicy id resolver (if_Command e))
            /\ Expired (if_Command e) now = false
            /\ o_Command o = set_retry (if_Attempts e) (if_Seq e) (if_Command e)).
Proof.
  intros Hm Hs Hcover. pose proof (wf_lookup _ _ _ Hm Hs) as (Hid & _ & Hwf & _).
  unfold ProcessInFlight. rewrite Hs.
  pose proof (processed_visits id now resolver (InFlight s) (s_Queue s) visits Hwf) as Hp.
  destruct (fold_left _ visits _) as [[q i] out]. destruct Hp as (Hi & Hnd & Hout & Hdone & Hq).
  destruct (putPersist _ _ _) as [err m'] eqn:Ep. apply putPersist_sessions in Ep.
  exists out, err, m', (set_InFlight i (set_Queue q s)). rewrite Ep, lookup_insert_eq. cbn.
  assert (forall o, o ∈ out <-> exists e, InFlight s !! o_Seq o = Some e /\ fate id now resolver e = Some o) as Hiff.
  { intros o. split; [apply Hout|]. intros (e & He & Hf). apply (Hdone (o_Seq o) e); [|done..]. by apply Hcover. }
  split_and!; try done.
  - intros seq e. rewrite Hi. split; intros [He Hf]; (split; [done|]).
    + destruct (fate id now resolver e) as [o|] eqn:Ef; [|done]. exfalso. apply Hf. exists o.
      pose proof (fate_seq _ _ _ _ _ Ef) as Ho. pose proof (Hwf _ _ He) as [Hk _].
      split; [|congruence]. apply Hiff. exists e. by rewrite Ho, Hk.
    + intros (o & Ho & Hseq). apply Hiff in Ho as (e' & He' & Hf'). rewrite Hseq in He'. by simplify_eq.
  - intros o Ho Ht. apply Hiff in Ho as (e & He & Hf). exists e.
    destruct (fate_retrying _ _ _ _ _ Hf Ht) as (? & ? & ?). done.
Qed.

(** Acknowledging is atomic: it returns a command exactly when that
    command was in flight and its removal has been saved, and then only that
    entry is gone, in memory and in the store; otherwise (unknown controller or
    sequence number, or the store refused) every session is as it was. *)
Lemma AckInFlight_atomic (id : string) (seq : Z) m r m' :
  AckInFlight id seq m = (r, m') ->
  match r with
  | Some (cmd, attempts) => exists s e, sessions m !! id = Some s /\ InFlight s !! seq = Some e
      /\ cmd = if_Command e /\ attempts = if_Attempts e
      /\ sessions m' = <[id := set_InFlight (delete seq (InFlight s)) s]> (sessions m)
      /\ contents (store m')
         = <[ControllerID s := keptSnapshot (sessionSnapshot (set_InFlight (delete seq (InFlight s)) s))]> (contents (store m))
  | None => sessions m' = sessions m /\ contents (store m') = contents (store m)
  end.
Proof.
  unfold AckInFlight. destruct (sessions m !! id) as [s|] eqn:Es; [|by intros [= <- <-]].
  destruct (InFlight s !! seq) as [e|] eqn:Ee; [|by intros [= <- <-]].
  destruct (putPersist _ _ _) as [[err|] m1] eqn:Ep; apply putPersist_spec in Ep as (st & -> & Hc); intros [= <- <-].
  - cbn. rewrite insert_delete_id by done. split; [|done]. rewrite insert_insert_eq.
    destruct s; cbn in *. by apply insert_id.
  - by exists s, e.
Qed.

(** ** Reachable managers *)

(** The calls other components make: the manager's methods, and the queue
    operations the delivery loop performs on a session's queue. *)
Inductive mop :=
  | OCreate (id : string) (conn : Conn) (now : Z)
  | ODelete (id : string)
  | OMarkOffline (id : string) (now : Z)
  | OTouch (id : string) (now : Z)
  | OEnqueue (id : string) (cmd : Command) (t0 t1 t2 : Z)
  | OUpdateBufferFree (id : string) (free : Z)
  | OSetFWMode (id : string) (b : bool)
  | OSetSyncMode (id : string) (b : bool)
  | OSetFrameMode (id : string) (mode : FrameMode)
  | OAckSent (id : string)
  | ONextCommandSeq (id : string)
  | ORegister (id : string) (seq : Z) (cmd : Command) (sentAt : Z)
  | OAck (id : string) (seq : Z)
  | OProcess (id : string) (now : Z) (resolver : option DeliveryPolicyResolver) (visits : list Z)
  | ORestore
  | OQueue (id : string) (op : qop).

Definition queueOp (id : string) (op : qop) m : list Command * Manager S :=
  match sessions m !! id with
  | Some s => let '(out, q) := q_step op (s_Queue s) in (out, put id (set_Queue q s) m)
  | None => ([], m)
  end.

Definition m_apply (op : mop) m : Manager S :=
  match op with
  | OCreate id conn now => (Create id conn now m).2
  | ODelete id => Delete id m
  | OMarkOffline id now => (MarkOffline id now m).2
  | OTouch id now => Touch id now m
  | OEnqueue id cmd t0 t1 t2 => (EnqueueWithEvents id cmd t0 t1 t2 m).2
  | OUpdateBufferFree id free => UpdateBufferFree id free m
  | OSetFWMode id b => (SetFWMode id b m).2
  | OSetSyncMode id b => (SetSyncMode id b m).2
  | OSetFrameMode id mode => SetFrameMode id mode m
  | OAckSent id => (AckSent id m).2
  | ONextCommandSeq id => (NextCommandSeq id m).2
  | ORegister id seq cmd sentAt => (RegisterInFlight id (u8 seq) cmd sentAt m).2
  | OAck id seq => (AckInFlight id seq m).2
  | OProcess id now resolver visits => (ProcessInFlight id now resolver visits m).2
  | ORestore => (Manager_Restore m).2
  | OQueue id op => (queueOp id op m).2
  end.

Definition m_run (ops : list mop) m : Manager S := fold_left (fun m op => m_apply op m) ops m.

Lemma wf_restoreSession id snap : wf_snapshot id snap -> wf_session id (restoreSession snap).
Proof.
  intros (Hid & Hn & Hf). unfold restoreSession.
  assert (forall acc : gmap Z InFlightEntry, wf_inflight acc -> wf_inflight (fold_left (fun acc v =>
    <[ifs_Seq v := mkInFlightEntry (ifs_Seq v) (ifs_Command v) (ifs_SentAt v) (ifs_Attempts v)]> acc)
    (snap_InFlight snap) acc)) as Hin.
  { induction Hf as [|v l Hv Hl IH]; intros acc Hacc; cbn; [done|]. apply IH.
    by apply map_Forall_insert_2. }
  specialize (Hin ∅ (map_Forall_empty _)). cbv zeta. case_match; split_and!; cbn; auto using wf_Restore.
Qed.

Lemma wf_Manager_Restore m : wf_manager m -> wf_manager (Manager_Restore m).2.
Proof.
  intros [Hm Hst]. unfold Manager_Restore. pose proof (ListSessions_contents (store m)) as Hc.
  destruct (ListSessions (store m)) as [r st] eqn:E. cbn in Hc.
  assert (wf_manager (with_store st m)) as Hw by (split; [done|by cbn; rewrite Hc]).
  destruct r as [l|e|]; [|done..]. apply ListSessions_ok in E.
  assert (Forall (fun snap => wf_snapshot (snap_ControllerID snap) snap) l) as Hl.
  { rewrite E. apply Forall_fmap, Forall_forall. intros [k x] Hx%elem_of_map_to_list. cbn.
    pose proof (Hst _ _ Hx) as Hwx. pose proof Hwx as [Hk _]. by rewrite Hk. }
  enough (forall m count, wf_manager m -> wf_manager (restoreLoop l m count).2) as Hl'.
  { specialize (Hl' _ 0 Hw). by destruct (restoreLoop l (with_store st m) 0). }
  clear -Hl. induction Hl as [|snap l Hs Hl IH]; intros m count Hm; cbn [restoreLoop]; [done|].
  case_match; apply IH; [done|]. apply wf_put; [done|]. by apply wf_restoreSession.
Qed.

Lemma wf_Create id conn now m : wf_manager m -> wf_manager (Create id conn now m).2.
Proof.
  intros Hm. unfold Create. destruct (sessions m !! id) as [s|] eqn:Es.
  - pose proof (wf_lookup _ _ _ Hm Es) as Hs. destruct (s_Conn s); [done|].
    assert (wf_session id (if BufferFree (set_LastSeen now (set_Conn (Some conn) s)) <=? 0
      then set_BufferFree 1500 (set_LastSeen now (set_Conn (Some conn) s))
      else set_LastSeen now (set_Conn (Some conn) s))) as Hs'.
    { case_match; by eapply (wf_session_eq id s). }
    pose proof (wf_putPersist id _ m Hm Hs') as Hw.
    destruct (putPersist _ _ _) as [[e|] m1]; [|done]. apply wf_put; [done|]. by eapply wf_session_eq.
  - case_match; [done|]. pose proof (wf_putPersist id _ m Hm (wf_newSession id (Some conn) now)) as Hw.
    destruct (putPersist _ _ _) as [[e|] m1]; [by apply wf_forget|done].
Qed.

Lemma wf_ProcessInFlight id now resolver visits m :
  wf_manager m -> wf_manager (ProcessInFlight id now resolver visits m).2.
Proof.
  intros Hm. unfold ProcessInFlight. destruct (sessions m !! id) as [s|] eqn:Es; [|done].
  pose proof (wf_lookup _ _ _ Hm Es) as (Hid & Hq & Hi & Hn).
  destruct (fold_left _ visits _) as [[q i] out] eqn:Ef.
  destruct (wf_processEntry _ _ _ _ _ _ _ _ _ _ Hq Hi Ef) as [Hq' Hi'].
  pose proof (wf_putPersist id (set_InFlight i (set_Queue q s)) m Hm) as Hw.
  destruct (putPersist _ _ _) as [e m1]. by apply Hw.
Qed.

Lemma wf_AckInFlight id seq m : wf_manager m -> wf_manager (AckInFlight id seq m).2.
Proof.
  intros Hm. unfold AckInFlight. destruct (sessions m !! id) as [s|] eqn:Es; [|done].
  destruct (InFlight s !! seq) as [e|] eqn:Ee; [|done].
  pose proof (wf_lookup _ _ _ Hm Es) as (Hid & Hq & Hi & Hn).
  assert (wf_session id (set_InFlight (delete seq (InFlight s)) s)) as Hs'.
  { split_and!; try done. by apply map_Forall_delete. }
  pose proof (wf_putPersist id _ m Hm Hs') as Hw.
  destruct (putPersist _ _ _) as [[err|] m1]; [|done]. apply wf_put; [done|]. cbn.
  rewrite insert_delete_id by done. by split_and!.
Qed.

Lemma wf_update id m (f : Session -> Session) :
  wf_manager m -> (forall s, wf_session id s -> wf_session id (f s)) ->
  wf_manager (match sessions m !! id with Some s => put id (f s) m | None => m end)
  /\ wf_manager (match sessions m !! id with Some s => putPersist id (f s) m | None => (None, m) end).2.
Proof.
  intros Hm Hf. destruct (sessions m !! id) as [s|] eqn:Es; [|done].
  pose proof (Hf s (wf_lookup _ _ _ Hm Es)). split; [by apply wf_put|by apply wf_putPersist].
Qed.

Lemma wf_RegisterInFlight id seq cmd sentAt m :
  okSeq seq -> wf_manager m -> wf_manager (RegisterInFlight id seq cmd sentAt m).2.
Proof.
  intros Hseq Hm. unfold RegisterInFlight. destruct (sessions m !! id) as [s|] eqn:Es; [|done].
  pose proof (wf_lookup _ _ _ Hm Es) as (Hid & Hq & Hi & Hn). apply wf_putPersist; [done|].
  split_and!; try done. by apply map_Forall_insert_2.
Qed.

Lemma wf_m_apply op m : wf_manager m -> wf_manager (m_apply op m).
Proof.
  intros Hm. destruct op as [id conn now|id|id now|id now|id cmd t0 t1 t2|id free|id b|id b|id mode|id|id
    |id seq cmd sentAt|id seq|id now resolver visits| |id op]; cbn [m_apply].
  - by apply wf_Create.
  - unfold Delete. destruct (wf_forget id m Hm) as [H1 H2]. split; [done|]. cbn in *.
    destruct (DeleteSession id (store m)) as [[e|] st] eqn:E; cbn.
    + by rewrite (DeleteSession_err _ _ _ _ E).
    + rewrite (DeleteSession_ok _ _ _ E). by apply map_Forall_delete.
  - by apply (wf_update id m (fun s => set_LastSeen now (set_Conn None s))).
  - unfold Touch. destruct (sessions m !! id) as [s|] eqn:Es; [|done].
    pose proof (wf_lookup _ _ _ Hm Es). case_match; [by apply wf_put|by apply wf_putPersist].
  - unfold EnqueueWithEvents. pose proof (wf_enqueueLocked id cmd t0 t1 t2 (Some []) m Hm) as Hw.
    by destruct (enqueueLocked _ _ _ _ _ _ _) as [[e ev] m1].
  - by apply (wf_update id m (set_BufferFree free)).
  - by apply (wf_update id m (set_FWMode b)).
  - by apply (wf_update id m (set_SyncMode b)).
  - by apply (wf_update id m (set_FrameMode mode)).
  - unfold AckSent. destruct (sessions m !! id) as [s|] eqn:Es; [|done].
    pose proof (wf_putPersist id s m Hm (wf_lookup _ _ _ Hm Es)) as Hw. unfold putPersist in Hw.
    replace (put id s m) with m in Hw; [done|]. unfold put, with_sessions. rewrite insert_id by done. by destruct m.
  - unfold NextCommandSeq. destruct (sessions m !! id) as [s|] eqn:Es; [|done].
    pose proof (wf_lookup _ _ _ Hm Es) as (Hid & Hq & Hi & Hn).
    pose proof (wf_putPersist id (set_NextSeq (u8 (NextSeq s + 1)) s) m Hm) as Hw.
    destruct (putPersist _ _ _) as [e m1]. apply Hw. split_and!; try done. apply okSeq_u8.
  - by apply wf_RegisterInFlight.
  - by apply wf_AckInFlight.
  - by apply wf_ProcessInFlight.
  - by apply wf_Manager_Restore.
  - unfold queueOp. destruct (sessions m !! id) as [s|] eqn:Es; [|done].
    pose proof (wf_lookup _ _ _ Hm Es) as Hs. pose proof (wf_q_step op (s_Queue s) (proj1 (proj2 Hs))) as Hq.
    destruct (q_step op (s_Queue s)) as [out q]. apply wf_put; [done|]. by apply wf_set_Queue.
Qed.

End Theorems.

Section Reachable.
Context `{MapRange} {S : Type} `{!Store S} `{!StoreLaws S}.

(** C21: in every manager reachable from a new one by any sequence of calls,
    whatever the store answers, sessions are filed under their ids, every
    queued command is in the buffer of its priority, in-flight commands are
    filed under their own one-byte sequence numbers, and the snapshots in the
    store are filed likewise. *)
Theorem manager_invariant (conns depth nbytes : Z) (policy : string) (st : S) (ops : list mop) :
  map_Forall (wf_snapshot is_u8) (contents st) ->
  wf_manager is_u8 (m_run ops (NewManager conns depth nbytes policy st)).
Proof.
  intros Hst. assert (wf_manager is_u8 (NewManager conns depth nbytes policy st)) as H0 by done.
  unfold m_run. revert H0. generalize (NewManager conns depth nbytes policy st) as m.
  induction ops as [|op ops IH]; intros m Hm; cbn; [done|]. by apply IH, (wf_m_apply is_u8 is_u8_u8).
Qed.

End Reachable.

(** ** Concrete runs *)

#[local] Existing Instance ascending.

(** A manager of at most two queued commands (or 60 bytes) per controller with
    one command queued for controller "A". *)
Definition demo : Manager InMemoryStore :=
  m_run [OEnqueue "A" (mkCommand "m1" "t1" "k1" 5 0 100 [1; 2; 3] "query" 0 0) 0 0 0]
    (NewManager 10 2 60 "drop_oldest" NewInMemoryStore).

Definition demo_cmd (message key : string) (created : Z) (n : nat) : Command :=
  mkCommand message "t" key 5 0 created (replicate n 7) "high" 0 0.

Lemma enqueue_accepted_witness :
  let c := demo_cmd "m2" "" 200 40 in
  let '(events, err, m') := EnqueueWithEvents "A" c 0 0 0 demo in
  err = None /\ length events = 1%nat
  /\ exists s' kept dropped, sessions m' !! "A" = Some s' /\ Snapshot (s_Queue s') ≡ₚ c :: kept
       /\ queued demo "A" ≡ₚ dropped ++ kept.
Proof.
  cbv zeta. destruct (EnqueueWithEvents "A" (demo_cmd "m2" "" 200 40) 0 0 0 demo) as [[events err] m'] eqn:E.
  assert (err = None) as ->
    by (change err with (events, err, m').1.2; rewrite <- E; by vm_compute).
  assert (length events = 1%nat) as Hl
    by (change events with (events, @None error, m').1.1; rewrite <- E; by vm_compute).
  split; [done|]. split; [done|].
  destruct (enqueue_accepted "A" _ 0 0 0 demo events m' E) as (s' & kept & dropped & ? & _ & ? & ? & _).
  by exists s', kept, dropped.
Defined.

Lemma enqueue_dedup_witness :
  let c1 := demo_cmd "m2" "key" 200 100 in
  let c2 := demo_cmd "m3" "key" 201 1 in
  let '(events, err, m1) := EnqueueWithEvents "A" c1 0 1000 1000 demo in
  err = Some ErrQueueBytesFull
  /\ EnqueueWithEvents "A" c2 0 2000 2000 m1 = ([], Some ErrDuplicate, m1).
Proof.
  cbv zeta. destruct (EnqueueWithEvents "A" (demo_cmd "m2" "key" 200 100) 0 1000 1000 demo) as [[events err] m'] eqn:E.
  assert (err = Some ErrQueueBytesFull) as ->
    by (change err with (events, err, m').1.2; rewrite <- E; by vm_compute).
  split; [done|].
  apply (enqueue_dedup "A" (demo_cmd "m2" "key" 200 100) (demo_cmd "m3" "key" 201 1) 0 1000 1000 0 2000 2000
    demo (Some ErrQueueBytesFull) events m'); [by vm_compute|done|done|exact E|done|by vm_compute].
Defined.


Lemma demo_wf : wf_manager is_u8 demo.
Proof. apply (wf_m_apply is_u8 is_u8_u8 (OEnqueue _ _ _ _ _)). done. Qed.

Lemma accepted_command_survives_restart_witness :
  let c := demo_cmd "m2" "" 200 10 in
  let m' := (EnqueueWithEvents "A" c 0 0 0 demo).2 in
  let m2 := (Manager_Restore (NewManager 5 5 500 "reject" (store m'))).2 in
  exists s', sessions m' !! "A" = Some s' /\ sessions m2 !! "A" = Some (resumed s')
    /\ c ∈ Snapshot (s_Queue (resumed s')).
Proof.
  intros c m' m2.
  apply (accepted_command_survives_restart is_u8 is_u8_u8 "A" c 0 0 0 demo [] m' 5 5 500 "reject" 1 m2 demo_wf);
    [done| |]; by vm_compute.
Defined.

(** A session with three commands in flight. *)
Definition demo_flying : Manager InMemoryStore :=
  m_run [ORegister "A" 1 (demo_cmd "f1" "" 0 1) 0;
         ORegister "A" 2 (mkCommand "f2" "t" "" 5 0 0 [] "query" 3 0) 0;
         ORegister "A" 3 (mkCommand "f3" "t" "" 5 (5 * second) 0 [] "query" 0 0) 0] demo.

Lemma ProcessInFlight_spec_witness :
  let '(out, err, m') := ProcessInFlight "A" (20 * second) None [3; 1; 1; 2] demo_flying in
  map o_Type out = ["expired"; "retrying"; "failed"] /\ NoDup (map o_Seq out).
Proof.
  destruct (ProcessInFlight "A" (20 * second) None [3; 1; 1; 2] demo_flying) as [[out err] m'] eqn:E.
  assert (map o_Type out = ["expired"; "retrying"; "failed"]) as Ho.
  { change out with (out, err, m').1.1. rewrite <- E. by vm_compute. }
  split; [exact Ho|].
  destruct (sessions demo_flying !! "A") as [s|] eqn:Es; [|by vm_compute in Es].
  destruct (ProcessInFlight_spec is_u8 "A" (20 * second) None [3; 1; 1; 2] demo_flying s) as
    (out' & err' & m2 & s' & E' & _ & _ & Hnd & _).
  - do 3 apply (wf_m_apply is_u8 is_u8_u8). exact demo_wf.
  - exact Es.
  - intros seq [e He]. assert (seq ∈ (map_to_list (InFlight s)).*1) as Hin.
    { apply list_elem_of_fmap. exists (seq, e). split; [done|]. by apply elem_of_map_to_list. }
    assert ((map_to_list (InFlight s)).*1 ≡ₚ [1; 2; 3]) as Hk.
    { replace (map_to_list (InFlight s)).*1 with
        (match sessions demo_flying !! "A" with Some x => (map_to_list (InFlight x)).*1 | None => [] end)
        by by rewrite Es.
      vm_compute. solve_Permutation. }
    rewrite Hk in Hin. clear -Hin. rewrite !elem_of_cons in *. tauto.
  - rewrite E in E'. injection E' as -> _ _. exact Hnd.
Defined.

Lemma AckInFlight_atomic_witness :
  let '(r, m') := AckInFlight "A" 1 demo_flying in
  r = Some (demo_cmd "f1" "" 0 1, 1) /\ exists s e, sessions demo_flying !! "A" = Some s
    /\ InFlight s !! 1 = Some e
    /\ sessions m' = <["A" := set_InFlight (delete 1 (InFlight s)) s]> (sessions demo_flying).
Proof.
  destruct (AckInFlight "A" 1 demo_flying) as [r m'] eqn:E.
  assert (r = Some (demo_cmd "f1" "" 0 1, 1)) as ->.
  { change r with (r, m').1. rewrite <- E. by vm_compute. }
  split; [done|].
  destruct (AckInFlight_atomic "A" 1 demo_flying _ m' E) as (s & e & ? & ? & _ & _ & ? & _). by exists s, e.
Defined.

Lemma manager_invariant_witness :
  wf_manager is_u8 (m_run [OEnqueue "A" (demo_cmd "m" "" 1 1) 0 0 0; ONextCommandSeq "A"; OTouch "A" 7; ORestore]
    (NewManager 1 2 60 "reject" (mkOutageStore true NewInMemoryStore))).
Proof. apply manager_invariant. done. Defined.

(** The connection limit is only enforced for controllers the manager has
    no session for: with a limit of one, a controller with a detached session
    (a command was queued for it) connects beside another. *)
Lemma reconnect_ignores_connection_limit :
  let m := m_run [OEnqueue "A" (demo_cmd "m" "" 1 1) 0 0 0;
                  OCreate "B" (mkConn 1 None) 10; OCreate "A" (mkConn 2 None) 11]
             (NewManager 1 2 60 "reject" NewInMemoryStore) in
  maxConns m = 1 /\ onlineConnectionsLocked m = 2
  /\ (Create "C" (mkConn 3 None) 12 m).1 = Some ErrMaxConns.
Proof. by vm_compute. Qed.
