(* ===== verification/RemoteHost.v ===== *)
(** * The host of a connection ([internal/server/server.go]: [connRemoteHost])

    The limits on connections and the blocks are kept per remote host, which is
    the remote address without its port.  [net.SplitHostPort] is modelled as the
    standard library has it; its errors are not told apart. *)

From S2P Require Import Prelude Format Queue Store Retry Session.

(** The position of the last occurrence of a byte, and of the first. *)
Fixpoint lastIndex (c : Z) (l : bytes) : option nat :=
  match l with
  | [] => None
  | b :: l' =>
      match lastIndex c l' with
      | Some i => Some (S i)
      | None => if b =? c then Some O else None
      end
  end.

Fixpoint firstIndex (c : Z) (l : bytes) : option nat :=
  match l with
  | [] => None
  | b :: l' => if b =? c then Some O else S <$> firstIndex c l'
  end.

Definition hasByte (c : Z) (l : bytes) : bool := existsb (Z.eqb c) l.

Definition errAddr : error := Errorf "invalid address" [].

(** [net.SplitHostPort]: colon is 58, brackets are 91 and 93. *)
Definition SplitHostPort (hostport : bytes) : res (bytes * bytes) :=
  match lastIndex 58 hostport with
  | None => Err errAddr
  | Some i =>
      '(host, j, k) ←
        (if bool_decide (head hostport = Some 91) then
           match firstIndex 93 hostport with
           | None => Err errAddr
           | Some stop =>
               if (stop + 1 =? i)%nat then Ok (take (stop - 1) (drop 1 hostport), 1%nat, (stop + 1)%nat) else Err errAddr
           end
         else
           let host := take i hostport in
           if hasByte 58 host then Err errAddr else Ok (host, O, O));
      if hasByte 91 (drop j hostport) then Err errAddr
      else if hasByte 93 (drop k hostport) then Err errAddr
      else Ok (host, drop (S i) hostport)
  end.

Definition connRemoteHost (conn : Conn) : string :=
  match conn_remote conn with
  | None => ""
  | Some remote =>
      match SplitHostPort (bytes_of_string remote) with
      | Ok (host, _) => string_of_bytes host
      | _ => remote
      end
  end.

(** ** The port does not matter *)

(** What a host may consist of: no colon and no brackets. *)
Definition plain (l : bytes) : Prop := Forall (fun b => b <> 58 /\ b <> 91 /\ b <> 93) l.

Lemma hasByte_false c l : hasByte c l = false <-> Forall (fun b => b <> c) l.
Proof.
  unfold hasByte. induction l as [|b l IH]; cbn; [done|]. rewrite orb_false_iff, IH, Z.eqb_neq, Forall_cons. naive_solver.
Qed.

Lemma lastIndex_none c l : Forall (fun b => b <> c) l -> lastIndex c l = None.
Proof. induction 1 as [|b l Hb Hl IH]; cbn; [done|]. by rewrite IH, (proj2 (Z.eqb_neq _ _) Hb). Qed.

Lemma lastIndex_app c l r : Forall (fun b => b <> c) r -> lastIndex c (l ++ c :: r) = Some (length l).
Proof.
  intros Hr. induction l as [|b l IH]; cbn; [|by rewrite IH]. by rewrite lastIndex_none, Z.eqb_refl.
Qed.

Lemma plain_without c l : plain l -> c = 58 \/ c = 91 \/ c = 93 -> Forall (fun b => b <> c) l.
Proof. intros Hl Hc. eapply Forall_impl; [exact Hl|]. naive_solver. Qed.

Lemma split_plain host port : plain host -> plain port -> SplitHostPort (host ++ 58 :: port) = Ok (host, port).
Proof.
  intros Hh Hp. unfold SplitHostPort. rewrite lastIndex_app by (by apply plain_without; [|tauto]).
  rewrite bool_decide_eq_false_2.
  2: { destruct host as [|b host]; cbn; [done|]. apply Forall_cons in Hh as [Hb _]. intros [= ->]. naive_solver. }
  rewrite take_app_length. rewrite (proj2 (hasByte_false 58 host)) by (by apply plain_without; [|tauto]).
  cbn [mbind res_bind]. rewrite !drop_0.
  assert (forall c, c = 91 \/ c = 93 -> hasByte c (host ++ 58 :: port) = false) as Hb.
  { intros c Hc. apply hasByte_false, Forall_app. split; [apply plain_without; [done|tauto]|].
    apply Forall_cons. split; [lia|]. apply plain_without; [done|tauto]. }
  rewrite !Hb by tauto. f_equal. f_equal. rewrite drop_app_ge by lia. by replace (S (length host) - length host)%nat with 1%nat by lia.
Qed.

(** Every connection from an address is counted under the same host, whatever
    its port; addresses with a bracketed host (IPv6) likewise. *)
Lemma connRemoteHost_plain (n : Z) (host port : string) :
  plain (bytes_of_string host) -> plain (bytes_of_string port) ->
  connRemoteHost (mkConn n (Some (host +:+ ":" +:+ port))) = host.
Proof.
  intros Hh Hp. unfold connRemoteHost. cbn [conn_remote].
  assert (forall s t, bytes_of_string (s +:+ t) = bytes_of_string s ++ bytes_of_string t) as Happ.
  { induction s as [|c s IH]; intros t; [done|]. change (String.String c s +:+ t) with (String.String c (s +:+ t)). cbn. by rewrite IH. }
  rewrite !Happ. change (bytes_of_string ":") with [58]. cbn [app].
  by rewrite split_plain, string_of_bytes_of_string.
Qed.

Example connRemoteHost_ipv6 : connRemoteHost (mkConn 1 (Some "[2001:db8::1]:40000")) = "2001:db8::1".
Proof. vm_compute. reflexivity. Qed.

Example connRemoteHost_bare : connRemoteHost (mkConn 1 (Some "2001:db8::1")) = "2001:db8::1".
Proof. vm_compute. reflexivity. Qed.
