(* ===== verification/Stats.v ===== *)
(** * Statistics of the sessions ([internal/session/manager.go]: [SnapshotStats],
      [TopQueueStats], [SessionStats])

    The reports the metrics and debug pages show.  They range over the map of
    sessions, whose order is unspecified; the theorems show that the reports do
    not depend on it. *)

From Stdlib Require Import Sorting.Sorted.
From stdpp Require Import sorting.
From S2P Require Import Prelude Queue Store Sort Session.

Record Stats := mkStats {
  st_SessionCount : Z;
  st_QueueDepthSum : Z;
  st_QueueDepthMax : Z;
  st_QueueBytesSum : Z;
  st_QueueBytesMax : Z;
  st_InFlightCountSum : Z;
  st_InFlightCountMax : Z;
  st_OnlineSessionCount : Z
}.

Record ControllerQueueStat := mkQueueStat {
  qs_ControllerID : string;
  qs_QueueDepth : Z;
  qs_QueueBytes : Z;
  qs_InFlight : Z;
  qs_Online : bool;
  qs_LastSeen : Z
}.

Record ControllerSessionStat := mkSessionStat {
  ss_ControllerID : string;
  ss_RemoteAddr : string;
  ss_QueueDepth : Z;
  ss_QueueBytes : Z;
  ss_InFlight : Z;
  ss_Online : bool;
  ss_LastSeen : Z;
  ss_BufferFree : Z;
  ss_FWMode : bool;
  ss_SyncMode : bool;
  ss_NextSeq : Z
}.

(** ** One session *)

Definition online_ (s : Session) : bool := if s_Conn s then true else false.

Definition queueDepth (s : Session) : Z := Len (s_Queue s).
Definition queueBytes (s : Session) : Z := TotalEstimatedBytes (s_Queue s).
Definition inFlightLen (s : Session) : Z := Z.of_nat (size (InFlight s)).

(** [if v > max { max = v }]. *)
Definition raise (max v : Z) : Z := if max <? v then v else max.

(** The loop body of [SnapshotStats]. *)
Definition addStats (st : Stats) (s : Session) : Stats :=
  let depth := queueDepth s in
  let bytes := queueBytes s in
  let inFlight := inFlightLen s in
  mkStats (st_SessionCount st)
    (st_QueueDepthSum st + depth) (raise (st_QueueDepthMax st) depth)
    (st_QueueBytesSum st + bytes) (raise (st_QueueBytesMax st) bytes)
    (st_InFlightCountSum st + inFlight) (raise (st_InFlightCountMax st) inFlight)
    (st_OnlineSessionCount st + if online_ s then 1 else 0).

Definition queueStat (s : Session) : ControllerQueueStat :=
  mkQueueStat (ControllerID s) (queueDepth s) (queueBytes s) (inFlightLen s) (online_ s) (LastSeen s).

(** The remote address of the connection; a connection may have none. *)
Definition sessionStat (s : Session) : ControllerSessionStat :=
  let remote := match s_Conn s with Some c => default "" (conn_remote c) | None => "" end in
  mkSessionStat (ControllerID s) remote (queueDepth s) (queueBytes s) (inFlightLen s) (online_ s) (LastSeen s)
    (BufferFree s) (FWMode s) (SyncMode s) (NextSeq s).

(** ** The reports *)

(** Longest queue first, then most in flight, then by id. *)
Definition queueStatLess : ControllerQueueStat -> ControllerQueueStat -> bool :=
  byDesc qs_QueueDepth (byDesc qs_InFlight (byName qs_ControllerID)).

(** Connected first, then longest queue, then seen last, then by id. *)
Definition sessionStatLess : ControllerSessionStat -> ControllerSessionStat -> bool :=
  byDesc (fun x => Z.b2z (ss_Online x)) (byDesc ss_QueueDepth (byDesc ss_LastSeen (byName ss_ControllerID))).

Section Stats.
Context `{MapRange} {S : Type}.

Definition allSessions (m : Manager S) : list Session := (map_range (sessions m)).*2.

Definition SnapshotStats (m : Manager S) : Stats :=
  fold_left addStats (allSessions m) (mkStats (SessionCount m) 0 0 0 0 0 0 0).

Definition TopQueueStats (limit : Z) (m : Manager S) : list ControllerQueueStat :=
  let limit := if limit <=? 0 then 20 else limit in
  let out := sortSlice queueStatLess (map queueStat (allSessions m)) in
  if limit <? len out then take (Z.to_nat limit) out else out.

Definition SessionStats (limit : Z) (m : Manager S) : list ControllerSessionStat :=
  let out := sortSlice sessionStatLess (map sessionStat (allSessions m)) in
  if (0 <? limit) && (limit <? len out) then take (Z.to_nat limit) out else out.

End Stats.

(** ** Lemmas *)

Section Reports.
Context {S : Type}.
Implicit Types m : Manager S.

(** Every session is filed under its id. *)
Definition keyed m : Prop := map_Forall (fun id s => ControllerID s = id) (sessions m).

Lemma allSessions_perm (r1 r2 : MapRange) m : @allSessions r1 S m ≡ₚ @allSessions r2 S m.
Proof. unfold allSessions. by rewrite (@map_range_perm r1), (@map_range_perm r2). Qed.

Lemma allSessions_elem (r : MapRange) m s : s ∈ @allSessions r S m -> exists id, sessions m !! id = Some s.
Proof.
  unfold allSessions. rewrite map_range_perm. intros ([id s'] & -> & Hin%elem_of_map_to_list)%list_elem_of_fmap. by exists id.
Qed.

(** Two sessions with the same id are the same session. *)
Lemma keyed_inj (r : MapRange) m s1 s2 :
  keyed m -> s1 ∈ @allSessions r S m -> s2 ∈ @allSessions r S m -> ControllerID s1 = ControllerID s2 -> s1 = s2.
Proof.
  intros Hk (i1 & H1)%allSessions_elem (i2 & H2)%allSessions_elem He.
  pose proof (Hk _ _ H1). pose proof (Hk _ _ H2). congruence.
Qed.

Lemma addStats_swap st s1 s2 : addStats (addStats st s1) s2 = addStats (addStats st s2) s1.
Proof.
  unfold addStats. cbn. unfold raise. f_equal; try lia; repeat case_match; lia.
Qed.

Lemma SnapshotStats_any (r1 r2 : MapRange) m : @SnapshotStats r1 S m = @SnapshotStats r2 S m.
Proof.
  unfold SnapshotStats. generalize (mkStats (SessionCount m) 0 0 0 0 0 0 0).
  induction (allSessions_perm r1 r2 m) as [|x l1 l2 _ IH|x y l|l1 l2 l3 _ IH1 _ IH2]; intros st; cbn.
  - done.
  - apply IH.
  - by rewrite addStats_swap.
  - by rewrite IH1.
Qed.

(** Sorting reports about keyed sessions. *)
Lemma sorted_reports_any (r1 r2 : MapRange) m {A} (stat : Session -> A) (name : A -> string) less `{!WeakOrder less} :
  keyed m -> (forall s, name (stat s) = ControllerID s) ->
  (forall a b, less a b = false -> less b a = false -> name a = name b) ->
  sortSlice less (map stat (@allSessions r1 S m)) = sortSlice less (map stat (@allSessions r2 S m)).
Proof.
  intros Hk Hname Htotal. apply sortSlice_unique; [done| | |by apply sortSlice_sorted].
  - rewrite sortSlice_perm. by rewrite (allSessions_perm r1 r2).
  - intros a b (s1 & -> & Hs1)%list_elem_of_fmap (s2 & -> & Hs2)%list_elem_of_fmap H1 H2. f_equal.
    apply (keyed_inj r1 m); [done..|]. rewrite <- !Hname. by apply Htotal.
Qed.

Lemma queueStatLess_total a b :
  queueStatLess a b = false -> queueStatLess b a = false -> qs_ControllerID a = qs_ControllerID b.
Proof. intros H1 H2. destruct (byDesc_total _ _ _ _ H1 H2) as [H3 H4]. destruct (byDesc_total _ _ _ _ H3 H4). by apply byName_total. Qed.

Lemma sessionStatLess_total a b :
  sessionStatLess a b = false -> sessionStatLess b a = false -> ss_ControllerID a = ss_ControllerID b.
Proof.
  intros H1 H2. destruct (byDesc_total _ _ _ _ H1 H2) as [H3 H4]. destruct (byDesc_total _ _ _ _ H3 H4) as [H5 H6].
  destruct (byDesc_total _ _ _ _ H5 H6). by apply byName_total.
Qed.

(** C37: the reports do not depend on the order in which Go ranges over the map
    of sessions: for any two orders, the counters, the list of longest queues
    and the list of sessions are the same. *)
Theorem reports_deterministic (r1 r2 : MapRange) m limit :
  keyed m ->
  @SnapshotStats r1 S m = @SnapshotStats r2 S m
  /\ @TopQueueStats r1 S limit m = @TopQueueStats r2 S limit m
  /\ @SessionStats r1 S limit m = @SessionStats r2 S limit m.
Proof.
  intros Hk. unfold TopQueueStats, SessionStats.
  rewrite (sorted_reports_any r1 r2 m queueStat qs_ControllerID queueStatLess Hk (fun _ => eq_refl) queueStatLess_total).
  rewrite (sorted_reports_any r1 r2 m sessionStat ss_ControllerID sessionStatLess Hk (fun _ => eq_refl) sessionStatLess_total).
  split; [apply SnapshotStats_any|done].
Qed.

End Reports.

(** The report is the top of the list: what is shown is a sorted part of the
    sessions' statistics, as long as the limit allows, and nothing that is left
    out has a longer queue than anything shown. *)
Lemma TopQueueStats_top `{MapRange} {S} limit (m : Manager S) :
  let n := Z.to_nat (if limit <=? 0 then 20 else limit) in
  exists rest, TopQueueStats limit m ++ rest ≡ₚ map queueStat (allSessions m)
    /\ length (TopQueueStats limit m) = Nat.min n (length (allSessions m))
    /\ StronglySorted (not_after queueStatLess) (TopQueueStats limit m)
    /\ forall a b, a ∈ TopQueueStats limit m -> b ∈ rest -> qs_QueueDepth b <= qs_QueueDepth a.
Proof.
  cbv zeta. unfold TopQueueStats. set (lim := if limit <=? 0 then 20 else limit).
  assert (0 < lim) as Hlim by (unfold lim; destruct (Z.leb_spec limit 0); lia).
  set (out := sortSlice queueStatLess _). assert (StronglySorted (not_after queueStatLess) out) as Hs by apply sortSlice_sorted, _.
  assert (out ≡ₚ map queueStat (allSessions m)) as Hp by apply sortSlice_perm.
  assert (length out = length (allSessions m)) as Hl by by rewrite Hp, length_map.
  exists (drop (Z.to_nat lim) out).
  assert ((if lim <? len out then take (Z.to_nat lim) out else out) = take (Z.to_nat lim) out) as ->.
  { destruct (Z.ltb_spec lim (len out)) as [|Hge]; [done|]. rewrite take_ge; [done|]. unfold len in Hge. lia. }
  rewrite take_drop, length_take, Hl. split_and!; [done|done| |].
  - rewrite <- (take_drop (Z.to_nat lim) out) in Hs. by apply StronglySorted_app_1_l in Hs.
  - intros a b Ha Hb. pose proof (sorted_take_before _ _ _ _ _ Hs Ha Hb) as Hless. unfold queueStatLess, byDesc in Hless.
    destruct (Z.eqb_spec (qs_QueueDepth b) (qs_QueueDepth a)); cbn in Hless; lia.
Qed.

(** ** A concrete run *)

(** The reverse of an order of ranging. *)
#[refine] Definition descending : MapRange :=
  {| map_range := fun K V _ _ m => reverse (map_to_list m) |}.
Proof. intros. apply reverse_Permutation. Defined.

Definition demo_manager : Manager InMemoryStore :=
  let _ := ascending in
  let m := (Create "B" (mkConn 1 (Some "10.0.0.7:1")) 5 (NewManager 10 100 100000 "reject" NewInMemoryStore)).2 in
  (Create "A" (mkConn 2 None) 7 m).2.

Lemma reports_deterministic_witness :
  map ss_ControllerID (@SessionStats descending _ 0 demo_manager) = ["A"; "B"]
  /\ @SessionStats ascending _ 0 demo_manager = @SessionStats descending _ 0 demo_manager.
Proof.
  split; [vm_compute; reflexivity|].
  apply (reports_deterministic ascending descending demo_manager 0).
  intros id s Hs. assert (ControllerID <$> sessions demo_manager !! id = Some id) as He; [|rewrite Hs in He; by injection He].
  assert (id = "A" \/ id = "B") as [-> | ->]; [|vm_compute; reflexivity..].
  assert (map_to_list (ControllerID <$> sessions demo_manager) = [("A", "A"); ("B", "B")]) as Hl by (vm_compute; reflexivity).
  assert ((id, ControllerID s) ∈ map_to_list (ControllerID <$> sessions demo_manager)) as Hin.
  { apply elem_of_map_to_list. by rewrite lookup_fmap, Hs. }
  rewrite Hl in Hin. set_solver.
Defined.
