(* ===== verification/Config.v ===== *)
(** * Configuration ([internal/config/config.go])

    [Load] reads the environment and refuses configurations the server cannot
    run with.  The environment is a function; [strconv.Atoi],
    [time.ParseDuration] and [strconv.ParseBool] are arguments, of which only
    that they are partial functions of the string is used. *)

From S2P Require Import Prelude Retry.

Record Config := {
  cfg_ListenAddr : string;
  cfg_MetricsAddr : string;
  cfg_RegistrationWindow : Z;
  cfg_HeartbeatTimeout : Z;
  cfg_MaxConnections : Z;
  cfg_MaxConnectionsPerIP : Z;
  cfg_IPViolationWindow : Z;
  cfg_IPViolationLimit : Z;
  cfg_IPBlockDuration : Z;
  cfg_MaxQueueDepth : Z;
  cfg_MaxQueueBytes : Z;
  cfg_QueueOverflow : string;
  cfg_AckTimeout : Z;
  cfg_RetryBackoff : Z;
  cfg_MaxRetries : Z;
  cfg_AckTimeoutQuery : Z;
  cfg_RetryBackoffQuery : Z;
  cfg_MaxRetriesQuery : Z;
  cfg_AckTimeoutSync : Z;
  cfg_RetryBackoffSync : Z;
  cfg_MaxRetriesSync : Z;
  cfg_AckTimeoutFW : Z;
  cfg_RetryBackoffFW : Z;
  cfg_MaxRetriesFW : Z;
  cfg_SweepInterval : Z;
  cfg_WriteTimeout : Z;
  cfg_ReadTimeout : Z;
  cfg_DebugLogs : bool;
  cfg_StoreBackend : string;
  cfg_StateFile : string;
  cfg_PostgresDSN : string
}.

Section Load.
Variable Getenv : string -> string.
Variable Atoi : string -> option Z.
Variable ParseDuration : string -> option Z.
Variable ParseBool : string -> option bool.

Definition envOrDefault (key fallback : string) : string :=
  if negb (String.eqb (Getenv key) "") then Getenv key else fallback.

Definition envIntOrDefault (key : string) (fallback : Z) : Z :=
  if String.eqb (Getenv key) "" then fallback else
  match Atoi (Getenv key) with Some n => n | None => fallback end.

Definition envDurationOrDefault (key : string) (fallback : Z) : Z :=
  if String.eqb (Getenv key) "" then fallback else
  match ParseDuration (Getenv key) with Some d => d | None => fallback end.

Definition envBoolOrDefault (key : string) (fallback : bool) : bool :=
  if String.eqb (Getenv key) "" then fallback else
  match ParseBool (Getenv key) with Some b => b | None => fallback end.

Definition loadEnv : Config :=
  {|
     cfg_ListenAddr := envOrDefault "TCPADAPTER_LISTEN_ADDR" ":15010";
     cfg_MetricsAddr := envOrDefault "TCPADAPTER_METRICS_ADDR" ":18080";
     cfg_RegistrationWindow := envDurationOrDefault "TCPADAPTER_REG_WINDOW" (5 * second);
     cfg_HeartbeatTimeout := envDurationOrDefault "TCPADAPTER_HEARTBEAT_TIMEOUT" (30 * second);
     cfg_MaxConnections := envIntOrDefault "TCPADAPTER_MAX_CONNECTIONS" 10000;
     cfg_MaxConnectionsPerIP := envIntOrDefault "TCPADAPTER_MAX_CONNECTIONS_PER_IP" 0;
     cfg_IPViolationWindow := envDurationOrDefault "TCPADAPTER_IP_VIOLATION_WINDOW" (30 * second);
     cfg_IPViolationLimit := envIntOrDefault "TCPADAPTER_IP_VIOLATION_LIMIT" 10;
     cfg_IPBlockDuration := envDurationOrDefault "TCPADAPTER_IP_BLOCK_DURATION" (1 * minute);
     cfg_MaxQueueDepth := envIntOrDefault "TCPADAPTER_QUEUE_MAX_DEPTH" 1000;
     cfg_MaxQueueBytes := envIntOrDefault "TCPADAPTER_QUEUE_MAX_BYTES" 1048576;
     cfg_QueueOverflow := envOrDefault "TCPADAPTER_QUEUE_OVERFLOW" "drop_oldest";
     cfg_AckTimeout := envDurationOrDefault "TCPADAPTER_ACK_TIMEOUT" (10 * second);
     cfg_RetryBackoff := envDurationOrDefault "TCPADAPTER_RETRY_BACKOFF" (3 * second);
     cfg_MaxRetries := envIntOrDefault "TCPADAPTER_MAX_RETRIES" 3;
     cfg_AckTimeoutQuery := envDurationOrDefault "TCPADAPTER_ACK_TIMEOUT_QUERY" (2 * second);
     cfg_RetryBackoffQuery := envDurationOrDefault "TCPADAPTER_RETRY_BACKOFF_QUERY" (1 * second);
     cfg_MaxRetriesQuery := envIntOrDefault "TCPADAPTER_MAX_RETRIES_QUERY" 2;
     cfg_AckTimeoutSync := envDurationOrDefault "TCPADAPTER_ACK_TIMEOUT_SYNC" (15 * second);
     cfg_RetryBackoffSync := envDurationOrDefault "TCPADAPTER_RETRY_BACKOFF_SYNC" (5 * second);
     cfg_MaxRetriesSync := envIntOrDefault "TCPADAPTER_MAX_RETRIES_SYNC" 1;
     cfg_AckTimeoutFW := envDurationOrDefault "TCPADAPTER_ACK_TIMEOUT_FW" (20 * second);
     cfg_RetryBackoffFW := envDurationOrDefault "TCPADAPTER_RETRY_BACKOFF_FW" (3 * second);
     cfg_MaxRetriesFW := envIntOrDefault "TCPADAPTER_MAX_RETRIES_FW" 3;
     cfg_SweepInterval := envDurationOrDefault "TCPADAPTER_SWEEP_INTERVAL" (2 * second);
     cfg_WriteTimeout := envDurationOrDefault "TCPADAPTER_WRITE_TIMEOUT" (10 * second);
     cfg_ReadTimeout := envDurationOrDefault "TCPADAPTER_READ_TIMEOUT" (35 * second);
     cfg_DebugLogs := envBoolOrDefault "TCPADAPTER_DEBUG" false;
     cfg_StoreBackend := envOrDefault "TCPADAPTER_STORE_BACKEND" "file";
     cfg_StateFile := envOrDefault "TCPADAPTER_STATE_FILE" ".data/sessions.json";
     cfg_PostgresDSN := envOrDefault "TCPADAPTER_POSTGRES_DSN" ""
  |}.

Definition Load : res Config :=
  let cfg := loadEnv in
  _ ← fail_if (cfg_MaxConnections cfg <=? 0) (Errorf "TCPADAPTER_MAX_CONNECTIONS must be > 0" []);
  _ ← fail_if (cfg_MaxConnectionsPerIP cfg <? 0) (Errorf "TCPADAPTER_MAX_CONNECTIONS_PER_IP must be >= 0" []);
  _ ← fail_if (cfg_IPViolationLimit cfg <? 0) (Errorf "TCPADAPTER_IP_VIOLATION_LIMIT must be >= 0" []);
  _ ← fail_if ((0 <? cfg_IPViolationLimit cfg) && (cfg_IPViolationWindow cfg <=? 0))
        (Errorf "TCPADAPTER_IP_VIOLATION_WINDOW must be > 0 when TCPADAPTER_IP_VIOLATION_LIMIT > 0" []);
  _ ← fail_if ((0 <? cfg_IPViolationLimit cfg) && (cfg_IPBlockDuration cfg <=? 0))
        (Errorf "TCPADAPTER_IP_BLOCK_DURATION must be > 0 when TCPADAPTER_IP_VIOLATION_LIMIT > 0" []);
  _ ← fail_if ((cfg_RegistrationWindow cfg <=? 0) || (cfg_HeartbeatTimeout cfg <=? 0))
        (Errorf "timeouts must be > 0" []);
  _ ← fail_if (cfg_MaxQueueDepth cfg <=? 0) (Errorf "TCPADAPTER_QUEUE_MAX_DEPTH must be > 0" []);
  _ ← fail_if (cfg_MaxQueueBytes cfg <=? 0) (Errorf "TCPADAPTER_QUEUE_MAX_BYTES must be > 0" []);
  _ ← fail_if (negb (String.eqb (cfg_QueueOverflow cfg) "drop_oldest")
               && negb (String.eqb (cfg_QueueOverflow cfg) "reject"))
        (Errorf "TCPADAPTER_QUEUE_OVERFLOW must be one of: drop_oldest, reject" []);
  _ ← fail_if ((cfg_AckTimeout cfg <=? 0) || (cfg_RetryBackoff cfg <? 0))
        (Errorf "TCPADAPTER_ACK_TIMEOUT must be > 0 and TCPADAPTER_RETRY_BACKOFF must be >= 0" []);
  _ ← fail_if (cfg_MaxRetries cfg <? 0) (Errorf "TCPADAPTER_MAX_RETRIES must be >= 0" []);
  _ ← fail_if ((cfg_AckTimeoutQuery cfg <=? 0) || (cfg_RetryBackoffQuery cfg <? 0) || (cfg_MaxRetriesQuery cfg <? 0))
        (Errorf "invalid query retry policy config" []);
  _ ← fail_if ((cfg_AckTimeoutSync cfg <=? 0) || (cfg_RetryBackoffSync cfg <? 0) || (cfg_MaxRetriesSync cfg <? 0))
        (Errorf "invalid sync retry policy config" []);
  _ ← fail_if ((cfg_AckTimeoutFW cfg <=? 0) || (cfg_RetryBackoffFW cfg <? 0) || (cfg_MaxRetriesFW cfg <? 0))
        (Errorf "invalid fw retry policy config" []);
  _ ← fail_if (cfg_SweepInterval cfg <=? 0) (Errorf "TCPADAPTER_SWEEP_INTERVAL must be > 0" []);
  _ ← fail_if (negb (String.eqb (cfg_StoreBackend cfg) "memory") && negb (String.eqb (cfg_StoreBackend cfg) "file")
               && negb (String.eqb (cfg_StoreBackend cfg) "postgres"))
        (Errorf "TCPADAPTER_STORE_BACKEND must be one of: memory, file, postgres" []);
  _ ← fail_if (String.eqb (cfg_StoreBackend cfg) "file" && String.eqb (cfg_StateFile cfg) "")
        (Errorf "TCPADAPTER_STATE_FILE is required when TCPADAPTER_STORE_BACKEND=file" []);
  _ ← fail_if (String.eqb (cfg_StoreBackend cfg) "postgres" && String.eqb (cfg_PostgresDSN cfg) "")
        (Errorf "TCPADAPTER_POSTGRES_DSN is required when TCPADAPTER_STORE_BACKEND=postgres" []);
  Ok cfg.

End Load.

(** What the rest of the server relies on. *)
Definition runnable (cfg : Config) : Prop :=
  0 < cfg_MaxConnections cfg /\ 0 <= cfg_MaxConnectionsPerIP cfg /\ 0 <= cfg_IPViolationLimit cfg
  /\ (0 < cfg_IPViolationLimit cfg -> 0 < cfg_IPViolationWindow cfg /\ 0 < cfg_IPBlockDuration cfg)
  /\ 0 < cfg_RegistrationWindow cfg /\ 0 < cfg_HeartbeatTimeout cfg
  /\ 0 < cfg_MaxQueueDepth cfg /\ 0 < cfg_MaxQueueBytes cfg
  /\ (cfg_QueueOverflow cfg = "drop_oldest" \/ cfg_QueueOverflow cfg = "reject")
  /\ 0 < cfg_AckTimeout cfg /\ 0 <= cfg_RetryBackoff cfg /\ 0 <= cfg_MaxRetries cfg
  /\ 0 < cfg_AckTimeoutQuery cfg /\ 0 <= cfg_RetryBackoffQuery cfg /\ 0 <= cfg_MaxRetriesQuery cfg
  /\ 0 < cfg_AckTimeoutSync cfg /\ 0 <= cfg_RetryBackoffSync cfg /\ 0 <= cfg_MaxRetriesSync cfg
  /\ 0 < cfg_AckTimeoutFW cfg /\ 0 <= cfg_RetryBackoffFW cfg /\ 0 <= cfg_MaxRetriesFW cfg
  /\ 0 < cfg_SweepInterval cfg
  /\ (cfg_StoreBackend cfg = "memory"
      \/ (cfg_StoreBackend cfg = "file" /\ cfg_StateFile cfg <> "")
      \/ (cfg_StoreBackend cfg = "postgres" /\ cfg_PostgresDSN cfg <> "")).

Lemma Load_ok Getenv Atoi ParseDuration ParseBool cfg :
  Load Getenv Atoi ParseDuration ParseBool = Ok cfg <->
  cfg = loadEnv Getenv Atoi ParseDuration ParseBool /\ runnable cfg.
Proof.
  unfold Load. set (c := loadEnv _ _ _ _). clearbody c. unfold runnable.
  rewrite !bind_unit_ok, !fail_if_ok, !orb_false_iff, !andb_false_iff, !negb_false_iff, !String.eqb_eq,
    !String.eqb_neq, !Z.leb_gt, !Z.ltb_ge, (inj_iff Ok).
  split.
  - intros H. destruct_and!. subst cfg. split; [done|]. split_and!; try lia; try tauto.
  - intros [-> H]. destruct_and!. split_and!; try lia; try tauto; try done.
    all: intuition congruence.
Qed.

(** [Load] succeeds exactly when the environment, with its defaults,
    describes a runnable configuration, and then returns it; in particular an
    empty environment loads. *)
Lemma Load_exact (Getenv : string -> string) (Atoi ParseDuration : string -> option Z)
    (ParseBool : string -> option bool) :
  (forall cfg, Load Getenv Atoi ParseDuration ParseBool = Ok cfg <->
    cfg = loadEnv Getenv Atoi ParseDuration ParseBool /\ runnable cfg)
  /\ ((forall key, Getenv key = "") -> exists cfg, Load Getenv Atoi ParseDuration ParseBool = Ok cfg).
Proof.
  split; [apply Load_ok|]. intros Hempty. eexists. apply Load_ok. split; [reflexivity|].
  unfold loadEnv, envOrDefault, envIntOrDefault, envDurationOrDefault, envBoolOrDefault.
  rewrite !Hempty. unfold runnable, minute, second. cbn. split_and!; try lia; try tauto.
  right; left. done.
Qed.

Lemma Load_exact_witness :
  exists cfg, Load (fun _ => "") (fun _ => None) (fun _ => None) (fun _ => None) = Ok cfg.
Proof.
  apply (proj2 (Load_exact (fun _ => "") (fun _ => None) (fun _ => None) (fun _ => None))). done.
Defined.
