(* ===== verification/Policy.v ===== *)
(** * Command policy ([internal/server/command_policy.go])

    The priority every command is normalised to, the commands allowed while a
    firmware update or a synchronisation is in progress, and the delivery
    policy (timeouts and retries) of each class of commands. *)

From S2P Require Import Prelude Queue Store Retry Session Config.

Definition canonicalPriority : gmap Z string := list_to_map
  [(1, PriorityHigh); (2, PriorityHigh); (3, PriorityHigh); (5, PriorityHigh);
   (6, PriorityQuery); (7, PriorityQuery); (8, PriorityHigh); (9, PriorityQuery);
   (10, PriorityQuery); (11, PriorityQuery); (12, PrioritySync); (13, PrioritySync);
   (14, PrioritySync); (15, PrioritySync); (16, PrioritySync); (17, PriorityHigh);
   (18, PriorityHigh); (19, PriorityHigh); (20, PriorityFW); (21, PriorityQuery);
   (22, PriorityQuery); (23, PriorityHigh); (24, PriorityHigh); (25, PriorityQuery);
   (27, PriorityQuery)].

Definition canonicalPriorityForCommand (commandID : Z) : option string := canonicalPriority !! commandID.

Definition set_Priority (p : string) (c : Command) : Command :=
  mkCommand (cmd_MessageID c) (cmd_TraceID c) (cmd_DedupKey c) (cmd_CommandID c) (cmd_TTL c)
    (cmd_CreatedAt c) (cmd_Payload c) p (cmd_Attempts c) (cmd_RetrySeq c).

Definition normalizeCommandPriority (cmd : Command) : res Command :=
  match canonicalPriorityForCommand (cmd_CommandID cmd) with
  | None => Err (Errorf "unsupported command id: %d" [AZ (cmd_CommandID cmd)])
  | Some p => Ok (set_Priority p cmd)
  end.

Definition commandAllowedInModes (commandID : Z) (fwMode syncMode : bool) : bool :=
  if fwMode then
    if commandID =? 20 then true else
    match canonicalPriorityForCommand commandID with
    | Some p => String.eqb p PriorityHigh
    | None => false
    end
  else if syncMode then
    if (12 <=? commandID) && (commandID <=? 16) then true else
    switch commandID [([2; 3; 17; 18; 19; 20; 23], false)]
      (match canonicalPriorityForCommand commandID with
       | None => false
       | Some p => String.eqb p PriorityHigh
       end)
  else true.

Definition CmdFWStart : Z := 19.
Definition CmdFWBlock : Z := 20.

Definition mergeDeliveryPolicy (base specific : DeliveryPolicy) : DeliveryPolicy :=
  if (p_AckTimeout specific =? 0) && (p_RetryBackoff specific =? 0) && (p_MaxRetries specific =? 0)
  then base else
  mkDeliveryPolicy
    (if 0 <? p_AckTimeout specific then p_AckTimeout specific else p_AckTimeout base)
    (if 0 <=? p_RetryBackoff specific then p_RetryBackoff specific else p_RetryBackoff base)
    (if 0 <=? p_MaxRetries specific then p_MaxRetries specific else p_MaxRetries base).

Definition deliveryPolicyForCommand (cfg : Config) (_ : string) (cmd : Command) : DeliveryPolicy :=
  let base := mkDeliveryPolicy
    (if cfg_AckTimeout cfg <=? 0 then 10 * second else cfg_AckTimeout cfg)
    (cfg_RetryBackoff cfg)
    (if cfg_MaxRetries cfg <? 0 then 0 else cfg_MaxRetries cfg) in
  if String.eqb (cmd_Priority cmd) PriorityQuery then
    mergeDeliveryPolicy base
      (mkDeliveryPolicy (cfg_AckTimeoutQuery cfg) (cfg_RetryBackoffQuery cfg) (cfg_MaxRetriesQuery cfg))
  else if String.eqb (cmd_Priority cmd) PrioritySync then
    mergeDeliveryPolicy base
      (mkDeliveryPolicy (cfg_AckTimeoutSync cfg) (cfg_RetryBackoffSync cfg) (cfg_MaxRetriesSync cfg))
  else if (cmd_CommandID cmd =? CmdFWStart) || (cmd_CommandID cmd =? CmdFWBlock)
          || String.eqb (cmd_Priority cmd) PriorityFW then
    mergeDeliveryPolicy base
      (mkDeliveryPolicy (cfg_AckTimeoutFW cfg) (cfg_RetryBackoffFW cfg) (cfg_MaxRetriesFW cfg))
  else base.

(** ** Lemmas *)

(** The command table, as a finite case analysis. *)
Lemma canonicalPriority_cases id p :
  canonicalPriorityForCommand id = Some p ->
  (p = PriorityHigh /\ id ∈ [1; 2; 3; 5; 8; 17; 18; 19; 23; 24])
  \/ (p = PriorityFW /\ id = 20)
  \/ (p = PrioritySync /\ id ∈ [12; 13; 14; 15; 16])
  \/ (p = PriorityQuery /\ id ∈ [6; 7; 9; 10; 11; 21; 22; 25; 27]).
Proof.
  unfold canonicalPriorityForCommand, canonicalPriority.
  intros H%elem_of_list_to_map_2. rewrite !elem_of_cons in *.
  repeat match goal with H : _ \/ _ |- _ => destruct H as [H|H]; [injection H as -> ->; tauto|] end.
  by apply not_elem_of_nil in H.
Qed.

(** A command as [EnqueueCommand] stores it. *)
Definition canonical (c : Command) : Prop :=
  canonicalPriorityForCommand (cmd_CommandID c) = Some (cmd_Priority c).

Lemma normalizeCommandPriority_canonical cmd cmd' :
  normalizeCommandPriority cmd = Ok cmd' ->
  canonical cmd' /\ cmd_CommandID cmd' = cmd_CommandID cmd /\ cmd_Payload cmd' = cmd_Payload cmd
  /\ cmd_DedupKey cmd' = cmd_DedupKey cmd /\ cmd_MessageID cmd' = cmd_MessageID cmd.
Proof.
  unfold normalizeCommandPriority, canonical. destruct (canonicalPriorityForCommand _) eqn:E; [|done].
  by intros [= <-].
Qed.

(** The mode filter only holds back what it must.  For normalised commands,
    among those a poll can return in a mode: outside the modes and in firmware
    mode every polled command may be sent; in synchronisation mode the
    synchronisation commands may, and of the high-priority ones exactly reboot,
    factory reset, the checksum requests, firmware start and set-time may not. *)
Lemma commandAllowedInModes_spec (c : Command) (fwMode syncMode : bool) :
  canonical c -> class_of c ∈ eligible fwMode syncMode ->
  commandAllowedInModes (cmd_CommandID c) fwMode syncMode = true <->
  (fwMode = true \/ syncMode = false \/ cmd_CommandID c ∉ [2; 3; 17; 18; 19; 23]).
Proof.
  intros Hc He. unfold canonical in Hc.
  assert (forall x l, x ∈ (l : list Z) <-> existsb (Z.eqb x) l = true) as Hel.
  { intros x l. rewrite existsb_exists. setoid_rewrite Z.eqb_eq. rewrite list_elem_of_In. naive_solver. }
  destruct fwMode; [|destruct syncMode].
  - split; [by left|]. intros _. unfold commandAllowedInModes. rewrite Hc.
    destruct (canonicalPriority_cases _ _ Hc) as [[Hp _]|[[Hp Hi]|[[Hp _]|[Hp _]]]].
    + rewrite Hp. by destruct (_ =? 20).
    + by rewrite Hi.
    + unfold class_of in He. rewrite Hp in He. cbn in He. by rewrite !elem_of_cons, elem_of_nil in He; naive_solver.
    + unfold class_of in He. rewrite Hp in He. cbn in He. by rewrite !elem_of_cons, elem_of_nil in He; naive_solver.
  - trans (cmd_CommandID c ∉ [2; 3; 17; 18; 19; 23]); [|naive_solver].
    unfold commandAllowedInModes. rewrite Hc, Hel.
    destruct (canonicalPriority_cases _ _ Hc) as [[Hp Hi]|[[Hp Hi]|[[Hp Hi]|[Hp Hi]]]].
    + rewrite Hp. rewrite !elem_of_cons, elem_of_nil in Hi.
      repeat match goal with H : _ \/ _ |- _ => destruct H as [H|H]; [rewrite H; cbn; naive_solver|] end. done.
    + unfold class_of in He. rewrite Hp in He. cbn in He. by rewrite !elem_of_cons, elem_of_nil in He; naive_solver.
    + rewrite !elem_of_cons, elem_of_nil in Hi.
      repeat match goal with H : _ \/ _ |- _ => destruct H as [H|H]; [rewrite H; cbn; naive_solver|] end. done.
    + unfold class_of in He. rewrite Hp in He. cbn in He. by rewrite !elem_of_cons, elem_of_nil in He; naive_solver.
  - cbn. naive_solver.
Qed.

Lemma commandAllowedInModes_spec_witness :
  let c := mkCommand "m" "t" "" 23 0 1 [0; 0; 0; 0] PriorityHigh 0 0 in
  canonical c /\ class_of c ∈ eligible false true
  /\ commandAllowedInModes (cmd_CommandID c) false true = false.
Proof.
  intros c. assert (canonical c) as Hc by (by vm_compute).
  assert (class_of c ∈ eligible false true) as He by (by vm_compute; left).
  split; [exact Hc|]. split; [exact He|].
  destruct (commandAllowedInModes (cmd_CommandID c) false true) eqn:E; [|done]. exfalso.
  destruct (proj1 (commandAllowedInModes_spec c false true Hc He) E) as [?|[?|Hn]]; [done|done|].
  apply Hn. cbn. set_solver.
Defined.

(** Under every configuration [Load] accepts, each command gets a usable
    delivery policy: a positive acknowledgement timeout, a non-negative backoff
    and a non-negative number of retries, taken from the profile of its class
    (query, sync, firmware start and blocks) and from the general one for the
    other commands; the manager's own fallbacks are then never used. *)
Lemma deliveryPolicyForCommand_spec (cfg : Config) (id : string) (c : Command) :
  runnable cfg -> canonical c ->
  let p := deliveryPolicyForCommand cfg id c in
  0 < p_AckTimeout p /\ 0 <= p_RetryBackoff p /\ 0 <= p_MaxRetries p
  /\ entryPolicy id (Some (deliveryPolicyForCommand cfg)) c = p
  /\ p = match class_of c with
         | Query => mkDeliveryPolicy (cfg_AckTimeoutQuery cfg) (cfg_RetryBackoffQuery cfg) (cfg_MaxRetriesQuery cfg)
         | Sync => mkDeliveryPolicy (cfg_AckTimeoutSync cfg) (cfg_RetryBackoffSync cfg) (cfg_MaxRetriesSync cfg)
         | FW => mkDeliveryPolicy (cfg_AckTimeoutFW cfg) (cfg_RetryBackoffFW cfg) (cfg_MaxRetriesFW cfg)
         | High => if decide (cmd_CommandID c = CmdFWStart)
                   then mkDeliveryPolicy (cfg_AckTimeoutFW cfg) (cfg_RetryBackoffFW cfg) (cfg_MaxRetriesFW cfg)
                   else mkDeliveryPolicy (cfg_AckTimeout cfg) (cfg_RetryBackoff cfg) (cfg_MaxRetries cfg)
         end.
Proof.
  intros Hr Hc p. unfold runnable in Hr. destruct_and!.
  assert (forall b a r n, 0 < a -> 0 <= r -> 0 <= n ->
    mergeDeliveryPolicy b (mkDeliveryPolicy a r n) = mkDeliveryPolicy a r n) as Hmerge.
  { intros b a r n ???. unfold mergeDeliveryPolicy. cbn.
    rewrite (proj2 (Z.eqb_neq a 0)), (proj2 (Z.ltb_lt 0 a)), (proj2 (Z.leb_le 0 r)), (proj2 (Z.leb_le 0 n)) by lia.
    done. }
  assert (p = match class_of c with
         | Query => mkDeliveryPolicy (cfg_AckTimeoutQuery cfg) (cfg_RetryBackoffQuery cfg) (cfg_MaxRetriesQuery cfg)
         | Sync => mkDeliveryPolicy (cfg_AckTimeoutSync cfg) (cfg_RetryBackoffSync cfg) (cfg_MaxRetriesSync cfg)
         | FW => mkDeliveryPolicy (cfg_AckTimeoutFW cfg) (cfg_RetryBackoffFW cfg) (cfg_MaxRetriesFW cfg)
         | High => if decide (cmd_CommandID c = CmdFWStart)
                   then mkDeliveryPolicy (cfg_AckTimeoutFW cfg) (cfg_RetryBackoffFW cfg) (cfg_MaxRetriesFW cfg)
                   else mkDeliveryPolicy (cfg_AckTimeout cfg) (cfg_RetryBackoff cfg) (cfg_MaxRetries cfg)
         end) as Hp.
  { subst p. unfold deliveryPolicyForCommand, class_of. rewrite !Hmerge by done.
    rewrite (proj2 (Z.leb_gt (cfg_AckTimeout cfg) 0)), (proj2 (Z.ltb_ge (cfg_MaxRetries cfg) 0)) by lia.
    destruct (canonicalPriority_cases _ _ Hc) as [[-> Hi]|[[-> ->]|[[-> _]|[-> _]]]]; cbn; try done.
    rewrite !elem_of_cons, elem_of_nil in Hi.
    repeat match goal with H : _ \/ _ |- _ => destruct H as [H|H]; [by rewrite H|] end. done. }
  assert (0 < p_AckTimeout p /\ 0 <= p_RetryBackoff p /\ 0 <= p_MaxRetries p) as Hpos.
  { rewrite Hp. destruct (class_of c); [destruct (decide _)|..]; cbn; lia. }
  split_and!; try tauto. unfold entryPolicy. fold p.
  rewrite (proj2 (Z.leb_gt (p_AckTimeout p) 0)), (proj2 (Z.ltb_ge (p_MaxRetries p) 0)) by lia. by destruct p.
Qed.

(** The configuration of an empty environment. *)
Definition default_config : Config :=
  loadEnv (fun _ => "") (fun _ => None) (fun _ => None) (fun _ => None).

Lemma default_config_runnable : runnable default_config.
Proof.
  apply (Load_ok (fun _ => "") (fun _ => None) (fun _ => None) (fun _ => None)). by vm_compute.
Qed.

Lemma deliveryPolicyForCommand_spec_witness :
  let c := mkCommand "m" "t" "" 13 0 1 [] PrioritySync 0 0 in
  runnable default_config /\ canonical c
  /\ deliveryPolicyForCommand default_config "A" c = mkDeliveryPolicy (15 * second) (5 * second) 1.
Proof.
  intros c. assert (canonical c) as Hc by (by vm_compute).
  split; [exact default_config_runnable|]. split; [exact Hc|].
  apply (deliveryPolicyForCommand_spec default_config "A" c default_config_runnable Hc).
Defined.
