(* ===== verification/IPGuard.v ===== *)
(** * Admission of connections ([internal/server/server.go]: the accept loop of
      [Run], [tryTrackConn], [untrackConn], [isIPBlocked], [registerIPViolation])

    The tables the connection mutex protects: the tracked connections, their
    number per remote host, and the violations and blocks per host.  The host of
    a connection ([connRemoteHost]) is an argument. *)

From Stdlib Require Import Sorting.Sorted.
From stdpp Require Import sorting.
From S2P Require Import Prelude Retry Store Session Config.

(** A zero [blockedTil] is [None]. *)
Record ipSecurityState := mkIPSec { violations : list Z; blockedTil : option Z }.

Record Guard := mkGuard {
  active : Z;
  conns : list Conn;
  ipConnCount : gmap string Z;
  ipSec : gmap string ipSecurityState;
  ipViolationTotal : Z;
  ipBlockedRejectTotal : Z;
  ipPerIPRejectTotal : Z;
  ipBlockAppliedTotal : Z
}.

Definition newGuard : Guard := mkGuard 0 [] ∅ ∅ 0 0 0 0.

Definition with_conns cs cnt g :=
  mkGuard (active g) cs cnt (ipSec g) (ipViolationTotal g) (ipBlockedRejectTotal g) (ipPerIPRejectTotal g) (ipBlockAppliedTotal g).
Definition with_active a g :=
  mkGuard a (conns g) (ipConnCount g) (ipSec g) (ipViolationTotal g) (ipBlockedRejectTotal g) (ipPerIPRejectTotal g) (ipBlockAppliedTotal g).
Definition with_ipSec sec g :=
  mkGuard (active g) (conns g) (ipConnCount g) sec (ipViolationTotal g) (ipBlockedRejectTotal g) (ipPerIPRejectTotal g) (ipBlockAppliedTotal g).
Definition with_totals v b p a g :=
  mkGuard (active g) (conns g) (ipConnCount g) (ipSec g) v b p a.

Section Guard.
Variable cfg : Config.
Variable connRemoteHost : Conn -> string.

Definition countOf (host : string) (g : Guard) : Z := default 0 (ipConnCount g !! host).

Definition tryTrackConn (conn : Conn) (g : Guard) : bool * Guard :=
  let host := connRemoteHost conn in
  if (0 <? cfg_MaxConnectionsPerIP cfg) && (cfg_MaxConnectionsPerIP cfg <=? countOf host g)
  then (false, g)
  else (true, with_conns (conn :: remove Conn_eq_dec conn (conns g))
                (<[host := countOf host g + 1]> (ipConnCount g)) g).

Definition untrackConn (conn : Conn) (g : Guard) : Guard :=
  let host := connRemoteHost conn in
  let cs := remove Conn_eq_dec conn (conns g) in
  match ipConnCount g !! host with
  | Some n => with_conns cs (if n <=? 1 then delete host (ipConnCount g) else <[host := n - 1]> (ipConnCount g)) g
  | None => with_conns cs (ipConnCount g) g
  end.

Definition isIPBlocked (host : string) (now : Z) (g : Guard) : bool * Guard :=
  if cfg_IPViolationLimit cfg <=? 0 then (false, g) else
  match ipSec g !! host with
  | None => (false, g)
  | Some st =>
      match blockedTil st with
      | None => (false, g)
      | Some til =>
          if now <? til then (true, g)
          else (false, with_ipSec (<[host := mkIPSec [] None]> (ipSec g)) g)
      end
  end.

Definition registerIPViolation (host : string) (now : Z) (g : Guard) : Guard :=
  if (cfg_IPViolationLimit cfg <=? 0) || String.eqb host "" then g else
  let g := with_totals (u64 (ipViolationTotal g + 1)) (ipBlockedRejectTotal g) (ipPerIPRejectTotal g)
             (ipBlockAppliedTotal g) g in
  let st := default (mkIPSec [] None) (ipSec g !! host) in
  let cutoff := now - cfg_IPViolationWindow cfg in
  let keep := filter (fun ts => cutoff < ts) (violations st) in
  let vs := keep ++ [now] in
  if cfg_IPViolationLimit cfg <=? len vs
  then with_totals (ipViolationTotal g) (ipBlockedRejectTotal g) (ipPerIPRejectTotal g)
         (u64 (ipBlockAppliedTotal g + 1))
         (with_ipSec (<[host := mkIPSec [] (Some (now + cfg_IPBlockDuration cfg))]> (ipSec g)) g)
  else with_ipSec (<[host := mkIPSec vs (blockedTil st)]> (ipSec g)) g.

(** The accept loop's body for an accepted connection: whether it is handled. *)
Definition acceptConn (conn : Conn) (now : Z) (g : Guard) : bool * Guard :=
  if cfg_MaxConnections cfg <=? active g then (false, g) else
  match isIPBlocked (connRemoteHost conn) now g with
  | (true, g) =>
      (false, with_totals (ipViolationTotal g) (u64 (ipBlockedRejectTotal g + 1)) (ipPerIPRejectTotal g)
                (ipBlockAppliedTotal g) g)
  | (false, g) =>
      match tryTrackConn conn g with
      | (false, g) =>
          (false, with_totals (ipViolationTotal g) (ipBlockedRejectTotal g) (u64 (ipPerIPRejectTotal g + 1))
                    (ipBlockAppliedTotal g) g)
      | (true, g) => (true, with_active (active g + 1) g)
      end
  end.

(** The deferred block of [handleConn]. *)
Definition releaseConn (conn : Conn) (g : Guard) : Guard := untrackConn conn (with_active (active g - 1) g).

(** ** Steps

    A connection is accepted while it is not tracked (the listener returns a
    new one) and released once, by its handler. *)
Inductive guard_step : Guard -> Guard -> Prop :=
  | step_accept conn now g : conn ∉ conns g -> guard_step g (acceptConn conn now g).2
  | step_release conn g : conn ∈ conns g -> guard_step g (releaseConn conn g)
  | step_violation host now g : guard_step g (registerIPViolation host now g).

Definition from_host (host : string) (g : Guard) : Z :=
  len (filter (fun c => connRemoteHost c = host) (conns g)).

(** The tables agree: the counters count the tracked connections, and both
    limits hold. *)
Definition guard_ok (g : Guard) : Prop :=
  NoDup (conns g) /\ active g = len (conns g) /\ active g <= Z.max 0 (cfg_MaxConnections cfg)
  /\ (forall host, ipConnCount g !! host =
        if decide (from_host host g = 0) then None else Some (from_host host g))
  /\ (0 < cfg_MaxConnectionsPerIP cfg -> forall host, from_host host g <= cfg_MaxConnectionsPerIP cfg).

(** ** Lemmas *)

(** The part of the tables [guard_ok] is about. *)
Lemma guard_ok_eq g g' :
  guard_ok g -> active g' = active g -> conns g' = conns g -> ipConnCount g' = ipConnCount g -> guard_ok g'.
Proof. unfold guard_ok, from_host. intros H -> -> ->. done. Qed.

Lemma isIPBlocked_tables host now g :
  active (isIPBlocked host now g).2 = active g /\ conns (isIPBlocked host now g).2 = conns g
  /\ ipConnCount (isIPBlocked host now g).2 = ipConnCount g.
Proof. unfold isIPBlocked. repeat case_match; done. Qed.

Lemma remove_notin (c : Conn) l : c ∉ l -> remove Conn_eq_dec c l = l.
Proof. intros H. apply notin_remove. by rewrite <- list_elem_of_In. Qed.

Lemma remove_split (c : Conn) l1 l2 :
  NoDup (l1 ++ c :: l2) -> remove Conn_eq_dec c (l1 ++ c :: l2) = l1 ++ l2.
Proof.
  intros (_ & Hn & Hnd)%NoDup_app. apply NoDup_cons in Hnd as [H2 _].
  rewrite remove_app. cbn. destruct (Conn_eq_dec c c); [|done].
  rewrite !remove_notin; [done|done|]. intros H1. apply (Hn c H1). left.
Qed.

Lemma countOf_from_host host g : guard_ok g -> countOf host g = from_host host g.
Proof.
  intros (_ & _ & _ & Hc & _). unfold countOf. rewrite Hc. case_decide; cbn; lia.
Qed.

Lemma accept_ok conn now g : guard_ok g -> conn ∉ conns g -> guard_ok (acceptConn conn now g).2.
Proof.
  intros Hg Hfresh. unfold acceptConn. destruct (Z.leb_spec (cfg_MaxConnections cfg) (active g)) as [|Hmax]; [done|].
  destruct (isIPBlocked_tables (connRemoteHost conn) now g) as (Ha & Hco & Hcnt).
  destruct (isIPBlocked (connRemoteHost conn) now g) as [b g1]. cbn in Ha, Hco, Hcnt.
  assert (guard_ok g1) as Hg1 by by apply (guard_ok_eq g).
  destruct b; [by apply (guard_ok_eq g1)|]. unfold tryTrackConn. rewrite countOf_from_host by done.
  destruct (_ && _) eqn:Eper; [by apply (guard_ok_eq g1)|].
  destruct Hg1 as (Hnd & Hact & Hm & Hc & Hper). rewrite remove_notin by by rewrite Hco.
  set (g2 := (_, _).2). change g2 with (with_active (active g1 + 1) (with_conns (conn :: conns g1)
    (<[connRemoteHost conn := from_host (connRemoteHost conn) g1 + 1]> (ipConnCount g1)) g1)). clear g2.
  set (g2 := with_active _ _).
  assert (forall h, from_host h g2 = from_host h g1 + if decide (connRemoteHost conn = h) then 1 else 0) as Hfh.
  { intros h. unfold from_host. change (conns g2) with (conn :: conns g1).
    rewrite filter_cons. case_decide; unfold len; cbn [length]; lia. }
  split_and!.
  - change (conns g2) with (conn :: conns g1). apply NoDup_cons. by rewrite Hco in *.
  - change (conns g2) with (conn :: conns g1). change (active g2) with (active g1 + 1).
    unfold len in *. cbn [length]. lia.
  - change (active g2) with (active g1 + 1). lia.
  - intros h. rewrite Hfh. change (ipConnCount g2)
      with (<[connRemoteHost conn := from_host (connRemoteHost conn) g1 + 1]> (ipConnCount g1)).
    assert (0 <= from_host h g1) by (unfold from_host, len; lia).
    destruct (decide (connRemoteHost conn = h)) as [<-|Hne].
    + rewrite lookup_insert_eq, decide_False by lia. done.
    + rewrite lookup_insert_ne, Hc by done. by rewrite Z.add_0_r.
  - intros Hpos h. rewrite Hfh. specialize (Hper Hpos h).
    destruct (decide (connRemoteHost conn = h)) as [<-|]; lia.
Qed.

Lemma release_ok conn g : guard_ok g -> conn ∈ conns g -> guard_ok (releaseConn conn g).
Proof.
  intros (Hnd & Hact & Hm & Hc & Hper) Hin.
  apply list_elem_of_split in Hin as (l1 & l2 & Hl). rewrite Hl in Hnd.
  set (g2 := releaseConn conn g).
  assert (conns g2 = l1 ++ l2) as Hl2.
  { unfold g2, releaseConn, untrackConn. case_match; cbn; by rewrite Hl, remove_split. }
  assert (forall h, from_host h g = from_host h g2 + if decide (connRemoteHost conn = h) then 1 else 0) as Hfh.
  { intros h. unfold from_host. rewrite Hl, Hl2, !filter_app, filter_cons. unfold len.
    case_decide; rewrite !length_app; cbn [length]; lia. }
  assert (forall h, 0 <= from_host h g2) as Hpos2 by (intros; unfold from_host, len; lia).
  assert (forall h, ipConnCount g2 !! h = if decide (from_host h g2 = 0) then None else Some (from_host h g2)) as Hc2.
  { intros h. unfold g2 at 1, releaseConn, untrackConn. cbn [ipConnCount with_active].
    rewrite (Hc (connRemoteHost conn)). pose proof (Hfh (connRemoteHost conn)) as Hh.
    rewrite decide_True in Hh by done. pose proof (Hpos2 (connRemoteHost conn)).
    rewrite (decide_False (P := from_host (connRemoteHost conn) g = 0)) by lia. cbn [ipConnCount with_conns].
    destruct (decide (connRemoteHost conn = h)) as [<-|Hne].
    - destruct (Z.leb_spec (from_host (connRemoteHost conn) g) 1).
      + by rewrite lookup_delete_eq, decide_True by lia.
      + rewrite lookup_insert_eq, decide_False by lia. f_equal. lia.
    - specialize (Hfh h). rewrite decide_False, Z.add_0_r in Hfh by done. rewrite <- Hfh, <- Hc.
      destruct (_ <=? 1); [by apply lookup_delete_ne|by apply lookup_insert_ne]. }
  assert (active g2 = active g - 1) as Ha2 by (unfold g2, releaseConn, untrackConn; by case_match).
  split_and!; try done.
  - rewrite Hl2. apply NoDup_app in Hnd as (? & Hn & [? ?]%NoDup_cons).
    apply NoDup_app. split_and!; try done. intros x Hx ?. apply (Hn x Hx). by right.
  - rewrite Ha2, Hact, Hl, Hl2. unfold len. rewrite !length_app. cbn. lia.
  - lia.
  - intros Hp h. specialize (Hper Hp h). rewrite Hfh in Hper. case_decide; lia.
Qed.

Lemma violation_ok host now g : guard_ok g -> guard_ok (registerIPViolation host now g).
Proof. intros Hg. apply (guard_ok_eq g); [done|..]; unfold registerIPViolation; repeat case_match; done. Qed.

Lemma guard_ok_new : guard_ok newGuard.
Proof.
  split_and!; cbn; try done; [constructor|lia|]. intros ? ?. unfold from_host, len. cbn. lia.
Qed.

(** The connection tables stay exact: in every state reachable by
    accepting, releasing and reporting violations, the per-host counters count
    the tracked connections (with no entry for a host without any), the active
    counter counts them all, and neither the total nor the per-host limit is
    exceeded. *)
Lemma guard_invariant (g : Guard) : rtc guard_step newGuard g -> guard_ok g.
Proof.
  intros H. pose proof guard_ok_new as H0. revert H0. induction H as [g|g g1 g2 Hs _ IH]; intros H0; [done|]. apply IH.
  destruct Hs; [by apply accept_ok|by apply release_ok|by apply violation_ok].
Qed.

(** ** When a host is blocked *)

Definition registerAll (host : string) (ts : list Z) (g : Guard) : Guard :=
  fold_left (fun g t => registerIPViolation host t g) ts g.

(** The violations among [ts] that are still in the window at [now]. *)
Definition recent (ts : list Z) (now : Z) : list Z :=
  filter (fun t => now - cfg_IPViolationWindow cfg < t) ts.

(** No violation of [ts] was the one too many. *)
Definition quiet (ts : list Z) : Prop :=
  forall a t b, ts = a ++ t :: b -> len (recent a t) + 1 < cfg_IPViolationLimit cfg.

Lemma recent_recent ts t now : t <= now -> recent (recent ts t) now = recent ts now.
Proof.
  intros Ht. unfold recent. rewrite list_filter_filter. apply list_filter_iff. intros x. lia.
Qed.

(** One violation after [ts], of which [vs] is a part that still has all the
    recent ones. *)
Lemma register_step host now g ts vs :
  0 < cfg_IPViolationLimit cfg -> host <> "" ->
  ipSec g !! host = Some (mkIPSec vs None) \/ (ipSec g !! host = None /\ vs = []) ->
  recent vs now = recent ts now ->
  ipSec (registerIPViolation host now g) !! host =
    Some (if decide (cfg_IPViolationLimit cfg <= len (recent ts now) + 1)
          then mkIPSec [] (Some (now + cfg_IPBlockDuration cfg))
          else mkIPSec (recent ts now ++ [now]) None).
Proof.
  intros Hl Hh Hst Hr. unfold registerIPViolation.
  rewrite (proj2 (Z.leb_gt _ _)), (proj2 (String.eqb_neq _ _)) by done. cbn [orb ipSec with_totals].
  assert (default (mkIPSec [] None) (ipSec g !! host) = mkIPSec vs None) as ->.
  { destruct Hst as [->|[-> ->]]; done. }
  cbn [violations blockedTil]. fold (recent vs now). rewrite Hr.
  replace (len (recent ts now ++ [now])) with (len (recent ts now) + 1) by (unfold len; rewrite length_app; cbn; lia).
  destruct (Z.leb_spec (cfg_IPViolationLimit cfg) (len (recent ts now) + 1)).
  - rewrite decide_True by done. cbn. apply lookup_insert_eq.
  - rewrite decide_False by lia. cbn. apply lookup_insert_eq.
Qed.

Lemma recent_snoc ts t now : t <= now -> recent (recent ts t ++ [t]) now = recent (ts ++ [t]) now.
Proof. intros Ht. unfold recent at 1 3. rewrite !filter_app. by f_equal; apply recent_recent. Qed.

(** While violations stay quiet, the host's table holds what is recent. *)
Lemma registerAll_quiet host ts g :
  0 < cfg_IPViolationLimit cfg -> host <> "" -> ipSec g !! host = None ->
  quiet ts -> StronglySorted Z.le ts ->
  exists vs, (ipSec (registerAll host ts g) !! host = Some (mkIPSec vs None)
              \/ (ipSec (registerAll host ts g) !! host = None /\ vs = []))
    /\ forall now, Forall (fun t => t <= now) ts -> recent vs now = recent ts now.
Proof.
  intros Hl Hh Hg. induction ts as [|t ts IH] using rev_ind; intros Hq Hs.
  { exists []. split; [by right|done]. }
  assert (quiet ts) as Hq'. { intros a x b ->. apply (Hq a x (b ++ [t])). by rewrite <- app_assoc. }
  apply StronglySorted_app in Hs as (Hle & Hs & _).
  destruct (IH Hq' Hs) as (vs & Hst & Hr).
  assert (Forall (fun x => x <= t) ts) as Hts.
  { apply Forall_forall. intros x Hx. apply Hle; [done|left]. }
  unfold registerAll. rewrite fold_left_app. cbn [fold_left]. fold (registerAll host ts g).
  pose proof (register_step host t (registerAll host ts g) ts vs Hl Hh Hst (Hr t Hts)) as ->.
  specialize (Hq ts t [] eq_refl). rewrite decide_False by lia.
  exists (recent ts t ++ [t]). split; [by left|]. intros now Hnow.
  rewrite Forall_app, Forall_singleton in Hnow. apply recent_snoc, Hnow.
Qed.

Lemma isIPBlocked_entry host now g st :
  0 < cfg_IPViolationLimit cfg -> ipSec g !! host = Some st ->
  (isIPBlocked host now g).1 = match blockedTil st with Some til => now <? til | None => false end.
Proof.
  intros Hl Hst. unfold isIPBlocked. rewrite (proj2 (Z.leb_gt _ _)), Hst by done.
  destruct (blockedTil st) as [til|]; [|done]. by destruct (now <? til).
Qed.

(** C35: a host is blocked exactly at the violation that makes the number of
    its violations within the window reach the limit, and then for exactly the
    block duration: for violations in time order none of which reached the
    limit, the host is not blocked; one more violation blocks it until the
    block duration has passed if it is the limit-th in the window, and leaves it
    unblocked otherwise. *)
Theorem ip_block_exact (host : string) (ts : list Z) (now : Z) (g : Guard) :
  0 < cfg_IPViolationLimit cfg -> host <> "" -> ipSec g !! host = None ->
  quiet ts -> StronglySorted Z.le (ts ++ [now]) ->
  let g1 := registerAll host ts g in
  let g2 := registerIPViolation host now g1 in
  (forall t, (isIPBlocked host t g1).1 = false)
  /\ (forall t, (isIPBlocked host t g2).1 =
        if decide (cfg_IPViolationLimit cfg <= len (recent ts now) + 1)
        then t <? now + cfg_IPBlockDuration cfg else false).
Proof.
  intros Hl Hh Hg Hq (Hle & Hs & _)%StronglySorted_app g1 g2.
  destruct (registerAll_quiet host ts g Hl Hh Hg Hq Hs) as (vs & Hst & Hr). fold g1 in Hst. split.
  - intros t. destruct Hst as [Hst|[Hst _]]; [by rewrite (isIPBlocked_entry _ _ _ _ Hl Hst)|].
    unfold isIPBlocked. by rewrite (proj2 (Z.leb_gt _ _)), Hst.
  - intros t. assert (Forall (fun x => x <= now) ts) as Hts.
    { apply Forall_forall. intros x Hx. apply Hle; [done|left]. }
    pose proof (register_step host now g1 ts vs Hl Hh Hst (Hr now Hts)) as Hsec.
    rewrite (isIPBlocked_entry _ _ _ _ Hl Hsec). by destruct (decide _).
Qed.

End Guard.

(** ** Concrete runs *)

Definition demo_host (c : Conn) : string := default "" (conn_remote c).

Lemma guard_invariant_witness :
  let cfg := loadEnv (fun _ => "") (fun _ => None) (fun _ => None) (fun _ => None) in
  let c := mkConn 1 (Some "10.0.0.1") in
  let g := (acceptConn cfg demo_host c 5 newGuard).2 in
  conns g = [c] /\ guard_ok cfg demo_host g.
Proof.
  intros cfg c g. split; [by vm_compute|]. apply guard_invariant.
  apply rtc_once. apply step_accept. cbn. set_solver.
Defined.

Lemma ip_block_exact_witness :
  let cfg := loadEnv (fun key => if String.eqb key "TCPADAPTER_IP_VIOLATION_LIMIT" then "2" else "")
               (fun s => if String.eqb s "2" then Some 2 else None) (fun _ => None) (fun _ => None) in
  cfg_IPViolationLimit cfg = 2
  /\ (isIPBlocked cfg "10.0.0.1" (3 * second)
        (registerIPViolation cfg "10.0.0.1" (2 * second)
          (registerAll cfg "10.0.0.1" [second] newGuard))).1 = true.
Proof.
  intros cfg. split; [by vm_compute|].
  refine (eq_trans (proj2 (ip_block_exact cfg "10.0.0.1" [second] (2 * second) newGuard _ _ _ _ _) (3 * second)) _).
  - by vm_compute.
  - done.
  - done.
  - intros a t b Heq. destruct a as [|? [|]]; cbn in Heq; simplify_eq. by vm_compute.
  - repeat constructor; by vm_compute.
  - by vm_compute.
Defined.
