(* ===== verification/Metrics.v ===== *)
(** * Counters and debug records ([internal/server/observability.go], [server.go];
      the events of [internal/kafka/kafka.go])

    What the server counts and remembers about its own work: acknowledgements by
    status and reason, latencies, telemetry, overflows, and the two bounded
    logs behind the debug pages.  Durations are nanoseconds: a latency in
    seconds is compared with the histogram's bounds in the source, which orders
    durations of whole nanoseconds as the integers here do.  The sum of
    latencies, a float64 number of seconds in the source, is the exact sum of
    the durations here: the source's value is this one up to rounding. *)

From stdpp Require Import pretty.
From S2P Require Import Prelude Format Retry Frame Queue Store Session Config.

(** ** Data *)

Record AckEvent := mkAckEvent {
  ev_MessageID : string;
  ev_TraceID : string;
  ev_ControllerID : string;
  ev_CommandID : Z;
  ev_CommandSeq : Z;
  ev_Status : string;
  ev_Reason : string
}.

Record TelemetryEvent := mkTelemetryEvent {
  tel_ControllerID : string;
  tel_CommandID : Z;
  tel_TraceID : string;
  tel_Payload : bytes
}.

Record DebugEvent := mkDebugEvent {
  de_Timestamp : Z;
  de_Kind : string;
  de_ControllerID : string;
  de_RemoteAddr : string;
  de_CommandID : Z;
  de_CommandSeq : Z;
  de_MessageID : string;
  de_TraceID : string;
  de_Status : string;
  de_Reason : string;
  de_PayloadLen : Z
}.

Record RawDebugMessage := mkRawDebugMessage {
  rm_Timestamp : Z;
  rm_Direction : string;
  rm_ControllerID : string;
  rm_RemoteAddr : string;
  rm_CommandID : Z;
  rm_CommandSeq : Z;
  rm_FrameMode : FrameMode;
  rm_TTL : Z;
  rm_RawHex : string;
  rm_PayloadHex : string;
  rm_PayloadLen : Z;
  rm_MessageID : string;
  rm_TraceID : string
}.

Record Metrics := mkMetrics {
  ackStats : gmap string Z;
  ackTerminalReasonStats : gmap string Z;
  ackLatencyBucketCounts : list Z;
  ackLatencyCount : Z;
  ackLatencySum : Z;
  telemetryStats : gmap string Z;
  ovfStats : gmap string Z;
  debugEvents : list DebugEvent;
  rawMessages : list RawDebugMessage
}.

Definition ackLatencyBounds : list Z :=
  [second / 10; second / 2; second; 2 * second; 5 * second; 10 * second; 30 * second; 60 * second].

Definition newMetrics : Metrics := mkMetrics ∅ ∅ (replicate (length ackLatencyBounds) 0) 0 0 ∅ ∅ [] [].

(** ** Acknowledgements *)

Definition isTerminalAckStatus (status : string) : bool :=
  existsb (String.eqb status) ["delivered"; "failed"; "expired"; "unsupported"; "duplicate"].

Definition semicolon : Z := 59.
Definition colon : Z := 58.
Definition comma : Z := 44.
Definition equals : Z := 61.

Definition normalizeReasonLabel (reason : string) : string :=
  let r := TrimSpace (bytes_of_string reason) in
  if bool_decide (r = []) then "unspecified" else
  let i := IndexByte semicolon r in
  let r := if 0 <? i then TrimSpace (take (Z.to_nat i) r) else r in
  let i := IndexByte colon r in
  let prefix := TrimSpace (take (Z.to_nat i) r) in
  let r := if (0 <? i) && negb (bool_decide (prefix = [])) then prefix else r in
  let r := ToLower r in
  let r := replaceByte 32 95 r in
  let r := if 48 <? len r then take 48 r else r in
  if bool_decide (r = []) then "unspecified" else string_of_bytes r.

(** [m[key]++] on a [map[string]uint64]. *)
Definition bump (key : string) (m : gmap string Z) : gmap string Z :=
  <[key := u64 (default 0 (m !! key) + 1)]> m.

Definition terminalKey (status reason : string) : string :=
  "status=" +:+ status +:+ ",reason=" +:+ normalizeReasonLabel reason.

(** The locked part of [publishAck]. *)
Definition countAck (event : AckEvent) (m : Metrics) : Metrics :=
  mkMetrics (bump (ev_Status event) (ackStats m))
    (if isTerminalAckStatus (ev_Status event)
     then bump (terminalKey (ev_Status event) (ev_Reason event)) (ackTerminalReasonStats m)
     else ackTerminalReasonStats m)
    (ackLatencyBucketCounts m) (ackLatencyCount m) (ackLatencySum m) (telemetryStats m) (ovfStats m) (debugEvents m) (rawMessages m).

(** The first bucket whose bound is not exceeded. *)
Fixpoint countBucket (latency : Z) (bounds counts : list Z) : list Z :=
  match bounds, counts with
  | bound :: bounds', n :: counts' =>
      if latency <=? bound then u64 (n + 1) :: counts' else n :: countBucket latency bounds' counts'
  | _, _ => counts
  end.

(** [observeAckLatency] after its guard, for a latency. *)
Definition countLatency (latency : Z) (m : Metrics) : Metrics :=
  if latency <? 0 then m else
  mkMetrics (ackStats m) (ackTerminalReasonStats m)
    (countBucket latency ackLatencyBounds (ackLatencyBucketCounts m)) (u64 (ackLatencyCount m + 1)) (ackLatencySum m + latency)
    (telemetryStats m) (ovfStats m) (debugEvents m) (rawMessages m).

(** ** Telemetry and overflows *)

Definition telemetryKey (commandID : Z) (traceSource : string) : string :=
  let traceSource := if String.eqb traceSource "" then "rx" else traceSource in
  "command_id=" +:+ pretty commandID +:+ ",trace_source=" +:+ traceSource.

Definition countTelemetry (event : TelemetryEvent) (traceSource : string) (m : Metrics) : Metrics :=
  mkMetrics (ackStats m) (ackTerminalReasonStats m) (ackLatencyBucketCounts m) (ackLatencyCount m) (ackLatencySum m)
    (bump (telemetryKey (tel_CommandID event) traceSource) (telemetryStats m))
    (ovfStats m) (debugEvents m) (rawMessages m).

Definition overflowKey (e : OverflowEvent) : string :=
  "limit=" +:+ e_LimitType e +:+ ",policy=" +:+ e_Policy e +:+ ",action=" +:+ e_Action e.

Definition recordOverflowMetric (e : OverflowEvent) (m : Metrics) : Metrics :=
  mkMetrics (ackStats m) (ackTerminalReasonStats m) (ackLatencyBucketCounts m) (ackLatencyCount m) (ackLatencySum m)
    (telemetryStats m) (bump (overflowKey e) (ovfStats m)) (debugEvents m) (rawMessages m).

(** ** Reading the keys back *)

(** The loop of the three parsers, from the labels they start with. *)
Definition parseLabels (out : gmap string string) (key : string) : gmap string string :=
  fold_left (fun out p =>
    match SplitN2 equals p with
    | [k; v] => <[string_of_bytes k := string_of_bytes v]> out
    | _ => out
    end) (Split comma (bytes_of_string key)) out.

Definition parseOverflowKey (key : string) : gmap string string :=
  parseLabels (<["limit" := ""]> (<["policy" := ""]> {["action" := ""]})) key.

Definition parseAckTerminalReasonKey (key : string) : gmap string string :=
  parseLabels (<["status" := ""]> {["reason" := ""]}) key.

Definition parseTelemetryKey (key : string) : gmap string string :=
  parseLabels (<["command_id" := ""]> {["trace_source" := ""]}) key.

(** ** The debug logs *)

Definition maxDebugEvents : Z := 256.
Definition maxRawDebugMessages : Z := 256.

(** Append, and keep the last [max]. *)
Definition ringPush {A} (max : Z) (x : A) (l : list A) : list A :=
  let l := l ++ [x] in
  if max <? len l then drop (Z.to_nat (len l - max)) l else l.

(** The loop from the newest entry at index [i - 1] down. *)
Fixpoint newestLoop {A} (l : list A) (i : nat) (limit : Z) (out : list A) : list A :=
  match i with
  | O => out
  | S i' =>
      if len out <? limit then
        match l !! i' with
        | Some x => newestLoop l i' limit (out ++ [x])
        | None => out
        end
      else out
  end.

Definition ringSnapshot {A} (limit : Z) (l : list A) : list A :=
  let limit := if (limit <=? 0) || (len l <? limit) then len l else limit in
  newestLoop l (length l) limit [].

Section Debug.
Variable cfg : Config.

Definition recordDebugEvent (event : DebugEvent) (m : Metrics) : Metrics :=
  if negb (cfg_DebugLogs cfg) then m else
  mkMetrics (ackStats m) (ackTerminalReasonStats m) (ackLatencyBucketCounts m) (ackLatencyCount m) (ackLatencySum m)
    (telemetryStats m) (ovfStats m) (ringPush maxDebugEvents event (debugEvents m)) (rawMessages m).

Definition recordRawMessage (msg : RawDebugMessage) (m : Metrics) : Metrics :=
  if negb (cfg_DebugLogs cfg) then m else
  mkMetrics (ackStats m) (ackTerminalReasonStats m) (ackLatencyBucketCounts m) (ackLatencyCount m) (ackLatencySum m)
    (telemetryStats m) (ovfStats m) (debugEvents m) (ringPush maxRawDebugMessages msg (rawMessages m)).

Definition debugEventsSnapshot (limit : Z) (m : Metrics) : list DebugEvent := ringSnapshot limit (debugEvents m).

Definition rawMessagesSnapshot (limit : Z) (m : Metrics) : list RawDebugMessage := ringSnapshot limit (rawMessages m).

(** The [limit] parameter of a debug page; [raw] is the query's value and
    [Atoi] is [strconv.Atoi]. *)
Definition parseDebugLimit (Atoi : string -> option Z) (raw : string) (fallback max : Z) : Z :=
  let limit :=
    if String.eqb raw "" then fallback else
    match Atoi raw with
    | Some v => if 0 <? v then v else fallback
    | None => fallback
    end in
  if (0 <? max) && (max <? limit) then max else limit.

(** The controller id as log lines show it. *)
Definition maskControllerID (id : string) : string :=
  let l := bytes_of_string id in
  if String.eqb id "" then "" else
  if len l <=? 4 then "****" else "****" +:+ string_of_bytes (drop (length l - 4) l).

Definition logControllerID (id : string) : string :=
  if cfg_DebugLogs cfg then id else maskControllerID id.

Definition encodeFrameHex (frame : Frame) : string :=
  match EncodeFrame frame with
  | Ok wire => EncodeToString wire
  | _ => ""
  end.

(** [now] is the reading of [time.Now().UnixNano()]. *)
Definition newIncomingTraceID (controllerID : string) (cmdID seq now : Z) : string :=
  let controllerID := if String.eqb controllerID "" then "unknown" else controllerID in
  sprintf "rx-%s-%d-%d-%d" [AS controllerID; AZ cmdID; AZ seq; AZ now].

End Debug.

(** ** The logs *)

Lemma newestLoop_spec {A} (l : list A) (i : nat) (limit : Z) (out : list A) :
  (i <= length l)%nat -> 0 <= limit ->
  newestLoop l i limit out = out ++ take (Z.to_nat limit - length out) (reverse (take i l)).
Proof.
  intros Hi Hl. revert out. induction i as [|i IH]; intros out; cbn [newestLoop].
  { by rewrite take_0, reverse_nil, take_nil, app_nil_r. }
  destruct (Z.ltb_spec (len out) limit) as [Hlt|Hge]; unfold len in *.
  - destruct (lookup_lt_is_Some_2 l i) as [x Hx]; [lia|]. rewrite Hx, IH by lia.
    rewrite (take_S_r _ _ _ Hx), reverse_snoc, <- app_assoc, length_app. cbn.
    f_equal. destruct (Z.to_nat limit - length out)%nat as [|n] eqn:En; [lia|]. cbn. f_equal. f_equal. lia.
  - replace (Z.to_nat limit - length out)%nat with 0%nat by lia. by rewrite take_0, app_nil_r.
Qed.

Lemma ringPush_all {A} (max : Z) (es : list A) : 0 < max ->
  fold_left (fun l e => ringPush max e l) es [] = drop (length es - Z.to_nat max) es.
Proof.
  intros Hm. induction es as [|e es IH] using rev_ind; [done|].
  rewrite fold_left_app. cbn. rewrite IH. unfold ringPush, len.
  rewrite !length_app, length_drop. cbn.
  destruct (Z.ltb_spec max (Z.of_nat (length es - (length es - Z.to_nat max) + 1))) as [Hlt|Hge].
  - rewrite (drop_app_le _ _ (length es + 1 - Z.to_nat max)) by lia.
    rewrite drop_app_le by (rewrite length_drop; lia). rewrite drop_drop. do 2 f_equal. lia.
  - replace (length es - Z.to_nat max)%nat with 0%nat by lia.
    by replace (length es + 1 - Z.to_nat max)%nat with 0%nat by lia.
Qed.

Lemma ringSnapshot_all {A} (max limit : Z) (es : list A) : 0 < max ->
  ringSnapshot limit (fold_left (fun l e => ringPush max e l) es []) =
  take (Z.to_nat (if limit <=? 0 then max else limit `min` max)) (reverse es).
Proof.
  intros Hm. rewrite ringPush_all by done. unfold ringSnapshot. rewrite newestLoop_spec; cycle 1.
  { done. }
  { destruct ((limit <=? 0) || _) eqn:E; unfold len; [lia|]. apply orb_false_iff in E as [E%Z.leb_gt _]. lia. }
  rewrite (firstn_all (drop _ es)). cbn [app length]. rewrite Nat.sub_0_r.
  assert (reverse (drop (length es - Z.to_nat max) es) = take (Z.to_nat max) (reverse es)) as ->.
  { rewrite take_reverse. reflexivity. }
  rewrite take_take. unfold len. rewrite length_drop.
  destruct (Z.leb_spec limit 0); cbn [orb].
  - destruct (decide (length es <= Z.to_nat max)%nat).
    + rewrite !take_ge by (rewrite length_reverse; lia). done.
    + f_equal. lia.
  - destruct (Z.ltb_spec (Z.of_nat (length es - (length es - Z.to_nat max))) limit).
    + destruct (decide (length es <= Z.to_nat max)%nat).
      * rewrite !take_ge by (rewrite length_reverse; lia). done.
      * f_equal. lia.
    + f_equal. lia.
Qed.

Lemma debugEvents_run cfg es m :
  cfg_DebugLogs cfg = true ->
  debugEvents (fold_left (fun m e => recordDebugEvent cfg e m) es m)
  = fold_left (fun l e => ringPush maxDebugEvents e l) es (debugEvents m).
Proof.
  intros Hd. revert m. induction es as [|e es IH]; intros m; cbn; [done|]. rewrite IH.
  unfold recordDebugEvent at 1. by rewrite Hd.
Qed.

Lemma rawMessages_run cfg es m :
  cfg_DebugLogs cfg = true ->
  rawMessages (fold_left (fun m e => recordRawMessage cfg e m) es m)
  = fold_left (fun l e => ringPush maxRawDebugMessages e l) es (rawMessages m).
Proof.
  intros Hd. revert m. induction es as [|e es IH]; intros m; cbn; [done|]. rewrite IH.
  unfold recordRawMessage at 1. by rewrite Hd.
Qed.

(** The debug pages show the newest entries first: after any sequence of
    records, a snapshot of the events or of the raw messages is the last of them
    in reverse order, as many as asked for and at most 256 (all of those when
    the limit is not positive). *)
Lemma debug_logs_newest_first (cfg : Config) (es : list DebugEvent) (ms : list RawDebugMessage) (limit : Z) :
  cfg_DebugLogs cfg = true ->
  let m := fold_left (fun m e => recordDebugEvent cfg e m) es newMetrics in
  let m' := fold_left (fun m e => recordRawMessage cfg e m) ms m in
  let n := Z.to_nat (if limit <=? 0 then 256 else limit `min` 256) in
  debugEventsSnapshot limit m = take n (reverse es)
  /\ rawMessagesSnapshot limit m' = take n (reverse ms).
Proof.
  intros Hd m m' n. unfold debugEventsSnapshot, rawMessagesSnapshot, m', m.
  rewrite rawMessages_run, debugEvents_run by done. split; [by apply ringSnapshot_all|].
  assert (rawMessages (fold_left (fun m e => recordDebugEvent cfg e m) es newMetrics) = []) as ->.
  { generalize newMetrics, (eq_refl : rawMessages newMetrics = []). clear. induction es as [|e es IH]; intros m Hm; [done|].
    cbn. apply IH. unfold recordDebugEvent. by destruct (negb _). }
  by apply ringSnapshot_all.
Qed.

(** A default configuration with the debug pages enabled. *)
Definition debug_config : Config :=
  loadEnv (fun key => if String.eqb key "TCPADAPTER_DEBUG" then "true" else "") (fun _ => None) (fun _ => None)
    (fun _ => Some true).

Lemma debug_logs_newest_first_witness :
  let cfg := debug_config in
  let es := [] in
  let ms := map (fun n => mkRawDebugMessage n "rx" "A" "" 1 0 FrameModeCompact 255 "" "" 0 "" "") [1; 2; 3] in
  let m := fold_left (fun m e => recordDebugEvent cfg e m) es newMetrics in
  cfg_DebugLogs cfg = true
  /\ map rm_Timestamp (rawMessagesSnapshot 2 (fold_left (fun m e => recordRawMessage cfg e m) ms m)) = [3; 2].
Proof.
  split; [reflexivity|].
  destruct (debug_logs_newest_first debug_config []
    (map (fun n => mkRawDebugMessage n "rx" "A" "" 1 0 FrameModeCompact 255 "" "" 0 "" "") [1; 2; 3]) 2
    eq_refl) as [_ ->].
  reflexivity.
Defined.

(** ** Labels *)

(** The bytes of a label. *)
Definition label_byte (b : Z) : Prop := b <> 32 /\ ~ (65 <= b <= 90).

Lemma normal_byte b : label_byte (if lower b =? 32 then 95 else lower b).
Proof.
  unfold label_byte, lower. destruct ((65 <=? b) && (b <=? 90)) eqn:E;
    destruct (Z.eqb_spec (if true then b + 32 else b) 32); destruct (Z.eqb_spec b 32); cbn;
    repeat match goal with |- context [?x =? 32] => destruct (Z.eqb_spec x 32) end;
    try apply andb_true_iff in E as [?%Z.leb_le ?%Z.leb_le];
    try apply andb_false_iff in E as [?%Z.leb_gt|?%Z.leb_gt]; lia.
Qed.

(** Cutting a trimmed text at a later byte and trimming leaves something. *)
Lemma cut_nonempty c b l : is_space b = false -> 0 < IndexByte c (b :: l) ->
  exists l', TrimSpace (take (Z.to_nat (IndexByte c (b :: l))) (b :: l)) = b :: l'.
Proof.
  intros Hb Hi. destruct (IndexByte_pos c (b :: l) Hi) as (pre & post & Hl & _ & -> & Hne).
  destruct pre as [|a pre]; [done|]. injection Hl as <- ->. cbn [length take]. rewrite take_app_length.
  by apply TrimSpace_cons.
Qed.

Lemma wf_TrimSpace l : wf_bytes l -> wf_bytes (TrimSpace l).
Proof.
  unfold wf_bytes. rewrite !Forall_forall. intros Hl b Hb. by apply Hl, TrimSpace_incl.
Qed.

(** The text a label is made from: the trimmed reason up to the first semicolon
    and colon. *)
Lemma normalizeReasonLabel_form reason :
  normalizeReasonLabel reason = "unspecified"
  \/ exists b l, is_space b = false /\ wf_bytes (b :: l)
       /\ normalizeReasonLabel reason = string_of_bytes (take 48 (replaceByte 32 95 (ToLower (b :: l)))).
Proof.
  unfold normalizeReasonLabel. pose proof (TrimSpace_head (bytes_of_string reason)) as Hh.
  assert (wf_bytes (TrimSpace (bytes_of_string reason))) as Hw by (apply wf_TrimSpace, wf_bytes_of_string).
  destruct (TrimSpace (bytes_of_string reason)) as [|b l]; [by left|]. right. cbn [bool_decide].
  set (r1 := if 0 <? IndexByte semicolon (b :: l) then _ else _).
  assert (exists l1, r1 = b :: l1 /\ wf_bytes r1) as (l1 & H1 & Hw1).
  { unfold r1. destruct (Z.ltb_spec 0 (IndexByte semicolon (b :: l))); [|by exists l].
    destruct (cut_nonempty semicolon b l Hh) as [l' Hl']; [done|]. rewrite Hl'. exists l'. split; [done|].
    rewrite <- Hl'. by apply wf_TrimSpace, Forall_take. }
  clearbody r1. subst r1.
  set (r2 := if (0 <? IndexByte colon (b :: l1)) && _ then _ else _).
  assert (exists l2, r2 = b :: l2 /\ wf_bytes r2) as (l2 & H2 & Hw2).
  { unfold r2. destruct (Z.ltb_spec 0 (IndexByte colon (b :: l1))); [|by exists l1].
    destruct (cut_nonempty colon b l1 Hh) as [l' Hl']; [done|].
    assert (wf_bytes (b :: l')) as Hw' by (rewrite <- Hl'; by apply wf_TrimSpace, Forall_take).
    rewrite Hl', bool_decide_eq_false_2 by done. by exists l'. }
  clearbody r2. subst r2. exists b, l2. split_and!; [done|done|].
  set (r3 := replaceByte 32 95 (ToLower (b :: l2))).
  assert ((if 48 <? len r3 then take 48 r3 else r3) = take 48 r3) as ->.
  { destruct (Z.ltb_spec 48 (len r3)); [done|]. rewrite take_ge; [done|]. unfold len in *. lia. }
  by rewrite bool_decide_eq_false_2.
Qed.

(** Whatever the reason of a terminal acknowledgement, its metric label is
    not empty, has at most 48 bytes and contains neither a space nor an upper
    case letter. *)
Lemma normalizeReasonLabel_shape (reason : string) :
  let label := bytes_of_string (normalizeReasonLabel reason) in
  label <> [] /\ (length label <= 48)%nat /\ Forall label_byte label.
Proof.
  destruct (normalizeReasonLabel_form reason) as [->|(b & l & Hb & Hw & ->)]; cbv zeta.
  - let x := eval vm_compute in (bytes_of_string "unspecified") in change (bytes_of_string "unspecified") with x.
    split; [done|]. split; [cbn; lia|]. unfold label_byte. repeat (apply Forall_cons_2; [lia|]). apply Forall_nil_2.
  - set (r := replaceByte 32 95 (ToLower (b :: l))).
    assert (wf_bytes r) as Hr.
    { unfold wf_bytes, r, replaceByte, ToLower in *. rewrite !Forall_map in *. eapply Forall_impl; [exact Hw|].
      intros x Hx. unfold is_byte, lower in *. cbn.
      destruct ((65 <=? x) && (x <=? 90)) eqn:E; destruct (_ =? 32); lia. }
    rewrite bytes_of_string_of_bytes by by apply Forall_take.
    split; [done|]. split; [rewrite length_take; lia|]. apply Forall_take.
    unfold r, replaceByte, ToLower. rewrite !Forall_map. apply Forall_true. apply normal_byte.
Qed.

(** ** Keys *)

Definition comma_free (s : string) : Prop := Forall (fun b => b <> comma) (bytes_of_string s).

Lemma comma_free_app s t : comma_free s -> comma_free t -> comma_free (s +:+ t).
Proof. unfold comma_free. rewrite bytes_of_string_app. intros. by apply Forall_app. Qed.

(** One label of a key. *)
Definition label (name value : string) : string := name +:+ "=" +:+ value.

Lemma split_label name value :
  Forall (fun b => b <> equals) (bytes_of_string name) ->
  SplitN2 equals (bytes_of_string (label name value)) = [bytes_of_string name; bytes_of_string value].
Proof. intros Hn. unfold label. rewrite !bytes_of_string_app. by apply (SplitN2_app equals). Qed.

Lemma parse_last out name value :
  Forall (fun b => b <> equals) (bytes_of_string name) -> comma_free (label name value) ->
  parseLabels out (label name value) = <[name := value]> out.
Proof.
  intros Hn Hc. unfold parseLabels. rewrite Split_none by done. cbn [fold_left].
  by rewrite split_label, !string_of_bytes_of_string.
Qed.

Lemma parse_next out name value rest :
  Forall (fun b => b <> equals) (bytes_of_string name) -> comma_free (label name value) ->
  parseLabels out (label name value +:+ "," +:+ rest) = parseLabels (<[name := value]> out) rest.
Proof.
  intros Hn Hc. unfold parseLabels. rewrite !bytes_of_string_app. cbn [bytes_of_string app].
  change (byte_of_ascii _) with comma. rewrite Split_app by done. cbn [fold_left].
  by rewrite split_label, !string_of_bytes_of_string.
Qed.

Lemma string_app_assoc (s t u : string) : (s +:+ t) +:+ u = s +:+ (t +:+ u).
Proof. induction s as [|c s IH]; [done|]. exact (f_equal (String.String c) IH). Qed.

(** Decides that a literal has no comma, or no equals sign. *)
Ltac byte_free :=
  unfold comma_free; apply (bool_decide_unpack _); vm_compute; exact I.

Lemma comma_free_label name value : comma_free name -> comma_free value -> comma_free (label name value).
Proof.
  intros Hn Hv. unfold label. apply comma_free_app; [done|]. apply (comma_free_app "="); [|done]. byte_free.
Qed.

Lemma byte_comma_free commandID : 0 <= commandID < 256 -> comma_free (pretty commandID).
Proof.
  intros Hc. assert (forallb (fun n => forallb (fun b => negb (b =? comma)) (bytes_of_string (pretty (Z.of_nat n)))) (seq 0 256) = true)
    as Hall by (vm_compute; reflexivity).
  rewrite forallb_forall in Hall. specialize (Hall (Z.to_nat commandID)).
  rewrite Z2Nat.id in Hall by lia. unfold comma_free. apply Forall_forall. intros b Hb.
  specialize (Hall ltac:(apply in_seq; lia)). rewrite forallb_forall in Hall. specialize (Hall b (proj1 (list_elem_of_In _ _) Hb)).
  by destruct (Z.eqb_spec b comma).
Qed.

Lemma overflowKey_labels e :
  overflowKey e = label "limit" (e_LimitType e) +:+ "," +:+
    (label "policy" (e_Policy e) +:+ "," +:+ label "action" (e_Action e)).
Proof. unfold overflowKey, label. by rewrite !string_app_assoc. Qed.

Lemma terminalKey_labels status reason :
  terminalKey status reason = label "status" status +:+ "," +:+ label "reason" (normalizeReasonLabel reason).
Proof. unfold terminalKey, label. by rewrite !string_app_assoc. Qed.

Lemma telemetryKey_labels commandID source :
  telemetryKey commandID source = label "command_id" (pretty commandID) +:+ "," +:+
    label "trace_source" (if String.eqb source "" then "rx" else source).
Proof. unfold telemetryKey, label. by rewrite !string_app_assoc. Qed.

(** Closes the side conditions of parsing, and compares the resulting maps. *)
Ltac label_tac :=
  match goal with
  | |- comma_free (label _ _) => apply comma_free_label; [byte_free|done]
  | |- Forall _ _ => byte_free
  | |- _ = _ =>
      apply map_eq; intros k; unfold singletonM, map_singleton; rewrite !lookup_insert;
      repeat destruct (decide _); by simplify_eq
  end.

(** The labels the metrics page shows are the ones that were counted: the
    keys of the overflow, acknowledgement and telemetry counters are parsed back
    into exactly the labels they were made from, as long as no label contains a
    comma. *)
Lemma metric_keys_roundtrip (e : OverflowEvent) (status reason source : string) (commandID : Z) :
  Forall comma_free [e_LimitType e; e_Policy e; e_Action e; status; normalizeReasonLabel reason; source] ->
  0 <= commandID < 256 ->
  parseOverflowKey (overflowKey e)
    = <["limit" := e_LimitType e]> (<["policy" := e_Policy e]> {["action" := e_Action e]})
  /\ parseAckTerminalReasonKey (terminalKey status reason)
    = <["status" := status]> {["reason" := normalizeReasonLabel reason]}
  /\ parseTelemetryKey (telemetryKey commandID source)
    = <["command_id" := pretty commandID]> {["trace_source" := if String.eqb source "" then "rx" else source]}.
Proof.
  intros Hf Hc. rewrite !Forall_cons in Hf. destruct Hf as (H1 & H2 & H3 & H4 & H5 & H6 & _).
  assert (comma_free (if String.eqb source "" then "rx" else source)) as H7
    by (destruct (String.eqb source ""); [byte_free|done]).
  apply byte_comma_free in Hc. split_and!.
  - unfold parseOverflowKey. rewrite overflowKey_labels, !parse_next, parse_last; label_tac.
  - unfold parseAckTerminalReasonKey. rewrite terminalKey_labels, parse_next, parse_last; label_tac.
  - unfold parseTelemetryKey. rewrite telemetryKey_labels, parse_next, parse_last; label_tac.
Qed.

Lemma metric_keys_roundtrip_witness :
  let e := mkOverflowEvent "A" "bytes" "reject" "rejected" in
  parseOverflowKey (overflowKey e) = <["limit" := "bytes"]> (<["policy" := "reject"]> {["action" := "rejected"]})
  /\ parseAckTerminalReasonKey (terminalKey "failed" "Ack timeout; code=3")
     = <["status" := "failed"]> {["reason" := "ack_timeout"]}.
Proof.
  intros e. destruct (metric_keys_roundtrip e "failed" "Ack timeout; code=3" "rx" 11) as (H1 & H2 & _).
  - unfold comma_free. repeat (apply Forall_cons_2; [byte_free|]). apply Forall_nil_2.
  - lia.
  - split; [exact H1|exact H2].
Defined.
