(* ===== verification/Bus.v ===== *)
(** * The message bus ([internal/kafka/kafka.go])

    The bus the program runs with writes each event as a line of the log.  A
    line is a message with attributes.  The controller's id is masked in its own
    attribute. *)

From S2P Require Import Prelude Format Queue Store Retry Frame Session Config IPGuard Metrics.

(** A line of the log, at level INFO. *)
Record LogLine := mkLogLine { log_Message : string; log_Attrs : list (string * arg) }.

Definition LoggingBus_PublishAck (event : AckEvent) : LogLine :=
  mkLogLine "ack_event"
    [("message_id", AS (ev_MessageID event));
     ("trace_id", AS (ev_TraceID event));
     ("controller_id", AS (maskControllerID (ev_ControllerID event)));
     ("command_id", AZ (ev_CommandID event));
     ("command_seq", AZ (ev_CommandSeq event));
     ("status", AS (ev_Status event));
     ("reason", AS (ev_Reason event))].

Definition LoggingBus_PublishTelemetry (event : TelemetryEvent) : LogLine :=
  mkLogLine "telemetry_event"
    [("controller_id", AS (maskControllerID (tel_ControllerID event)));
     ("command_id", AZ (tel_CommandID event));
     ("trace_id", AS (tel_TraceID event));
     ("payload_len", AZ (len (tel_Payload event)))].

(** ** What the mask hides *)

(** Of an id longer than four bytes the mask shows the last four, of a shorter
    one nothing: ids that agree there are masked alike. *)
Lemma mask_shows_suffix (p p' q : bytes) :
  wf_bytes p -> wf_bytes p' -> wf_bytes q -> length q = 4%nat -> p <> [] -> p' <> [] ->
  maskControllerID (string_of_bytes (p ++ q)) = "****" +:+ string_of_bytes q
  /\ maskControllerID (string_of_bytes (p ++ q)) = maskControllerID (string_of_bytes (p' ++ q)).
Proof.
  intros Hp Hp' Hq Hl Hne Hne'.
  assert (forall x, wf_bytes x -> x <> [] -> maskControllerID (string_of_bytes (x ++ q)) = "****" +:+ string_of_bytes q) as Hm.
  { intros x Hx Hn. unfold maskControllerID. rewrite bytes_of_string_of_bytes by by apply wf_bytes_app.
    destruct x as [|b x]; [done|]. cbn [app string_of_bytes String.eqb].
    assert (4 < len (b :: x ++ q)) as H4 by (unfold len; cbn [length]; rewrite length_app, Hl; lia).
    rewrite (proj2 (Z.leb_gt _ _)) by lia. do 2 f_equal. change (b :: x ++ q) with ((b :: x) ++ q).
    rewrite length_app, Hl. rewrite drop_app_ge by lia. replace (_ - _ - _)%nat with O by lia. apply drop_0. }
  split; [by apply Hm|]. by rewrite !Hm.
Qed.

(** The mask does not reach the trace id: the trace ids the server makes for
    incoming messages contain the whole controller id, and the line of a
    telemetry event shows the trace id as it is. *)
Lemma telemetry_log_reveals_id (id : string) (cmdID seq now : Z) (payload : bytes) :
  id <> "" ->
  let line := LoggingBus_PublishTelemetry (mkTelemetryEvent id cmdID (newIncomingTraceID id cmdID seq now) payload) in
  ("controller_id", AS (maskControllerID id)) ∈ log_Attrs line
  /\ exists rest, ("trace_id", AS ("rx-" +:+ id +:+ rest)) ∈ log_Attrs line.
Proof.
  intros Hid line. split; [left|]. unfold line, newIncomingTraceID. rewrite (proj2 (String.eqb_neq _ _) Hid).
  exists (sprintf "-%d-%d-%d" [AZ cmdID; AZ seq; AZ now]). do 2 right. left.
Qed.
