(* ===== verification/CommandBuilder.v ===== *)
(** * The command builder ([internal/server/command_builder.go])

    The debug page that turns the fields of a form into a payload: the
    parameters are a JSON object, decoded into the fields of the command and
    handed to the command's builder.  JSON decoding into a Go type is an
    argument of the model: [Unmarshal A] decodes into [A], and what it returns
    fits the widths of the fields ([typed]).  Where the request has the fields of
    the payload it is decoded into the payload's type. *)

From S2P Require Import Prelude Format Crc16 Messages Frame Validation Builders Config Metrics.

(** ** Requests *)

(** The fields fit the Go types they have: bytes are bytes. *)
Class Typed (A : Type) := typed : A -> Prop.

Class Unmarshal (A : Type) `{Typed A} := {
  unmarshal : bytes -> res A;
  unmarshal_typed raw a : unmarshal raw = Ok a -> typed a
}.

(** Requests with fields that are decoded further: JSON texts, lists of
    numbers, hexadecimal. *)
Record recordRequest := mkRecordRequest { rq_Timestamp : Z; rq_RecordJSON : bytes }.
Record recordsRequest := mkRecordsRequest { rs_Timestamp : Z; rs_RecordsJSON : bytes }.
Record holidayRequest := mkHolidayRequest { hq_Timestamp : Z; hq_DaysCSV : string }.
Record fwBlockRequest := mkFWBlockRequest { fq_BlockNumber : Z; fq_DataHex : string }.
Record bindingRequest := mkBindingRequest {
  bq_ErrorCode : Z;
  bq_ObjectNumber : Z;
  bq_ObjectNumberRawHex : string;
  bq_ObjectName : string;
  bq_ControllerName : string;
  bq_AdminPhone : string
}.
Record customRequest := mkCustomRequest { cq_CustomCommand : Z; cq_ArgumentHex : string }.

#[global] Instance typed_cmd2 : Typed Cmd2RebootPayload := fun p => is_byte (c2_TimeoutSec p).
#[global] Instance typed_cmd3 : Typed Cmd3FactoryResetPayload := fun p => is_byte (c3_TimeoutSec p).
#[global] Instance typed_cmd5 : Typed Cmd5TriggerFlags := fun _ => True.
#[global] Instance typed_cmd6 : Typed Cmd6CaptureIDPayload := fun p =>
  wf_bytes [c6_CaptureTimeout p; c6_Interface p; c6_NetworkAddress p].
#[global] Instance typed_cmd7 : Typed Cmd7PhotoRequestPayload := fun p => is_byte (c7_CameraAddress p).
#[global] Instance typed_cmd8 : Typed Cmd8OutputControlPayload := fun p =>
  wf_bytes [c8_SourceID p; c8_Output1 p; c8_Output2 p].
#[global] Instance typed_cmd11 : Typed Cmd11SendSMSPayload := fun _ => True.
#[global] Instance typed_cmd18 : Typed Cmd18CRCBlockPayload := fun p => is_byte (c18_Block p).
#[global] Instance typed_cmd19 : Typed Cmd19StartFWPayload := fun _ => True.
#[global] Instance typed_cmd23 : Typed Cmd23SetTimePayload := fun _ => True.
#[global] Instance typed_record : Typed recordRequest := fun _ => True.
#[global] Instance typed_records : Typed recordsRequest := fun _ => True.
#[global] Instance typed_holiday : Typed holidayRequest := fun _ => True.
#[global] Instance typed_fwblock : Typed fwBlockRequest := fun _ => True.
#[global] Instance typed_binding : Typed bindingRequest := fun r => is_byte (bq_ErrorCode r).
#[global] Instance typed_custom : Typed customRequest := fun r => is_byte (cq_CustomCommand r).

Definition typed_relay (r : Cmd12RelaySettings) : Prop :=
  wf_bytes (relay_Flags r) /\ wf_bytes [relay_ImpulseSec r; relay_PauseSec r; relay_Repeats r].

#[global] Instance typed_cmd12 : Typed Cmd12SettingsRecord := fun r =>
  wf_bytes [NetworkType r; AutoRebootHour r; WiegandType r; Input1Function r; Input2Function r]
  /\ Forall (fun p => is_byte (per_Address p) /\ is_byte (per_Type p)) (Peripherals r)
  /\ typed_relay (Relay1 r) /\ typed_relay (Relay2 r) /\ wf_bytes (ReserveA r) /\ wf_bytes (ReserveB r).
#[global] Instance typed_cmd13 : Typed Cmd13IDRecord := fun r => wf_bytes [Group r; IDType r] /\ wf_bytes (c13_Reserve r).
#[global] Instance typed_cmd14 : Typed Cmd14ScheduleRecord := fun r =>
  wf_bytes [c14_Slot r; StartHour r; StartMinute r; EndHour r; EndMinute r; HolidayLogic r]
  /\ wf_bytes (c14_Flags r) /\ wf_bytes (Scenes r) /\ wf_bytes (c14_Reserve r).
#[global] Instance typed_cmd15 : Typed Cmd15GroupRecord := fun r =>
  wf_bytes [c15_Slot r; Schedule r] /\ wf_bytes (Permissions r) /\ wf_bytes (c15_Reserve r).
#[global] Instance typed_list {A} `{Typed A} : Typed (list A) := Forall typed.

(** ** Decoding fields *)

Definition trimmed (s : string) : string := string_of_bytes (TrimSpace (bytes_of_string s)).

(** [strings.Map] that drops the white space inside. *)
Definition is_blank (b : Z) : bool := (b =? 32) || (b =? 10) || (b =? 13) || (b =? 9).

(** The error of [hex.DecodeString] is one value here. *)
Definition errHex : error := Errorf "encoding/hex: invalid input" [].

Definition decodeHexString (s : string) : res bytes :=
  let t := List.filter (fun b => negb (is_blank b)) (TrimSpace (bytes_of_string s)) in
  if len t =? 0 then Ok [] else
  match DecodeString (string_of_bytes t) with
  | Some out => Ok out
  | None => Err errHex
  end.

(** [fmt.Sscanf] of ["%d"] into a [uint32]: the leading digits, which must be
    at least one and denote a number that fits; what follows them is not looked
    at. *)
Fixpoint leadingDigits (l : bytes) : bytes :=
  match l with
  | b :: l' => if is_digit b then b :: leadingDigits l' else []
  | [] => []
  end.

Definition digitsValue (l : bytes) : Z := fold_left (fun v b => 10 * v + (b - 48)) l 0.

Definition scanUint32 (l : bytes) : option Z :=
  let ds := leadingDigits l in
  if len ds =? 0 then None else
  let v := digitsValue ds in
  if v <? 2 ^ 32 then Some v else None.

Fixpoint csvLoop (parts : list bytes) (out : list Z) : res (list Z) :=
  match parts with
  | [] => Ok out
  | part :: parts' =>
      let part := TrimSpace part in
      if len part =? 0 then csvLoop parts' out else
      match scanUint32 part with
      | None => Err (Errorf "invalid uint32 value %q" [AS (string_of_bytes part)])
      | Some value => csvLoop parts' (out ++ [value])
      end
  end.

Definition parseUint32CSV (s : string) : res (list Z) :=
  out ← csvLoop (Split 44 (TrimSpace (bytes_of_string s))) [];
  if len out =? 0 then Err (Errorf "days_csv must contain at least one unix day" []) else Ok out.

(** [body == "" || body == "null"] stands for an empty object. *)
Definition decodeBuilderParams {A} `{Typed A} `{!Unmarshal A} (raw : bytes) : res A :=
  let body := TrimSpace raw in
  let body := if (len body =? 0) || bool_decide (body = bytes_of_string "null") then bytes_of_string "{}" else body in
  wrap "parameters: %w" [] (unmarshal body).

(** ** Building *)

Section Build.
Context `{!Unmarshal Cmd2RebootPayload} `{!Unmarshal Cmd3FactoryResetPayload} `{!Unmarshal Cmd5TriggerFlags}
  `{!Unmarshal Cmd6CaptureIDPayload} `{!Unmarshal Cmd7PhotoRequestPayload} `{!Unmarshal Cmd8OutputControlPayload}
  `{!Unmarshal Cmd11SendSMSPayload} `{!Unmarshal Cmd18CRCBlockPayload} `{!Unmarshal Cmd19StartFWPayload}
  `{!Unmarshal Cmd23SetTimePayload} `{!Unmarshal recordRequest} `{!Unmarshal recordsRequest} `{!Unmarshal holidayRequest}
  `{!Unmarshal fwBlockRequest} `{!Unmarshal bindingRequest} `{!Unmarshal customRequest}
  `{!Unmarshal Cmd12SettingsRecord} `{!Unmarshal (list Cmd13IDRecord)} `{!Unmarshal (list Cmd14ScheduleRecord)}
  `{!Unmarshal (list Cmd15GroupRecord)}.

(** The JSON text inside a request. *)
Definition decodeInner {A} `{Typed A} `{!Unmarshal A} (field missing : string) (raw : bytes) : res A :=
  if len raw =? 0 then Err (Errorf missing []) else wrap field [] (unmarshal raw).

Definition buildSyncSettings (raw : bytes) : res bytes :=
  req ← decodeBuilderParams (A := recordRequest) raw;
  record ← decodeInner "record_json: %w" "record_json is required" (rq_RecordJSON req);
  Cmd12SettingsPayload_Build (Build_Cmd12SettingsPayload (rq_Timestamp req) record).

Definition buildSyncIDs (raw : bytes) : res bytes :=
  req ← decodeBuilderParams (A := recordsRequest) raw;
  records ← decodeInner "records_json: %w" "records_json is required" (rs_RecordsJSON req);
  Cmd13SyncIDStructuredPayload_Build (Build_Cmd13SyncIDStructuredPayload (rs_Timestamp req) records).

Definition buildSyncSchedules (raw : bytes) : res bytes :=
  req ← decodeBuilderParams (A := recordsRequest) raw;
  records ← decodeInner "records_json: %w" "records_json is required" (rs_RecordsJSON req);
  Cmd14SyncScheduleStructuredPayload_Build (Build_Cmd14SyncScheduleStructuredPayload (rs_Timestamp req) records).

Definition buildSyncGroups (raw : bytes) : res bytes :=
  req ← decodeBuilderParams (A := recordsRequest) raw;
  records ← decodeInner "records_json: %w" "records_json is required" (rs_RecordsJSON req);
  Cmd15SyncGroupStructuredPayload_Build (Build_Cmd15SyncGroupStructuredPayload (rs_Timestamp req) records).

Definition buildSyncHolidays (raw : bytes) : res bytes :=
  req ← decodeBuilderParams (A := holidayRequest) raw;
  days ← parseUint32CSV (hq_DaysCSV req);
  Cmd16SyncHolidayPayload_Build (Build_Cmd16SyncHolidayPayload (hq_Timestamp req) days).

Definition buildFWBlock (raw : bytes) : res bytes :=
  req ← decodeBuilderParams (A := fwBlockRequest) raw;
  data ← wrap "data_hex: %w" [] (decodeHexString (fq_DataHex req));
  Cmd20FWBlockPayload_Build (Build_Cmd20FWBlockPayload (fq_BlockNumber req) data).

Definition buildBindingResponse (raw : bytes) : res bytes :=
  req ← decodeBuilderParams (A := bindingRequest) raw;
  rawNumber ← wrap "object_number_raw_hex: %w" [] (decodeHexString (bq_ObjectNumberRawHex req));
  Cmd25BindingResponsePayload_Build (Build_Cmd25BindingResponsePayload (bq_ErrorCode req) (bq_ObjectNumber req) rawNumber
    (bq_ObjectName req) (bq_ControllerName req) (bq_AdminPhone req)).

Definition buildCustom (raw : bytes) : res bytes :=
  req ← decodeBuilderParams (A := customRequest) raw;
  arg ← wrap "argument_hex: %w" [] (decodeHexString (cq_ArgumentHex req));
  Cmd27CustomPayload_Build (Build_Cmd27CustomPayload (cq_CustomCommand req) arg).

Definition buildCommandPayload (commandID : Z) (raw : bytes) : res bytes :=
  switch commandID
    [([2], req ← decodeBuilderParams raw; Cmd2RebootPayload_Build req);
     ([3], req ← decodeBuilderParams raw; Cmd3FactoryResetPayload_Build req);
     ([5], req ← decodeBuilderParams raw;
           Cmd5TriggerStructuredPayload_Build (Build_Cmd5TriggerStructuredPayload req (replicate 8 0)));
     ([6], req ← decodeBuilderParams raw; Cmd6CaptureIDPayload_Build req);
     ([7], req ← decodeBuilderParams raw; Cmd7PhotoRequestPayload_Build req);
     ([8], req ← decodeBuilderParams raw; Cmd8OutputControlPayload_Build req);
     ([9; 10; 17; 21; 22], BuildEmptyPayload commandID);
     ([11], req ← decodeBuilderParams raw;
            Cmd11SendSMSPayload_Build (Build_Cmd11SendSMSPayload (trimmed (c11_Phone10 req)) (c11_Message req)));
     ([12], buildSyncSettings raw);
     ([13], buildSyncIDs raw);
     ([14], buildSyncSchedules raw);
     ([15], buildSyncGroups raw);
     ([16], buildSyncHolidays raw);
     ([18], req ← decodeBuilderParams raw; Cmd18CRCBlockPayload_Build req);
     ([19], req ← decodeBuilderParams raw; Cmd19StartFWPayload_Build req);
     ([20], buildFWBlock raw);
     ([23], req ← decodeBuilderParams raw; Cmd23SetTimePayload_Build req);
     ([25], buildBindingResponse raw);
     ([27], buildCustom raw)]
    (Err (Errorf "command %d is not supported by builder" [AZ commandID])).

End Build.

(** ** Bytes in, bytes out *)

Create HintDb bytes.

Lemma wf_zeros n : wf_bytes (replicate n 0).
Proof. apply Forall_replicate. unfold is_byte. lia. Qed.

Lemma wf_insert_byte i b l : is_byte b -> wf_bytes l -> wf_bytes (<[i := b]> l).
Proof. intros. by apply Forall_insert. Qed.

Lemma wf_blit off n src l : wf_bytes src -> wf_bytes l -> wf_bytes (blit off n src l).
Proof.
  intros Hs Hl. unfold blit. rewrite !wf_bytes_app. split_and!; [by apply Forall_take|by apply Forall_take|by apply Forall_drop].
Qed.

Lemma is_byte_bool b : is_byte (boolToByte b).
Proof. unfold is_byte. destruct b; cbn; lia. Qed.

Lemma is_byte_u8 z : is_byte (u8 z).
Proof. unfold is_byte, u8. change (2 ^ 8) with 256. apply Z.mod_pos_bound. lia. Qed.

Lemma wf_fillLoop bad err s i out out' :
  wf_bytes s -> wf_bytes out -> fillLoop bad err s i out = Ok out' -> wf_bytes out'.
Proof.
  intros Hs. revert i out. induction Hs as [|b s Hb Hs IH]; intros i out Ho; cbn; [by intros [= <-]|].
  destruct (bad b); [done|]. apply IH. by apply wf_insert_byte.
Qed.

Lemma wf_fixedASCII s n out : fixedASCII s n = Ok out -> wf_bytes out.
Proof. unfold fixedASCII. intros H. res_inv. by eapply wf_fillLoop; [apply wf_bytes_of_string|apply wf_zeros|]. Qed.

Lemma wf_fixedDigits s n out : fixedDigits s n = Ok out -> wf_bytes out.
Proof. unfold fixedDigits. intros H. res_inv. by eapply wf_fillLoop; [apply wf_bytes_of_string|apply wf_zeros|]. Qed.

Lemma wf_writePeripherals ps off out :
  Forall (fun p => is_byte (per_Address p) /\ is_byte (per_Type p)) ps -> wf_bytes out -> wf_bytes (writePeripherals ps off out).
Proof.
  intros Hp. revert off out. induction Hp as [|p ps [Ha Ht] _ IH]; intros off out Ho; cbn; [done|].
  apply IH. by repeat apply wf_insert_byte.
Qed.

Lemma wf_writeFlags flags off out : wf_bytes flags -> wf_bytes out -> wf_bytes (writeFlags flags off out).
Proof.
  intros Hf. revert off out. induction Hf as [|f flags Hf _ IH]; intros off out Ho; cbn; [done|].
  apply IH. by apply wf_insert_byte.
Qed.

Lemma wf_writeRelay base r out : typed_relay r -> wf_bytes out -> wf_bytes (writeRelay base r out).
Proof.
  intros (Hf & Hb) Ho. unfold wf_bytes in Hb. rewrite !Forall_cons in Hb. unfold writeRelay.
  repeat apply wf_insert_byte; try apply Hb. by apply wf_writeFlags.
Qed.

#[local] Hint Resolve wf_zeros wf_insert_byte wf_blit is_byte_bool is_byte_u8 wf_le_bytes wf_bytes_of_string
  wf_fixedASCII wf_fixedDigits wf_writePeripherals wf_writeRelay : bytes.

Lemma nibbles_byte hi lo : 0 <= hi < 16 -> 0 <= lo < 16 -> is_byte (Z.lor (Z.shiftl hi 4) lo).
Proof.
  intros Hh Hl. assert (forallb (fun h => forallb (fun l => (0 <=? Z.lor (Z.shiftl h 4) l) && (Z.lor (Z.shiftl h 4) l <? 256))
    (seqZ 0 16)) (seqZ 0 16) = true) as Hall by (vm_compute; reflexivity).
  rewrite forallb_forall in Hall. specialize (Hall hi). rewrite <- list_elem_of_In, elem_of_seqZ, forallb_forall in Hall.
  specialize (Hall ltac:(lia) lo). rewrite <- list_elem_of_In, elem_of_seqZ in Hall. specialize (Hall ltac:(lia)).
  unfold is_byte. lia.
Qed.

Lemma DecodeString_wf : forall s out, DecodeString s = Some out -> wf_bytes out.
Proof.
  assert (forall c v, fromHexChar c = Some v -> 0 <= v < 16) as Hc.
  { intros c v. unfold fromHexChar. repeat case_match; intros [= <-]; lia. }
  fix IH 1. intros [|a [|b s']] out; cbn; [intros [= <-]; constructor|done|].
  destruct (fromHexChar (byte_of_ascii a)) as [hi|] eqn:Eh; [|done].
  destruct (fromHexChar (byte_of_ascii b)) as [lo|] eqn:El; [|done]. cbn.
  destruct (DecodeString s') as [rest|] eqn:Er; [|done]. intros [= <-]. constructor; [|by apply (IH s')].
  apply nibbles_byte; eauto.
Qed.

Lemma wf_decodeHexString s out : decodeHexString s = Ok out -> wf_bytes out.
Proof.
  unfold decodeHexString. destruct (_ =? 0); [intros [= <-]; constructor|].
  destruct (DecodeString _) eqn:E; [|done]. intros [= <-]. by eapply DecodeString_wf.
Qed.

#[local] Hint Resolve wf_decodeHexString : bytes.

(** What a builder returns: bytes that pass the validation of its command. *)
Definition sound (id : Z) (r : res bytes) : Prop :=
  forall payload, r = Ok payload -> ValidateServerCommandPayload id payload = Ok tt /\ wf_bytes payload.

Lemma sound_err id e : sound id (Err e).
Proof. by intros ? [=]. Qed.

Lemma sound_bind {A} id (x : res A) (f : A -> res bytes) :
  (forall a, x = Ok a -> sound id (f a)) -> sound id (x ≫= f).
Proof. intros Hf payload (a & Ha & Hp)%bind_ok. by apply (Hf a Ha). Qed.

Lemma sound_validated id out : wf_bytes out -> sound id (validated id out).
Proof. by intros Hwf payload [? ->]%validated_ok. Qed.

Lemma wf_copyRecords {A} (build : Z -> A -> res bytes) size recs i off out out' :
  (forall i r b, r ∈ recs -> build i r = Ok b -> wf_bytes b) -> wf_bytes out ->
  copyRecords build size recs i off out = Ok out' -> wf_bytes out'.
Proof.
  revert i off out. induction recs as [|r recs IH]; intros i off out Hb Ho; cbn; [by intros [= <-]|].
  intros (b & Hr & Hc)%bind_ok. eapply IH; [|by apply wf_blit; [eapply Hb; [left|]|]|exact Hc].
  intros j x y Hx. apply Hb. by right.
Qed.

Lemma sound_buildSync {A} id err max size (build : Z -> A -> res bytes) ts recs :
  (forall i r b, r ∈ recs -> build i r = Ok b -> wf_bytes b) -> sound id (buildSync id err max size build ts recs).
Proof.
  intros Hb. unfold buildSync. apply sound_bind. intros _ _. apply sound_bind. intros out Hc.
  apply sound_validated. eapply wf_copyRecords; [exact Hb| |exact Hc]. auto with bytes.
Qed.

(** Builders of single records. *)
Lemma wf_Cmd12SettingsRecord_Build r out : typed r -> Cmd12SettingsRecord_Build r = Ok out -> wf_bytes out.
Proof.
  intros (Hb & Hp & H1 & H2 & Ha & Hr) H. unfold wf_bytes in Hb. rewrite !Forall_cons in Hb.
  destruct Hb as (? & ? & ? & ? & ? & _). unfold Cmd12SettingsRecord_Build in H. res_inv. subst out.
  repeat first [apply wf_writeRelay|apply wf_writePeripherals|apply wf_blit|apply wf_insert_byte]; eauto with bytes.
Qed.

Lemma wf_Cmd13IDRecord_Build r out : typed r -> Cmd13IDRecord_Build r = Ok out -> wf_bytes out.
Proof.
  intros (Hb & Hr) H. unfold wf_bytes in Hb. rewrite !Forall_cons in Hb. destruct Hb as (? & ? & _).
  unfold Cmd13IDRecord_Build in H. res_inv. subst out. eauto 20 with bytes.
Qed.

Lemma wf_Cmd14ScheduleRecord_Build r out : typed r -> Cmd14ScheduleRecord_Build r = Ok out -> wf_bytes out.
Proof.
  intros (Hb & Hf & Hs & Hr) H. unfold wf_bytes in Hb. rewrite !Forall_cons in Hb.
  destruct Hb as (? & ? & ? & ? & ? & ? & _). unfold Cmd14ScheduleRecord_Build in H. res_inv. subst out. auto 20 with bytes.
Qed.

Lemma wf_Cmd15GroupRecord_Build r out : typed r -> Cmd15GroupRecord_Build r = Ok out -> wf_bytes out.
Proof.
  intros (Hb & Hp & Hr) H. unfold wf_bytes in Hb. rewrite !Forall_cons in Hb. destruct Hb as (? & ? & _).
  unfold Cmd15GroupRecord_Build in H. res_inv. subst out. auto 20 with bytes.
Qed.

(** ** Requests and responses *)

Inductive http (A : Type) :=
  | Reply (status : Z) (body : A)
  | HTTPError (status : Z) (message : string).
Arguments Reply {A}.
Arguments HTTPError {A}.

Record buildRequest := mkBuildRequest { br_CommandID : Z; br_Parameters : bytes }.

Record commandBuildResponse := mkBuildResponse {
  resp_CommandID : Z;
  resp_CommandName : string;
  resp_PayloadHex : string;
  resp_PayloadLen : Z;
  resp_FrameHex : string;
  resp_FrameLen : Z
}.

Definition commandName (commandID : Z) : string :=
  switch commandID
    [([2], "Reboot"); ([3], "Factory Reset"); ([5], "Set Triggers"); ([6], "Capture ID"); ([7], "Request Photo");
     ([8], "Control Outputs"); ([9], "Request Events"); ([10], "Request SMS IDs"); ([11], "Send SMS");
     ([12], "Sync Settings"); ([13], "Sync IDs"); ([14], "Sync Schedules"); ([15], "Sync Groups");
     ([16], "Sync Holidays"); ([17], "CRC All"); ([18], "CRC Block"); ([19], "FW Start"); ([20], "FW Block");
     ([21], "Photo Upload Request"); ([22], "Status2 Request"); ([23], "Set Time"); ([25], "Binding Response");
     ([27], "Custom")]
    (sprintf "Command %d" [AZ commandID]).

(** [strings.ToUpper] on ASCII. *)
Definition upper (b : Z) : Z := if (97 <=? b) && (b <=? 122) then b - 32 else b.

Definition ToUpper (s : string) : string := string_of_bytes (map upper (bytes_of_string s)).

(** ** The builder page *)

Section Page.
Context `{!Unmarshal Cmd2RebootPayload} `{!Unmarshal Cmd3FactoryResetPayload} `{!Unmarshal Cmd5TriggerFlags}
  `{!Unmarshal Cmd6CaptureIDPayload} `{!Unmarshal Cmd7PhotoRequestPayload} `{!Unmarshal Cmd8OutputControlPayload}
  `{!Unmarshal Cmd11SendSMSPayload} `{!Unmarshal Cmd18CRCBlockPayload} `{!Unmarshal Cmd19StartFWPayload}
  `{!Unmarshal Cmd23SetTimePayload} `{!Unmarshal recordRequest} `{!Unmarshal recordsRequest} `{!Unmarshal holidayRequest}
  `{!Unmarshal fwBlockRequest} `{!Unmarshal bindingRequest} `{!Unmarshal customRequest}
  `{!Unmarshal Cmd12SettingsRecord} `{!Unmarshal (list Cmd13IDRecord)} `{!Unmarshal (list Cmd14ScheduleRecord)}
  `{!Unmarshal (list Cmd15GroupRecord)}.

Lemma decodeBuilderParams_typed {A} `{Typed A} `{!Unmarshal A} raw (a : A) : decodeBuilderParams raw = Ok a -> typed a.
Proof. unfold decodeBuilderParams. intros Hu%wrap_ok. by apply unmarshal_typed in Hu. Qed.

Lemma decodeInner_typed {A} `{Typed A} `{!Unmarshal A} field missing raw (a : A) :
  decodeInner field missing raw = Ok a -> typed a.
Proof. unfold decodeInner. destruct (_ =? 0); [done|]. intros Hu%wrap_ok. by apply unmarshal_typed in Hu. Qed.

(** A builder applied to decoded parameters. *)
Lemma sound_params {A} `{Typed A} `{!Unmarshal A} id raw (build : A -> res bytes) :
  (forall a, typed a -> sound id (build a)) -> sound id (decodeBuilderParams raw ≫= build).
Proof. intros Hb. apply sound_bind. intros a Ha. by apply Hb, (decodeBuilderParams_typed raw). Qed.

Lemma sound_list {A} `{Typed A} id err max size fmt (build : A -> res bytes) ts (recs : list A) :
  (forall r out, typed r -> build r = Ok out -> wf_bytes out) -> typed recs ->
  sound id (buildSync id err max size (fun i r => wrap fmt [AZ i] (build r)) ts recs).
Proof.
  intros Hb Ht. apply sound_buildSync. intros i r b Hr Hw%wrap_ok. eapply Hb; [|exact Hw].
  by apply (proj1 (Forall_forall _ _) Ht).
Qed.

Lemma sound_bytes id l : wf_bytes l -> sound id (validated id l).
Proof. apply sound_validated. Qed.

Lemma sound_empty id : sound id (BuildEmptyPayload id).
Proof.
  unfold BuildEmptyPayload. apply switch_ind; [|apply sound_err]. constructor; [|constructor].
  apply sound_bind. intros [] Hv payload [= <-]. split; [exact Hv|constructor].
Qed.

Lemma sound_cmd11 p : sound 11 (Cmd11SendSMSPayload_Build p).
Proof.
  unfold Cmd11SendSMSPayload_Build. apply sound_bind. intros _ _. apply sound_bind. intros phone Hp%wrap_ok.
  apply sound_bind. intros msg Hm%wrap_ok. apply sound_validated. eauto 10 with bytes.
Qed.

Lemma sound_cmd12 ts r : typed r -> sound 12 (Cmd12SettingsPayload_Build (Build_Cmd12SettingsPayload ts r)).
Proof.
  intros Ht. unfold Cmd12SettingsPayload_Build. apply sound_bind. intros rec Hr%wf_Cmd12SettingsRecord_Build; [|done].
  apply sound_validated. repeat first [apply wf_blit|apply wf_insert_byte]; auto with bytes. unfold is_byte. lia.
Qed.

Lemma sound_cmd16 ts days : sound 16 (Cmd16SyncHolidayPayload_Build (Build_Cmd16SyncHolidayPayload ts days)).
Proof. apply sound_buildSync. intros i r b _ Hb%(inj Ok). rewrite <- Hb. apply wf_le_bytes. Qed.

Lemma sound_cmd19 p : sound 19 (Cmd19StartFWPayload_Build p).
Proof.
  unfold Cmd19StartFWPayload_Build. do 3 (apply sound_bind; intros _ _). apply sound_validated. auto 20 with bytes.
Qed.

Lemma sound_cmd20 n data : wf_bytes data -> sound 20 (Cmd20FWBlockPayload_Build (Build_Cmd20FWBlockPayload n data)).
Proof.
  intros Hd. unfold Cmd20FWBlockPayload_Build. apply sound_bind. intros _ _. apply sound_validated.
  repeat first [apply wf_blit|apply wf_insert_byte]; auto with bytes.
Qed.

Lemma sound_cmd25 p : is_byte (ErrorCode p) -> wf_bytes (ObjectNumberRaw p) -> sound 25 (Cmd25BindingResponsePayload_Build p).
Proof.
  intros He Hn. unfold Cmd25BindingResponsePayload_Build. do 2 (apply sound_bind; intros _ _).
  do 3 (apply sound_bind; intros ? ?%wrap_ok%wf_fixedASCII). apply sound_validated.
  destruct (0 <? _); auto 20 with bytes.
Qed.

Lemma sound_cmd27 p : is_byte (CustomCommand p) -> wf_bytes (Argument p) -> sound 27 (Cmd27CustomPayload_Build p).
Proof.
  intros Hc Ha. unfold Cmd27CustomPayload_Build. apply sound_bind. intros _ _. apply sound_validated.
  repeat first [apply wf_blit|apply wf_insert_byte]; auto with bytes.
Qed.

Lemma sound_cmd5 flags :
  sound 5 (Cmd5TriggerStructuredPayload_Build (Build_Cmd5TriggerStructuredPayload flags (replicate 8 0))).
Proof.
  unfold Cmd5TriggerStructuredPayload_Build. cbn [c5_Flags c5_Reserve]. apply sound_validated.
  apply wf_blit; [apply wf_zeros|]. repeat (apply wf_insert_byte; [apply is_byte_bool|]). apply wf_zeros.
Qed.

Lemma sound_buildCommandPayload commandID raw : sound commandID (buildCommandPayload commandID raw).
Proof.
  unfold buildCommandPayload.
  match goal with |- sound _ (switch ?x ?cs ?d) => destruct (switch_cases x cs d) as [(vs & r & Hin & Hid & ->)|[_ ->]] end;
    [|apply sound_err].
  repeat (apply elem_of_cons in Hin as [[= -> ->]|Hin]); [..|by apply not_elem_of_nil in Hin].
  all: repeat (apply elem_of_cons in Hid as [->|Hid]); try by apply not_elem_of_nil in Hid.
  all: try apply sound_empty.
  all: apply sound_params; intros req Ht.
  - apply sound_validated. by constructor.
  - apply sound_validated. by constructor.
  - apply sound_cmd5.
  - by apply sound_validated.
  - apply sound_validated. by constructor.
  - by apply sound_validated.
  - apply sound_cmd11.
  - apply sound_bind. intros rec Hr%decodeInner_typed. by apply sound_cmd12.
  - apply sound_bind. intros recs Hr%decodeInner_typed. apply sound_list; [apply wf_Cmd13IDRecord_Build|done].
  - apply sound_bind. intros recs Hr%decodeInner_typed. apply sound_list; [apply wf_Cmd14ScheduleRecord_Build|done].
  - apply sound_bind. intros recs Hr%decodeInner_typed. apply sound_list; [apply wf_Cmd15GroupRecord_Build|done].
  - apply sound_bind. intros days _. apply sound_cmd16.
  - apply sound_validated. by constructor.
  - apply sound_cmd19.
  - apply sound_bind. intros data Hd%wrap_ok%wf_decodeHexString. by apply sound_cmd20.
  - apply sound_validated. apply wf_blit; [apply wf_le_bytes|apply wf_zeros].
  - apply sound_bind. intros data Hd%wrap_ok%wf_decodeHexString. by apply sound_cmd25.
  - apply sound_bind. intros data Hd%wrap_ok%wf_decodeHexString. by apply sound_cmd27.
Qed.

(** C27: the command builder only produces what may be sent: whatever command
    and parameters are posted to it, a payload it returns consists of bytes and
    passes the validation of that very command. *)
Theorem builder_payload_valid commandID raw payload :
  buildCommandPayload commandID raw = Ok payload ->
  wf_bytes payload /\ ValidateServerCommandPayload commandID payload = Ok tt.
Proof. intros [? ?]%sound_buildCommandPayload. by split. Qed.

(** ** The handler *)

(** [req] is the decoded body, [None] if it is not valid JSON. *)
Definition debugBuildCommandHandler (cfg : Config) (method : string) (req : option buildRequest)
    : http commandBuildResponse :=
  if negb (cfg_DebugLogs cfg) then HTTPError 404 "404 page not found" else
  if negb (String.eqb method "POST") then HTTPError 405 "method not allowed" else
  match req with
  | None => HTTPError 400 "invalid json body"
  | Some req =>
      if br_CommandID req =? 0 then HTTPError 400 "command_id is required" else
      match buildCommandPayload (br_CommandID req) (br_Parameters req) with
      | Err e => HTTPError 400 ("build failed: " +:+ render e)
      | Panic => HTTPError 500 "panic"
      | Ok payload =>
          match EncodeFrame (mkFrame 255 1 (br_CommandID req :: payload) FrameModeAuto) with
          | Err e => HTTPError 400 ("frame preview failed: " +:+ render e)
          | Panic => HTTPError 500 "panic"
          | Ok frameBytes =>
              Reply 200 (mkBuildResponse (br_CommandID req) (commandName (br_CommandID req))
                (ToUpper (EncodeToString payload)) (len payload) (ToUpper (EncodeToString frameBytes)) (len frameBytes))
          end
      end
  end.

(** ** What the page shows *)

Lemma fromHexChar_upper c : fromHexChar (upper c) = fromHexChar c.
Proof.
  unfold upper. destruct (_ && _) eqn:E; [|done]. apply andb_prop in E as [Ha Hz]. unfold fromHexChar.
  destruct (Z.leb_spec 48 (c - 32)), (Z.leb_spec (c - 32) 57), (Z.leb_spec 97 (c - 32)), (Z.leb_spec (c - 32) 102),
    (Z.leb_spec 65 (c - 32)), (Z.leb_spec (c - 32) 70), (Z.leb_spec 48 c), (Z.leb_spec c 57), (Z.leb_spec 97 c),
    (Z.leb_spec c 102), (Z.leb_spec 65 c), (Z.leb_spec c 70); cbn [andb]; try lia; try done. f_equal. lia.
Qed.

Lemma byte_of_ascii_upper c : byte_of_ascii (ascii_of_byte (upper (byte_of_ascii c))) = upper (byte_of_ascii c).
Proof.
  apply byte_of_ascii_of_byte. pose proof (is_byte_of_ascii c) as Hc. unfold is_byte, upper in *.
  destruct (_ && _) eqn:E; lia.
Qed.

(** Hexadecimal in upper case decodes as well. *)
Lemma DecodeString_ToUpper : forall s, DecodeString (ToUpper s) = DecodeString s.
Proof.
  fix IH 1. intros [|a [|b s']]; [reflexivity|reflexivity|]. specialize (IH s'). unfold ToUpper in *.
  cbn [bytes_of_string map string_of_bytes DecodeString]. by rewrite !byte_of_ascii_upper, !fromHexChar_upper, IH.
Qed.

Lemma supported_byte commandID raw payload : buildCommandPayload commandID raw = Ok payload -> is_byte commandID.
Proof.
  unfold buildCommandPayload.
  match goal with |- switch ?x ?cs ?d = _ -> _ => destruct (switch_cases x cs d) as [(vs & r & Hin & Hid & _)|[_ ->]] end;
    [intros _|done].
  unfold is_byte.
  repeat (apply elem_of_cons in Hin as [[= -> ->]|Hin]); [..|by apply not_elem_of_nil in Hin].
  all: repeat (apply elem_of_cons in Hid as [->|Hid]); try lia; by apply not_elem_of_nil in Hid.
Qed.

(** The builder page shows what will be sent: the hexadecimal payload it
    returns decodes to the payload that was built, and the hexadecimal frame
    decodes to bytes that a controller in the sequenced framing reads as that
    command with that payload, with the lengths shown. *)
Lemma build_preview_roundtrip cfg method req status resp :
  debugBuildCommandHandler cfg method req = Reply status resp ->
  exists r payload w, req = Some r /\ status = 200
    /\ buildCommandPayload (br_CommandID r) (br_Parameters r) = Ok payload
    /\ DecodeString (resp_PayloadHex resp) = Some payload /\ resp_PayloadLen resp = len payload
    /\ DecodeString (resp_FrameHex resp) = Some w /\ resp_FrameLen resp = len w
    /\ forall tail e, ReadFrameWithMode (mkReader (w ++ tail) e) FrameModeSequenced
         = (Ok (mkFrame 255 1 (br_CommandID r :: payload) FrameModeSequenced), mkReader tail e).
Proof.
  unfold debugBuildCommandHandler. destruct (negb _); [done|]. destruct (negb _); [done|].
  destruct req as [r|]; [|done]. destruct (_ =? 0); [done|].
  destruct (buildCommandPayload _ _) as [payload|e|] eqn:Eb; [|done..].
  destruct (EncodeFrame _) as [w|e|] eqn:Ee; [|done..]. intros [= <- <-].
  destruct (sound_buildCommandPayload _ _ _ Eb) as [_ Hwf]. pose proof (supported_byte _ _ _ Eb) as Hid.
  set (f := mkFrame 255 1 (br_CommandID r :: payload) FrameModeSequenced).
  assert (wf_frame f) as Hf by (split_and!; [unfold is_byte; cbn; lia..|by constructor]).
  change (EncodeFrame f = Ok w) in Ee.
  assert (wf_bytes w) as Hw.
  { apply EncodeFrame_ok in Ee as (_ & _ & ->). by apply wf_wire, wf_frameData. }
  exists r, payload, w. cbn [resp_PayloadHex resp_FrameHex resp_PayloadLen resp_FrameLen].
  rewrite !DecodeString_ToUpper, !DecodeString_EncodeToString by done. split_and!; [done..|].
  intros tail e. by apply (frame_reads_back f).
Qed.

End Page.

(** ** A concrete request *)

(** Parameters that decode to a reboot after three seconds, and to nothing
    else. *)
#[local, refine] Instance refuse A `{Typed A} : Unmarshal A | 100 := {| unmarshal := fun _ => Err (Errorf "no" []) |}.
Proof. done. Defined.

#[local, refine] Instance decode_reboot : Unmarshal Cmd2RebootPayload := {| unmarshal := fun _ => Ok (Build_Cmd2RebootPayload 3) |}.
Proof. intros raw a Ha%(inj Ok). rewrite <- Ha. unfold typed, typed_cmd2, is_byte. cbn. lia. Defined.

Lemma builder_payload_valid_witness :
  buildCommandPayload 2 [] = Ok [3] /\ wf_bytes [3] /\ ValidateServerCommandPayload 2 [3] = Ok tt.
Proof.
  split; [reflexivity|]. apply (builder_payload_valid 2 []). reflexivity.
Defined.

Lemma build_preview_roundtrip_witness :
  exists resp w, debugBuildCommandHandler debug_config "POST" (Some (mkBuildRequest 2 [])) = Reply 200 resp
    /\ resp_PayloadHex resp = "03" /\ DecodeString (resp_FrameHex resp) = Some w
    /\ ReadFrameWithMode (mkReader (w ++ []) ErrEOF) FrameModeSequenced
       = (Ok (mkFrame 255 1 [2; 3] FrameModeSequenced), mkReader [] ErrEOF).
Proof.
  destruct (debugBuildCommandHandler debug_config "POST" (Some (mkBuildRequest 2 []))) as [status resp|status msg] eqn:E.
  - destruct (build_preview_roundtrip _ _ _ _ _ E) as (r & payload & w & Hr & Hst & Hb & Hp & _ & Hw & _ & Hread).
    injection Hr as <-. cbn in Hb. injection Hb as <-. subst status. exists resp, w. split; [reflexivity|].
    split; [|split; [exact Hw|exact (Hread [] ErrEOF)]].
    assert (match debugBuildCommandHandler debug_config "POST" (Some (mkBuildRequest 2 [])) with
      Reply _ resp => resp_PayloadHex resp | _ => "" end = "03") as Hh by (vm_compute; reflexivity).
    rewrite E in Hh. exact Hh.
  - assert (match debugBuildCommandHandler debug_config "POST" (Some (mkBuildRequest 2 [])) with
      Reply _ _ => true | _ => false end = true) as Hh by (vm_compute; reflexivity).
    rewrite E in Hh. discriminate Hh.
Defined.

(** The values the page proposes for "capture ID" (interface 1, network address
    1) are refused: an address is only allowed on interface 3. *)
Example capture_id_defaults_refused :
  Cmd6CaptureIDPayload_Build (Build_Cmd6CaptureIDPayload 15 1 1)
  = Err (Errorf "cmd 6: network address must be 0 for non-485 interface" []).
Proof. reflexivity. Qed.

(** A list of days with trailing text is accepted; the text is ignored. *)
Example csv_trailing_text : parseUint32CSV "10abc, 20 30" = Ok [10; 20].
Proof. vm_compute. reflexivity. Qed.
