(* ===== verification/Schema.v ===== *)
(** * The schema of the command builder ([internal/server/command_builder.go]:
      [commandBuilderSpecs] and the handlers of the page)

    The debug page asks for the forms of the commands and posts what was filled
    in to [debugBuildCommandHandler].  This file has the forms, as the server
    sends them, and decodes JSON values into the requests of [buildCommandPayload]
    field by field, so that a form can be followed to the payload it builds.

    JSON texts are not parsed here: the parser is an argument of the model, and
    so is the text a nested value has.  A value is decoded as [encoding/json]
    does: a missing field or null is the zero value, a number must fit the
    field's width, an array fills an array of Go from the start. *)

From S2P Require Import Prelude Format Messages Frame Validation Builders Config Policy Metrics CommandBuilder.

(** ** JSON values *)

Inductive value :=
  | VNil
  | VInt (n : Z)
  | VBool (b : bool)
  | VStr (s : string)
  | VArr (items : list value)
  | VObj (fields : list (string * value)).

(** ** Forms *)

Record commandBuilderOption := mkOption { opt_Value : value; opt_Label : string }.

Record commandBuilderField := mkField {
  fld_Name : string;
  fld_Label : string;
  fld_Kind : string;
  fld_Required : bool;
  fld_Placeholder : string;
  fld_Help : string;
  fld_DefaultValue : value;
  fld_Options : list commandBuilderOption
}.

Record commandBuilderSpec := mkSpec {
  spec_CommandID : Z;
  spec_Name : string;
  spec_Summary : string;
  spec_Fields : list commandBuilderField
}.

(** [strings.Repeat]. *)
Fixpoint Repeat (s : string) (n : nat) : string :=
  match n with O => "" | S n' => s +:+ Repeat s n' end.

(** [Name: commandName(id)] in every entry. *)
Definition spec (commandID : Z) (summary : string) (fields : list commandBuilderField) : commandBuilderSpec :=
  mkSpec commandID (commandName commandID) summary fields.

(** No form has a help text or a list of options. *)
Definition fld (name label kind : string) (required : bool) (placeholder : string) (dflt : value) : commandBuilderField :=
  mkField name label kind required placeholder "" dflt [].

(** The forms of commands 2 to 11, 12 to 16 and 17 to 27. *)
Definition controlSpecs : list commandBuilderSpec :=
  [spec 2 "Перезагрузка контроллера с задержкой в секундах."
      [fld "timeout_sec" "Timeout, sec" "number" true "" (VInt 3)];
   spec 3 "Сброс к заводским настройкам."
      [fld "timeout_sec" "Timeout, sec" "number" true "" (VInt 5)];
   spec 5 "Визуальные флаги для `cmd=5` без ручного hex."
      [fld "manual_unlock" "Manual Unlock" "checkbox" false "" (VBool false);
       fld "scenario_unlock" "Scenario Unlock" "checkbox" false "" (VBool false);
       fld "auto_registration" "Auto Registration" "checkbox" false "" (VBool true);
       fld "open_for_all" "Open For All" "checkbox" false "" (VBool false);
       fld "forward_sms" "Forward SMS" "checkbox" false "" (VBool false);
       fld "notify_unknown_id_sms" "Notify Unknown ID SMS" "checkbox" false "" (VBool false);
       fld "notify_low_balance_sms" "Notify Low Balance SMS" "checkbox" false "" (VBool false);
       fld "schedule_for_all_calls" "Schedule For All Calls" "checkbox" false "" (VBool false)];
   spec 6 "Захват идентификатора на интерфейсе."
      [fld "capture_timeout" "Capture Timeout" "number" true "" (VInt 15);
       fld "interface" "Interface" "number" true "" (VInt 1);
       fld "network_address" "Network Address" "number" true "" (VInt 1)];
   spec 7 "Запрос фото с камеры."
      [fld "camera_address" "Camera Address" "number" true "" (VInt 1)];
   spec 8 "Управление выходами."
      [fld "source_id" "Source ID" "number" true "" (VInt 1);
       fld "output1" "Output 1" "number" true "" (VInt 0);
       fld "output2" "Output 2" "number" true "" (VInt 0)];
   spec 9 "Команда без payload." [];
   spec 10 "Команда без payload." [];
   spec 11 "Отправка SMS."
      [fld "phone10" "Phone 10 digits" "text" true "9991234567" VNil;
       fld "message" "Message" "textarea" true "hello" VNil]].

Definition syncSpecs (now : Z) : list commandBuilderSpec :=
  [spec 12 "Большая команда: timestamp плюс JSON объекта `protocol.Cmd12SettingsRecord`."
      [fld "timestamp" "Timestamp" "number" true "" (VInt now);
       fld "record_json" "Record JSON" "json" true ""
         (VObj [("PINCode", VInt 1234); ("Server1", VStr "srv1.local"); ("Server2", VStr "srv2.local");
           ("NTPServer", VStr "pool.ntp.org"); ("Operator", VStr "carrier"); ("NetworkType", VInt 2);
           ("CountryCode", VStr "250"); ("SimPhone", VStr "79990000000"); ("USSD", VStr "*100#");
           ("AutoRebootHour", VInt 0); ("ExtendedDebug", VBool false); ("UseVoLTE", VBool false);
           ("Interface485Active", VBool false); ("NTPEnabled", VBool true); ("WiegandType", VInt 0)])];
   spec 13 "Timestamp плюс JSON-массив `protocol.Cmd13IDRecord`."
      [fld "timestamp" "Timestamp" "number" true "" (VInt now);
       fld "records_json" "Records JSON" "json" true ""
         (VArr [VObj [("SlotIndex", VInt 1); ("ID", VStr "123456"); ("Group", VInt 1); ("BanDate", VInt 0);
           ("LifetimeMinutes", VInt 0); ("IDType", VInt 0)]])];
   spec 14 "Timestamp плюс JSON-массив `protocol.Cmd14ScheduleRecord`."
      [fld "timestamp" "Timestamp" "number" true "" (VInt now);
       fld "records_json" "Records JSON" "json" true ""
         (VArr [VObj [("Slot", VInt 1); ("StartHour", VInt 9); ("StartMinute", VInt 0); ("EndHour", VInt 18);
           ("EndMinute", VInt 0); ("HolidayLogic", VInt 0)]])];
   spec 15 "Timestamp плюс JSON-массив `protocol.Cmd15GroupRecord`."
      [fld "timestamp" "Timestamp" "number" true "" (VInt now);
       fld "records_json" "Records JSON" "json" true "" (VArr [VObj [("Slot", VInt 1); ("Schedule", VInt 1)]])];
   spec 16 "Timestamp плюс CSV unix days list."
      [fld "timestamp" "Timestamp" "number" true "" (VInt now);
       fld "days_csv" "Days CSV" "text" true "1711929600,1712016000" VNil]].

Definition serviceSpecs (now : Z) : list commandBuilderSpec :=
  [spec 17 "Команда без payload." [];
   spec 18 "CRC для блока."
      [fld "block" "Block" "number" true "" (VInt 1)];
   spec 19 "Старт обновления firmware."
      [fld "firmware_number" "Firmware Number" "number" true "" (VInt 1);
       fld "build_timestamp" "Build Timestamp" "number" true "" (VInt now);
       fld "file_size" "File Size" "number" true "" (VInt 2048);
       fld "file_crc" "File CRC" "number" true "" (VInt 305419896);
       fld "block_count" "Block Count (0=auto)" "number" false "" (VInt 0)];
   spec 20 "Номер блока и 1024 байта data_hex."
      [fld "block_number" "Block Number" "number" true "" (VInt 1);
       fld "data_hex" "Data Hex" "textarea" true (Repeat "AA" 16 +:+ "...") VNil];
   spec 21 "Команда без payload." [];
   spec 22 "Команда без payload." [];
   spec 23 "Установка времени контроллера."
      [fld "server_time" "Server Time" "number" true "" (VInt now)];
   spec 25 "Ответ на привязку контроллера."
      [fld "error_code" "Error Code" "number" true "" (VInt 0);
       fld "object_number" "Object Number" "number" false "" (VInt 1);
       fld "object_number_raw_hex" "Object Number Raw Hex" "text" false "01020304" VNil;
       fld "object_name" "Object Name" "text" false "" (VStr "Gate A");
       fld "controller_name" "Controller Name" "text" false "" (VStr "Controller A");
       fld "admin_phone" "Admin Phone" "text" false "" (VStr "79990000000")];
   spec 27 "Произвольная custom-команда без ручной упаковки размера."
      [fld "custom_command" "Custom Command" "number" true "" (VInt 1);
       fld "argument_hex" "Argument Hex" "textarea" false "01020304" VNil]].

(** [now] is [uint32(time.Now().Unix())]. *)
Definition commandBuilderSpecs (now : Z) : list commandBuilderSpec := controlSpecs ++ syncSpecs now ++ serviceSpecs now.

(** ** The handlers *)

(** The HTML page is a constant. *)
Definition debugCommandBuilderHandler (renderCommandBuilderHTML : string) (cfg : Config) (method : string) : http string :=
  if negb (cfg_DebugLogs cfg) then HTTPError 404 "404 page not found" else
  if negb (String.eqb method "GET") then HTTPError 405 "method not allowed" else
  Reply 200 renderCommandBuilderHTML.

Definition debugCommandSchemaHandler (cfg : Config) (method : string) (unixNow : Z) : http (list commandBuilderSpec) :=
  if negb (cfg_DebugLogs cfg) then HTTPError 404 "404 page not found" else
  if negb (String.eqb method "GET") then HTTPError 405 "method not allowed" else
  Reply 200 (commandBuilderSpecs (u32 unixNow)).

(** ** Decoding values *)

Definition errType (v : value) : error := Errorf "json: cannot unmarshal" [].

Definition asObj (v : value) : res (list (string * value)) :=
  match v with VObj o => Ok o | VNil => Ok [] | _ => Err (errType v) end.

Fixpoint find_field (tag : string) (o : list (string * value)) : option value :=
  match o with
  | [] => None
  | (k, v) :: o' => if String.eqb k tag then Some v else find_field tag o'
  end.

(** A field of a struct, or its zero value. *)
Definition get {A} (zero : A) (dec : value -> res A) (tag : string) (o : list (string * value)) : res A :=
  match find_field tag o with None | Some VNil => Ok zero | Some v => dec v end.

Definition asUint (bits : Z) (v : value) : res Z :=
  match v with VInt n => if (0 <=? n) && (n <? 2 ^ bits) then Ok n else Err (errType v) | _ => Err (errType v) end.

Definition asBool (v : value) : res bool := match v with VBool b => Ok b | _ => Err (errType v) end.
Definition asStr (v : value) : res string := match v with VStr s => Ok s | _ => Err (errType v) end.

(** The elements of a slice; null elements are zero. *)
Fixpoint asList {A} (zero : A) (dec : value -> res A) (items : list value) : res (list A) :=
  match items with
  | [] => Ok []
  | v :: items' =>
      a ← (match v with VNil => Ok zero | _ => dec v end);
      l ← asList zero dec items';
      Ok (a :: l)
  end.

Definition asSlice {A} (zero : A) (dec : value -> res A) (v : value) : res (list A) :=
  match v with VArr items => asList zero dec items | VNil => Ok [] | _ => Err (errType v) end.

(** An array of [n] elements: what is missing is zero, what is too much is
    dropped. *)
Definition asArray {A} (n : nat) (zero : A) (dec : value -> res A) (v : value) : res (list A) :=
  match v with
  | VArr items => l ← asList zero dec (take n items); Ok (l ++ replicate (n - length l) zero)
  | _ => Err (errType v)
  end.

Abbreviation uint8 tag := (get 0 (asUint 8) tag).
Abbreviation uint16 tag := (get 0 (asUint 16) tag).
Abbreviation uint32 tag := (get 0 (asUint 32) tag).
Abbreviation uint64 tag := (get 0 (asUint 64) tag).
Abbreviation boolean tag := (get false asBool tag).
Abbreviation str tag := (get "" asStr tag).
Abbreviation byteArray n tag := (get (replicate n 0) (asArray n 0 (asUint 8)) tag).

(** ** Decoding requests *)

Section Decode.
(** [json.Unmarshal] into [any], and the text of a value inside a request
    ([json.RawMessage]). *)
Variable parseJSON : bytes -> res value.
Variable textOf : value -> bytes.

(** The text of a field; null keeps its text. *)
Definition rawField (tag : string) (o : list (string * value)) : bytes :=
  match find_field tag o with None => [] | Some v => textOf v end.

Definition decodeCmd2 (v : value) : res Cmd2RebootPayload :=
  o ← asObj v; t ← uint8 "timeout_sec" o; Ok (Build_Cmd2RebootPayload t).

Definition decodeCmd3 (v : value) : res Cmd3FactoryResetPayload :=
  o ← asObj v; t ← uint8 "timeout_sec" o; Ok (Build_Cmd3FactoryResetPayload t).

Definition decodeCmd5 (v : value) : res Cmd5TriggerFlags :=
  o ← asObj v;
  f1 ← boolean "manual_unlock" o;
  f2 ← boolean "scenario_unlock" o;
  f3 ← boolean "auto_registration" o;
  f4 ← boolean "open_for_all" o;
  f5 ← boolean "forward_sms" o;
  f6 ← boolean "notify_unknown_id_sms" o;
  f7 ← boolean "notify_low_balance_sms" o;
  f8 ← boolean "schedule_for_all_calls" o;
  Ok (Build_Cmd5TriggerFlags f1 f2 f3 f4 f5 f6 f7 f8).

Definition decodeCmd6 (v : value) : res Cmd6CaptureIDPayload :=
  o ← asObj v;
  t ← uint8 "capture_timeout" o;
  i ← uint8 "interface" o;
  a ← uint8 "network_address" o;
  Ok (Build_Cmd6CaptureIDPayload t i a).

Definition decodeCmd7 (v : value) : res Cmd7PhotoRequestPayload :=
  o ← asObj v; a ← uint8 "camera_address" o; Ok (Build_Cmd7PhotoRequestPayload a).

Definition decodeCmd8 (v : value) : res Cmd8OutputControlPayload :=
  o ← asObj v;
  s ← uint8 "source_id" o;
  o1 ← uint8 "output1" o;
  o2 ← uint8 "output2" o;
  Ok (Build_Cmd8OutputControlPayload s o1 o2).

Definition decodeCmd11 (v : value) : res Cmd11SendSMSPayload :=
  o ← asObj v; p ← str "phone10" o; m ← str "message" o; Ok (Build_Cmd11SendSMSPayload p m).

Definition decodeRecordRequest (v : value) : res recordRequest :=
  o ← asObj v; t ← uint32 "timestamp" o; Ok (mkRecordRequest t (rawField "record_json" o)).

Definition decodeRecordsRequest (v : value) : res recordsRequest :=
  o ← asObj v; t ← uint32 "timestamp" o; Ok (mkRecordsRequest t (rawField "records_json" o)).

Definition decodeHolidayRequest (v : value) : res holidayRequest :=
  o ← asObj v; t ← uint32 "timestamp" o; d ← str "days_csv" o; Ok (mkHolidayRequest t d).

Definition decodeCmd18 (v : value) : res Cmd18CRCBlockPayload :=
  o ← asObj v; b ← uint8 "block" o; Ok (Build_Cmd18CRCBlockPayload b).

Definition decodeCmd19 (v : value) : res Cmd19StartFWPayload :=
  o ← asObj v;
  n ← uint16 "firmware_number" o;
  t ← uint32 "build_timestamp" o;
  s ← uint32 "file_size" o;
  c ← uint32 "file_crc" o;
  b ← uint16 "block_count" o;
  Ok (Build_Cmd19StartFWPayload n t s c b).

Definition decodeFWBlockRequest (v : value) : res fwBlockRequest :=
  o ← asObj v; n ← uint16 "block_number" o; d ← str "data_hex" o; Ok (mkFWBlockRequest n d).

Definition decodeCmd23 (v : value) : res Cmd23SetTimePayload :=
  o ← asObj v; t ← uint32 "server_time" o; Ok (Build_Cmd23SetTimePayload t).

Definition decodeBindingRequest (v : value) : res bindingRequest :=
  o ← asObj v;
  e ← uint8 "error_code" o;
  n ← uint64 "object_number" o;
  r ← str "object_number_raw_hex" o;
  on ← str "object_name" o;
  cn ← str "controller_name" o;
  p ← str "admin_phone" o;
  Ok (mkBindingRequest e n r on cn p).

Definition decodeCustomRequest (v : value) : res customRequest :=
  o ← asObj v; c ← uint8 "custom_command" o; a ← str "argument_hex" o; Ok (mkCustomRequest c a).

(** Records; their fields have no tags and are named as in Go. *)
Definition decodePeripheral (v : value) : res Cmd12Peripheral :=
  o ← asObj v; a ← uint8 "Address" o; t ← uint8 "Type" o; Ok (Build_Cmd12Peripheral a t).

Definition decodeRelay (v : value) : res Cmd12RelaySettings :=
  o ← asObj v;
  f ← byteArray 8 "Flags" o;
  i ← uint8 "ImpulseSec" o;
  p ← uint8 "PauseSec" o;
  r ← uint8 "Repeats" o;
  Ok (Build_Cmd12RelaySettings f i p r).

Definition zeroPeripheral : Cmd12Peripheral := Build_Cmd12Peripheral 0 0.
Definition zeroRelay : Cmd12RelaySettings := Build_Cmd12RelaySettings (replicate 8 0) 0 0 0.

Definition decodeCmd12Record (v : value) : res Cmd12SettingsRecord :=
  o ← asObj v;
  pin ← uint32 "PINCode" o;
  s1 ← str "Server1" o;
  s2 ← str "Server2" o;
  ntp ← str "NTPServer" o;
  op ← str "Operator" o;
  nt ← uint8 "NetworkType" o;
  cc ← str "CountryCode" o;
  sim ← str "SimPhone" o;
  ussd ← str "USSD" o;
  hour ← uint8 "AutoRebootHour" o;
  dbg ← boolean "ExtendedDebug" o;
  volte ← boolean "UseVoLTE" o;
  act ← boolean "Interface485Active" o;
  ntpOn ← boolean "NTPEnabled" o;
  wiegand ← uint8 "WiegandType" o;
  per ← get (replicate 8 zeroPeripheral) (asArray 8 zeroPeripheral decodePeripheral) "Peripherals" o;
  r1 ← get zeroRelay decodeRelay "Relay1" o;
  r2 ← get zeroRelay decodeRelay "Relay2" o;
  i1 ← uint8 "Input1Function" o;
  i2 ← uint8 "Input2Function" o;
  ra ← byteArray 292 "ReserveA" o;
  rb ← byteArray 101 "ReserveB" o;
  Ok (Build_Cmd12SettingsRecord pin s1 s2 ntp op nt cc sim ussd hour dbg volte act ntpOn wiegand per r1 r2 i1 i2 ra rb).

Definition zeroCmd13 : Cmd13IDRecord := Build_Cmd13IDRecord 0 "" 0 0 0 0 (replicate 12 0).

Definition decodeCmd13Record (v : value) : res Cmd13IDRecord :=
  o ← asObj v;
  slot ← uint16 "SlotIndex" o;
  id ← str "ID" o;
  g ← uint8 "Group" o;
  ban ← uint32 "BanDate" o;
  life ← uint16 "LifetimeMinutes" o;
  ty ← uint8 "IDType" o;
  r ← byteArray 12 "Reserve" o;
  Ok (Build_Cmd13IDRecord slot id g ban life ty r).

Definition zeroCmd14 : Cmd14ScheduleRecord :=
  Build_Cmd14ScheduleRecord 0 0 0 0 0 (replicate 8 0) (replicate 8 0) 0 (replicate 10 0).

Definition decodeCmd14Record (v : value) : res Cmd14ScheduleRecord :=
  o ← asObj v;
  slot ← uint8 "Slot" o;
  sh ← uint8 "StartHour" o;
  sm ← uint8 "StartMinute" o;
  eh ← uint8 "EndHour" o;
  em ← uint8 "EndMinute" o;
  f ← byteArray 8 "Flags" o;
  sc ← byteArray 8 "Scenes" o;
  hl ← uint8 "HolidayLogic" o;
  r ← byteArray 10 "Reserve" o;
  Ok (Build_Cmd14ScheduleRecord slot sh sm eh em f sc hl r).

Definition zeroCmd15 : Cmd15GroupRecord := Build_Cmd15GroupRecord 0 0 (replicate 8 0) (replicate 6 0).

Definition decodeCmd15Record (v : value) : res Cmd15GroupRecord :=
  o ← asObj v;
  slot ← uint8 "Slot" o;
  sched ← uint8 "Schedule" o;
  perm ← byteArray 8 "Permissions" o;
  r ← byteArray 6 "Reserve" o;
  Ok (Build_Cmd15GroupRecord slot sched perm r).

(** ** What was decoded fits its type *)

Lemma get_ok {A} (P : A -> Prop) zero dec tag o a :
  P zero -> (forall v a, dec v = Ok a -> P a) -> get zero dec tag o = Ok a -> P a.
Proof. intros Hz Hd. unfold get. destruct (find_field tag o) as [[]|]; try (by intros [= <-]); by apply Hd. Qed.

Lemma asUint8_byte v b : asUint 8 v = Ok b -> is_byte b.
Proof.
  unfold asUint, is_byte. destruct v; try done. destruct (_ && _) eqn:E; [|done]. intros [= <-].
  apply andb_prop in E as [?%Z.leb_le ?%Z.ltb_lt]. lia.
Qed.

Lemma uint8_byte tag o b : uint8 tag o = Ok b -> is_byte b.
Proof. apply get_ok; [unfold is_byte; lia|]. intros v a. apply asUint8_byte. Qed.

Lemma asList_ok {A} (P : A -> Prop) zero dec items l :
  P zero -> (forall v a, dec v = Ok a -> P a) -> asList zero dec items = Ok l -> Forall P l.
Proof.
  intros Hz Hd. revert l. induction items as [|v items IH]; intros l; cbn [asList]; [by intros [= <-]|].
  intros Ha. apply bind_ok in Ha as (a & Ha & Hl). apply bind_ok in Hl as (l' & Hl & [= <-]).
  constructor; [|by apply IH]. destruct v; try (by eapply Hd). by injection Ha as <-.
Qed.

Lemma asArray_ok {A} (P : A -> Prop) n zero dec v l :
  P zero -> (forall v a, dec v = Ok a -> P a) -> asArray n zero dec v = Ok l -> Forall P l.
Proof.
  intros Hz Hd. destruct v; try done. cbn. intros Ha. apply bind_ok in Ha as (l' & Hl & [= <-]).
  apply Forall_app. split; [by eapply asList_ok|by apply Forall_replicate].
Qed.

Lemma asSlice_ok {A} (P : A -> Prop) zero dec v l :
  P zero -> (forall v a, dec v = Ok a -> P a) -> asSlice zero dec v = Ok l -> Forall P l.
Proof. intros Hz Hd. destruct v; try done; cbn; [by intros [= <-]|by apply asList_ok]. Qed.

Lemma byteArray_wf n tag o l : byteArray n tag o = Ok l -> Forall is_byte l.
Proof.
  assert (is_byte 0) by (unfold is_byte; lia).
  apply get_ok; [by apply Forall_replicate|]. intros v a. apply asArray_ok; [done|apply asUint8_byte].
Qed.

#[local] Hint Resolve uint8_byte byteArray_wf : typed.

Ltac decoded :=
  repeat match goal with
  | H : (_ ≫= _) = Ok _ |- _ => let a := fresh "x" in let Ha := fresh "Hx" in apply bind_ok in H as (a & Ha & H)
  | H : Ok _ = Ok _ |- _ => injection H as <-
  end.

Ltac typed_tac := intros; decoded; unfold typed, wf_bytes; cbn; rewrite ?Forall_cons;
  repeat match goal with |- _ /\ _ => split end; try apply Forall_nil; eauto with typed.

Lemma decodeRelay_typed v r : decodeRelay v = Ok r -> typed_relay r.
Proof. unfold decodeRelay, typed_relay. typed_tac. Qed.

Lemma relay_typed tag o r : get zeroRelay decodeRelay tag o = Ok r -> typed_relay r.
Proof.
  assert (is_byte 0) by (unfold is_byte; lia). apply get_ok; [|apply decodeRelay_typed].
  unfold typed_relay, wf_bytes. cbn. rewrite !Forall_cons. by split_and!.
Qed.

Lemma peripherals_typed tag o l :
  get (replicate 8 zeroPeripheral) (asArray 8 zeroPeripheral decodePeripheral) tag o = Ok l ->
  Forall (fun p => is_byte (per_Address p) /\ is_byte (per_Type p)) l.
Proof.
  assert (is_byte 0 /\ is_byte 0) as H0 by (unfold is_byte; lia).
  apply get_ok; [by apply Forall_replicate|]. intros v a. apply asArray_ok; [done|].
  intros w p. unfold decodePeripheral. typed_tac.
Qed.

#[local] Hint Resolve relay_typed peripherals_typed : typed.

Lemma decodeCmd12_typed v (r : Cmd12SettingsRecord) : decodeCmd12Record v = Ok r -> typed r.
Proof. unfold decodeCmd12Record, typed, typed_cmd12. typed_tac. Qed.

Lemma decodeCmd13_typed v (r : Cmd13IDRecord) : decodeCmd13Record v = Ok r -> typed r.
Proof. unfold decodeCmd13Record, typed, typed_cmd13. typed_tac. Qed.

Lemma decodeCmd14_typed v (r : Cmd14ScheduleRecord) : decodeCmd14Record v = Ok r -> typed r.
Proof. unfold decodeCmd14Record, typed, typed_cmd14. typed_tac. Qed.

Lemma decodeCmd15_typed v (r : Cmd15GroupRecord) : decodeCmd15Record v = Ok r -> typed r.
Proof. unfold decodeCmd15Record, typed, typed_cmd15. typed_tac. Qed.

Lemma zeros_typed : @typed Cmd13IDRecord _ zeroCmd13 /\ @typed Cmd14ScheduleRecord _ zeroCmd14 /\ @typed Cmd15GroupRecord _ zeroCmd15.
Proof.
  assert (is_byte 0) by (unfold is_byte; lia).
  split_and!; unfold typed, typed_cmd13, typed_cmd14, typed_cmd15, wf_bytes; cbn; rewrite ?Forall_cons; by split_and!.
Qed.

(** ** Unmarshalling *)

Definition unmarshalAs {A} (dec : value -> res A) (raw : bytes) : res A := v ← parseJSON raw; dec v.

(** [json.Unmarshal] into a type whose values are decoded by [dec]. *)
#[refine] Definition jsonUnmarshalAs (A : Type) `{Typed A} (dec : value -> res A) (Hdec : forall v a, dec v = Ok a -> typed a)
    : Unmarshal A := {| unmarshal := unmarshalAs dec |}.
Proof. unfold unmarshalAs. intros raw a (v & _ & Ha)%bind_ok. by eapply Hdec. Defined.

#[local, refine] Instance json_Cmd2 : Unmarshal Cmd2RebootPayload := jsonUnmarshalAs Cmd2RebootPayload decodeCmd2 _.
Proof. unfold decodeCmd2, typed, typed_cmd2. typed_tac. Defined.
#[local, refine] Instance json_Cmd3 : Unmarshal Cmd3FactoryResetPayload := jsonUnmarshalAs Cmd3FactoryResetPayload decodeCmd3 _.
Proof. unfold decodeCmd3, typed, typed_cmd3. typed_tac. Defined.
#[local, refine] Instance json_Cmd5 : Unmarshal Cmd5TriggerFlags := jsonUnmarshalAs Cmd5TriggerFlags decodeCmd5 _.
Proof. done. Defined.
#[local, refine] Instance json_Cmd6 : Unmarshal Cmd6CaptureIDPayload := jsonUnmarshalAs Cmd6CaptureIDPayload decodeCmd6 _.
Proof. unfold decodeCmd6, typed, typed_cmd6. typed_tac. Defined.
#[local, refine] Instance json_Cmd7 : Unmarshal Cmd7PhotoRequestPayload := jsonUnmarshalAs Cmd7PhotoRequestPayload decodeCmd7 _.
Proof. unfold decodeCmd7, typed, typed_cmd7. typed_tac. Defined.
#[local, refine] Instance json_Cmd8 : Unmarshal Cmd8OutputControlPayload := jsonUnmarshalAs Cmd8OutputControlPayload decodeCmd8 _.
Proof. unfold decodeCmd8, typed, typed_cmd8. typed_tac. Defined.
#[local, refine] Instance json_Cmd11 : Unmarshal Cmd11SendSMSPayload := jsonUnmarshalAs Cmd11SendSMSPayload decodeCmd11 _.
Proof. done. Defined.
#[local, refine] Instance json_Cmd18 : Unmarshal Cmd18CRCBlockPayload := jsonUnmarshalAs Cmd18CRCBlockPayload decodeCmd18 _.
Proof. unfold decodeCmd18, typed, typed_cmd18. typed_tac. Defined.
#[local, refine] Instance json_Cmd19 : Unmarshal Cmd19StartFWPayload := jsonUnmarshalAs Cmd19StartFWPayload decodeCmd19 _.
Proof. done. Defined.
#[local, refine] Instance json_Cmd23 : Unmarshal Cmd23SetTimePayload := jsonUnmarshalAs Cmd23SetTimePayload decodeCmd23 _.
Proof. done. Defined.
#[local, refine] Instance json_RecordRequest : Unmarshal recordRequest := jsonUnmarshalAs recordRequest decodeRecordRequest _.
Proof. done. Defined.
#[local, refine] Instance json_RecordsRequest : Unmarshal recordsRequest := jsonUnmarshalAs recordsRequest decodeRecordsRequest _.
Proof. done. Defined.
#[local, refine] Instance json_HolidayRequest : Unmarshal holidayRequest := jsonUnmarshalAs holidayRequest decodeHolidayRequest _.
Proof. done. Defined.
#[local, refine] Instance json_FWBlockRequest : Unmarshal fwBlockRequest := jsonUnmarshalAs fwBlockRequest decodeFWBlockRequest _.
Proof. done. Defined.
#[local, refine] Instance json_BindingRequest : Unmarshal bindingRequest := jsonUnmarshalAs bindingRequest decodeBindingRequest _.
Proof. unfold decodeBindingRequest, typed, typed_binding. typed_tac. Defined.
#[local, refine] Instance json_CustomRequest : Unmarshal customRequest := jsonUnmarshalAs customRequest decodeCustomRequest _.
Proof. unfold decodeCustomRequest, typed, typed_custom. typed_tac. Defined.
#[local] Instance json_Cmd12Record : Unmarshal Cmd12SettingsRecord := jsonUnmarshalAs _ decodeCmd12Record decodeCmd12_typed.
#[local, refine] Instance json_Cmd13Records : Unmarshal (list Cmd13IDRecord) :=
  jsonUnmarshalAs (list Cmd13IDRecord) (asSlice zeroCmd13 decodeCmd13Record) _.
Proof. intros v a. apply asSlice_ok; [apply zeros_typed|apply decodeCmd13_typed]. Defined.
#[local, refine] Instance json_Cmd14Records : Unmarshal (list Cmd14ScheduleRecord) :=
  jsonUnmarshalAs (list Cmd14ScheduleRecord) (asSlice zeroCmd14 decodeCmd14Record) _.
Proof. intros v a. apply asSlice_ok; [apply zeros_typed|apply decodeCmd14_typed]. Defined.
#[local, refine] Instance json_Cmd15Records : Unmarshal (list Cmd15GroupRecord) :=
  jsonUnmarshalAs (list Cmd15GroupRecord) (asSlice zeroCmd15 decodeCmd15Record) _.
Proof. intros v a. apply asSlice_ok; [apply zeros_typed|apply decodeCmd15_typed]. Defined.

(** ** From the form to the payload *)

(** The values a form proposes. *)
Definition proposed (s : commandBuilderSpec) : value :=
  VObj (omap (fun f => match fld_DefaultValue f with VNil => None | v => Some (fld_Name f, v) end) (spec_Fields s)).

(** Nothing required is left to fill in. *)
Definition complete (s : commandBuilderSpec) : bool :=
  forallb (fun f => negb (fld_Required f) || match fld_DefaultValue f with VNil => false | _ => true end) (spec_Fields s).

(** The parameters posted are a text of [v]. *)
Definition posted (raw : bytes) (v : value) : Prop :=
  TrimSpace raw <> [] /\ TrimSpace raw <> bytes_of_string "null" /\ parseJSON (TrimSpace raw) = Ok v.

(** A value inside the parameters is read from its own text. *)
Definition nested (v : value) : Prop := textOf v <> [] /\ parseJSON (textOf v) = Ok v.

Lemma decode_posted {A} `{Typed A} (dec : value -> res A) Hdec raw v :
  posted raw v -> @decodeBuilderParams A _ (jsonUnmarshalAs A dec Hdec) raw = wrap "parameters: %w" [] (dec v).
Proof.
  intros (Hne & Hnull & Hp). unfold decodeBuilderParams. cbn [unmarshal jsonUnmarshalAs]. unfold unmarshalAs.
  destruct (Z.eqb_spec (len (TrimSpace raw)) 0) as [H0|_].
  { unfold len in H0. destruct (TrimSpace raw); [done|]. cbn in H0. lia. }
  rewrite bool_decide_eq_false_2 by done. cbn [orb]. by rewrite Hp.
Qed.

Lemma decode_nested {A} `{Typed A} (dec : value -> res A) Hdec field missing v :
  nested v -> @decodeInner A _ (jsonUnmarshalAs A dec Hdec) field missing (textOf v) = wrap field [] (dec v).
Proof.
  intros (Hne & Hp). unfold decodeInner. cbn [unmarshal jsonUnmarshalAs]. unfold unmarshalAs.
  destruct (Z.eqb_spec (len (textOf v)) 0) as [H0|_].
  { unfold len in H0. destruct (textOf v); [done|]. cbn in H0. lia. }
  by rewrite Hp.
Qed.

Lemma asUint_now now : 0 <= now < 2 ^ 32 -> asUint 32 (VInt now) = Ok now.
Proof. intros Hn. unfold asUint. by rewrite (proj2 (Z.leb_le _ _)), (proj2 (Z.ltb_lt _ _)) by lia. Qed.

(** The requests with a timestamp and a nested value. *)
Section Timestamped.
Variables (now : Z) (raw : bytes) (v : value).
Hypothesis Hn : 0 <= now < 2 ^ 32.
Hypothesis Hv : nested v.

Lemma settings_decoded :
  posted raw (VObj [("timestamp", VInt now); ("record_json", v)]) ->
  buildSyncSettings raw = (record ← wrap "record_json: %w" [] (decodeCmd12Record v);
    Cmd12SettingsPayload_Build (Build_Cmd12SettingsPayload now record)).
Proof.
  intros Hp. unfold buildSyncSettings, json_RecordRequest. rewrite (decode_posted _ _ _ _ Hp).
  unfold decodeRecordRequest, get. cbn [asObj mbind res_bind find_field String.eqb Ascii.eqb Bool.eqb].
  rewrite asUint_now by done. unfold rawField. cbn [wrap mbind res_bind rq_RecordJSON rq_Timestamp find_field String.eqb Ascii.eqb Bool.eqb].
  unfold json_Cmd12Record. by rewrite decode_nested.
Qed.

Lemma records_decoded {A} `{Typed A} (dec : value -> res A) Hdec (build : Z -> A -> res bytes) :
  posted raw (VObj [("timestamp", VInt now); ("records_json", v)]) ->
  (req ← decodeBuilderParams (A := recordsRequest) raw;
   records ← @decodeInner A _ (jsonUnmarshalAs A dec Hdec) "records_json: %w" "records_json is required" (rs_RecordsJSON req);
   build (rs_Timestamp req) records)
  = (records ← wrap "records_json: %w" [] (dec v); build now records).
Proof.
  intros Hp. unfold json_RecordsRequest. rewrite (decode_posted _ _ _ _ Hp).
  unfold decodeRecordsRequest, get. cbn [asObj mbind res_bind find_field String.eqb Ascii.eqb Bool.eqb].
  rewrite asUint_now by done. unfold rawField. cbn [wrap mbind res_bind rs_RecordsJSON rs_Timestamp find_field String.eqb Ascii.eqb Bool.eqb].
  by rewrite decode_nested.
Qed.

End Timestamped.

(** Reads the parameters of a posted form, and the timestamp in them. *)
Ltac read_form Hp Hu :=
  unfold json_Cmd2, json_Cmd3, json_Cmd5, json_Cmd6, json_Cmd7, json_Cmd8, json_Cmd18, json_Cmd19, json_Cmd23,
    json_BindingRequest, json_CustomRequest, buildBindingResponse, buildCustom;
  rewrite (decode_posted _ _ _ _ Hp);
  unfold decodeCmd19, decodeCmd23, get; cbn [asObj mbind res_bind find_field String.eqb Ascii.eqb Bool.eqb];
  rewrite ?Hu.

Lemma form_builds now raw s : 0 <= now < 2 ^ 32 -> s ∈ commandBuilderSpecs now -> complete s = true ->
  posted raw (proposed s) ->
  (forall f, f ∈ spec_Fields s -> fld_Kind f = "json" -> nested (fld_DefaultValue f)) ->
  if spec_CommandID s =? 6
  then buildCommandPayload 6 raw = Err (Errorf "cmd 6: network address must be 0 for non-485 interface" [])
  else exists payload, buildCommandPayload (spec_CommandID s) raw = Ok payload.
Proof.
  intros Hn Hs Hc Hp Hj. pose proof (asUint_now now Hn) as Hu.
  unfold commandBuilderSpecs, controlSpecs, syncSpecs, serviceSpecs in Hs. cbn [app] in Hs.
  repeat (apply elem_of_cons in Hs as [->|Hs]); [..|by apply not_elem_of_nil in Hs];
    try (exfalso; discriminate Hc); cbn -[buildCommandPayload]; try (eexists; reflexivity);
    match type of Hp with posted _ ?v => let v' := eval vm_compute in v in change v with v' in Hp end.
  all: unfold buildCommandPayload; cbn [switch existsb Z.eqb Pos.eqb orb].
  all: try (pose proof (Hj _ (list_elem_of_further _ _ _ (list_elem_of_here _ _)) eq_refl) as Hv; cbn in Hv).
  all: try solve [read_form Hp Hu; vm_compute; first [reflexivity|eexists; reflexivity]].
  - rewrite (settings_decoded now raw _ Hn Hv Hp). vm_compute. by eexists.
  - unfold buildSyncIDs, json_Cmd13Records. rewrite (records_decoded now raw _ Hn Hv _ _ (fun t records =>
      Cmd13SyncIDStructuredPayload_Build (Build_Cmd13SyncIDStructuredPayload t records)) Hp). vm_compute. by eexists.
  - unfold buildSyncSchedules, json_Cmd14Records. rewrite (records_decoded now raw _ Hn Hv _ _ (fun t records =>
      Cmd14SyncScheduleStructuredPayload_Build (Build_Cmd14SyncScheduleStructuredPayload t records)) Hp). vm_compute. by eexists.
  - unfold buildSyncGroups, json_Cmd15Records. rewrite (records_decoded now raw _ Hn Hv _ _ (fun t records =>
      Cmd15SyncGroupStructuredPayload_Build (Build_Cmd15SyncGroupStructuredPayload t records)) Hp). vm_compute. by eexists.
Qed.

(** C30: the forms lead to commands: for every command of the schema whose form
    leaves nothing required to fill in, posting the values it proposes builds a
    payload that passes the validation of the command; the one exception is
    "capture ID", whose proposed values the builder refuses (an address on an
    interface that has none). *)
Theorem form_defaults_build now raw s :
  0 <= now < 2 ^ 32 -> s ∈ commandBuilderSpecs now -> complete s = true -> posted raw (proposed s) ->
  (forall f, f ∈ spec_Fields s -> fld_Kind f = "json" -> nested (fld_DefaultValue f)) ->
  if spec_CommandID s =? 6
  then buildCommandPayload 6 raw = Err (Errorf "cmd 6: network address must be 0 for non-485 interface" [])
  else exists payload, buildCommandPayload (spec_CommandID s) raw = Ok payload
         /\ ValidateServerCommandPayload (spec_CommandID s) payload = Ok tt.
Proof.
  intros Hn Hs Hc Hp Hj. pose proof (form_builds now raw s Hn Hs Hc Hp Hj) as Hb. destruct (_ =? 6); [done|].
  destruct Hb as [payload Hb]. exists payload. split; [done|]. by apply sound_buildCommandPayload in Hb as [? _].
Qed.

End Decode.

(** ** The schema and the builder *)

Section Schema.
Context `{!Unmarshal Cmd2RebootPayload} `{!Unmarshal Cmd3FactoryResetPayload} `{!Unmarshal Cmd5TriggerFlags}
  `{!Unmarshal Cmd6CaptureIDPayload} `{!Unmarshal Cmd7PhotoRequestPayload} `{!Unmarshal Cmd8OutputControlPayload}
  `{!Unmarshal Cmd11SendSMSPayload} `{!Unmarshal Cmd18CRCBlockPayload} `{!Unmarshal Cmd19StartFWPayload}
  `{!Unmarshal Cmd23SetTimePayload} `{!Unmarshal recordRequest} `{!Unmarshal recordsRequest} `{!Unmarshal holidayRequest}
  `{!Unmarshal fwBlockRequest} `{!Unmarshal bindingRequest} `{!Unmarshal customRequest}
  `{!Unmarshal Cmd12SettingsRecord} `{!Unmarshal (list Cmd13IDRecord)} `{!Unmarshal (list Cmd14ScheduleRecord)}
  `{!Unmarshal (list Cmd15GroupRecord)}.

(** The commands of the schema. *)
Definition schemaIDs (now : Z) : list Z := map spec_CommandID (commandBuilderSpecs now).

Lemma schemaIDs_eq now :
  schemaIDs now = [2; 3; 5; 6; 7; 8; 9; 10; 11; 12; 13; 14; 15; 16; 17; 18; 19; 20; 21; 22; 23; 25; 27].
Proof. reflexivity. Qed.

(** The schema and the builder agree: the schema lists each command once, under
    its name; the builder refuses every other command as unsupported; and every
    command listed has a priority, so that what is built can be queued. *)
Lemma schema_matches_builder now :
  NoDup (schemaIDs now)
  /\ Forall (fun s => spec_Name s = commandName (spec_CommandID s)
       /\ is_Some (canonicalPriorityForCommand (spec_CommandID s))
       /\ NoDup (map fld_Name (spec_Fields s))) (commandBuilderSpecs now)
  /\ forall id raw, id ∉ schemaIDs now ->
       buildCommandPayload id raw = Err (Errorf "command %d is not supported by builder" [AZ id]).
Proof.
  rewrite schemaIDs_eq. split_and!.
  - apply (bool_decide_unpack _). vm_compute. exact I.
  - unfold commandBuilderSpecs, controlSpecs, syncSpecs, serviceSpecs. cbn [app].
    repeat (apply Forall_cons; split; [split_and!; [reflexivity|by vm_compute; eexists|
      apply (bool_decide_unpack _); vm_compute; exact I]|]). by apply Forall_nil.
  - intros id raw Hid. unfold buildCommandPayload.
    match goal with |- switch ?x ?cs ?d = _ => destruct (switch_cases x cs d) as [(vs & r & Hin & Hx & _)|[_ ->]] end; [|done].
    exfalso. apply Hid. clear Hid. repeat (apply elem_of_cons in Hin as [[= -> ->]|Hin]); [..|by apply not_elem_of_nil in Hin].
    all: repeat (apply elem_of_cons in Hx as [->|Hx]); try (by apply not_elem_of_nil in Hx); set_solver.
Qed.

End Schema.

(** ** A concrete form *)

(** A parser that knows two texts: the parameters of "sync settings" and the
    record in them. *)
Definition demo_settings : commandBuilderSpec := nth 9 (commandBuilderSpecs 1700000000) (spec 0 "" []).

Definition demo_record : value := match spec_Fields demo_settings with [_; f] => fld_DefaultValue f | _ => VNil end.

Definition demo_parse (raw : bytes) : res value :=
  if bool_decide (raw = [2]) then Ok demo_record else Ok (proposed demo_settings).

Lemma form_defaults_build_witness :
  spec_Name demo_settings = "Sync Settings"
  /\ if spec_CommandID demo_settings =? 6 then False
     else exists payload, ValidateServerCommandPayload 12 payload = Ok tt.
Proof.
  split; [reflexivity|].
  pose proof (form_defaults_build demo_parse (fun _ => [2]) 1700000000 [123] demo_settings) as Hf.
  change (spec_CommandID demo_settings) with 12 in *. cbn [Z.eqb Pos.eqb] in *.
  destruct Hf as (payload & Hb & Hv).
  - lia.
  - apply list_elem_of_lookup. exists 9%nat. reflexivity.
  - reflexivity.
  - split; [discriminate|]. split; [discriminate|reflexivity].
  - intros f Hin Hk. change (spec_Fields demo_settings) with
      [fld "timestamp" "Timestamp" "number" true "" (VInt 1700000000); fld "record_json" "Record JSON" "json" true "" demo_record] in Hin.
    apply elem_of_cons in Hin as [->|Hin]; [discriminate Hk|]. apply list_elem_of_singleton in Hin as ->.
    split; [discriminate|reflexivity].
  - exists payload. exact Hv.
Defined.
