(* ===== verification/Server.v ===== *)
(** * The server's state and effects ([internal/server/server.go]: [Server], [New];
      [publishAck], [publishTelemetry] and [observeAckLatency] of [observability.go])

    The state is the session manager, the connection tables, the counters, the
    events published on the bus, the frames written to connections, the
    connections closed by the server, and a counter of interactions with the
    world; the clock and the results of writes are functions of that counter.
    Computations are functions on this state; the mutexes make each locked
    section one such function.  [ready] and [shuttingDown] belong to the life
    cycle and the flush locks to the interleaving of connections. *)

From S2P Require Import Prelude Format Queue Store Retry Frame Session Config IPGuard Metrics.

(** ** State *)

Record Server (S : Type) := mkServer {
  srv_sessions : Manager S;
  srv_guard : Guard;
  srv_metrics : Metrics;
  srv_acks : list AckEvent;
  srv_telemetry : list TelemetryEvent;
  srv_wire : list (Conn * bytes);
  srv_closed : list Conn;
  srv_ticks : nat
}.
Arguments mkServer {S}.
Arguments srv_sessions {S}.
Arguments srv_guard {S}.
Arguments srv_metrics {S}.
Arguments srv_acks {S}.
Arguments srv_telemetry {S}.
Arguments srv_wire {S}.
Arguments srv_closed {S}.
Arguments srv_ticks {S}.

(** [New]. *)
Definition newServer {S} (sessions : Manager S) : Server S :=
  mkServer sessions newGuard newMetrics [] [] [] [] 0.

Definition with_manager {S} m (s : Server S) : Server S :=
  mkServer m (srv_guard s) (srv_metrics s) (srv_acks s) (srv_telemetry s) (srv_wire s) (srv_closed s) (srv_ticks s).
Definition with_guard {S} g (s : Server S) : Server S :=
  mkServer (srv_sessions s) g (srv_metrics s) (srv_acks s) (srv_telemetry s) (srv_wire s) (srv_closed s) (srv_ticks s).
Definition with_metrics {S} x (s : Server S) : Server S :=
  mkServer (srv_sessions s) (srv_guard s) x (srv_acks s) (srv_telemetry s) (srv_wire s) (srv_closed s) (srv_ticks s).
Definition with_acks {S} l (s : Server S) : Server S :=
  mkServer (srv_sessions s) (srv_guard s) (srv_metrics s) l (srv_telemetry s) (srv_wire s) (srv_closed s) (srv_ticks s).
Definition with_telemetry {S} l (s : Server S) : Server S :=
  mkServer (srv_sessions s) (srv_guard s) (srv_metrics s) (srv_acks s) l (srv_wire s) (srv_closed s) (srv_ticks s).
Definition with_wire {S} l (s : Server S) : Server S :=
  mkServer (srv_sessions s) (srv_guard s) (srv_metrics s) (srv_acks s) (srv_telemetry s) l (srv_closed s) (srv_ticks s).
Definition with_closed {S} l (s : Server S) : Server S :=
  mkServer (srv_sessions s) (srv_guard s) (srv_metrics s) (srv_acks s) (srv_telemetry s) (srv_wire s) l (srv_ticks s).
Definition with_ticks {S} n (s : Server S) : Server S :=
  mkServer (srv_sessions s) (srv_guard s) (srv_metrics s) (srv_acks s) (srv_telemetry s) (srv_wire s) (srv_closed s) n.

(** Computations on the server's state. *)
Definition ST (S A : Type) : Type := Server S -> A * Server S.

#[global] Instance ST_ret S : MRet (ST S) := fun A a s => (a, s).
#[global] Instance ST_bind S : MBind (ST S) := fun A B f x s => let '(a, s') := x s in f a s'.

(** A loop over a list. *)
Fixpoint forEach {S A} (f : A -> ST S unit) (l : list A) : ST S unit :=
  match l with
  | [] => mret tt
  | a :: l' => _ ← f a; forEach f l'
  end.

(** ** Effects *)

Section Effects.
Context `{MapRange} {S : Type} `{!Store S}.
Variable cfg : Config.
Variable clock : nat -> Z.
Variable writeErr : nat -> option error.

(** [time.Now()]. *)
Definition now : ST S Z := fun s => (clock (srv_ticks s), with_ticks (Datatypes.S (srv_ticks s)) s).

(** [conn.Write]: the frames on the wire are those whose write succeeded. *)
Definition writeFrame (conn : Conn) (frame : bytes) : ST S (option error) := fun s =>
  let err := writeErr (srv_ticks s) in
  let s := with_ticks (Datatypes.S (srv_ticks s)) s in
  match err with
  | Some _ => (err, s)
  | None => (err, with_wire (srv_wire s ++ [(conn, frame)]) s)
  end.

(** [conn.Close()]. *)
Definition closeConn (conn : Conn) : ST S unit := fun s => (tt, with_closed (srv_closed s ++ [conn]) s).

(** A call to a method of the session manager. *)
Definition manager {A} (op : Manager S -> A * Manager S) : ST S A := fun s =>
  let '(a, m) := op (srv_sessions s) in (a, with_manager m s).

(** A method that returns nothing. *)
Definition manager_ (op : Manager S -> Manager S) : ST S unit := manager (fun m => (tt, op m)).

(** An update of the connection tables, under their mutex. *)
Definition guard_ (op : Guard -> Guard) : ST S unit := fun s => (tt, with_guard (op (srv_guard s)) s).

(** An update of the counters, under their mutexes. *)
Definition metrics_ (op : Metrics -> Metrics) : ST S unit := fun s => (tt, with_metrics (op (srv_metrics s)) s).

(** [recordDebugEvent] and [recordRawMessage] with the time of the call. *)
Definition debugEvent (event : Z -> DebugEvent) : ST S unit :=
  t ← now; metrics_ (recordDebugEvent cfg (event t)).

Definition rawMessage (msg : Z -> RawDebugMessage) : ST S unit :=
  t ← now; metrics_ (recordRawMessage cfg (msg t)).

(** ** Publishing *)

(** [bus.PublishAck] and [bus.PublishTelemetry]. *)
Definition busAck (event : AckEvent) : ST S unit := fun s => (tt, with_acks (srv_acks s ++ [event]) s).

Definition busTelemetry (event : TelemetryEvent) : ST S unit := fun s =>
  (tt, with_telemetry (srv_telemetry s ++ [event]) s).

Definition publishAck (event : AckEvent) : ST S unit :=
  _ ← metrics_ (countAck event);
  _ ← debugEvent (fun t => mkDebugEvent t "ack" (ev_ControllerID event) "" (ev_CommandID event) (ev_CommandSeq event)
        (ev_MessageID event) (ev_TraceID event) (ev_Status event) (ev_Reason event) 0);
  busAck event.

(** The zero time is 0. *)
Definition observeAckLatency (status : string) (cmd : Command) : ST S unit :=
  if negb (isTerminalAckStatus status) || (cmd_CreatedAt cmd =? 0) then mret tt else
  t ← now; metrics_ (countLatency (t - cmd_CreatedAt cmd)).

Definition publishAckWithCommand (event : AckEvent) (cmd : Command) : ST S unit :=
  _ ← observeAckLatency (ev_Status event) cmd; publishAck event.

Definition publishTelemetry (event : TelemetryEvent) (traceSource : string) : ST S unit :=
  _ ← metrics_ (countTelemetry event traceSource);
  busTelemetry event.

End Effects.

(** ** Reasoning about computations *)

Definition triple {S A} (P : Server S -> Prop) (x : ST S A) (Q : A -> Server S -> Prop) : Prop :=
  forall s, P s -> Q (x s).1 (x s).2.

Lemma triple_bind {S A B} P (x : ST S A) (Q : A -> Server S -> Prop) (f : A -> ST S B) R :
  triple P x Q -> (forall a, triple (Q a) (f a) R) -> triple P (x ≫= f) R.
Proof.
  intros Hx Hf s Hs. specialize (Hx s Hs). unfold mbind, ST_bind. destruct (x s) as [a s']. by apply Hf.
Qed.

Lemma triple_ret {S A} (P : Server S -> Prop) (a : A) (Q : A -> Server S -> Prop) :
  (forall s, P s -> Q a s) -> triple P (mret a) Q.
Proof. intros HQ s Hs. by apply HQ. Qed.

Lemma triple_pre {S A} (P P' : Server S -> Prop) (x : ST S A) (Q : A -> Server S -> Prop) :
  triple P x Q -> (forall s, P' s -> P s) -> triple P' x Q.
Proof. intros Hx HP s Hs. by apply Hx, HP. Qed.

Lemma triple_post {S A} (P : Server S -> Prop) (x : ST S A) (Q Q' : A -> Server S -> Prop) :
  triple P x Q -> (forall a s, Q a s -> Q' a s) -> triple P x Q'.
Proof. intros Hx HQ s Hs. by apply HQ, Hx. Qed.

Lemma triple_if {S A} P (b : bool) (x y : ST S A) Q :
  (b = true -> triple P x Q) -> (b = false -> triple P y Q) -> triple P (if b then x else y) Q.
Proof. destruct b; auto. Qed.

(** A loop whose body keeps an invariant. *)
Lemma triple_forEach {S A} (P : Server S -> Prop) (f : A -> ST S unit) (l : list A) :
  (forall a, a ∈ l -> triple P (f a) (fun _ => P)) -> triple P (forEach f l) (fun _ => P).
Proof.
  induction l as [|a l IH]; intros Hf; cbn [forEach]; [by apply triple_ret|].
  eapply triple_bind; [apply Hf; left|]. intros ?. apply IH. intros b Hb. apply Hf. by right.
Qed.

(** ** Computations that only count

    They change neither the sessions, the connections, the published events nor
    the wire. *)

Definition same_world {S} (s s' : Server S) : Prop :=
  srv_sessions s' = srv_sessions s /\ srv_guard s' = srv_guard s /\ srv_acks s' = srv_acks s
  /\ srv_telemetry s' = srv_telemetry s /\ srv_wire s' = srv_wire s /\ srv_closed s' = srv_closed s.

Definition counting {S A} (x : ST S A) : Prop := forall s, same_world s (x s).2.

#[global] Instance same_world_preorder S : PreOrder (@same_world S).
Proof. split; [done|]. intros s1 s2 s3 (?&?&?&?&?&?) (?&?&?&?&?&?). repeat split; congruence. Qed.

Lemma counting_ret {S A} (a : A) : counting (mret (M := ST S) a).
Proof. done. Qed.

Lemma counting_bind {S A B} (x : ST S A) (f : A -> ST S B) :
  counting x -> (forall a, counting (f a)) -> counting (x ≫= f).
Proof.
  intros Hx Hf s. specialize (Hx s). unfold mbind, ST_bind. destruct (x s) as [a s'] eqn:E. cbn in *.
  etrans; [exact Hx|apply Hf].
Qed.

Lemma counting_now {S} clock : counting (now (S := S) clock).
Proof. done. Qed.

Lemma counting_metrics {S} op : counting (metrics_ (S := S) op).
Proof. done. Qed.

#[export] Hint Resolve counting_ret counting_bind counting_now counting_metrics : go.

Lemma counting_debugEvent {S} cfg clock e : counting (debugEvent (S := S) cfg clock e).
Proof. unfold debugEvent. auto with go. Qed.

Lemma counting_rawMessage {S} cfg clock e : counting (rawMessage (S := S) cfg clock e).
Proof. unfold rawMessage. auto with go. Qed.

Lemma counting_observe {S} clock st cmd : counting (observeAckLatency (S := S) clock st cmd).
Proof. unfold observeAckLatency. destruct (_ || _); auto with go. Qed.

#[export] Hint Resolve counting_debugEvent counting_rawMessage counting_observe : go.

(** An assertion that does not depend on the counters. *)
Definition worldly {S} (P : Server S -> Prop) : Prop := forall s s', same_world s s' -> P s -> P s'.

Lemma triple_counting {S A} (P : Server S -> Prop) (x : ST S A) :
  worldly P -> counting x -> triple P x (fun _ => P).
Proof. intros HP Hx s Hs. eapply HP; [apply Hx|done]. Qed.

(** What publishing an acknowledgement does to the rest of the state. *)
Lemma publishAck_effect {S} cfg clock event (s : Server S) :
  same_world (with_acks (srv_acks s ++ [event]) s) (publishAck cfg clock event s).2.
Proof. done. Qed.

Lemma publishAckWithCommand_effect {S} cfg clock event cmd (s : Server S) :
  same_world (with_acks (srv_acks s ++ [event]) s) (publishAckWithCommand cfg clock event cmd s).2.
Proof.
  unfold publishAckWithCommand, mbind, ST_bind.
  pose proof (counting_observe clock (ev_Status event) cmd s) as (?&?&Ha&?&?&?).
  destruct (observeAckLatency clock (ev_Status event) cmd s) as [[] s1]. cbn in Ha.
  etrans; [|apply publishAck_effect]. rewrite Ha. by repeat split.
Qed.
