(* ===== verification/FlushLock.v ===== *)
(** * The flush locks ([internal/server/server.go]: [withFlushLock])

    A sweep, a handler and a caller of [EnqueueCommand] may all want to flush the
    queue of one controller; [withFlushLock] runs the flushes of a controller one
    at a time.  It finds the controller's mutex in a [sync.Map], storing a new
    one if there is none, and holds it while the function runs.  The model has
    the goroutines that are inside [withFlushLock], each at one of the points
    between which others may run: the call, the mutex found, the function
    running.  The theorem shows that this makes a flush one step for every other
    flush of its controller, and that it never blocks for good. *)

From S2P Require Import Prelude.

(** ** State *)

(** Where a goroutine is; mutexes are known by their addresses. *)
Inductive point :=
  | Called (controllerID : string)
  | Found (controllerID : string) (mu : nat)
  | Running (controllerID : string) (mu : nat).

Definition controllerOf (p : point) : string :=
  match p with Called id | Found id _ | Running id _ => id end.

#[global] Instance point_eq_dec : EqDecision point.
Proof. solve_decision. Defined.

(** [allocated]: addresses below are in use.  [locked]: the mutexes that are held. *)
Record Locks := mkLocks {
  flushMu : gmap string nat;
  allocated : nat;
  locked : gset nat;
  goroutines : gmap nat point
}.

Definition no_locks : Locks := mkLocks ∅ 0 ∅ ∅.

(** ** Steps *)

(** [flushMu.LoadOrStore(controllerID, &sync.Mutex{})]. *)
Definition LoadOrStore (controllerID : string) (l : Locks) : nat * Locks :=
  let fresh := allocated l in
  match flushMu l !! controllerID with
  | Some mu => (mu, mkLocks (flushMu l) (S fresh) (locked l) (goroutines l))
  | None => (fresh, mkLocks (<[controllerID := fresh]> (flushMu l)) (S fresh) (locked l) (goroutines l))
  end.

Definition moveTo (g : nat) (p : point) (l : Locks) : Locks :=
  mkLocks (flushMu l) (allocated l) (locked l) (<[g := p]> (goroutines l)).

(** The next thing a goroutine inside [withFlushLock] does, [None] if it has to
    wait: find the mutex, lock it and start the function, or, when the function
    has returned, unlock it and leave. *)
Definition advance (g : nat) (l : Locks) : option Locks :=
  p ← goroutines l !! g;
  match p with
  | Called id => let '(mu, l') := LoadOrStore id l in Some (moveTo g (Found id mu) l')
  | Found id mu =>
      if decide (mu ∈ locked l) then None
      else Some (moveTo g (Running id mu) (mkLocks (flushMu l) (allocated l) ({[mu]} ∪ locked l) (goroutines l)))
  | Running id mu =>
      Some (mkLocks (flushMu l) (allocated l) (locked l ∖ {[mu]}) (delete g (goroutines l)))
  end.

(** A goroutine calls [withFlushLock], or one inside goes on. *)
Inductive lock_step : Locks -> Locks -> Prop :=
  | lock_call g id l : goroutines l !! g = None -> lock_step l (moveTo g (Called id) l)
  | lock_advance g l l' : advance g l = Some l' -> lock_step l l'.

(** ** Invariant *)

(** A mutex belongs to one controller and was allocated; a goroutine has the
    mutex of its controller; a mutex is held exactly while a function runs under
    it, and one function at a time. *)
Record lock_inv (l : Locks) : Prop := mkLockInv {
  inv_fresh id mu : flushMu l !! id = Some mu -> (mu < allocated l)%nat;
  inv_own id id' mu : flushMu l !! id = Some mu -> flushMu l !! id' = Some mu -> id = id';
  inv_found g id mu : goroutines l !! g = Some (Found id mu) -> flushMu l !! id = Some mu;
  inv_running g id mu : goroutines l !! g = Some (Running id mu) -> flushMu l !! id = Some mu /\ mu ∈ locked l;
  inv_held mu : mu ∈ locked l -> exists g id, goroutines l !! g = Some (Running id mu);
  inv_once g g' id id' mu :
    goroutines l !! g = Some (Running id mu) -> goroutines l !! g' = Some (Running id' mu) -> g = g'
}.

Lemma no_locks_inv : lock_inv no_locks.
Proof. by split. Qed.

(** The mutex found is the controller's, and stays it. *)
Lemma LoadOrStore_spec id l mu l' :
  LoadOrStore id l = (mu, l') ->
  flushMu l' !! id = Some mu /\ flushMu l ⊆ flushMu l' /\ locked l' = locked l /\ goroutines l' = goroutines l.
Proof.
  unfold LoadOrStore. destruct (flushMu l !! id) eqn:E; intros [= <- <-]; cbn; [done|].
  split_and!; [by rewrite lookup_insert_eq|by apply insert_subseteq|done..].
Qed.

Lemma LoadOrStore_inv id l : lock_inv l -> lock_inv (LoadOrStore id l).2.
Proof.
  intros []. unfold LoadOrStore. destruct (flushMu l !! id) as [mu|] eqn:E; split; cbn; try done.
  - intros i m Hm. apply inv_fresh0 in Hm. lia.
  - intros i m [[-> <-]|[_ Hm%inv_fresh0]]%lookup_insert_Some; lia.
  - intros i i' m [[<- <-]|[Hn Hm]]%lookup_insert_Some [[<- E']|[Hn' Hm']]%lookup_insert_Some; [done| | |by eapply inv_own0].
    + apply inv_fresh0 in Hm'. lia.
    + apply inv_fresh0 in Hm. lia.
  - intros g i m Hg%inv_found0. rewrite lookup_insert_ne; [done|congruence].
  - intros g i m [Hg ?]%inv_running0. split; [|done]. rewrite lookup_insert_ne; [done|congruence].
Qed.

(** A goroutine that is not running the function may move to a point where it
    has its controller's mutex, or none. *)
Lemma moveTo_inv g p l :
  lock_inv l -> (forall id mu, goroutines l !! g <> Some (Running id mu)) ->
  match p with Called _ => True | Found id mu => flushMu l !! id = Some mu | Running _ _ => False end ->
  lock_inv (moveTo g p l).
Proof.
  intros [] Hg Hp. split; cbn; try done.
  - intros g' id mu [[<- ->]|[_ ?]]%lookup_insert_Some; [done|eauto].
  - intros g' id mu [[<- ->]|[_ ?]]%lookup_insert_Some; [done|eauto].
  - intros mu (g' & id & Hr)%inv_held0. exists g', id. rewrite lookup_insert_ne; [done|]. intros <-. by eapply Hg.
  - intros g1 g2 id id' mu [[<- ->]|[_ ?]]%lookup_insert_Some; [done|].
    intros [[<- ->]|[_ ?]]%lookup_insert_Some; [done|eauto].
Qed.

Lemma advance_inv g l l' : lock_inv l -> advance g l = Some l' -> lock_inv l'.
Proof.
  intros Hi. unfold advance. destruct (goroutines l !! g) as [[id|id mu|id mu]|] eqn:Eg; cbn; [..|done].
  - pose proof (LoadOrStore_inv id l Hi) as Hi'. destruct (LoadOrStore id l) as [mu l1] eqn:El. intros [= <-].
    apply LoadOrStore_spec in El as (Hm & _ & _ & Hgs). apply moveTo_inv; [done| |done]. intros ??. rewrite Hgs. congruence.
  - destruct Hi. destruct (decide _) as [|Hfree]; [done|]. intros [= <-].
    assert (forall g' id', goroutines l !! g' = Some (Running id' mu) -> False) as Hno.
    { intros g' id' [_ ?]%inv_running0. done. }
    split; cbn; try done.
    + intros g' i m [[<- [=]]|[_ ?]]%lookup_insert_Some. eauto.
    + intros g' i m [[<- [= -> ->]]|[_ [? ?]%inv_running0]]%lookup_insert_Some; [|set_solver].
      split; [eauto|set_solver].
    + intros m [->%elem_of_singleton|Hh]%elem_of_union; [exists g, id; by rewrite lookup_insert_eq|].
      apply inv_held0 in Hh as (g' & i & Hr). exists g', i. rewrite lookup_insert_ne; [done|congruence].
    + intros g1 g2 i i' m [[<- H1]|[_ H1]]%lookup_insert_Some [[<- H2]|[_ H2]]%lookup_insert_Some; [done|..|eauto];
        [injection H1 as <- <-; by destruct (Hno _ _ H2)|injection H2 as <- <-; by destruct (Hno _ _ H1)].
  - destruct Hi. intros [= <-]. split; cbn; try done.
    + intros g' i m [_ ?]%lookup_delete_Some. eauto.
    + intros g' i m [Hne Hr]%lookup_delete_Some. destruct (inv_running0 _ _ _ Hr). split; [done|].
      apply elem_of_difference. split; [done|]. intros ->%elem_of_singleton. by apply Hne, (inv_once0 _ _ _ _ _ Eg Hr).
    + intros m [Hh Hne]%elem_of_difference. apply inv_held0 in Hh as (g' & i & Hr). exists g', i. rewrite lookup_delete_ne; [done|].
      intros <-. apply Hne, elem_of_singleton. congruence.
    + intros g1 g2 i i' m [_ ?]%lookup_delete_Some [_ ?]%lookup_delete_Some. eauto.
Qed.

Lemma lock_step_inv l l' : lock_inv l -> lock_step l l' -> lock_inv l'.
Proof.
  intros Hi Hs. destruct Hs as [g id l Hn|g l l' Ha] in Hi |- *; [|by eapply advance_inv].
  apply moveTo_inv; [done| |done]. intros ??. congruence.
Qed.

Lemma lock_steps_inv l0 l : rtc lock_step l0 l -> lock_inv l0 -> lock_inv l.
Proof. induction 1; eauto using lock_step_inv. Qed.

(** C17: the flushes of a controller run one at a time, whatever goroutines call
    and however their steps interleave: no two goroutines are inside the function
    for the same controller.  And the locks never block for good: while any
    goroutine is inside [withFlushLock] for a controller, it or the one that
    runs the function for that same controller can go on. *)
Theorem flushes_one_at_a_time (l : Locks) :
  rtc lock_step no_locks l ->
  (forall g g' id mu mu', goroutines l !! g = Some (Running id mu) -> goroutines l !! g' = Some (Running id mu') -> g = g')
  /\ (forall g p, goroutines l !! g = Some p ->
      exists g' p', goroutines l !! g' = Some p' /\ controllerOf p' = controllerOf p /\ is_Some (advance g' l)).
Proof.
  intros Hr. destruct (lock_steps_inv _ _ Hr no_locks_inv). clear Hr. split.
  - intros g g' id mu mu' H1 H2. destruct (inv_running0 _ _ _ H1) as [Hm _], (inv_running0 _ _ _ H2) as [Hm' _].
    rewrite Hm in Hm'. injection Hm' as <-. eauto.
  - intros g p Hg. destruct (advance g l) eqn:Ea; [by exists g, p; rewrite Ea; eauto|].
    unfold advance in Ea. rewrite Hg in Ea. cbn in Ea. destruct p as [id|id mu|id mu]; [by destruct (LoadOrStore id l)| |discriminate Ea].
    destruct (decide _) as [Hh|]; [|done]. apply inv_held0 in Hh as (g' & id' & Hr). exists g', (Running id' mu). split_and!; [done| |].
    + apply inv_found0 in Hg. apply inv_running0 in Hr as [Hm _]. cbn. by apply (inv_own0 _ _ mu).
    + unfold advance. rewrite Hr. by eexists.
Qed.

(** Two goroutines flush for A, a third for B: the second has to wait. *)
Definition demo_locks : Locks :=
  mkLocks {["A" := 0%nat; "B" := 2%nat]} 3 {[0%nat; 2%nat]}
    {[1%nat := Running "A" 0; 2%nat := Found "A" 0; 3%nat := Running "B" 2]}.

Lemma flushes_one_at_a_time_witness :
  goroutines demo_locks !! 2%nat = Some (Found "A" 0) /\ advance 2 demo_locks = None
  /\ exists g' p', goroutines demo_locks !! g' = Some p' /\ controllerOf p' = "A" /\ is_Some (advance g' demo_locks).
Proof.
  split; [reflexivity|]. split; [reflexivity|].
  apply (proj2 (flushes_one_at_a_time demo_locks ltac:(
    eapply rtc_l; [apply (lock_call 1 "A"); reflexivity|];
    eapply rtc_l; [apply (lock_call 2 "A"); reflexivity|];
    eapply rtc_l; [apply (lock_advance 1); reflexivity|];
    eapply rtc_l; [apply (lock_advance 2); reflexivity|];
    eapply rtc_l; [apply (lock_advance 1); reflexivity|];
    eapply rtc_l; [apply (lock_call 3 "B"); reflexivity|];
    eapply rtc_l; [apply (lock_advance 3); reflexivity|];
    eapply rtc_l; [apply (lock_advance 3); reflexivity|];
    apply rtc_refl)) 2%nat (Found "A" 0)). reflexivity.
Defined.
