(* ===== verification/Delivery.v ===== *)
(** * Delivery of queued commands ([internal/server/server.go]: [flushQueue],
      [EnqueueCommand], [processInFlight], [ttlToWire], the acknowledgement
      frames, [sweepLoop])

    A flush holds the controller's flush lock; it is one sequential computation
    on the server's state.  [dctx.Queue] is the queue of the controller's
    session, reached through the manager.  Times are nanoseconds since the Unix
    epoch. *)

From S2P Require Import Prelude Format Queue Store Retry Frame Session Config Policy Validation Builders IPGuard.
From S2P Require Import Metrics Server.

(** ** Data *)

Definition ttlToWire (ttl : Z) : Z :=
  if ttl <=? 0 then 255 else
  let sec := Z.quot ttl second in
  let sec := if sec <=? 0 then 1 else sec in
  if 250 <? sec then 255 else u8 sec.

Definition set_RetrySeq (n : Z) (c : Command) : Command :=
  mkCommand (cmd_MessageID c) (cmd_TraceID c) (cmd_DedupKey c) (cmd_CommandID c) (cmd_TTL c)
    (cmd_CreatedAt c) (cmd_Payload c) (cmd_Priority c) (cmd_Attempts c) n.

Definition set_CreatedAt (t : Z) (c : Command) : Command :=
  mkCommand (cmd_MessageID c) (cmd_TraceID c) (cmd_DedupKey c) (cmd_CommandID c) (cmd_TTL c)
    t (cmd_Payload c) (cmd_Priority c) (cmd_Attempts c) (cmd_RetrySeq c).

(** The acknowledgement event of a command. *)
Definition ackFor (controllerID : string) (cmd : Command) (seq : Z) (status reason : string) : AckEvent :=
  mkAckEvent (cmd_MessageID cmd) (cmd_TraceID cmd) controllerID (cmd_CommandID cmd) seq status reason.

(** [conn.RemoteAddr().String()]. *)
Definition remoteAddr (conn : Conn) : string := default "" (conn_remote conn).

(** [flushQueue]'s local variables: the commands set aside, the copies of the
    mode flags in the delivery context, the byte budget left. *)
Record flush := mkFlush {
  fl_skipped : list Command;
  fl_FWMode : bool;
  fl_SyncMode : bool;
  fl_remaining : Z
}.

(** How a round of the inner loop ends: [continue], [return], or the command
    was sent and the loop left. *)
Inductive flow :=
  | Continue (f : flush)
  | Return (err : option error)
  | Sent (f : flush).

Definition errPanic : error := Errorf "panic" [].

Section Delivery.
Context `{MapRange} {S : Type} `{!Store S}.
Variable cfg : Config.
Variable clock : nat -> Z.
Variable writeErr : nat -> option error.

Abbreviation now := (now clock).
Abbreviation writeFrame := (writeFrame writeErr).
Abbreviation publishAck := (publishAck cfg clock).
Abbreviation publishAckWithCommand := (publishAckWithCommand cfg clock).
Abbreviation debugEvent := (debugEvent cfg clock).
Abbreviation rawMessage := (rawMessage cfg clock).

(** Calls on [dctx.Queue]. *)
Definition queueCall (controllerID : string) (op : qop) : ST S (list Command) := manager (queueOp controllerID op).

Definition queueOf (controllerID : string) : ST S ControllerQueue := fun s =>
  (match sessions (srv_sessions s) !! controllerID with Some x => s_Queue x | None => NewControllerQueue end, s).

Definition pushAll (controllerID : string) (cmds : list Command) : ST S unit :=
  forEach (fun c => _ ← queueCall controllerID (OpPush c); mret tt) cmds.

Definition publishExpired (controllerID : string) (cmds : list Command) : ST S unit :=
  forEach (fun c => publishAckWithCommand (ackFor controllerID c 0 "expired" "ttl expired before send") c) cmds.

(** [s.publishAckWithCommand] of a failure before a sequence number is known. *)
Definition publishFailed (controllerID : string) (cmd : Command) (seq : Z) (reason : string) : ST S unit :=
  publishAckWithCommand (ackFor controllerID cmd seq "failed" reason) cmd.

(** ** One command *)

(** The debug records of a sent frame. *)
Definition recordSent (controllerID : string) (conn : Conn) (mode : FrameMode) (cmd : Command) (seq : Z)
    (frameBytes payload : bytes) : ST S unit :=
  _ ← debugEvent (fun t => mkDebugEvent t "tx" controllerID (remoteAddr conn) (cmd_CommandID cmd) seq
        (cmd_MessageID cmd) (cmd_TraceID cmd) "" "" (len (cmd_Payload cmd) + 1));
  rawMessage (fun t => mkRawDebugMessage t "tx" controllerID (remoteAddr conn) (cmd_CommandID cmd) seq mode
    (ttlToWire (cmd_TTL cmd)) (EncodeToString frameBytes) (EncodeToString payload) (len payload)
    (cmd_MessageID cmd) (cmd_TraceID cmd)).

(** From the mode switches to the end of the round, after the frame was
    written and registered. *)
Definition afterWrite (controllerID : string) (conn : Conn) (mode : FrameMode) (f : flush) (cmd : Command) (seq : Z)
    (frameBytes payload : bytes) : ST S flow :=
  let isSync := (12 <=? cmd_CommandID cmd) && (cmd_CommandID cmd <=? 16) in
  e1 ← (if isSync then manager (SetSyncMode controllerID true) else mret None);
  match e1 with
  | Some e => _ ← publishFailed controllerID cmd 0 (render e); mret (Return (Some e))
  | None =>
      let sync := if isSync then true else fl_SyncMode f in
      e2 ← (if cmd_CommandID cmd =? 19 then manager (SetFWMode controllerID true) else mret None);
      match e2 with
      | Some e => _ ← publishFailed controllerID cmd 0 (render e); mret (Return (Some e))
      | None =>
          let fw := if cmd_CommandID cmd =? 19 then true else fl_FWMode f in
          _ ← recordSent controllerID conn mode cmd seq frameBytes payload;
          _ ← publishAck (ackFor controllerID cmd seq "accepted" "");
          e3 ← manager (AckSent controllerID);
          match e3 with
          | Some e => _ ← publishFailed controllerID cmd seq (render e); mret (Return (Some e))
          | None => mret (Sent (mkFlush (fl_skipped f) fw sync (fl_remaining f - len frameBytes)))
          end
      end
  end.

(** The budget check, the write and the registration. *)
Definition transmit (controllerID : string) (conn : Conn) (mode : FrameMode) (f : flush) (cmd : Command) (seq : Z)
    (frameBytes payload : bytes) : ST S flow :=
  if fl_remaining f <? len frameBytes then
    _ ← queueCall controllerID (OpPush cmd);
    _ ← pushAll controllerID (fl_skipped f);
    mret (Return None)
  else
    w ← writeFrame conn frameBytes;
    match w with
    | Some e =>
        _ ← publishFailed controllerID cmd 0 (render e);
        _ ← pushAll controllerID (fl_skipped f);
        mret (Return (Some e))
    | None =>
        t ← now;
        r ← manager (RegisterInFlight controllerID seq cmd t);
        match r with
        | Some e =>
            _ ← publishFailed controllerID cmd 0 (render e);
            _ ← pushAll controllerID (fl_skipped f);
            mret (Return (Some e))
        | None => afterWrite controllerID conn mode f cmd seq frameBytes payload
        end
    end.

(** The body of the inner loop for a popped command. *)
Definition tryCommand (controllerID : string) (conn : Conn) (mode : FrameMode) (f : flush) (cmd : Command) : ST S flow :=
  t ← now;
  if Expired cmd t then
    _ ← publishAckWithCommand (ackFor controllerID cmd 0 "expired" "ttl expired before send") cmd;
    mret (Continue f)
  else if negb (commandAllowedInModes (cmd_CommandID cmd) (fl_FWMode f) (fl_SyncMode f)) then
    mret (Continue (mkFlush (fl_skipped f ++ [cmd]) (fl_FWMode f) (fl_SyncMode f) (fl_remaining f)))
  else
    let payload := cmd_CommandID cmd :: cmd_Payload cmd in
    match ValidateServerCommandPayload (cmd_CommandID cmd) (cmd_Payload cmd) with
    | Panic => mret (Return (Some errPanic))
    | Err e =>
        _ ← publishFailed controllerID cmd 0 (sprintf "invalid payload: %v" [AS (render e)]);
        mret (Continue f)
    | Ok _ =>
        r ← (if cmd_RetrySeq cmd =? 0 then manager (NextCommandSeq controllerID) else mret (Ok (cmd_RetrySeq cmd)));
        match r with
        | Panic => mret (Return (Some errPanic))
        | Err e => _ ← pushAll controllerID (fl_skipped f); mret (Return (Some e))
        | Ok seq =>
            let cmd := set_RetrySeq 0 cmd in
            match EncodeFrame (mkFrame (ttlToWire (cmd_TTL cmd)) seq payload mode) with
            | Panic => mret (Return (Some errPanic))
            | Err e => _ ← publishFailed controllerID cmd 0 (render e); mret (Continue f)
            | Ok frameBytes => transmit controllerID conn mode f cmd seq frameBytes payload
            end
        end
    end.

(** [for i := 0; i < scan; i++]. *)
Fixpoint scanLoop (n : nat) (controllerID : string) (conn : Conn) (mode : FrameMode) (f : flush) : ST S flow :=
  match n with
  | O => mret (Continue f)
  | Datatypes.S n' =>
      popped ← queueCall controllerID (OpPop (fl_FWMode f) (fl_SyncMode f));
      match popped with
      | [] => mret (Continue f)
      | cmd :: _ =>
          r ← tryCommand controllerID conn mode f cmd;
          match r with
          | Continue f' => scanLoop n' controllerID conn mode f'
          | _ => mret r
          end
      end
  end.

(** The mode fallbacks at the end of a round of the outer loop. *)
Definition endRound (controllerID : string) (f : flush) : ST S flow :=
  q ← queueOf controllerID;
  e1 ← (if fl_SyncMode f && negb (HasSync q) then manager (SetSyncMode controllerID false) else mret None);
  match e1 with
  | Some e => mret (Return (Some e))
  | None =>
      let sync := fl_SyncMode f && HasSync q in
      e2 ← (if fl_FWMode f && negb (HasFW q) then manager (SetFWMode controllerID false) else mret None);
      match e2 with
      | Some e => mret (Return (Some e))
      | None => mret (Continue (mkFlush [] (fl_FWMode f && HasFW q) sync (fl_remaining f)))
      end
  end.

(** [for remaining > 0 { ... }]; [None] if the fuel runs out. *)
Fixpoint flushLoop (fuel : nat) (controllerID : string) (conn : Conn) (mode : FrameMode) (f : flush)
    : ST S (option (option error)) :=
  match fuel with
  | O => mret None
  | Datatypes.S fuel' =>
      if fl_remaining f <=? 0 then mret (Some None) else
      t ← now;
      expired ← queueCall controllerID (OpDrain t);
      _ ← publishExpired controllerID expired;
      q ← queueOf controllerID;
      let scan := Len q in
      if scan =? 0 then mret (Some None) else
      r ← scanLoop (Z.to_nat scan) controllerID conn mode (mkFlush [] (fl_FWMode f) (fl_SyncMode f) (fl_remaining f));
      match r with
      | Return e => mret (Some e)
      | Continue f' => _ ← pushAll controllerID (fl_skipped f'); mret (Some None)
      | Sent f' =>
          _ ← pushAll controllerID (fl_skipped f');
          r' ← endRound controllerID f';
          match r' with
          | Return e => mret (Some e)
          | Continue f'' | Sent f'' => flushLoop fuel' controllerID conn mode f''
          end
      end
  end.

(** The budget of a flush. *)
Definition flushBudget (dctx : DeliveryContext) : Z :=
  if dc_BufferFree dctx <=? 0 then 1500 else dc_BufferFree dctx.

(** Every round of the outer loop that does not end it sends a frame of at
    least one byte, so that [budget + 1] rounds are enough
    ([flushLoop_spec]). *)
Definition flushQueue (controllerID : string) : ST S (option (option error)) := fun s =>
  match GetDeliveryContext controllerID (srv_sessions s) with
  | None => (Some (Some ErrSessionNotFound), s)
  | Some dctx =>
      match dc_Conn dctx with
      | None => (Some None, s)
      | Some conn =>
          if 0 <? InFlightCount controllerID (srv_sessions s) then (Some None, s) else
          let remaining := flushBudget dctx in
          flushLoop (Datatypes.S (Z.to_nat remaining)) controllerID conn (dc_FrameMode dctx)
            (mkFlush [] (dc_FWMode dctx) (dc_SyncMode dctx) remaining) s
      end
  end.

(** ** Enqueueing and timeouts *)

(** The zero time is 0.  The manager's readings of the clock are taken one
    after the other. *)
Definition EnqueueCommand (controllerID : string) (cmd : Command) : ST S (option error) :=
  cmd ← (if cmd_CreatedAt cmd =? 0 then t ← now; mret (set_CreatedAt t cmd) else mret cmd);
  match normalizeCommandPriority cmd with
  | Panic => mret (Some errPanic)
  | Err e => mret (Some e)
  | Ok normalized =>
      created ← now;
      since ← now;
      recorded ← now;
      r ← manager (fun m =>
        let '(events, e, m) := EnqueueWithEvents controllerID normalized created since recorded m in
        ((events, e), m));
      _ ← forEach (fun e => metrics_ (recordOverflowMetric e)) r.1;
      mret r.2
  end.

(** The event published for an outcome of [ProcessInFlight]. *)
Definition publishOutcome (controllerID : string) (o : InFlightOutcome) : ST S unit :=
  let event := ackFor controllerID (o_Command o) (o_Seq o) (o_Type o) (o_Reason o) in
  if String.eqb (o_Type o) "retrying" then publishAck event
  else if String.eqb (o_Type o) "expired" || String.eqb (o_Type o) "failed"
  then publishAckWithCommand event (o_Command o)
  else mret tt.

(** [visits] is the order in which Go ranges over the commands in flight. *)
Definition processInFlight (controllerID : string) (visits : list Z) : ST S unit :=
  t ← now;
  r ← manager (fun m =>
    let '(outcomes, e, m) := ProcessInFlight controllerID t (Some (deliveryPolicyForCommand cfg)) visits m in
    ((outcomes, e), m));
  match r.2 with
  | Some _ => mret tt
  | None => forEach (publishOutcome controllerID) r.1
  end.

(** One tick of [sweepLoop]; flush errors are only logged.  [visits] gives the
    order of [ProcessInFlight]'s loop for each controller. *)
Definition sweep (visits : string -> list Z) : ST S unit := fun s =>
  forEach (fun controllerID =>
    _ ← processInFlight controllerID (visits controllerID);
    _ ← flushQueue controllerID;
    mret tt) (ControllerIDs (srv_sessions s)) s.

(** ** Acknowledgement frames *)

Definition CmdRegistrationAck : Z := 1.
Definition CmdControllerAck : Z := 24.
Definition AckCodeOK : Z := 0.

(** [unixTime] is [time.Now().UTC().Unix()]. *)
Definition buildRegistrationAckPayload (unixTime : Z) : res bytes :=
  Cmd1RegistrationAckPayload_Build {| c1_ExecutionCode := AckCodeOK; c1_ServerTime := u32 unixTime |}.

Definition buildControllerAckPayload (seq code : Z) : res bytes :=
  Cmd24AckPayload_Build {| c24_CommandSeq := seq; c24_Code := code |}.

(** Encodes and writes an acknowledgement frame; the result is the frame and
    its payload. *)
Definition sendAck (conn : Conn) (mode : FrameMode) (seq commandID : Z) (built : res bytes) : ST S (res (bytes * bytes)) :=
  match (payload ← built;
         frame ← EncodeFrame (mkFrame 255 seq (commandID :: payload) mode);
         Ok (frame, payload)) with
  | Err e => mret (Err e)
  | Panic => mret Panic
  | Ok (frame, payload) =>
      w ← writeFrame conn frame;
      match w with Some e => mret (Err e) | None => mret (Ok (frame, payload)) end
  end.

Definition sendRegistrationAck (conn : Conn) (mode : FrameMode) (seq : Z) : ST S (res (bytes * bytes)) :=
  t ← now;
  sendAck conn mode seq CmdRegistrationAck (buildRegistrationAckPayload (t / second)).

Definition sendControllerAck (conn : Conn) (mode : FrameMode) (seq code : Z) : ST S (res (bytes * bytes)) :=
  sendAck conn mode seq CmdControllerAck (buildControllerAckPayload seq code).

End Delivery.

Section Flush.
Context `{MapRange} {S : Type} `{!Store S} `{!StoreLaws S}.
Variable cfg : Config.
Variable clock : nat -> Z.
Variable writeErr : nat -> option error.
Variable id : string.
Variable conn : Conn.
Variable mode : FrameMode.

(** ** What a flush keeps track of *)

Definition msgs (l : list Command) : list string := map cmd_MessageID l.

Definition present (s : Server S) : Prop := is_Some (sessions (srv_sessions s) !! id).

(** A frame that carries a valid command to the controller. *)
Definition good_frame (w : Conn * bytes) : Prop :=
  exists f c p, w.1 = conn /\ EncodeFrame f = Ok w.2 /\ Mode f = mode /\ Payload f = c :: p
    /\ ValidateServerCommandPayload c p = Ok tt.

Definition wire_len (l : list (Conn * bytes)) : Z := foldr (fun w n => len w.2 + n) 0 l.

Lemma wire_len_app l1 l2 : wire_len (l1 ++ l2) = wire_len l1 + wire_len l2.
Proof. unfold wire_len. induction l1 as [|w l1 IH]; cbn; [done|]. rewrite IH. lia. Qed.

(** The queued commands, the acknowledgements and the wire when the flush
    began. *)
Variable q0 : list string.
Variable acks0 : list AckEvent.
Variable wire0 : list (Conn * bytes).

(** [spent] bytes of valid frames were written since. *)
Definition wrote (spent : Z) (s : Server S) : Prop :=
  exists new, srv_wire s = wire0 ++ new /\ Forall good_frame new /\ wire_len new = spent.

(** The commands queued at the beginning are queued, [held] by the loop, or
    were acknowledged once. *)
Definition Inv (held : list string) (spent : Z) (s : Server S) : Prop :=
  present s /\ wrote spent s
  /\ exists new, srv_acks s = acks0 ++ new
       /\ q0 ≡ₚ held ++ msgs (queued (srv_sessions s) id) ++ map ev_MessageID new
       /\ Forall (fun e => ev_Status e ∈ ["accepted"; "expired"; "failed"]) new.

Lemma Inv_wrote held spent s : Inv held spent s -> wrote spent s.
Proof. by intros (_ & ? & _). Qed.

Lemma worldly_wrote spent : worldly (wrote spent).
Proof. intros s s' (_ & _ & _ & _ & Hw & _). unfold wrote. by rewrite Hw. Qed.

Lemma worldly_Inv held spent : worldly (Inv held spent).
Proof.
  intros s s' Hs (Hp & Hw & Ha). split; [|split; [by eapply worldly_wrote|]];
    destruct Hs as (Hm & _ & Hacks & _); unfold present in *; [by rewrite Hm|by rewrite Hm, Hacks].
Qed.

(** ** Steps that leave the queue alone *)

Lemma Inv_counting {A} (x : ST S A) held spent : counting x -> triple (Inv held spent) x (fun _ => Inv held spent).
Proof. apply triple_counting, worldly_Inv. Qed.

(** A manager call that changes neither the queue nor the presence of the
    session. *)
Definition quiet_op {A} (op : Manager S -> A * Manager S) : Prop :=
  forall m s, sessions m !! id = Some s ->
    exists s', sessions (op m).2 !! id = Some s' /\ s_Queue s' = s_Queue s.

Lemma Inv_manager {A} (op : Manager S -> A * Manager S) held spent :
  quiet_op op -> triple (Inv held spent) (manager op) (fun _ => Inv held spent).
Proof.
  intros Hop s ([x Hx] & Hw & new & Ha & Hp & Hst). unfold manager.
  destruct (Hop _ _ Hx) as (x' & Hx' & Hq). destruct (op (srv_sessions s)) as [a m]. cbn in *.
  split; [by exists x'|]. split; [done|]. exists new. split_and!; try done. cbn.
  unfold queued in *. rewrite Hx'. rewrite Hx in Hp. by rewrite Hq.
Qed.

Lemma wrote_manager {A} (op : Manager S -> A * Manager S) spent :
  triple (wrote spent) (manager op) (fun _ => wrote spent).
Proof. intros s Hs. unfold manager. by destruct (op _). Qed.

Lemma wrote_publishFailed cmd seq reason spent :
  triple (wrote spent) (publishFailed (S := S) cfg clock id cmd seq reason) (fun _ => wrote spent).
Proof. intros s Hs. eapply worldly_wrote; [apply publishAckWithCommand_effect|done]. Qed.

Lemma wrote_pushAll cmds spent : triple (wrote spent) (pushAll id cmds) (fun _ => wrote spent).
Proof.
  apply triple_forEach. intros c _. eapply triple_bind; [apply wrote_manager|]. intros ?. by apply triple_ret.
Qed.

Lemma quiet_putPersist (g : Session -> Session) {A} (op : Manager S -> A * Manager S) :
  (forall m s, sessions m !! id = Some s -> sessions (op m).2 = <[id := g s]> (sessions m)) ->
  (forall s, s_Queue (g s) = s_Queue s) -> quiet_op op.
Proof. intros Hop Hg m s Hs. exists (g s). by rewrite (Hop m s Hs), lookup_insert_eq. Qed.

Lemma putPersist_sessions' i s (m : Manager S) : sessions (putPersist i s m).2 = <[i := s]> (sessions m).
Proof. destruct (putPersist i s m) as [e m'] eqn:E. by apply putPersist_sessions in E. Qed.

Lemma quiet_SetSyncMode b : quiet_op (SetSyncMode id b).
Proof.
  apply (quiet_putPersist (set_SyncMode b)); [|done]. intros m s Hs. unfold SetSyncMode. rewrite Hs.
  apply putPersist_sessions'.
Qed.

Lemma quiet_SetFWMode b : quiet_op (SetFWMode id b).
Proof.
  apply (quiet_putPersist (set_FWMode b)); [|done]. intros m s Hs. unfold SetFWMode. rewrite Hs.
  apply putPersist_sessions'.
Qed.

Lemma quiet_AckSent : quiet_op (AckSent id).
Proof.
  apply (quiet_putPersist (fun s => s)); [|done]. intros m s Hs. unfold AckSent. rewrite Hs.
  unfold persistLocked. destruct (SaveSession _ _). cbn. by rewrite insert_id.
Qed.

Lemma quiet_NextCommandSeq : quiet_op (NextCommandSeq id).
Proof.
  apply (quiet_putPersist (fun s => set_NextSeq (u8 (NextSeq s + 1)) s)); [|done].
  intros m s Hs. unfold NextCommandSeq. rewrite Hs.
  pose proof (putPersist_sessions' id (set_NextSeq (u8 (NextSeq s + 1)) s) m) as Hp.
  by destruct (putPersist _ _ _).
Qed.

Lemma quiet_RegisterInFlight seq cmd t : quiet_op (RegisterInFlight id seq cmd t).
Proof.
  apply (quiet_putPersist (fun s =>
    set_InFlight (<[seq := mkInFlightEntry seq cmd t (cmd_Attempts cmd + 1)]> (InFlight s)) s)); [|done].
  intros m s Hs. unfold RegisterInFlight. rewrite Hs. apply putPersist_sessions'.
Qed.

(** ** Steps that move commands *)

Lemma Inv_acked e held spent (s s' : Server S) :
  ev_Status e ∈ ["accepted"; "expired"; "failed"] ->
  same_world (with_acks (srv_acks s ++ [e]) s) s' ->
  Inv (ev_MessageID e :: held) spent s -> Inv held spent s'.
Proof.
  intros He Hs (Hpr & Hw & new & Ha & Hp & Hst). eapply worldly_Inv; [exact Hs|]. split; [done|]. split; [done|].
  exists (new ++ [e]). cbn. rewrite Ha, <- app_assoc. split; [done|]. split.
  - rewrite Hp, map_app. cbn. solve_Permutation.
  - apply Forall_app. split; [done|]. by apply Forall_singleton.
Qed.

Lemma Inv_publish e held spent :
  ev_Status e ∈ ["accepted"; "expired"; "failed"] ->
  triple (Inv (ev_MessageID e :: held) spent) (publishAck cfg clock e) (fun _ => Inv held spent).
Proof. intros He s. by apply Inv_acked. Qed.

Lemma Inv_publishWith e cmd held spent :
  ev_Status e ∈ ["accepted"; "expired"; "failed"] ->
  triple (Inv (ev_MessageID e :: held) spent) (publishAckWithCommand cfg clock e cmd) (fun _ => Inv held spent).
Proof. intros He s. apply Inv_acked; [done|]. apply publishAckWithCommand_effect. Qed.

Lemma queueOp_present op (m : Manager S) s :
  sessions m !! id = Some s ->
  queueOp id op m = ((q_step op (s_Queue s)).1, put id (set_Queue (q_step op (s_Queue s)).2 s) m).
Proof. intros Hs. unfold queueOp. rewrite Hs. by destruct (q_step op (s_Queue s)). Qed.

(** An operation on the queue: what comes out is held from then on. *)
Lemma Inv_queue op held spent (h' : list Command -> list string) :
  (forall q, held ++ msgs (Snapshot q) ≡ₚ h' (q_step op q).1 ++ msgs (Snapshot (q_step op q).2)) ->
  triple (Inv held spent) (queueCall id op) (fun out => Inv (h' out) spent).
Proof.
  intros Hop s ([x Hx] & Hw & new & Ha & Hp & Hst). unfold queueCall, manager.
  rewrite (queueOp_present _ _ _ Hx). cbn. split; [exists (set_Queue (q_step op (s_Queue x)).2 x); cbn; apply lookup_insert_eq|].
  split; [done|]. exists new. split_and!; try done.
  unfold queued in *. cbn. rewrite lookup_insert_eq. cbn. rewrite Hx in Hp.
  rewrite Hp, !app_assoc. by rewrite (Hop (s_Queue x)).
Qed.

Lemma Inv_push c held spent :
  triple (Inv (cmd_MessageID c :: held) spent) (queueCall id (OpPush c)) (fun _ => Inv held spent).
Proof.
  apply (Inv_queue (OpPush c) _ _ (fun _ => held)). intros q. cbn. unfold msgs.
  rewrite Snapshot_Push. cbn. solve_Permutation.
Qed.

Lemma Inv_pushAll cmds held spent :
  triple (Inv (msgs cmds ++ held) spent) (pushAll id cmds) (fun _ => Inv held spent).
Proof.
  induction cmds as [|c cmds IH]; [by apply triple_ret|]. unfold pushAll. cbn [forEach msgs map app].
  eapply triple_bind with (Q := fun _ => Inv (msgs cmds ++ held) spent); [|intros ?; apply IH].
  eapply triple_bind; [apply Inv_push|]. intros ?. by apply triple_ret.
Qed.

(** ** The loop *)

(** The budget of the flush. *)
Variable B : Z.

(** What holds when a round, entered with [r] bytes left, ends. *)
Definition round_post (r : Z) (o : flow) (s : Server S) : Prop :=
  match o with
  | Continue f => fl_remaining f = r /\ Inv (msgs (fl_skipped f)) (B - r) s
  | Sent f => 0 <= fl_remaining f < r /\ Inv (msgs (fl_skipped f)) (B - fl_remaining f) s
  | Return None => exists spent, spent <= B /\ Inv [] spent s
  | Return (Some _) => exists spent, spent <= B /\ wrote spent s
  end.

Lemma Inv_opt (b : bool) (op : Manager S -> option error * Manager S) held spent :
  quiet_op op -> triple (Inv held spent) (if b then manager op else mret None) (fun _ => Inv held spent).
Proof. intros Hop. destruct b; [by apply Inv_manager|by apply triple_ret]. Qed.

(** An error path: report and give up. *)
Lemma fail_return {spent r} (P : Server S -> Prop) cmd seq reason err :
  spent <= B -> (forall s, P s -> wrote spent s) ->
  triple P (_ ← publishFailed cfg clock id cmd seq reason; mret (Return (Some err))) (round_post r).
Proof.
  intros Hs HP. eapply triple_bind.
  - eapply triple_pre; [apply (wrote_publishFailed cmd seq reason spent)|exact HP].
  - intros ?. apply triple_ret. intros s Hw. by exists spent.
Qed.

Lemma fail_pushback {spent r} (P : Server S -> Prop) cmd seq reason err cmds :
  spent <= B -> (forall s, P s -> wrote spent s) ->
  triple P (_ ← publishFailed cfg clock id cmd seq reason; _ ← pushAll id cmds; mret (Return (Some err))) (round_post r).
Proof.
  intros Hs HP. eapply triple_bind; [|intros ?; eapply triple_bind; [apply wrote_pushAll|]].
  - eapply triple_pre; [apply (wrote_publishFailed cmd seq reason spent)|exact HP].
  - intros ?. apply triple_ret. intros s Hw. by exists spent.
Qed.

Lemma counting_recordSent cmd seq frameBytes payload :
  counting (recordSent (S := S) cfg clock id conn mode cmd seq frameBytes payload).
Proof. unfold recordSent. auto with go. Qed.

Lemma afterWrite_spec f cmd seq w payload :
  0 < len w <= fl_remaining f -> fl_remaining f <= B ->
  triple (Inv (cmd_MessageID cmd :: msgs (fl_skipped f)) (B - fl_remaining f + len w))
    (afterWrite cfg clock id conn mode f cmd seq w payload) (round_post (fl_remaining f)).
Proof.
  intros Hsize HB. unfold afterWrite.
  eapply triple_bind; [apply Inv_opt, quiet_SetSyncMode|]. intros [e|].
  { apply (fail_return (spent := B - fl_remaining f + len w)); [lia|]. apply Inv_wrote. }
  eapply triple_bind; [apply Inv_opt, quiet_SetFWMode|]. intros [e|].
  { apply (fail_return (spent := B - fl_remaining f + len w)); [lia|]. apply Inv_wrote. }
  eapply triple_bind; [apply Inv_counting, counting_recordSent|]. intros ?.
  eapply triple_bind; [apply (Inv_publish (ackFor id cmd seq "accepted" "")); cbn; set_solver|]. intros ?.
  eapply triple_bind; [apply Inv_manager, quiet_AckSent|]. intros [e|].
  { apply (fail_return (spent := B - fl_remaining f + len w)); [lia|]. apply Inv_wrote. }
  apply triple_ret. intros s Hs. cbn. split; [lia|].
  by replace (B - (fl_remaining f - len w)) with (B - fl_remaining f + len w) by lia.
Qed.

Lemma writeFrame_spec w held spent :
  good_frame (conn, w) ->
  triple (Inv held spent) (writeFrame writeErr conn w)
    (fun e => Inv held (match e with None => spent + len w | Some _ => spent end)).
Proof.
  intros Hg s Hs. unfold writeFrame. destruct (writeErr (srv_ticks s)); [exact Hs|].
  destruct Hs as (Hpr & (new & Hn & Hf & Hl) & Hacks). split; [done|]. split; [|done].
  exists (new ++ [(conn, w)]). cbn. rewrite Hn, <- app_assoc. split; [done|]. split.
  - apply Forall_app. split; [done|]. by apply Forall_singleton.
  - rewrite wire_len_app, Hl. cbn. lia.
Qed.

Lemma transmit_spec f cmd seq w payload :
  good_frame (conn, w) -> 0 < len w -> 0 <= fl_remaining f <= B ->
  triple (Inv (cmd_MessageID cmd :: msgs (fl_skipped f)) (B - fl_remaining f))
    (transmit cfg clock writeErr id conn mode f cmd seq w payload) (round_post (fl_remaining f)).
Proof.
  intros Hg Hlen HB. unfold transmit. apply triple_if; intros Hr.
  - eapply triple_bind; [apply Inv_push|]. intros ?.
    eapply triple_bind; [|intros ?; apply triple_ret; intros s Hs].
    + eapply triple_pre; [apply (Inv_pushAll (fl_skipped f) [] (B - fl_remaining f))|].
      intros s Hs. by rewrite app_nil_r.
    + exists (B - fl_remaining f). split; [lia|done].
  - apply Z.ltb_ge in Hr. eapply triple_bind; [by apply writeFrame_spec|]. intros [e|].
    { apply (fail_pushback (spent := B - fl_remaining f)); [lia|]. apply Inv_wrote. }
    eapply triple_bind; [apply Inv_counting, counting_now|]. intros t.
    eapply triple_bind; [apply Inv_manager, quiet_RegisterInFlight|]. intros [e|].
    { apply (fail_pushback (spent := B - fl_remaining f + len w)); [lia|]. apply Inv_wrote. }
    apply afterWrite_spec; lia.
Qed.

Lemma EncodeFrame_len f w : EncodeFrame f = Ok w -> 0 < len w.
Proof.
  intros (_ & _ & ->)%EncodeFrame_ok. unfold wire, len. rewrite length_app. cbn. lia.
Qed.

Lemma tryCommand_spec f cmd :
  0 <= fl_remaining f <= B ->
  triple (Inv (cmd_MessageID cmd :: msgs (fl_skipped f)) (B - fl_remaining f))
    (tryCommand cfg clock writeErr id conn mode f cmd) (round_post (fl_remaining f)).
Proof.
  intros HB. assert (forall e reason status, cmd_MessageID e = cmd_MessageID cmd ->
    status ∈ ["accepted"; "expired"; "failed"] ->
    triple (Inv (cmd_MessageID cmd :: msgs (fl_skipped f)) (B - fl_remaining f))
      (_ ← publishAckWithCommand cfg clock (ackFor id e 0 status reason) e; mret (Continue f))
      (round_post (fl_remaining f))) as Hreport.
  { intros e reason status He Hst. rewrite <- He.
    eapply triple_bind; [by apply (Inv_publishWith (ackFor id e 0 status reason))|].
    intros ?. apply triple_ret. by intros s Hs. }
  unfold tryCommand. eapply triple_bind; [apply Inv_counting, counting_now|]. intros t.
  apply triple_if; intros ?.
  { apply Hreport; [done|set_solver]. }
  apply triple_if; intros ?.
  { apply triple_ret. intros s Hs. split; [done|]. cbn.
    destruct Hs as (? & ? & new & ? & Hp & ?). split; [done|]. split; [done|]. exists new.
    split_and!; try done. rewrite Hp. unfold msgs. rewrite map_app. cbn. solve_Permutation. }
  destruct (ValidateServerCommandPayload _ _) as [[]|e|] eqn:Ev.
  - eapply triple_bind with (Q := fun _ => Inv (cmd_MessageID cmd :: msgs (fl_skipped f)) (B - fl_remaining f)).
    { apply triple_if; intros _; [apply Inv_manager, quiet_NextCommandSeq|by apply triple_ret]. }
    intros [seq|e|].
    + destruct (EncodeFrame _) as [w|e|] eqn:Ee.
      * apply (transmit_spec f (set_RetrySeq 0 cmd)); [|by eapply EncodeFrame_len|done].
        by eexists _, _, _.
      * apply Hreport; [done|set_solver].
      * apply triple_ret. intros s Hs. exists (B - fl_remaining f). split; [lia|]. by eapply Inv_wrote.
    + eapply triple_bind.
      { eapply triple_pre; [apply (wrote_pushAll (fl_skipped f) (B - fl_remaining f))|]. apply Inv_wrote. }
      intros ?. apply triple_ret. intros s Hs. exists (B - fl_remaining f). split; [lia|done].
    + apply triple_ret. intros s Hs. exists (B - fl_remaining f). split; [lia|]. by eapply Inv_wrote.
  - apply Hreport; [done|set_solver].
  - apply triple_ret. intros s Hs. exists (B - fl_remaining f). split; [lia|]. by eapply Inv_wrote.
Qed.

Lemma msgs_app l1 l2 : msgs (l1 ++ l2) = msgs l1 ++ msgs l2.
Proof. apply map_app. Qed.

#[local] Instance msgs_perm : Proper ((≡ₚ) ==> (≡ₚ)) msgs.
Proof. intros l1 l2 Hl. unfold msgs. by rewrite Hl. Qed.

(** A poll or a drain: what comes out is held. *)
Lemma Inv_take op held spent :
  pushed [op] = [] ->
  triple (Inv held spent) (queueCall id op) (fun out => Inv (msgs out ++ held) spent).
Proof.
  intros Hop. apply (Inv_queue _ _ _ (fun out => msgs out ++ held)). intros q.
  pose proof (q_step_perm op q) as Hp. rewrite Hop, app_nil_r in Hp. rewrite Hp, msgs_app. solve_Permutation.
Qed.

Lemma pop_one fwMode syncMode (P : Server S -> Prop) Q :
  triple P (queueCall id (OpPop fwMode syncMode)) Q ->
  triple P (queueCall id (OpPop fwMode syncMode)) (fun out s => (length out <= 1)%nat /\ Q out s).
Proof.
  intros Ht s Hs. split; [|by apply Ht]. unfold queueCall, manager, queueOp.
  destruct (sessions (srv_sessions s) !! id) as [x|]; [|cbn; lia].
  pose proof (q_step_pop_length fwMode syncMode (s_Queue x)) as Hl.
  by destruct (q_step _ _).
Qed.

Lemma scanLoop_spec n : forall f,
  0 <= fl_remaining f <= B ->
  triple (Inv (msgs (fl_skipped f)) (B - fl_remaining f)) (scanLoop cfg clock writeErr n id conn mode f)
    (round_post (fl_remaining f)).
Proof.
  induction n as [|n IH]; intros f HB; cbn [scanLoop].
  { apply triple_ret. by intros s Hs. }
  eapply triple_bind; [apply pop_one, Inv_take; done|]. intros [|cmd [|c2 rest]].
  - apply triple_ret. intros s [_ Hs]. by split.
  - eapply triple_bind.
    { eapply triple_pre; [by apply (tryCommand_spec f cmd)|]. by intros s [_ Hs]. }
    intros [f'|e|f'].
    + cbn. intros s [Hr Hs]. rewrite <- Hr in *. by apply IH.
    + apply triple_ret. done.
    + apply triple_ret. done.
  - intros s [Hl _]. cbn in Hl. lia.
Qed.

Lemma publishExpired_spec cmds held spent :
  triple (Inv (msgs cmds ++ held) spent) (publishExpired cfg clock id cmds) (fun _ => Inv held spent).
Proof.
  induction cmds as [|c cmds IH]; [by apply triple_ret|]. unfold publishExpired. cbn [forEach msgs map app].
  eapply triple_bind; [|intros ?; apply IH].
  apply (Inv_publishWith (ackFor id c 0 "expired" "ttl expired before send")). set_solver.
Qed.

Lemma endRound_spec f :
  fl_remaining f <= B ->
  triple (Inv [] (B - fl_remaining f)) (endRound id f)
    (fun o s => match o with
                | Continue f' => fl_remaining f' = fl_remaining f /\ Inv [] (B - fl_remaining f) s
                | Sent _ => False
                | Return None => False
                | Return (Some _) => wrote (B - fl_remaining f) s
                end).
Proof.
  intros HB. unfold endRound. eapply triple_bind with (Q := fun _ => Inv [] (B - fl_remaining f)); [by intros s Hs|].
  intros q. eapply triple_bind; [apply Inv_opt, quiet_SetSyncMode|]. intros [e|].
  { apply triple_ret. apply Inv_wrote. }
  eapply triple_bind; [apply Inv_opt, quiet_SetFWMode|]. intros [e|].
  { apply triple_ret. apply Inv_wrote. }
  apply triple_ret. by intros s Hs.
Qed.

(** The whole loop: it ends, and ends well unless an error was returned. *)
Lemma flushLoop_spec fuel : forall f,
  0 <= fl_remaining f <= B -> (Z.to_nat (fl_remaining f) < fuel)%nat ->
  triple (Inv [] (B - fl_remaining f)) (flushLoop cfg clock writeErr fuel id conn mode f)
    (fun o s => match o with
                | None => False
                | Some None => exists spent, spent <= B /\ Inv [] spent s
                | Some (Some _) => exists spent, spent <= B /\ wrote spent s
                end).
Proof.
  induction fuel as [|fuel IH]; intros f HB Hfuel; [lia|]. cbn [flushLoop].
  apply triple_if; intros Hr.
  { apply triple_ret. intros s Hs. exists (B - fl_remaining f). split; [lia|done]. }
  apply Z.leb_gt in Hr. eapply triple_bind; [apply Inv_counting, counting_now|]. intros t.
  eapply triple_bind; [by apply Inv_take|]. intros expired.
  eapply triple_bind; [apply publishExpired_spec|]. intros ?.
  eapply triple_bind with (Q := fun _ => Inv [] (B - fl_remaining f)); [by intros s Hs|].
  intros q. apply triple_if; intros _.
  { apply triple_ret. intros s Hs. exists (B - fl_remaining f). split; [lia|done]. }
  set (f0 := mkFlush [] (fl_FWMode f) (fl_SyncMode f) (fl_remaining f)).
  eapply triple_bind; [exact (scanLoop_spec _ f0 HB)|]. cbn [fl_remaining f0]. intros [f'|e|f'].
  - intros s [Hf Hs]. eapply triple_bind; [|intros ?; apply triple_ret; intros s' Hs'|exact Hs].
    + eapply triple_pre; [apply (Inv_pushAll (fl_skipped f') [] (B - fl_remaining f))|].
      intros s' Hs'. by rewrite app_nil_r.
    + exists (B - fl_remaining f). split; [lia|done].
  - apply triple_ret. by destruct e.
  - intros s [Hf Hs]. eapply triple_bind; [|intros ?; eapply triple_bind; [apply endRound_spec; lia|]|exact Hs].
    + eapply triple_pre; [apply (Inv_pushAll (fl_skipped f') [] (B - fl_remaining f'))|].
      intros s' Hs'. by rewrite app_nil_r.
    + intros [f''|[e|]|f''].
      * intros s2 [Hf2 Hs2]. rewrite <- Hf2 in Hs2. apply IH; [lia|lia|done].
      * apply triple_ret. intros s2 Hs2. exists (B - fl_remaining f'). split; [lia|done].
      * by intros s2 [].
      * by intros s2 [].
Qed.

End Flush.

(** ** Theorems *)

Section Theorems.
Context `{MapRange} {S : Type} `{!Store S} `{!StoreLaws S}.
Variable cfg : Config.
Variable clock : nat -> Z.
Variable writeErr : nat -> option error.
Implicit Types s : Server S.

Lemma flushBudget_nonneg dctx : 0 < flushBudget dctx.
Proof. unfold flushBudget. destruct (Z.leb_spec (dc_BufferFree dctx) 0); lia. Qed.

(** A flush that gets past its guards, as a run of the loop. *)
Lemma flushQueue_cases id s :
  (exists r, flushQueue cfg clock writeErr id s = (Some r, s))
  \/ exists x conn dctx, sessions (srv_sessions s) !! id = Some x /\ s_Conn x = Some conn
       /\ GetDeliveryContext id (srv_sessions s) = Some dctx
       /\ flushQueue cfg clock writeErr id s =
          flushLoop cfg clock writeErr (Datatypes.S (Z.to_nat (flushBudget dctx))) id conn (s_FrameMode x)
            (mkFlush [] (dc_FWMode dctx) (dc_SyncMode dctx) (flushBudget dctx)) s.
Proof.
  unfold flushQueue, GetDeliveryContext.
  destruct (sessions (srv_sessions s) !! id) as [x|]; [|left; by eexists].
  cbn [dc_Conn]. destruct (s_Conn x) as [conn|] eqn:Ec; [|left; by eexists].
  destruct (0 <? _); [left; by eexists|]. right. by eexists x, conn, _.
Qed.

(** The loop's theorem from the state a flush starts in. *)
Lemma flushLoop_start id conn s x dctx :
  sessions (srv_sessions s) !! id = Some x ->
  let B := flushBudget dctx in
  match flushLoop cfg clock writeErr (Datatypes.S (Z.to_nat B)) id conn (s_FrameMode x)
      (mkFlush [] (dc_FWMode dctx) (dc_SyncMode dctx) B) s with
  | (None, _) => False
  | (Some None, s') => exists spent, spent <= B /\
      Inv id conn (s_FrameMode x) (msgs (queued (srv_sessions s) id)) (srv_acks s) (srv_wire s) [] spent s'
  | (Some (Some _), s') => exists spent, spent <= B /\ wrote conn (s_FrameMode x) (srv_wire s) spent s'
  end.
Proof.
  intros Hx B. pose proof (flushBudget_nonneg dctx) as HB. fold B in HB.
  pose proof (flushLoop_spec cfg clock writeErr id conn (s_FrameMode x) (msgs (queued (srv_sessions s) id)) (srv_acks s)
    (srv_wire s) B (Datatypes.S (Z.to_nat B)) (mkFlush [] (dc_FWMode dctx) (dc_SyncMode dctx) B)) as Ht.
  specialize (Ht ltac:(cbn; lia) ltac:(cbn; lia) s). cbn [fl_remaining] in Ht.
  destruct (flushLoop _ _ _ _ _ _ _ _ _) as [[[e|]|] s']; cbn in Ht; apply Ht.
  all: split; [by exists x|]; split.
  all: try (exists []; rewrite app_nil_r; cbn; split_and!; [done|constructor|lia]).
  all: exists []; rewrite !app_nil_r; split_and!; [done|done|constructor].
Qed.

(** C2: a flush always ends, and no command disappears in it: when it returns
    without an error, every command that was queued is still queued or has been
    reported exactly once, as accepted for delivery, expired or failed. *)
Theorem flushQueue_accounts (id : string) s :
  exists r s', flushQueue cfg clock writeErr id s = (Some r, s')
    /\ (r = None -> exists new, srv_acks s' = srv_acks s ++ new
          /\ msgs (queued (srv_sessions s) id) ≡ₚ
             msgs (queued (srv_sessions s') id) ++ map ev_MessageID new
          /\ Forall (fun e => ev_Status e ∈ ["accepted"; "expired"; "failed"]) new).
Proof.
  destruct (flushQueue_cases id s) as [[r Hr]|(x & conn & dctx & Hx & _ & _ & Hf)].
  - exists r, s. split; [done|]. intros _. exists []. rewrite !app_nil_r. split_and!; [done|done|constructor].
  - pose proof (flushLoop_start id conn s x dctx Hx) as Hl. cbv zeta in Hl. rewrite <- Hf in Hl.
    destruct (flushQueue cfg clock writeErr id s) as [[r|] s']; [|done]. exists r, s'. split; [done|].
    intros ->. destruct Hl as (spent & _ & _ & _ & new & ? & ? & ?). by exists new.
Qed.

(** The frames a flush writes. *)
Lemma flushQueue_frames (id : string) s x :
  sessions (srv_sessions s) !! id = Some x ->
  exists new, srv_wire (flushQueue cfg clock writeErr id s).2 = srv_wire s ++ new
    /\ Forall (fun w => exists conn, s_Conn x = Some conn /\ good_frame conn (s_FrameMode x) w) new
    /\ wire_len new <= (if BufferFree x <=? 0 then 1500 else BufferFree x).
Proof.
  intros Hx. destruct (flushQueue_cases id s) as [[r Hr]|(x' & conn & dctx & Hx' & Hc & Hd & Hf)].
  - rewrite Hr. exists []. rewrite app_nil_r. split_and!; [done|constructor|]. cbn.
    destruct (Z.leb_spec (BufferFree x) 0); lia.
  - assert (x' = x) as -> by congruence. pose proof (flushLoop_start id conn s x dctx Hx) as Hl.
    cbv zeta in Hl. rewrite <- Hf in Hl.
    unfold GetDeliveryContext in Hd. rewrite Hx in Hd. injection Hd as <-. unfold flushBudget in Hl. cbn in Hl.
    assert (forall new, Forall (good_frame conn (s_FrameMode x)) new ->
      Forall (fun w => exists conn, s_Conn x = Some conn /\ good_frame conn (s_FrameMode x) w) new) as Hgood.
    { intros new Hn. eapply Forall_impl; [exact Hn|]. intros w Hw. by exists conn. }
    destruct (flushQueue cfg clock writeErr id s) as [[[e|]|] s']; [| |done].
    + destruct Hl as (spent & ? & new & ? & ? & <-). exists new. auto.
    + destruct Hl as (spent & ? & _ & (new & ? & ? & <-) & _). exists new. auto.
Qed.

(** C15: a flush only writes what it may: every frame it writes goes to the
    connection of the controller's session, in the session's frame mode, is a
    well-formed frame and carries a command whose payload the protocol allows;
    the frames of one flush fit the free buffer space the controller last
    reported (1500 bytes if it reported none), on every path, errors included;
    and a controller without a connection is written nothing. *)
Theorem flushQueue_wire (id : string) s x :
  sessions (srv_sessions s) !! id = Some x ->
  exists new, srv_wire (flushQueue cfg clock writeErr id s).2 = srv_wire s ++ new
    /\ Forall (fun w => exists conn, s_Conn x = Some conn /\ good_frame conn (s_FrameMode x) w) new
    /\ wire_len new <= (if BufferFree x <=? 0 then 1500 else BufferFree x).
Proof. apply flushQueue_frames. Qed.

(** ** Starvation in firmware mode *)

(** Only query and synchronisation commands without a TTL are queued for a
    connected controller in firmware mode, and nothing is in flight. *)
Definition stuck (id : string) s : Prop :=
  exists x c, sessions (srv_sessions s) !! id = Some x /\ s_Conn x = Some c /\ InFlight x = ∅
    /\ FWMode x = true /\ q_high (s_Queue x) = [] /\ q_fw (s_Queue x) = []
    /\ Forall (fun c => cmd_TTL c <= 0) (Snapshot (s_Queue x)).

Lemma drain_nothing t q : Forall (fun c => cmd_TTL c <= 0) (Snapshot q) -> DrainExpired t q = ([], q).
Proof.
  intros Hf. rewrite DrainExpired_spec. destruct q as [hi fw sy qu]. cbn. unfold Snapshot in Hf. cbn in Hf.
  rewrite !Forall_app in Hf. destruct_and!.
  assert (forall l, Forall (fun c => cmd_TTL c <= 0) l ->
    filter (fun c => Expired c t = true) l = [] /\ filter (fun c => Expired c t = false) l = l) as Hl.
  { induction 1 as [|c l Hc _ [IH1 IH2]]; [done|]. rewrite !filter_cons, IH1, IH2. unfold Expired.
    rewrite (proj2 (Z.leb_le _ _)) by done. by rewrite decide_False, decide_True. }
  destruct (Hl hi), (Hl fw), (Hl sy), (Hl qu); try done. by repeat match goal with H : filter _ _ = _ |- _ => rewrite H; clear H end.
Qed.

Lemma stuck_flush id s :
  stuck id s -> exists n, flushQueue cfg clock writeErr id s = (Some None, with_ticks n s).
Proof.
  intros (x & c & Hx & Hc & Hi & Hfw & Hh & Hq & Hf). unfold flushQueue, GetDeliveryContext, InFlightCount.
  rewrite Hx. cbn [dc_Conn dc_FWMode dc_SyncMode dc_FrameMode]. rewrite Hc, Hi, Hfw.
  replace (0 <? Z.of_nat (size (∅ : gmap Z InFlightEntry))) with false by done. cbn [flushLoop].
  set (dctx := mkDeliveryContext _ _ _ _ _ _). pose proof (flushBudget_nonneg dctx) as HB. cbn [fl_remaining].
  rewrite (proj2 (Z.leb_gt _ _)) by done. unfold mbind, ST_bind, now, queueCall, manager. cbn.
  rewrite (queueOp_present id _ _ _ Hx). cbn [q_step]. rewrite (drain_nothing _ _ Hf). cbn.
  rewrite lookup_insert_eq. cbn.
  assert (put id (set_Queue (s_Queue x) x) (srv_sessions s) = srv_sessions s) as Hid.
  { unfold put, with_sessions. rewrite insert_id by (rewrite Hx; by destruct x). by destruct (srv_sessions s). }
  rewrite Hid. destruct (Z.eqb_spec (Len (s_Queue x)) 0); [by eexists|].
  pose proof (Len_nonneg (s_Queue x)). destruct (Z.to_nat (Len (s_Queue x))) eqn:En; [lia|].
  cbn. unfold mbind, ST_bind, queueCall, manager. cbn.
  rewrite (queueOp_present id _ _ _ Hx). cbn [q_step fl_FWMode fl_SyncMode].
  assert (PopNext true (SyncMode x) (s_Queue x) = (None, s_Queue x)) as ->.
  { unfold PopNext, pop. by rewrite Hh, Hq. }
  cbn. rewrite Hid. by eexists.
Qed.


End Theorems.

(** ** Concrete runs *)

#[local] Existing Instance ascending.

Definition no_write_error (_ : nat) : option error := None.
Definition ticking (n : nat) : Z := Z.of_nat n.

(** A connected controller "A" that reported [free] bytes of buffer, with
    [cmds] enqueued through the server. *)
Definition demo_online (free : Z) (cmds : list Command) : Server InMemoryStore :=
  let m := m_run [OCreate "A" (mkConn 1 None) 0; OUpdateBufferFree "A" free]
             (NewManager 10 100 100000 "reject" NewInMemoryStore) in
  fold_left (fun s c => (EnqueueCommand ticking "A" c s).2) cmds (newServer m).

Definition status_request (message : string) : Command :=
  mkCommand message "t" "" 22 0 1 [] "" 0 0.

Definition fw_block (message : string) (n : Z) : Command :=
  mkCommand message "t" "" 20 0 1 (le_bytes 2 n ++ replicate 1024 0) "" 0 0.

(** The messages queued for "A" in a buffer, in order. *)
Definition buffered (k : class) (s : Server InMemoryStore) : list string :=
  match sessions (srv_sessions s) !! "A" with
  | Some x => map cmd_MessageID (buf k (s_Queue x))
  | None => []
  end.

Lemma flushQueue_wire_witness :
  let s := demo_online 100 [status_request "m1"; status_request "m2"] in
  exists x new, sessions (srv_sessions s) !! "A" = Some x
    /\ srv_wire (flushQueue default_config ticking no_write_error "A" s).2 = srv_wire s ++ new
    /\ Forall (fun w => exists conn, s_Conn x = Some conn /\ good_frame conn (s_FrameMode x) w) new
    /\ wire_len new <= 100.
Proof.
  intros s. assert (BufferFree <$> sessions (srv_sessions s) !! "A" = Some 100) as Hb by (vm_compute; reflexivity).
  clearbody s. destruct (sessions (srv_sessions s) !! "A") as [x|] eqn:E; [|discriminate Hb].
  injection Hb as Hb. destruct (flushQueue_wire default_config ticking no_write_error "A" s x E) as (new & Hw & Hg & Hl).
  rewrite Hb in Hl. exists x, new. split; [reflexivity|]. split; [exact Hw|]. split; [exact Hg|exact Hl].
Defined.


(** One flush can leave several commands outstanding: the number of
    commands in flight is only checked when the flush begins, and both queued
    commands are sent and await their acknowledgements at the same time. *)
Lemma flush_sends_several :
  let s := demo_online 1500 [status_request "m1"; status_request "m2"] in
  let s' := (flushQueue default_config ticking no_write_error "A" s).2 in
  InFlightCount "A" (srv_sessions s) = 0 /\ InFlightCount "A" (srv_sessions s') = 2
  /\ map (fun e => (ev_MessageID e, ev_Status e)) (srv_acks s') = [("m1", "accepted"); ("m2", "accepted")].
Proof. by vm_compute. Qed.

(** A command that does not fit the buffer loses its place: the flush puts
    it back at the end of its queue, so that the blocks of a firmware update
    change order. *)
Lemma flush_reorders_fw_blocks :
  let s := demo_online 500 [fw_block "block1" 1; fw_block "block2" 2] in
  let s' := (flushQueue default_config ticking no_write_error "A" s).2 in
  buffered FW s = ["block1"; "block2"] /\ buffered FW s' = ["block2"; "block1"]
  /\ srv_wire s' = [].
Proof. by vm_compute. Qed.
