(* ===== verification/Conn.v ===== *)
(** * The connection handler ([internal/server/server.go]: [handleConn], [isTimeout])

    One round of the handler's loop is one computation: the deadlines, the next
    frame, the registration, the dispatch on the message, and the delivery that
    follows.  The network is a function: from a read deadline to the bytes that
    arrive until then and the error the read ends with if they are not enough.
    Log lines are left out. *)

From S2P Require Import Prelude Format Messages Frame Queue Store Retry Session Config Policy Validation Builders.
From S2P Require Import IPGuard Metrics Server Delivery.

(** ** Data *)

(** The handler's local variables, with the bytes the buffered reader holds. *)
Record connState := mkConnState {
  cn_registered : bool;
  cn_controllerID : string;
  cn_frameMode : FrameMode;
  cn_lastHeartbeat : Z;
  cn_registrationDeadline : Z;
  cn_buffered : bytes
}.

Definition set_lastHeartbeat (t : Z) (c : connState) : connState :=
  mkConnState (cn_registered c) (cn_controllerID c) (cn_frameMode c) t (cn_registrationDeadline c) (cn_buffered c).

Definition set_buffered (l : bytes) (c : connState) : connState :=
  mkConnState (cn_registered c) (cn_controllerID c) (cn_frameMode c) (cn_lastHeartbeat c) (cn_registrationDeadline c) l.

(** [registered = true; controllerID = id], after [frameMode = frame.Mode]. *)
Definition set_registered (id : string) (mode : FrameMode) (t : Z) (c : connState) : connState :=
  mkConnState true id mode t (cn_registrationDeadline c) (cn_buffered c).

(** How a round ends: the loop continues, the handler returns, or a message
    parser panics. *)
Inductive round :=
  | Next (c : connState)
  | Stop (c : connState)
  | Crash.

(** The network's timeout error. *)
Definition ErrTimeout : error := Errorf "i/o timeout" [].

Definition isTimeout (err : error) : bool := bool_decide (err = ErrTimeout).

(** What arrives on a connection until a deadline. *)
Definition network : Type := Z -> bytes * error.

Section Conn.
Context `{MapRange} {S : Type} `{!Store S}.
Variable cfg : Config.
Variable connRemoteHost : Conn -> string.
Variable clock : nat -> Z.
Variable writeErr : nat -> option error.

Abbreviation now := (now clock).
Abbreviation debugEvent := (debugEvent cfg clock).
Abbreviation rawMessage := (rawMessage cfg clock).
Abbreviation publishAck := (publishAck cfg clock).
Abbreviation publishAckWithCommand := (publishAckWithCommand cfg clock).

(** [s.registerIPViolation(remoteHost, time.Now().UTC())]. *)
Definition violation (conn : Conn) : ST S unit :=
  t ← now; guard_ (registerIPViolation cfg (connRemoteHost conn) t).

(** [newIncomingTraceID]. *)
Definition newTraceID (controllerID : string) (cmdID seq : Z) : ST S string :=
  t ← now; mret (newIncomingTraceID controllerID cmdID seq t).

(** The debug records of an acknowledgement frame. *)
Definition recordAck (controllerID : string) (conn : Conn) (mode : FrameMode) (commandID seq payloadLen : Z)
    (rawAck ackPayload : bytes) : ST S unit :=
  t1 ← now;
  trace1 ← newTraceID controllerID commandID seq;
  _ ← metrics_ (recordDebugEvent cfg
        (mkDebugEvent t1 "tx" controllerID (remoteAddr conn) commandID seq "" trace1 "" "" payloadLen));
  t2 ← now;
  trace2 ← newTraceID controllerID commandID seq;
  metrics_ (recordRawMessage cfg (mkRawDebugMessage t2 "tx" controllerID (remoteAddr conn) commandID seq mode 255
    (EncodeToString rawAck) (EncodeToString (commandID :: ackPayload)) payloadLen "" trace2)).

(** ** Deadlines *)

(** The checks before the read; the wait of the read, or [None] to return. *)
Definition beforeRead (conn : Conn) (c : connState) : ST S (option Z) :=
  late ← (if cn_registered c then mret false else t ← now; mret (cn_registrationDeadline c <? t));
  if late : bool then _ ← violation conn; mret None else
  let beats := cn_registered c && (0 <? cfg_HeartbeatTimeout cfg) in
  silent ← (if beats then t ← now; mret (cfg_HeartbeatTimeout cfg <? t - cn_lastHeartbeat c) else mret false);
  if silent : bool then mret None else
  let readWait := if cfg_ReadTimeout cfg <=? 0 then 5 * second else cfg_ReadTimeout cfg in
  if beats then
    t ← now;
    let untilHeartbeatTimeout := cn_lastHeartbeat c + cfg_HeartbeatTimeout cfg - t in
    if untilHeartbeatTimeout <=? 0 then mret None
    else mret (Some (if untilHeartbeatTimeout <? readWait then untilHeartbeatTimeout else readWait))
  else mret (Some readWait).

(** ** Registration *)

(** The first message of a connection. *)
Definition register (conn : Conn) (c : connState) (cmdID : Z) (frame : Frame) : ST S round :=
  if negb (cmdID =? 1) then _ ← violation conn; mret (Stop c) else
  match ParseRegistrationPayload (Payload frame) with
  | Panic => mret Crash
  | Err _ => _ ← violation conn; mret (Stop c)
  | Ok reg =>
      let id := IMEI reg in
      t ← now;
      e ← manager (Create id conn t);
      match e with
      | Some _ => mret (Stop c)
      | None =>
          _ ← manager_ (SetFrameMode id (Mode frame));
          r ← sendRegistrationAck clock writeErr conn (Mode frame) (Seq frame);
          match r with
          | Panic => mret Crash
          | Err _ =>
              t ← now;
              _ ← manager (MarkOffline id t);
              mret (Stop c)
          | Ok (rawAck, ackPayload) =>
              _ ← recordAck id conn (Mode frame) CmdRegistrationAck (Seq frame) 6 rawAck ackPayload;
              t ← now;
              mret (Next (set_registered id (Mode frame) t c))
          end
      end
  end.

(** ** Messages

    A handler gives the handler's state, and the trace id and source of the
    telemetry, or ends the connection. *)

Inductive dispatched :=
  | Handled (c : connState) (traceID traceSource : string)
  | Ended
  | Crashed.

(** Status 1. *)
Definition onStatus1 (conn : Conn) (c : connState) (frame : Frame) (traceID : string) : ST S dispatched :=
  let controllerID := cn_controllerID c in
  match ParseStatus1Payload (Payload frame) with
  | Panic => mret Crashed
  | Err _ => mret (Handled c traceID "rx")
  | Ok st =>
      t ← now;
      let c := set_lastHeartbeat t c in
      _ ← manager_ (UpdateBufferFree controllerID (BufferFree1 st));
      r ← sendControllerAck writeErr conn (Mode frame) (Seq frame) AckCodeOK;
      match r with
      | Panic => mret Crashed
      | Err _ => mret Ended
      | Ok (rawAck, ackPayload) =>
          _ ← recordAck controllerID conn (Mode frame) CmdControllerAck (Seq frame) 3 rawAck ackPayload;
          e ← (if Status1ReadyForFW (Flags st) then manager (SetFWMode controllerID true) else mret None);
          match e with
          | Some _ => mret Ended
          | None => mret (Handled c traceID "rx")
          end
      end
  end.

(** A terminal acknowledgement. *)
Definition onTerminalAck (controllerID : string) (ack : Ack11) (interp : Ack11Status) (traceID : string)
    : ST S (string * string) :=
  r ← manager (AckInFlight controllerID (CommandSeq ack));
  match r with
  | Some (cmd, attempts) =>
      _ ← publishAckWithCommand (ackFor controllerID cmd (CommandSeq ack) (Status interp)
            (sprintf "%s; code=%d; attempts=%d" [AS (Reason interp); AZ (ExecutionCode ack); AZ attempts])) cmd;
      mret (if String.eqb (cmd_TraceID cmd) "" then (traceID, "rx") else (cmd_TraceID cmd, "command"))
  | None => mret (traceID, "rx")
  end.

(** Any other acknowledgement: the command stays in flight. *)
Definition onProgressAck (controllerID : string) (ack : Ack11) (interp : Ack11Status) (traceID : string)
    : ST S (string * string) := fun s =>
  let '(msgID, ackTraceID, cmdID) :=
    match PeekInFlight controllerID (CommandSeq ack) (srv_sessions s) with
    | Some (cmd, _) => (cmd_MessageID cmd, cmd_TraceID cmd, cmd_CommandID cmd)
    | None => (sprintf "inflight-%s-%d" [AS controllerID; AZ (CommandSeq ack)], "", 0)
    end in
  (_ ← publishAck (mkAckEvent msgID ackTraceID controllerID cmdID (CommandSeq ack) (Status interp)
        (sprintf "%s; code=%d" [AS (Reason interp); AZ (ExecutionCode ack)]));
   mret (if String.eqb ackTraceID "" then (traceID, "rx") else (ackTraceID, "command"))) s.

(** Acknowledgement 11. *)
Definition onAck11 (c : connState) (frame : Frame) (traceID : string) : ST S dispatched :=
  let controllerID := cn_controllerID c in
  match ParseAck11Payload (Payload frame) with
  | Panic => mret Crashed
  | Err _ => mret (Handled c traceID "rx")
  | Ok ack =>
      _ ← manager_ (UpdateBufferFree controllerID (BufferFreeBytes ack));
      let interp := InterpretAck11ExecutionCode (ExecutionCode ack) in
      tr ← (if Terminal interp then onTerminalAck controllerID ack interp traceID
            else onProgressAck controllerID ack interp traceID);
      mret (Handled c tr.1 tr.2)
  end.

(** Firmware status 4. *)
Definition onFWStatus4 (c : connState) (frame : Frame) (traceID : string) : ST S dispatched :=
  match ParseFWStatus4Payload (Payload frame) with
  | Panic => mret Crashed
  | Err _ => mret (Handled c traceID "rx")
  | Ok fw =>
      if IsFWFinished (ProgressOrErr fw) || IsFWFailed (ProgressOrErr fw) then
        e ← manager (SetFWMode (cn_controllerID c) false);
        match e with
        | Some _ => mret Ended
        | None => mret (Handled c traceID "rx")
        end
      else mret (Handled c traceID "rx")
  end.

Definition dispatch (conn : Conn) (c : connState) (cmdID : Z) (frame : Frame) (traceID : string) : ST S dispatched :=
  if cmdID =? 2 then onStatus1 conn c frame traceID
  else if cmdID =? 11 then onAck11 c frame traceID
  else if cmdID =? 4 then onFWStatus4 c frame traceID
  else mret (Handled c traceID "rx").

(** ** One round *)

(** A message of a registered controller. *)
Definition handleMessage (conn : Conn) (c : connState) (cmdID : Z) (frame : Frame) (visits : list Z) : ST S round :=
  let controllerID := cn_controllerID c in
  t ← now;
  _ ← manager_ (Touch controllerID t);
  traceID ← newTraceID controllerID cmdID (Seq frame);
  d ← dispatch conn c cmdID frame traceID;
  match d with
  | Crashed => mret Crash
  | Ended => mret (Stop c)
  | Handled c traceID traceSource =>
      _ ← debugEvent (fun t => mkDebugEvent t "rx" controllerID (remoteAddr conn) cmdID (Seq frame) "" traceID "" ""
            (len (Payload frame)));
      _ ← publishTelemetry (mkTelemetryEvent controllerID cmdID traceID (Payload frame)) traceSource;
      _ ← processInFlight cfg clock controllerID visits;
      r ← flushQueue cfg clock writeErr controllerID;
      match r with
      | Some None => mret (Next c)
      | _ => mret (Stop c)
      end
  end.

(** What a frame does, once it is read. *)
Definition handleFrame (conn : Conn) (c : connState) (frame : Frame) (visits : list Z) : ST S round :=
  match CommandID frame with
  | (_, false) => _ ← (if cn_registered c then mret tt else violation conn); mret (Stop c)
  | (cmdID, true) =>
      _ ← rawMessage (fun t => mkRawDebugMessage t "rx" (cn_controllerID c) (remoteAddr conn) cmdID (Seq frame)
            (Mode frame) (TTL frame) (encodeFrameHex frame) (EncodeToString (Payload frame)) (len (Payload frame)) "" "");
      r ← (if cn_registered c then mret (Next c) else register conn c cmdID frame);
      match r with
      | Next c => handleMessage conn c cmdID frame visits
      | _ => mret r
      end
  end.

(** [visits] is the order of [ProcessInFlight]'s loop in this round. *)
Definition connRound (conn : Conn) (c : connState) (net : network) (visits : list Z) : ST S round :=
  wait ← beforeRead conn c;
  match wait with
  | None => mret (Stop c)
  | Some readWait =>
      t ← now;
      let '(arrived, err) := net (t + readWait) in
      let '(r, reader) := ReadFrameWithMode (mkReader (cn_buffered c ++ arrived) err) (cn_frameMode c) in
      let c := set_buffered (avail reader) c in
      match r with
      | Panic => mret Crash
      | Err e =>
          _ ← (if isTimeout e || cn_registered c then mret tt else violation conn);
          mret (Stop c)
      | Ok frame => handleFrame conn c frame visits
      end
  end.

(** ** The whole handler *)

Definition connStart : ST S connState :=
  t ← now;
  t' ← now;
  mret (mkConnState false "" FrameModeAuto t (t' + cfg_RegistrationWindow cfg) []).

(** The deferred block; a failure to save is only logged. *)
Definition connCleanup (conn : Conn) (c : connState) : ST S unit :=
  _ ← (if cn_registered c && negb (String.eqb (cn_controllerID c) "")
       then t ← now; manager (MarkOffline (cn_controllerID c) t) else mret None);
  _ ← guard_ (releaseConn connRemoteHost conn);
  closeConn conn.

(** The rounds of a connection, as many as the network provides; [None] if the
    handler is still running. *)
Fixpoint connLoop (conn : Conn) (c : connState) (rounds : list (network * list Z)) : ST S (option round) :=
  match rounds with
  | [] => mret None
  | (net, visits) :: rounds' =>
      r ← connRound conn c net visits;
      match r with
      | Next c => connLoop conn c rounds'
      | _ => mret (Some r)
      end
  end.

Definition handleConn (conn : Conn) (rounds : list (network * list Z)) : ST S (option round) :=
  c ← connStart;
  r ← connLoop conn c rounds;
  match r with
  | Some (Stop c) => _ ← connCleanup conn c; mret r
  | _ => mret r
  end.

End Conn.

(** ** Lemmas *)

(** The mode of a frame that was read. *)
Lemma ReadFrameWithMode_mode r mode f r' :
  ReadFrameWithMode r mode = (Ok f, r') ->
  Mode f <> FrameModeAuto /\ (mode <> FrameModeAuto -> Mode f = mode).
Proof.
  intros Hr. assert (exists data, frameOfData mode data = Ok f) as [data Hd].
  { unfold ReadFrameWithMode in Hr. repeat case_match; simplify_eq.
    match goal with Hb : decodeBody _ _ _ _ = Ok _ |- _ => rename Hb into Hd end. unfold decodeBody in Hd.
    apply bind_ok in Hd as (crcField & _ & Hd). apply bind_ok in Hd as (data & _ & Hd).
    case_match; [done|]. by exists data. }
  split; [by apply frameOfData_inv in Hd as (_ & _ & ? & _)|]. intros Hm. revert Hd. unfold frameOfData.
  destruct mode; [done|..]; (case_match; [done|]); unfold sequencedFrame, compactFrame; intros Hd;
    repeat (apply bind_ok in Hd as (? & _ & Hd)); by injection Hd as <-.
Qed.

(** What a computation returns, whatever the state. *)
Definition returns {S A} (x : ST S A) (Q : A -> Prop) : Prop := forall s, Q (x s).1.

Lemma returns_ret {S A} (a : A) (Q : A -> Prop) : Q a -> returns (mret (M := ST S) a) Q.
Proof. by intros ? s. Qed.

Lemma returns_bind {S A B} (x : ST S A) (f : A -> ST S B) (Q : A -> Prop) R :
  returns x Q -> (forall a, Q a -> returns (f a) R) -> returns (x ≫= f) R.
Proof.
  intros Hx Hf s. specialize (Hx s). unfold mbind, ST_bind. destruct (x s) as [a s']. by apply Hf.
Qed.

Lemma returns_any {S A B} (x : ST S A) (f : A -> ST S B) R :
  (forall a, returns (f a) R) -> returns (x ≫= f) R.
Proof. intros Hf. by apply (returns_bind _ _ (fun _ => True)). Qed.

(** Steps through a computation whose results only matter at its ends. *)
Ltac returns_tac :=
  repeat match goal with
  | |- returns (mret _) _ => apply returns_ret
  | |- returns (mbind _ _) _ => apply returns_any; intros ?
  | |- returns (if ?b then _ else _) _ => destruct b
  | |- returns (match ?x with _ => _ end) _ => destruct x eqn:?
  end.

Lemma no_panic_EncodeFrame f : no_panic (EncodeFrame f).
Proof. unfold EncodeFrame. repeat no_panic_step; auto with go. Qed.

Lemma no_panic_validated id out : no_panic (validated id out).
Proof. unfold validated. apply no_panic_bind; [apply no_panic_ValidateServerCommandPayload|done]. Qed.

Section Rounds.
Context `{MapRange} {S : Type} `{!Store S} `{!StoreLaws S}.
Variable cfg : Config.
Variable connRemoteHost : Conn -> string.
Variable clock : nat -> Z.
Variable writeErr : nat -> option error.
Implicit Types s : Server S.

Lemma sendAck_returns conn mode seq commandID built :
  no_panic built -> returns (sendAck (S := S) writeErr conn mode seq commandID built) no_panic.
Proof.
  intros Hb. unfold sendAck. destruct built as [payload|e|]; [|by returns_tac|done]. cbn [mbind res_bind].
  pose proof (no_panic_EncodeFrame (mkFrame 255 seq (commandID :: payload) mode)) as Hp.
  destruct (EncodeFrame _); [|by returns_tac|done]. cbn [mbind res_bind]. by returns_tac.
Qed.

(** The registration of a connection does not change in a round. *)
Definition same_conn (c c' : connState) : Prop :=
  cn_registered c' = cn_registered c /\ cn_controllerID c' = cn_controllerID c /\ cn_frameMode c' = cn_frameMode c.

Lemma onStatus1_returns conn c frame traceID :
  returns (onStatus1 (S := S) cfg clock writeErr conn c frame traceID)
    (fun d => match d with Handled c' _ _ => same_conn c c' | Ended => True | Crashed => False end).
Proof.
  unfold onStatus1. destruct (no_panic_parsers (Payload frame)) as (_ & Hp & _).
  destruct (ParseStatus1Payload _) as [st|e|]; [|by returns_tac|done].
  apply returns_any. intros t. apply returns_any. intros _.
  eapply returns_bind; [apply sendAck_returns, no_panic_validated|]. intros [[raw ap]|e|] Hnp; [|by returns_tac|done].
  by returns_tac.
Qed.

Lemma dispatch_returns conn c cmdID frame traceID :
  returns (dispatch (S := S) cfg clock writeErr conn c cmdID frame traceID)
    (fun d => match d with Handled c' _ _ => same_conn c c' | Ended => True | Crashed => False end).
Proof.
  unfold dispatch. destruct (no_panic_parsers (Payload frame)) as (_ & _ & Ha & Hf).
  destruct (cmdID =? 2); [apply onStatus1_returns|].
  destruct (cmdID =? 11); [|destruct (cmdID =? 4); [|by returns_tac]].
  - unfold onAck11. destruct (ParseAck11Payload _); [|by returns_tac|done]. by returns_tac.
  - unfold onFWStatus4. destruct (ParseFWStatus4Payload _); [|by returns_tac|done]. by returns_tac.
Qed.

Lemma handleMessage_returns conn c cmdID frame visits :
  returns (handleMessage (S := S) cfg clock writeErr conn c cmdID frame visits)
    (fun r => match r with Next c' | Stop c' => same_conn c c' | Crash => False end).
Proof.
  unfold handleMessage. do 3 (apply returns_any; intros ?).
  eapply returns_bind; [apply dispatch_returns|]. intros [c' tr src| |] Hc; [|by returns_tac|done].
  by returns_tac.
Qed.

(** A round either keeps the registration of the connection or makes it. *)
Definition registers (frame : Frame) (c c' : connState) : Prop :=
  cn_registered c = false /\ cn_registered c' = true /\ cn_controllerID c' <> "" /\ cn_frameMode c' = Mode frame
  /\ exists reg, ParseRegistrationPayload (Payload frame) = Ok reg /\ cn_controllerID c' = IMEI reg.

Lemma IMEI_nonempty payload reg : ParseRegistrationPayload payload = Ok reg -> IMEI reg <> "".
Proof.
  unfold ParseRegistrationPayload. intros Hr. repeat (apply bind_ok in Hr as (? & ? & Hr)).
  injection Hr as <-. cbn. by repeat match goal with
    Hf : fail_if _ _ = Ok _ |- _ => apply fail_if_ok in Hf; try apply String.eqb_neq in Hf end.
Qed.

Lemma register_returns conn c cmdID frame :
  cn_registered c = false ->
  returns (register (S := S) cfg connRemoteHost clock writeErr conn c cmdID frame)
    (fun r => match r with Next c' => registers frame c c' | Stop c' => c' = c | Crash => False end).
Proof.
  intros Hc. unfold register. destruct (no_panic_parsers (Payload frame)) as (Hp & _).
  destruct (negb _); [by returns_tac|].
  destruct (ParseRegistrationPayload (Payload frame)) as [reg|e|] eqn:Er; [|by returns_tac|done].
  apply returns_any. intros t. apply returns_any. intros [e|]; [by returns_tac|].
  apply returns_any. intros _. eapply returns_bind.
  { apply returns_any. intros t'. apply sendAck_returns, no_panic_validated. }
  intros [[raw ap]|e|] Hnp; [|by returns_tac|done]. returns_tac. split_and!; try done.
  - by eapply IMEI_nonempty.
  - by exists reg.
Qed.

(** What one round makes of the handler's state. *)
Lemma connRound_returns conn c net visits :
  returns (connRound (S := S) cfg connRemoteHost clock writeErr conn c net visits)
    (fun r => match r with
              | Next c' | Stop c' => same_conn c c' \/ exists frame, Mode frame <> FrameModeAuto /\ registers frame c c'
              | Crash => False
              end).
Proof.
  unfold connRound. apply returns_any. intros [wait|]; [|returns_tac; by left].
  apply returns_any. intros t. destruct (net (t + wait)) as [arrived err].
  destruct (ReadFrameWithMode _ _) as [r reader] eqn:Er.
  pose proof (proj1 (ReadFrameWithMode_errors (mkReader (cn_buffered c ++ arrived) err) (cn_frameMode c))) as Hp.
  rewrite Er in Hp. set (c1 := set_buffered (avail reader) c).
  destruct r as [frame|e|]; [|returns_tac; by left|done].
  apply ReadFrameWithMode_mode in Er as [Hf _]. unfold handleFrame.
  destruct (CommandID frame) as [cmdID []]; [|returns_tac; by left].
  apply returns_any. intros _. eapply returns_bind with (Q := fun r => match r with
    | Next c' => same_conn c c' \/ registers frame c c' | Stop c' => same_conn c c' | Crash => False end).
  { destruct (cn_registered c1) eqn:Ec; [returns_tac; by left|].
    intros s. pose proof (register_returns conn c1 cmdID frame Ec s) as Hr.
    destruct (register _ _ _ _ _ _ _ _ _) as [[c'|c'|] s']; cbn in *; [by right|by subst|done]. }
  intros [c'|c'|] Hc'; [|returns_tac; by left|done].
  intros s. pose proof (handleMessage_returns conn c' cmdID frame visits s) as Hr.
  destruct (handleMessage _ _ _ _ _ _ _ _ _) as [r s']. cbn in *.
  assert (forall c2, same_conn c' c2 ->
    same_conn c c2 \/ exists frame, Mode frame <> FrameModeAuto /\ registers frame c c2) as Htrans.
  { intros c2 (H1 & H2 & H3). destruct Hc' as [(? & ? & ?)|(? & ? & ? & ? & reg & ? & ?)].
    - left. split_and!; congruence.
    - right. exists frame. split; [done|]. split_and!; try congruence. exists reg. split; congruence. }
  destruct r; by auto.
Qed.


(** ** Acknowledgements *)

Lemma AckInFlight_found id seq m x e :
  sessions m !! id = Some x -> InFlight x !! seq = Some e ->
  let x' := set_InFlight (delete seq (InFlight x)) x in
  (exists m', AckInFlight id seq m = (Some (if_Command e, if_Attempts e), m')
     /\ sessions m' = <[id := x']> (sessions m))
  \/ (exists err m', (SaveSession (sessionSnapshot x') (store m)).1 = Some err
     /\ AckInFlight id seq m = (None, m') /\ sessions m' = sessions m).
Proof.
  intros Hx He x'. unfold AckInFlight. rewrite Hx, He. fold x'. unfold putPersist, persistLocked. cbn [store put with_sessions].
  destruct (SaveSession (sessionSnapshot x') (store m)) as [[err|] st] eqn:Es.
  - right. eexists err, _. split_and!; [done|done|]. cbn. rewrite insert_delete_id by done.
    rewrite insert_insert_eq. destruct x; cbn in *. by apply insert_id.
  - left. by eexists.
Qed.

(** Publishing at the end of a computation. *)
Lemma publish_acks {A} event (a : A) s :
  exists s', (_ ← publishAck cfg clock event; mret a) s = (a, s')
    /\ same_world (with_acks (srv_acks s ++ [event]) s) s'.
Proof. eexists. split; [done|]. apply (publishAck_effect cfg clock event s). Qed.

Lemma publishWith_acks {A} event cmd (a : A) s :
  exists s', (_ ← publishAckWithCommand cfg clock event cmd; mret a) s = (a, s')
    /\ same_world (with_acks (srv_acks s ++ [event]) s) s'.
Proof.
  unfold mbind at 1, ST_bind. destruct (publishAckWithCommand cfg clock event cmd s) as [[] s'] eqn:E.
  exists s'. split; [done|]. pose proof (publishAckWithCommand_effect cfg clock event cmd s) as Hw. by rewrite E in Hw.
Qed.

Lemma bind_manager {A B} (op : Manager S -> A * Manager S) (f : A -> ST S B) s :
  (manager op ≫= f) s = let '(a, m) := op (srv_sessions s) in f a (with_manager m s).
Proof. unfold mbind, ST_bind, manager. by destruct (op _). Qed.

Lemma bind_ret_state {A B} (x : ST S A) (g : A -> B) s : ((a ← x; mret (g a)) s).2 = (x s).2.
Proof. unfold mbind, ST_bind. by destruct (x s). Qed.

(** The two kinds of acknowledgement, on the state with the buffer updated. *)
Lemma onTerminalAck_outcome id ack interp traceID s x :
  sessions (srv_sessions s) !! id = Some x ->
  let seq := CommandSeq ack in
  let s' := (onTerminalAck cfg clock id ack interp traceID s).2 in
  match InFlight x !! seq with
  | Some e =>
      (exists reason, srv_acks s' = srv_acks s ++ [ackFor id (if_Command e) seq (Status interp) reason]
         /\ sessions (srv_sessions s') !! id = Some (set_InFlight (delete seq (InFlight x)) x))
      \/ (srv_acks s' = srv_acks s /\ sessions (srv_sessions s') !! id = Some x
         /\ exists err, (SaveSession (sessionSnapshot (set_InFlight (delete seq (InFlight x)) x))
                          (store (srv_sessions s))).1 = Some err)
  | None => srv_acks s' = srv_acks s /\ sessions (srv_sessions s') !! id = Some x
  end.
Proof.
  intros Hx seq s'. unfold s', onTerminalAck. rewrite bind_manager. fold seq.
  destruct (InFlight x !! seq) as [e|] eqn:Ee.
  - destruct (AckInFlight_found id seq _ x e Hx Ee) as [(m' & -> & Hm)|(err & m' & Herr & -> & Hm)].
    + left. match goal with |- context [mbind (fun _ => mret ?a) (publishAckWithCommand _ _ ?ev ?cmd) ?st] =>
        destruct (publishWith_acks ev cmd a st) as (s2 & -> & (Hm2 & _ & Ha & _)) end.
      cbn [snd]. rewrite Ha, Hm2. eexists. cbn.
      split; [done|]. rewrite Hm. apply lookup_insert_eq.
    + right. cbn. rewrite Hm. split_and!; [done|done|by exists err].
  - assert (AckInFlight id seq (srv_sessions s) = (None, srv_sessions s)) as ->.
    { unfold AckInFlight. by rewrite Hx, Ee. }
    done.
Qed.

Lemma onProgressAck_outcome id ack interp traceID s x :
  sessions (srv_sessions s) !! id = Some x ->
  let seq := CommandSeq ack in
  let s' := (onProgressAck cfg clock id ack interp traceID s).2 in
  srv_sessions s' = srv_sessions s
  /\ exists msg trace cmdID reason,
       srv_acks s' = srv_acks s ++ [mkAckEvent msg trace id cmdID seq (Status interp) reason]
       /\ forall e, InFlight x !! seq = Some e -> msg = cmd_MessageID (if_Command e).
Proof.
  intros Hx seq s'. unfold s', onProgressAck, PeekInFlight. rewrite Hx. fold seq.
  set (p := match _ with Some _ => _ | None => _ end).
  assert (forall e, InFlight x !! seq = Some e -> p.1.1 = cmd_MessageID (if_Command e)) as Hp.
  { intros e He. unfold p. by rewrite He. }
  destruct p as [[msg trace] cmdID]. cbn in Hp.
  match goal with |- context [mbind (fun _ => mret ?a) (publishAck _ _ ?ev) ?st] =>
    destruct (publish_acks ev a st) as (s2 & -> & (Hm2 & _ & Ha & _)) end. cbn [snd]. rewrite Hm2, Ha. split; [done|].
  by eexists _, _, _, _.
Qed.

(** What an acknowledgement 11 does. *)
Lemma ack11_effect c frame ack traceID s x :
  ParseAck11Payload (Payload frame) = Ok ack ->
  sessions (srv_sessions s) !! cn_controllerID c = Some x ->
  let seq := CommandSeq ack in
  let code := ExecutionCode ack in
  let x0 := set_BufferFree (BufferFreeBytes ack) x in
  let s' := (onAck11 cfg clock c frame traceID s).2 in
  exists new x', srv_acks s' = srv_acks s ++ new
    /\ sessions (srv_sessions s') !! cn_controllerID c = Some x'
    /\ x' = set_InFlight (InFlight x') x0
    /\ match InFlight x !! seq with
       | Some e =>
           (exists ev, new = [ev] /\ ev_MessageID ev = cmd_MessageID (if_Command e)
              /\ ev_ControllerID ev = cn_controllerID c /\ ev_CommandSeq ev = seq
              /\ (ev_Status ev = "delivered" <-> code = 0)
              /\ InFlight x' = if decide (code = 5) then InFlight x else delete seq (InFlight x))
           \/ (code <> 5 /\ new = [] /\ InFlight x' = InFlight x
               /\ exists err, (SaveSession (sessionSnapshot (set_InFlight (delete seq (InFlight x)) x0))
                                (store (srv_sessions s))).1 = Some err)
       | None => InFlight x' = InFlight x /\ (code <> 5 -> new = [])
       end.
Proof.
  intros Hp Hx seq code x0 s'. unfold s', onAck11. rewrite Hp. clear s'.
  set (s1 := with_manager (UpdateBufferFree (cn_controllerID c) (BufferFreeBytes ack) (srv_sessions s)) s).
  assert (sessions (srv_sessions s1) !! cn_controllerID c = Some x0 /\ store (srv_sessions s1) = store (srv_sessions s))
    as [Hx0 Hst].
  { unfold s1, UpdateBufferFree. cbn. rewrite Hx. cbn. by rewrite lookup_insert_eq. }
  destruct (InterpretAck11ExecutionCode_spec code) as (Hterm & Hdel & _).
  set (interp := InterpretAck11ExecutionCode code) in *.
  match goal with |- context [snd ?run] => assert (run.2 =
    ((if Terminal interp then onTerminalAck cfg clock (cn_controllerID c) ack interp traceID
      else onProgressAck cfg clock (cn_controllerID c) ack interp traceID) s1).2) as -> end.
  { unfold manager_. rewrite bind_manager. apply bind_ret_state. }
  destruct (Terminal interp).
  - assert (code <> 5) as Hc by (intros H5; by apply Hterm in H5).
    pose proof (onTerminalAck_outcome _ ack interp traceID s1 x0 Hx0) as Ho. cbv zeta in Ho.
    change (InFlight x0) with (InFlight x) in Ho. fold seq in Ho. rewrite Hst in Ho.
    destruct (InFlight x !! seq) as [e|]; [destruct Ho as [(reason & Ha & Hs)|(Ha & Hs & Herr)]|destruct Ho as [Ha Hs]].
    + exists [ackFor (cn_controllerID c) (if_Command e) seq (Status interp) reason], (set_InFlight (delete seq (InFlight x)) x0).
      split_and!; try done. left. eexists. split; [done|]. rewrite decide_False by done. split_and!; done.
    + exists [], x0. rewrite app_nil_r. split_and!; try done. right. by split_and!.
    + exists [], x0. rewrite app_nil_r. by split_and!.
  - assert (code = 5) as Hc by by apply Hterm.
    destruct (onProgressAck_outcome _ ack interp traceID s1 x0 Hx0) as (Hs & msg & trace & cmdID & reason & Ha & Hmsg).
    eexists _, x0. rewrite Hs. split_and!; [exact Ha|done|done|].
    destruct (InFlight x !! seq) as [e|] eqn:Ee; [|done]. left. eexists. split; [done|].
    rewrite decide_True by done. split_and!; try done. by apply Hmsg.
Qed.

(** C10: an acknowledgement 11 for a command in flight is reported exactly once,
    under the command's message id and sequence number, as delivered exactly for
    execution code 0; a final code takes the command out of flight, code 5
    leaves it there; if the store refuses the removal nothing is reported and
    the command stays in flight.  A final acknowledgement that matches no
    command reports nothing.  In every case the controller's free buffer space
    is updated and its queue is untouched. *)
Theorem ack11_outcome c frame ack traceID s x :
  ParseAck11Payload (Payload frame) = Ok ack ->
  sessions (srv_sessions s) !! cn_controllerID c = Some x ->
  let seq := CommandSeq ack in
  let code := ExecutionCode ack in
  let x0 := set_BufferFree (BufferFreeBytes ack) x in
  let s' := (onAck11 cfg clock c frame traceID s).2 in
  exists new x', srv_acks s' = srv_acks s ++ new
    /\ sessions (srv_sessions s') !! cn_controllerID c = Some x'
    /\ x' = set_InFlight (InFlight x') x0
    /\ match InFlight x !! seq with
       | Some e =>
           (exists ev, new = [ev] /\ ev_MessageID ev = cmd_MessageID (if_Command e)
              /\ ev_ControllerID ev = cn_controllerID c /\ ev_CommandSeq ev = seq
              /\ (ev_Status ev = "delivered" <-> code = 0)
              /\ InFlight x' = if decide (code = 5) then InFlight x else delete seq (InFlight x))
           \/ (code <> 5 /\ new = [] /\ InFlight x' = InFlight x
               /\ exists err, (SaveSession (sessionSnapshot (set_InFlight (delete seq (InFlight x)) x0))
                                (store (srv_sessions s))).1 = Some err)
       | None => InFlight x' = InFlight x /\ (code <> 5 -> new = [])
       end.
Proof. apply ack11_effect. Qed.

(** ** Peers that do not register *)

Lemma violation_effect conn s :
  exists t n, violation (S := S) cfg connRemoteHost clock conn s
    = (tt, with_guard (registerIPViolation cfg (connRemoteHost conn) t (srv_guard s)) (with_ticks n s)).
Proof. by eexists _, _. Qed.


End Rounds.

(** ** Concrete runs *)

#[local] Existing Instance ascending.

Definition demo_conn : Conn := mkConn 1 (Some "10.0.0.7:4000").

Definition demo_remote (c : Conn) : string := "10.0.0.7".

(** A connected controller "A" with the command "m1" sent and not acknowledged. *)
Definition demo_sent : Server InMemoryStore :=
  (flushQueue default_config ticking no_write_error "A" (demo_online 1500 [status_request "m1"])).2.

Definition demo_state : connState := mkConnState true "A" FrameModeSequenced 0 0 [].

(** Acknowledgement 11 for sequence number 1 with an execution code. *)
Definition demo_ack (code : Z) : Frame :=
  mkFrame 255 9 (11 :: 1 :: code :: le_bytes 4 77 ++ le_bytes 2 900) FrameModeSequenced.

Lemma ack11_outcome_witness :
  exists new x', srv_acks (onAck11 default_config ticking demo_state (demo_ack 0) "t" demo_sent).2
      = srv_acks demo_sent ++ new
    /\ sessions (srv_sessions (onAck11 default_config ticking demo_state (demo_ack 0) "t" demo_sent).2) !! "A" = Some x'
    /\ InFlight x' = ∅ /\ map ev_Status new = ["delivered"].
Proof.
  destruct (sessions (srv_sessions demo_sent) !! "A") as [x|] eqn:Hx; [|exfalso; revert Hx; by vm_compute].
  destruct (ack11_outcome default_config ticking demo_state (demo_ack 0) (mkAck11 1 0 77 900) "t" demo_sent x eq_refl Hx)
    as (new & x' & Ha & Hs & _ & _).
  change (cn_controllerID demo_state) with "A" in Hs. exists new, x'. split; [exact Ha|]. split; [exact Hs|].
  split.
  - enough (InFlight <$> sessions (srv_sessions (onAck11 default_config ticking demo_state (demo_ack 0) "t" demo_sent).2)
      !! "A" = Some ∅) as He by (rewrite Hs in He; by injection He).
    vm_compute. reflexivity.
  - assert (map ev_Status (drop (length (srv_acks demo_sent)) (srv_acks
      (onAck11 default_config ticking demo_state (demo_ack 0) "t" demo_sent).2)) = ["delivered"]) as He
      by (vm_compute; reflexivity).
    rewrite Ha, drop_app_length in He. exact He.
Defined.

