(* ===== verification/Sim.v ===== *)
(** * The controller simulator ([cmd/controller-sim/main.go])

    A test client that plays a controller: it registers, sends status messages
    and answers commands.  What it sends and how long it sleeps is a list of
    actions; the random draws, the clock and the results of writes are
    functions of a counter.  [float64] probabilities are rationals. *)

From Stdlib Require Import QArith.
From S2P Require Import Prelude Format Messages Frame Validation Builders Queue Store Retry Session Config Policy Metrics Server Delivery Conn.

#[global] Open Scope Z_scope.

(** ** Data *)

Record simConfig := mkSimConfig {
  profileName : string;
  ackDelay : Z;
  ackErrorRate : Q;
  ackDropRate : Q;
  burstSize : Z;
  burstSpacing : Z;
  statusInterval : Z;
  sc_bufferFree : Z;
  reconnectMin : Z;
  reconnectMax : Z;
  postCommandCoolDown : Z;
  sc_frameMode : FrameMode
}.

Record controllerState := mkControllerState { bufferFree : Z; triggers : Cmd5TriggerFlags }.

(** [time.Millisecond]. *)
Definition millisecond : Z := 10 ^ 6.

Definition noTriggers : Cmd5TriggerFlags := Build_Cmd5TriggerFlags false false false false false false false false.

Definition newControllerState (bufferFree : Z) : controllerState := mkControllerState bufferFree noTriggers.

Definition reset (s : controllerState) : controllerState := mkControllerState (bufferFree s) noTriggers.

(** ** Messages *)

Definition buildRegistrationPayload (imei : string) : bytes :=
  let imeiBytes := bytes_of_string imei in
  let imeiBytes := if 15 <? len imeiBytes then take 15 imeiBytes else imeiBytes in
  let pad := blit 0 15 imeiBytes (replicate 15 0) in
  [1] ++ pad ++ [1] ++ [1].

Definition buildStatus1Payload (now bufferFree flags : Z) : bytes :=
  let b := replicate 9 0 in
  let b := <[0%nat := 2]> b in
  let b := blit 1 4 (le_bytes 4 (u32 now)) b in
  let b := blit 5 2 (le_bytes 2 flags) b in
  blit 7 2 (le_bytes 2 bufferFree) b.

Definition buildAck11Payload (now seq code bufferFree : Z) : bytes :=
  let b := replicate 9 0 in
  let b := <[0%nat := 11]> b in
  let b := <[1%nat := seq]> b in
  let b := <[2%nat := code]> b in
  let b := blit 3 4 (le_bytes 4 (u32 now)) b in
  blit 7 2 (le_bytes 2 bufferFree) b.

Definition applyTriggerPayload (payload : bytes) (s : controllerState) : res controllerState :=
  _ ← ValidateServerCommandPayload 5 payload;
  p0 ← index payload 0;
  p1 ← index payload 1;
  p2 ← index payload 2;
  p3 ← index payload 3;
  p4 ← index payload 4;
  p5 ← index payload 5;
  p6 ← index payload 6;
  p7 ← index payload 7;
  Ok (mkControllerState (bufferFree s) (Build_Cmd5TriggerFlags (p0 =? 1) (p1 =? 1) (p2 =? 1) (p3 =? 1)
        (p4 =? 1) (p5 =? 1) (p6 =? 1) (p7 =? 1))).

(** ** Profiles *)

Definition clamp01 (v : Q) : Q := if negb (Qle_bool 0 v) then 0%Q else if negb (Qle_bool v 1) then 1%Q else v.

Definition maxFloat (a b : Q) : Q := if negb (Qle_bool a b) then a else b.

Definition maxInt (a b : Z) : Z := if b <? a then a else b.

Definition maxDuration (a b : Z) : Z := if b <? a then a else b.

Definition trimSpace (s : string) : string := string_of_bytes (TrimSpace (bytes_of_string s)).

Definition parseFrameMode (name : string) : res FrameMode :=
  let n := string_of_bytes (TrimSpace (ToLower (bytes_of_string name))) in
  if String.eqb n "" || String.eqb n "compact" then Ok FrameModeCompact
  else if String.eqb n "sequenced" then Ok FrameModeSequenced
  else Err (Errorf "unknown frame mode %q" [AS name]).

Definition applyProfile (base : simConfig) (name : string) : res simConfig :=
  let c := base in
  let profile := trimSpace name in
  let mk := fun delay err drop burst spacing interval free =>
    mkSimConfig profile delay err drop burst spacing interval free (reconnectMin c) (reconnectMax c)
      (postCommandCoolDown c) (sc_frameMode c) in
  if String.eqb profile "" || String.eqb profile "healthy" then
    Ok (mk (ackDelay c) (ackErrorRate c) (ackDropRate c) (if burstSize c <=? 0 then 1 else burstSize c) (burstSpacing c)
          (if statusInterval c <=? 0 then 5 * second else statusInterval c)
          (if sc_bufferFree c =? 0 then 1500 else sc_bufferFree c))
  else if String.eqb profile "slow" then
    Ok (mk (ackDelay c + 1500 * millisecond) (ackErrorRate c) (ackDropRate c) (burstSize c) (burstSpacing c)
          (maxDuration (statusInterval c) (8 * second)) 1200)
  else if String.eqb profile "flaky" then
    Ok (mk (ackDelay c + 400 * millisecond) (clamp01 (maxFloat (ackErrorRate c) (15 # 100)))
          (clamp01 (maxFloat (ackDropRate c) (20 # 100))) (burstSize c) (burstSpacing c) (statusInterval c) 900)
  else if String.eqb profile "bursty" then
    Ok (mk (ackDelay c) (ackErrorRate c) (ackDropRate c) (maxInt (burstSize c) 4)
          (if (burstSpacing c <=? 0) || (25 * millisecond <? burstSpacing c) then 25 * millisecond else burstSpacing c)
          (if (statusInterval c <=? 0) || (2 * second <? statusInterval c) then 2 * second else statusInterval c) 1400)
  else if String.eqb profile "starved" then
    Ok (mk (ackDelay c + 250 * millisecond) (ackErrorRate c) (ackDropRate c) (burstSize c) (burstSpacing c)
          (maxDuration (statusInterval c) (6 * second)) 96)
  else Err (Errorf "unknown profile %q" [AS name]).

(** [simConfig{}]. *)
Definition zeroConfig : simConfig := mkSimConfig "" 0 0 0 0 0 0 0 0 0 0 FrameModeAuto.

(** The loop over the parts of the mix. *)
Fixpoint profileLoop (parts : list bytes) (out : list string) : res (list string) :=
  match parts with
  | [] => Ok out
  | part :: parts' =>
      let name := string_of_bytes (TrimSpace part) in
      if String.eqb name "" then profileLoop parts' out else
      _ ← applyProfile zeroConfig name;
      profileLoop parts' (out ++ [name])
  end.

Definition resolveProfileCycle (primary mix : string) : res (list string) :=
  if String.eqb (trimSpace mix) "" then
    _ ← applyProfile zeroConfig primary;
    Ok [trimSpace primary]
  else
    out ← profileLoop (Split 44 (bytes_of_string mix)) [];
    if len out =? 0 then Err (Errorf "profile-mix must contain at least one valid profile" []) else Ok out.

(** ** Answering commands *)

Inductive action :=
  | Send (wire : bytes)
  | Sleep (d : Z).

Record simState := mkSimState { sim_ctrl : controllerState; sim_ticks : nat; sim_out : list action }.

(** Computations of the simulator; an error ends them. *)
Definition Sim (A : Type) : Type := simState -> res A * simState.

#[global] Instance Sim_ret : MRet Sim := fun A a s => (Ok a, s).
#[global] Instance Sim_bind : MBind Sim := fun A B f x s =>
  match x s with
  | (Ok a, s') => f a s'
  | (Err e, s') => (Err e, s')
  | (Panic, s') => (Panic, s')
  end.

Definition sim_lift {A} (r : res A) : Sim A := fun s => (r, s).

Section Sim.
Variable clock : nat -> Z.
Variable draw : nat -> Q.
Variable sendErr : nat -> option error.

Definition tick (s : simState) : simState := mkSimState (sim_ctrl s) (S (sim_ticks s)) (sim_out s).

(** [time.Now().Unix()], [rand.Float64()], [time.Sleep], [conn.Write]. *)
Definition unixNow : Sim Z := fun s => (Ok (clock (sim_ticks s) / second), tick s).

Definition randFloat : Sim Q := fun s => (Ok (draw (sim_ticks s)), tick s).

Definition sleep (d : Z) : Sim unit := fun s => (Ok tt, mkSimState (sim_ctrl s) (sim_ticks s) (sim_out s ++ [Sleep d])).

Definition send (wire : bytes) : Sim unit := fun s =>
  match sendErr (sim_ticks s) with
  | Some e => (Err e, tick s)
  | None => (Ok tt, mkSimState (sim_ctrl s) (S (sim_ticks s)) (sim_out s ++ [Send wire]))
  end.

Definition ctrl : Sim controllerState := fun s => (Ok (sim_ctrl s), s).

Definition set_ctrl (c : controllerState) : Sim unit := fun s => (Ok tt, mkSimState c (sim_ticks s) (sim_out s)).

Definition sim_writeFrame (mode : FrameMode) (payload : bytes) : Sim unit :=
  wire ← sim_lift (EncodeFrame (mkFrame 255 1 payload mode));
  send wire.

Definition chooseTerminalAckCode (cfg : simConfig) : Sim Z :=
  r ← randFloat;
  mret (if negb (Qle_bool (ackErrorRate cfg) r) then 2 else 0).

Definition sendCommandAck (seq code bufferFree : Z) (cfg : simConfig) : Sim unit :=
  drop ← (if code =? 5 then mret false else r ← randFloat; mret (negb (Qle_bool (ackDropRate cfg) r)));
  if drop : bool then mret tt else
  _ ← (if 0 <? ackDelay cfg then sleep (ackDelay cfg) else mret tt);
  now ← unixNow;
  sim_writeFrame (sc_frameMode cfg) (buildAck11Payload now seq code bufferFree).

Definition commandDelay (timeout : Z) (cfg : simConfig) : Z :=
  if timeout =? 0 then (if 0 <? ackDelay cfg then ackDelay cfg else 250 * millisecond) else timeout * second.

(** The restart of the controller: acknowledge the start, wait, acknowledge
    the end; [after] is what the command does. *)
Definition restart (after : controllerState -> controllerState) (frame : Frame) (payload : bytes) (cfg : simConfig)
    : Sim bool :=
  let timeout := match payload with [] => 0 | b :: _ => b end in
  s ← ctrl;
  _ ← sendCommandAck (Seq frame) 5 (bufferFree s) cfg;
  _ ← sleep (commandDelay timeout cfg);
  code ← chooseTerminalAckCode cfg;
  _ ← sendCommandAck (Seq frame) code (bufferFree s) cfg;
  _ ← set_ctrl (after s);
  _ ← sleep (postCommandCoolDown cfg);
  mret true.

Definition answer (frame : Frame) (cfg : simConfig) : Sim bool :=
  s ← ctrl;
  code ← chooseTerminalAckCode cfg;
  _ ← sendCommandAck (Seq frame) code (bufferFree s) cfg;
  mret false.

(** The result says whether the simulator disconnects. *)
Definition handleServerCommand (frame : Frame) (cfg : simConfig) : Sim bool :=
  cmdID ← sim_lift (index (Payload frame) 0);
  payload ← sim_lift (slice (Payload frame) 1 (length (Payload frame)));
  if cmdID =? 2 then restart id frame payload cfg
  else if cmdID =? 3 then restart reset frame payload cfg
  else if cmdID =? 5 then
    s ← ctrl;
    s' ← sim_lift (applyTriggerPayload payload s);
    _ ← set_ctrl s';
    answer frame cfg
  else answer frame cfg.

(** One round of the goroutine that reads the server's frames; the bytes that
    arrive are the reader's.  [None]: the loop goes on. *)
Definition errSimulatedReconnect : error := Errorf "simulated reconnect" [].

Definition readRound (reader : Reader) (cfg : simConfig) : Sim (option error * Reader) :=
  let '(r, reader) := ReadFrameWithMode reader FrameModeAuto in
  match r with
  | Panic => sim_lift Panic
  | Err e => mret (Some e, reader)
  | Ok frame =>
      match CommandID frame with
      | (_, false) => mret (None, reader)
      | (cmdID, true) =>
          if (cmdID =? CmdControllerAck) || (cmdID =? CmdRegistrationAck) then mret (None, reader) else fun s =>
          match handleServerCommand frame cfg s with
          | (Ok false, s') => (Ok (None, reader), s')
          | (Ok true, s') => (Ok (Some errSimulatedReconnect, reader), s')
          | (Err e, s') => (Ok (Some e, reader), s')
          | (Panic, s') => (Panic, s')
          end
      end
  end.

(** The status messages of a tick: [n] remain of a burst. *)
Fixpoint statusBurst (n : nat) (cfg : simConfig) : Sim unit :=
  match n with
  | O => mret tt
  | S n' =>
      s ← ctrl;
      now ← unixNow;
      _ ← sim_writeFrame (sc_frameMode cfg) (buildStatus1Payload now (bufferFree s) 0);
      _ ← (if (0 <? Z.of_nat n') && (0 <? burstSpacing cfg) then sleep (burstSpacing cfg) else mret tt);
      statusBurst n' cfg
  end.

(** The tick of [serveConn]. *)
Definition statusTick (cfg : simConfig) : Sim unit := statusBurst (Z.to_nat (burstSize cfg)) cfg.

(** The registration of [serveConn]. *)
Definition registerController (imei : string) (cfg : simConfig) : Sim unit :=
  sim_writeFrame (sc_frameMode cfg) (buildRegistrationPayload imei).

End Sim.

(** ** Lemmas *)

Lemma length_bytes_of_string s : length (bytes_of_string s) = String.length s.
Proof. induction s as [|c s IH]; [done|]. cbn. by rewrite IH. Qed.

Lemma buildRegistrationPayload_wire imei :
  (String.length imei <= 15)%nat ->
  buildRegistrationPayload imei = registration_wire (bytes_of_string imei) 1 1 [].
Proof.
  intros Hl. rewrite <- length_bytes_of_string in Hl. unfold buildRegistrationPayload, registration_wire.
  rewrite (proj2 (Z.ltb_ge _ _)) by (unfold len; lia). unfold blit. rewrite take_0, drop_replicate. cbn [app].
  rewrite (take_ge (bytes_of_string imei)) by lia.
  by rewrite Nat.min_r by lia.
Qed.

Lemma buildStatus1Payload_wire now free flags :
  buildStatus1Payload now free flags = 2 :: le_bytes 4 (u32 now) ++ le_bytes 2 flags ++ le_bytes 2 free.
Proof. reflexivity. Qed.

Lemma buildAck11Payload_wire now seq code free :
  buildAck11Payload now seq code free = 11 :: seq :: code :: le_bytes 4 (u32 now) ++ le_bytes 2 free.
Proof. reflexivity. Qed.

Lemma u32_le_value v : le_value (le_bytes 4 (u32 v)) = u32 v.
Proof. rewrite le_value_le_bytes. unfold u32. change (256 ^ Z.of_nat 4) with (2 ^ 32). by rewrite Z.mod_mod. Qed.

Lemma parse_status1 now free flags :
  0 <= flags < 2 ^ 16 -> 0 <= free < 2 ^ 16 ->
  ParseStatus1Payload (buildStatus1Payload now free flags) = Ok (mkStatus1 (u32 now) flags free).
Proof.
  intros Hf Hb. rewrite buildStatus1Payload_wire.
  rewrite <- (u32_le_value now), <- (u16_le_value flags), <- (u16_le_value free) at 2 by done. reflexivity.
Qed.

Lemma parse_ack11 now seq code free :
  0 <= free < 2 ^ 16 ->
  ParseAck11Payload (buildAck11Payload now seq code free) = Ok (mkAck11 seq code (u32 now) free).
Proof.
  intros Hb. rewrite buildAck11Payload_wire.
  rewrite <- (u32_le_value now), <- (u16_le_value free) at 2 by done. reflexivity.
Qed.

(** A payload of bytes the simulator sends, as a frame. *)
Lemma sim_frame_encodes payload mode :
  payload <> [] -> (length payload <= 1000)%nat ->
  EncodeFrame (mkFrame 255 1 payload mode) = Ok (wire (frameData (mkFrame 255 1 payload mode))).
Proof.
  intros Hne Hl. apply EncodeFrame_ok. split_and!; [done| |done]. rewrite frameData_len. cbn. unfold len.
  destruct (isCompact mode); lia.
Qed.

Lemma received_fields f : Payload (received f) = Payload f /\ Mode (received f) = Mode f.
Proof. unfold received. by destruct (isCompact _). Qed.

Lemma wf_sim_frame payload mode : wf_bytes payload -> wf_frame (mkFrame 255 1 payload mode).
Proof. intros Hwf. split_and!; [unfold is_byte; cbn; lia..|done]. Qed.

(** What the server reads when the simulator sends a message. *)
Definition server_reads {A} (read parsed : FrameMode) (parse : bytes -> res A) (payload : bytes) (value : A) : Prop :=
  forall tail e, exists w f, EncodeFrame (mkFrame 255 1 payload parsed) = Ok w
    /\ ReadFrameWithMode (mkReader (w ++ tail) e) read = (Ok f, mkReader tail e)
    /\ Mode f = parsed /\ parse (Payload f) = Ok value.

Lemma server_reads_own {A} mode (parse : bytes -> res A) payload value :
  mode <> FrameModeAuto -> wf_bytes payload -> (0 < length payload <= 1000)%nat -> parse payload = Ok value ->
  server_reads mode mode parse payload value.
Proof.
  intros Hm Hwf Hl Hp tail e. set (f := mkFrame 255 1 payload mode).
  assert (payload <> []) as Hne by (intros ->; cbn in Hl; lia).
  pose proof (sim_frame_encodes payload mode Hne ltac:(lia)) as He.
  exists (wire (frameData f)), (received f). destruct (received_fields f) as [-> ->]. split_and!; [done| |done|done].
  apply (frame_reads_back f); [by apply wf_sim_frame|done|done].
Qed.

Lemma server_reads_registration imei mode :
  mode <> FrameModeAuto -> (1 <= String.length imei <= 15)%nat -> isDigitsOnly imei = true ->
  server_reads FrameModeAuto mode ParseRegistrationPayload (buildRegistrationPayload imei) (mkRegistration imei 1 1).
Proof.
  intros Hm Hl Hd tail e. rewrite buildRegistrationPayload_wire by lia.
  assert (Forall (fun b => 48 <= b <= 57) (bytes_of_string imei)) as Hds.
  { unfold isDigitsOnly in Hd. rewrite forallb_forall in Hd. apply Forall_forall. intros b Hb%list_elem_of_In.
    by apply is_digit_spec, Hd. }
  set (p := registration_wire _ _ _ _). set (f := mkFrame 255 1 p mode). rewrite <- length_bytes_of_string in Hl.
  assert (length p = 18%nat) as Hlp.
  { unfold p, registration_wire. cbn. rewrite !length_app, length_replicate. cbn. lia. }
  assert (wf_bytes p) as Hwf.
  { unfold p, registration_wire. constructor; [unfold is_byte; lia|]. rewrite !wf_bytes_app.
    split_and!; [apply wf_bytes_of_string|apply Forall_replicate; unfold is_byte; lia|by apply wf_bytes_check]. }
  exists (wire (frameData f)), (received f). destruct (received_fields f) as [-> ->].
  pose proof (sim_frame_encodes p mode ltac:(done) ltac:(lia)) as He. split_and!; [done| |done|].
  - apply (auto_mode_registration f (bytes_of_string imei) 1 1 _ []); [by apply wf_sim_frame|done..].
  - cbn [Payload f]. unfold p. rewrite parse_registration_wire by done. by rewrite string_of_bytes_of_string.
Qed.

(** The simulator speaks the server's protocol, in both framings: from its
    registration the server learns the framing, the IMEI and the versions; from
    its status messages and acknowledgements, every field that was sent. *)
Lemma simulator_speaks_protocol imei mode now seq code flags free :
  mode <> FrameModeAuto -> (1 <= String.length imei <= 15)%nat -> isDigitsOnly imei = true ->
  is_byte seq -> is_byte code -> 0 <= flags < 2 ^ 16 -> 0 <= free < 2 ^ 16 ->
  server_reads FrameModeAuto mode ParseRegistrationPayload (buildRegistrationPayload imei) (mkRegistration imei 1 1)
  /\ server_reads mode mode ParseStatus1Payload (buildStatus1Payload now free flags) (mkStatus1 (u32 now) flags free)
  /\ server_reads mode mode ParseAck11Payload (buildAck11Payload now seq code free) (mkAck11 seq code (u32 now) free).
Proof.
  intros Hm Hl Hd Hs Hc Hf Hb. split_and!.
  - by apply server_reads_registration.
  - apply server_reads_own; [done| | |by apply parse_status1].
    + rewrite buildStatus1Payload_wire. constructor; [unfold is_byte; lia|]. rewrite !wf_bytes_app. auto with go.
    + rewrite buildStatus1Payload_wire. cbn. lia.
  - apply server_reads_own; [done| | |by apply parse_ack11].
    + rewrite buildAck11Payload_wire. repeat constructor; try apply Hs; try apply Hc; try lia. all: apply Z.mod_pos_bound; lia.
    + rewrite buildAck11Payload_wire. cbn. lia.
Qed.

Lemma simulator_speaks_protocol_witness :
  server_reads FrameModeAuto FrameModeCompact ParseRegistrationPayload (buildRegistrationPayload "860000000000001")
    (mkRegistration "860000000000001" 1 1)
  /\ server_reads FrameModeCompact FrameModeCompact ParseAck11Payload (buildAck11Payload 77 9 5 1500) (mkAck11 9 5 77 1500).
Proof.
  destruct (simulator_speaks_protocol "860000000000001" FrameModeCompact 77 9 5 0 1500) as (H1 & _ & H3);
    [done|cbn; lia|reflexivity|unfold is_byte; lia..|lia|lia|].
  split; [exact H1|exact H3].
Defined.

(** ** Triggers *)

(** The flags an operator sets are the flags the controller applies: the
    payload built from any set of trigger flags, if it passes validation, gives
    the controller exactly that set. *)
Lemma triggers_roundtrip p payload s :
  Cmd5TriggerStructuredPayload_Build p = Ok payload ->
  applyTriggerPayload payload s = Ok (mkControllerState (bufferFree s) (c5_Flags p)).
Proof.
  intros [Hv Hp]%validated_ok. rewrite <- Hp in Hv. unfold applyTriggerPayload. rewrite Hv. cbn [mbind res_bind].
  assert (forall b : bool, (boolToByte b =? 1) = b) as Hb by by intros [].
  subst payload. unfold blit. cbn. rewrite !Hb. by destruct (c5_Flags p).
Qed.

Lemma triggers_roundtrip_witness :
  let flags := Build_Cmd5TriggerFlags true false true false false true false true in
  exists payload, Cmd5TriggerStructuredPayload_Build (Build_Cmd5TriggerStructuredPayload flags (replicate 8 0)) = Ok payload
    /\ applyTriggerPayload payload (newControllerState 1500) = Ok (mkControllerState 1500 flags).
Proof.
  intros flags. eexists. split; [reflexivity|].
  apply (triggers_roundtrip (Build_Cmd5TriggerStructuredPayload flags (replicate 8 0)) _ (newControllerState 1500)).
  reflexivity.
Defined.

(** ** Acknowledgements in the compact framing *)

Section Acks.
Variable clock : nat -> Z.
Variable draw : nat -> Q.
Variable sendErr : nat -> option error.

(** An acknowledgement the simulator sends, for a sequence number. *)
Definition is_ack (seq free : Z) (cfg : simConfig) (a : action) : Prop :=
  match a with
  | Sleep _ => True
  | Send w => exists now code, is_byte code
      /\ EncodeFrame (mkFrame 255 1 (buildAck11Payload now seq code free) (sc_frameMode cfg)) = Ok w
  end.

(** All a computation sends are acknowledgements; the free space reported does
    not change. *)
Definition acks_only {A} (seq free : Z) (cfg : simConfig) (x : Sim A) : Prop :=
  forall s, bufferFree (sim_ctrl s) = free ->
    bufferFree (sim_ctrl (x s).2) = free
    /\ exists new, sim_out (x s).2 = sim_out s ++ new /\ Forall (is_ack seq free cfg) new.

Lemma acks_bind {A B} seq free cfg (x : Sim A) (f : A -> Sim B) :
  acks_only seq free cfg x -> (forall a, acks_only seq free cfg (f a)) -> acks_only seq free cfg (x ≫= f).
Proof.
  intros Hx Hf s Hs. destruct (Hx s Hs) as (Hs1 & n1 & Ho1 & Hn1). unfold mbind, Sim_bind.
  destruct (x s) as [[a|e|] s1]; cbn in *; [|by split; [|exists n1]..].
  destruct (Hf a s1 Hs1) as (Hs2 & n2 & Ho2 & Hn2). split; [done|]. exists (n1 ++ n2).
  rewrite Ho2, Ho1, app_assoc. split; [done|]. by apply Forall_app.
Qed.

(** A computation that sends nothing and keeps the free space. *)
Lemma acks_quiet {A} seq free cfg (x : Sim A) :
  (forall s, bufferFree (sim_ctrl (x s).2) = bufferFree (sim_ctrl s) /\ sim_out (x s).2 = sim_out s) ->
  acks_only seq free cfg x.
Proof. intros Hx s Hs. destruct (Hx s) as [Hc Ho]. split; [by rewrite Hc|]. exists []. by rewrite app_nil_r. Qed.

Lemma acks_sleep seq free cfg d : acks_only seq free cfg (sleep d).
Proof. intros s Hs. split; [done|]. exists [Sleep d]. split; [done|]. by constructor. Qed.

Lemma acks_writeFrame seq free cfg now code :
  is_byte code ->
  acks_only seq free cfg (sim_writeFrame sendErr (sc_frameMode cfg) (buildAck11Payload now seq code free)).
Proof.
  intros Hc. unfold sim_writeFrame. intros s Hs. unfold mbind, Sim_bind, sim_lift.
  destruct (EncodeFrame _) as [w|e|] eqn:E; [|by split; [|exists []; rewrite app_nil_r]..].
  unfold send. destruct (sendErr _); [by split; [|exists []; rewrite app_nil_r]|]. split; [done|].
  exists [Send w]. split; [done|]. constructor; [|done]. by exists now, code.
Qed.

Create HintDb sim.
#[local] Hint Resolve acks_sleep acks_writeFrame : sim.
#[local] Hint Extern 1 (acks_only _ _ _ _) => (apply acks_quiet; intros ?; done) : sim.

Ltac acks_tac :=
  repeat match goal with
  | |- forall _, _ => intros ?
  | |- acks_only _ _ _ (mbind _ _) => apply acks_bind
  | |- acks_only _ _ _ (if ?b then _ else _) => destruct b
  | |- acks_only _ _ _ _ => solve [eauto with sim]
  end.

Lemma acks_sendCommandAck seq free cfg code :
  is_byte code -> acks_only seq free cfg (sendCommandAck clock draw sendErr seq code free cfg).
Proof. intros Hc. unfold sendCommandAck. acks_tac. Qed.

#[local] Hint Resolve acks_sendCommandAck : sim.

(** A computation that starts by reading the controller's state. *)
Lemma acks_ctrl {B} seq free cfg (f : controllerState -> Sim B) :
  (forall c, bufferFree c = free -> acks_only seq free cfg (f c)) -> acks_only seq free cfg (ctrl ≫= f).
Proof. intros Hf s Hs. by apply (Hf (sim_ctrl s)). Qed.

Lemma acks_choose {B} seq free cfg (f : Z -> Sim B) :
  (forall code, is_byte code -> acks_only seq free cfg (f code)) ->
  acks_only seq free cfg (chooseTerminalAckCode draw cfg ≫= f).
Proof.
  intros Hf s Hs. unfold chooseTerminalAckCode, mbind, Sim_bind, randFloat, mret, Sim_ret. cbn.
  assert (is_byte 2 /\ is_byte 0) as [H2 H0] by (unfold is_byte; lia).
  destruct (negb _); [exact (Hf 2 H2 (tick s) Hs)|exact (Hf 0 H0 (tick s) Hs)].
Qed.

Lemma acks_set seq free cfg c : bufferFree c = free -> acks_only seq free cfg (set_ctrl c).
Proof. intros Hc s Hs. split; [done|]. exists []. by rewrite app_nil_r. Qed.

#[local] Hint Resolve acks_set : sim.

Lemma acks_lift {A B} seq free cfg (r : res A) (f : A -> Sim B) :
  (forall a, r = Ok a -> acks_only seq free cfg (f a)) -> acks_only seq free cfg (sim_lift r ≫= f).
Proof.
  intros Hf s Hs. unfold mbind, Sim_bind, sim_lift.
  destruct r as [a|e|]; [by apply (Hf a)|by split; [|exists []; rewrite app_nil_r]..].
Qed.

Lemma applyTriggerPayload_free payload c c' : applyTriggerPayload payload c = Ok c' -> bufferFree c' = bufferFree c.
Proof. unfold applyTriggerPayload. intros Hp. repeat (apply bind_ok in Hp as (? & _ & Hp)). by injection Hp as <-. Qed.

Lemma acks_handle frame cfg free :
  acks_only (Seq frame) free cfg (handleServerCommand clock draw sendErr frame cfg).
Proof.
  assert (acks_only (Seq frame) free cfg (answer clock draw sendErr frame cfg)) as Hans.
  { unfold answer. apply acks_ctrl. intros c <-. apply acks_choose. intros code Hc. acks_tac. }
  assert (forall after payload, (forall c, bufferFree (after c) = bufferFree c) ->
    acks_only (Seq frame) free cfg (restart clock draw sendErr after frame payload cfg)) as Hre.
  { intros after payload Ha. unfold restart. apply acks_ctrl. intros c <-.
    apply acks_bind; [apply acks_sendCommandAck; unfold is_byte; lia|]. intros _. apply acks_bind; [acks_tac|]. intros _.
    apply acks_choose. intros code Hc. acks_tac. }
  unfold handleServerCommand. apply acks_bind; [acks_tac|]. intros cmd. apply acks_bind; [acks_tac|]. intros payload.
  destruct (cmd =? 2); [by apply Hre|]. destruct (cmd =? 3); [by apply Hre|]. destruct (cmd =? 5); [|done].
  apply acks_ctrl. intros c Hc. apply acks_lift. intros c' Hc'%applyTriggerPayload_free.
  apply acks_bind; [apply acks_set; congruence|]. intros _. exact Hans.
Qed.

(** A frame in the compact framing that is no registration in either reading
    is read as it was sent, but for the sequence number. *)
Lemma auto_compact_command f w tail e cmd p :
  wf_frame f -> Mode f = FrameModeCompact -> Payload f = cmd :: p -> isKnownCommandID cmd = true -> cmd <> 1 ->
  (forall reg, ParseRegistrationPayload p <> Ok reg) -> EncodeFrame f = Ok w ->
  ReadFrameWithMode (mkReader (w ++ tail) e) FrameModeAuto
  = (Ok (mkFrame (TTL f) 0 (Payload f) FrameModeCompact), mkReader tail e).
Proof.
  intros Hwf Hm Hp Hk Hne Hreg Henc. apply frameData_bounds in Henc as [Hb ->].
  rewrite read_wire by auto using wf_frameData. f_equal.
  destruct f as [t sq pl []]; cbn [TTL Seq Payload Mode] in *; try done. subst pl.
  change (frameOfData FrameModeAuto (frameData (mkFrame t sq (cmd :: p) FrameModeCompact)))
    with (readAutoFrame (t :: cmd :: p)).
  unfold readAutoFrame. rewrite compactFrame_cons. cbn [length Nat.ltb Nat.leb mbind res_bind Payload].
  assert (res_is_ok (ParseRegistrationPayload (cmd :: p)) = false) as ->.
  { unfold ParseRegistrationPayload. destruct (fail_if _ _); [|done..]. cbn.
    by rewrite (proj2 (Z.eqb_neq _ _) Hne). }
  destruct p as [|b p]; [done|]. cbn [length Nat.ltb Nat.leb]. rewrite sequencedFrame_cons. cbn [mbind res_bind Payload].
  destruct (ParseRegistrationPayload (b :: p)) as [reg| |]; [by destruct (Hreg reg)|..]; cbn [res_is_ok CommandID Payload].
  all: rewrite Hk; cbn [andb negb]; by destruct (isKnownCommandID b).
Qed.

(** What the server does with an acknowledgement for sequence number 0. *)
Lemma ack_zero_ignored `{MapRange} {S} `{!Store S} `{!StoreLaws S} cfg srvClock c frame traceID (s : Server S) x now code free :
  Payload frame = buildAck11Payload now 0 code free -> 0 <= free < 2 ^ 16 ->
  sessions (srv_sessions s) !! cn_controllerID c = Some x -> InFlight x !! 0 = None ->
  exists x', sessions (srv_sessions (onAck11 cfg srvClock c frame traceID s).2) !! cn_controllerID c = Some x'
    /\ InFlight x' = InFlight x.
Proof.
  intros Hp Hf Hx H0. pose proof (parse_ack11 now 0 code free Hf) as Hparse. rewrite <- Hp in Hparse.
  destruct (ack11_effect cfg srvClock c frame _ traceID s x Hparse Hx) as (new & x' & _ & Hx' & _ & Hm).
  cbn [CommandSeq] in Hm. rewrite H0 in Hm. exists x'. by destruct Hm.
Qed.

(** In the compact framing no command is ever acknowledged by the simulator:
    the framing does not carry the sequence number of a command, the simulator
    answers every command as number 0, and while no command with number 0 is in
    flight (numbers start at 1) the server takes nothing out of flight for such
    an answer, whatever its code. *)
Lemma compact_acks_ignored `{MapRange} {S} `{!Store S} `{!StoreLaws S} cfg srvClock f w cmd p e scfg st :
  wf_frame f -> Mode f = FrameModeCompact -> Payload f = cmd :: p -> isKnownCommandID cmd = true ->
  cmd <> CmdRegistrationAck -> cmd <> CmdControllerAck -> (forall reg, ParseRegistrationPayload p <> Ok reg) ->
  EncodeFrame f = Ok w -> sc_frameMode scfg = FrameModeCompact -> 0 <= bufferFree (sim_ctrl st) < 2 ^ 16 ->
  exists new, sim_out (readRound clock draw sendErr (mkReader w e) scfg st).2 = sim_out st ++ new
    /\ forall reply, Send reply ∈ new -> forall tail e', exists frame,
         ReadFrameWithMode (mkReader (reply ++ tail) e') FrameModeCompact = (Ok frame, mkReader tail e')
         /\ forall c traceID (s : Server S) x,
              sessions (srv_sessions s) !! cn_controllerID c = Some x -> InFlight x !! 0 = None ->
              exists x', sessions (srv_sessions (onAck11 cfg srvClock c frame traceID s).2) !! cn_controllerID c = Some x'
                /\ InFlight x' = InFlight x.
Proof.
  intros Hwf Hm Hp Hk Hne1 Hne2 Hreg Henc Hmode Hfree. unfold readRound.
  pose proof (auto_compact_command f w [] e cmd p Hwf Hm Hp Hk Hne1 Hreg Henc) as Hread. rewrite app_nil_r in Hread.
  rewrite Hread. set (g := mkFrame (TTL f) 0 (Payload f) FrameModeCompact).
  assert (CommandID g = (cmd, true)) as -> by (unfold CommandID, g; cbn; by rewrite Hp).
  rewrite (proj2 (Z.eqb_neq _ _) Hne1), (proj2 (Z.eqb_neq _ _) Hne2). cbn [orb].
  destruct (acks_handle g scfg (bufferFree (sim_ctrl st)) st eq_refl) as (_ & new & Ho & Hn). exists new. split.
  { destruct (handleServerCommand _ _ _ _ _ _) as [[[]|?|] st']; exact Ho. }
  intros reply Hin tail e'. rewrite Forall_forall in Hn. destruct (Hn _ Hin) as (now & code & Hc & He).
  rewrite Hmode in He. set (a := mkFrame 255 1 _ FrameModeCompact) in He.
  exists (received a). split.
  - apply (frame_reads_back a); [|done|done]. apply wf_sim_frame. cbn [Seq g]. rewrite buildAck11Payload_wire.
    repeat constructor; try apply Hc; try lia. all: apply Z.mod_pos_bound; lia.
  - intros c traceID s x Hx H0. eapply ack_zero_ignored; [|exact Hfree|done|done]. by rewrite (proj1 (received_fields a)).
Qed.

End Acks.

#[local] Existing Instance ascending.

(** A command "reboot", as the server sends it to a compact controller. *)
Lemma compact_acks_ignored_witness :
  let f := mkFrame 255 1 [2; 3] FrameModeCompact in
  let scfg := mkSimConfig "healthy" 0 0 0 1 0 0 1500 0 0 0 FrameModeCompact in
  let st := mkSimState (newControllerState 1500) 0 [] in
  exists w new, EncodeFrame f = Ok w
    /\ sim_out (readRound Z.of_nat (fun _ => 1%Q) (fun _ => None) (mkReader w ErrEOF) scfg st).2 = new
    /\ length new = 4%nat
    /\ exists reply frame, Send reply ∈ new
         /\ ReadFrameWithMode (mkReader (reply ++ []) ErrEOF) FrameModeCompact = (Ok frame, mkReader [] ErrEOF)
         /\ exists x', sessions (srv_sessions (onAck11 default_config ticking demo_state frame "t" demo_sent).2) !! "A" = Some x'
              /\ InFlight x' <> ∅.
Proof.
  intros f scfg st. exists (wire (frameData f)). eexists. split; [vm_compute; reflexivity|]. split; [reflexivity|].
  destruct (compact_acks_ignored Z.of_nat (fun _ => 1%Q) (fun _ => None) (S := InMemoryStore) default_config ticking
    f (wire (frameData f)) 2 [3] ErrEOF scfg st) as (new & Hnew & Hall);
    [split_and!; [unfold is_byte; cbn; lia..|by apply wf_bytes_check]|reflexivity|reflexivity|reflexivity|done|done
    |intros reg Hr; vm_compute in Hr; discriminate Hr|vm_compute; reflexivity|reflexivity|cbn; lia|].
  cbn [sim_out st app] in Hnew. rewrite Hnew. split; [rewrite <- Hnew; vm_compute; reflexivity|].
  assert (exists reply, Send reply ∈ new) as [reply Hin].
  { rewrite <- Hnew. vm_compute. eexists. left. }
  destruct (Hall reply Hin [] ErrEOF) as (frame & Hread & Hkeep).
  exists reply, frame. split; [exact Hin|]. split; [exact Hread|].
  destruct (sessions (srv_sessions demo_sent) !! "A") as [x|] eqn:Hx; [|exfalso; revert Hx; by vm_compute].
  assert (InFlight x !! 0 = None /\ InFlight x !! 1 <> None) as [H0 H1].
  { assert ((fun x => (if InFlight x !! 0 then true else false, if InFlight x !! 1 then true else false))
      <$> sessions (srv_sessions demo_sent) !! "A" = Some (false, true)) as Hv by (vm_compute; reflexivity).
    rewrite Hx in Hv. injection Hv as Hv0 Hv1. destruct (InFlight x !! 0) as [e0|]; [discriminate Hv0|].
    destruct (InFlight x !! 1) as [e1|]; [|discriminate Hv1]. split; [reflexivity|discriminate]. }
  destruct (Hkeep demo_state "t" demo_sent x Hx H0) as (x' & Hx' & Hin').
  exists x'. split; [exact Hx'|]. rewrite Hin'. intros He. apply H1. rewrite He. apply lookup_empty.
Defined.

(** The simulator reads in the automatic mode: a sequenced frame whose sequence
    number is a known command id is read as a compact frame of that command.
    Here a status request with sequence number 2 is read as a reboot. *)
Example sim_misreads_sequenced :
  let f := mkFrame 255 2 [22] FrameModeSequenced in
  EncodeFrame f = Ok (wire (frameData f))
  /\ ReadFrameWithMode (mkReader (wire (frameData f)) ErrEOF) FrameModeAuto
     = (Ok (mkFrame 255 0 [2; 22] FrameModeCompact), mkReader [] ErrEOF).
Proof. split; vm_compute; reflexivity. Qed.
