(* ===== verification/SimRun.v ===== *)
(** * The simulator's process ([cmd/controller-sim/main.go]: [main],
      [runController], [serveConn], [randomJitter])

    The flags give a list of controllers, each with an IMEI and a configuration;
    each controller connects, registers, and then answers commands and sends
    status messages until the connection or the process ends.

    Two goroutines serve a connection: one reads and answers, the other sends
    the status messages and waits for the first to fail.  They take turns; a
    turn is an event: a frame is read and answered, the ticker fires, the error
    of the reader is received, or the process is told to stop. *)

From Stdlib Require Import QArith.
From stdpp Require Import pretty.
From S2P Require Import Prelude Format Messages Frame Validation Builders Retry Sim.

#[global] Open Scope Z_scope.

(** ** Flags *)

Record simFlags := mkSimFlags {
  fl_clients : Z;
  fl_statusInterval : Z;
  fl_baseIMEI : Z;
  fl_ackDelay : Z;
  fl_ackErrorRate : Q;
  fl_ackDropRate : Q;
  fl_burstSize : Z;
  fl_burstSpacing : Z;
  fl_profile : string;
  fl_profileMix : string;
  fl_frameMode : string
}.

(** The defaults of the flags. *)
Definition defaultFlags : simFlags :=
  mkSimFlags 5 (5 * second) 860000000000000 0 0 0 1 (50 * millisecond) "healthy" "" "compact".

(** [k] decimal digits. *)
Fixpoint fixedDec (k : nat) (n : Z) : bytes :=
  match k with
  | O => []
  | S k' => fixedDec k' (n / 10) ++ [48 + n mod 10]
  end.

(** [fmt.Sprintf("%015d", n)]: the width counts the sign. *)
Definition show015d (n : Z) : string :=
  if n <? 0 then (if - n <? 10 ^ 14 then "-" +:+ string_of_bytes (fixedDec 14 (- n)) else pretty n)
  else if n <? 10 ^ 15 then string_of_bytes (fixedDec 15 n) else pretty n.

Definition baseCfg (flags : simFlags) (frameMode : FrameMode) : simConfig :=
  mkSimConfig (fl_profile flags) (fl_ackDelay flags) (fl_ackErrorRate flags) (fl_ackDropRate flags) (fl_burstSize flags)
    (fl_burstSpacing flags) (fl_statusInterval flags) 1500 (500 * millisecond) (1500 * millisecond) (250 * millisecond)
    frameMode.

(** The loop over the clients, from client [i] on. *)
Fixpoint startClients (n : nat) (i : nat) (base : simConfig) (baseIMEI : Z) (profiles : list string)
    : res (list (string * simConfig)) :=
  match n with
  | O => Ok []
  | S n' =>
      let imei := show015d (i64 (baseIMEI + Z.of_nat i)) in
      profile ← match profiles !! (i mod length profiles)%nat with Some p => Ok p | None => Panic end;
      controllerCfg ← applyProfile base profile;
      rest ← startClients n' (S i) base baseIMEI profiles;
      Ok ((imei, controllerCfg) :: rest)
  end.

(** The controllers [main] starts, or what it exits with.  The rates are not
    NaN. *)
Definition simMain (flags : simFlags) : res (list (string * simConfig)) :=
  _ ← fail_if (fl_clients flags <=? 0) (Errorf "clients must be > 0" []);
  _ ← fail_if (negb (Qle_bool 0 (fl_ackErrorRate flags)) || negb (Qle_bool (fl_ackErrorRate flags) 1))
        (Errorf "ack-error-rate must be within [0..1]" []);
  _ ← fail_if (negb (Qle_bool 0 (fl_ackDropRate flags)) || negb (Qle_bool (fl_ackDropRate flags) 1))
        (Errorf "ack-drop-rate must be within [0..1]" []);
  _ ← fail_if (fl_burstSize flags <=? 0) (Errorf "status-burst-size must be > 0" []);
  profiles ← resolveProfileCycle (fl_profile flags) (fl_profileMix flags);
  frameMode ← parseFrameMode (fl_frameMode flags);
  startClients (Z.to_nat (fl_clients flags)) 0 (baseCfg flags frameMode) (fl_baseIMEI flags) profiles.

(** ** Connections *)

Inductive simEvent :=
  | EvRead
  | EvTick
  | EvErr
  | EvDone.

(** The reader (everything that will arrive), whether its goroutine runs, and
    [errCh]. *)
Record link := mkLink { ln_reader : Reader; ln_reading : bool; ln_errCh : option error }.

(** What happens when the controller is to connect. *)
Inductive attempt :=
  | Stopped
  | DialFailed (e : error)
  | Dialed (reader : Reader) (events : list simEvent).

Section Run.
Variable clock : nat -> Z.
Variable draw : nat -> Q.
Variable draw63 : nat -> Z.
Variable sendErr : nat -> option error.

(** An error that is looked at instead of returned; [None] is a nil error. *)
Definition sim_try (x : Sim unit) : Sim (option error) := fun s =>
  match x s with
  | (Ok _, s') => (Ok None, s')
  | (Err e, s') => (Ok (Some e), s')
  | (Panic, s') => (Panic, s')
  end.

(** The loop of [serveConn]: [Some] what it returns, or [None] while it runs. *)
Fixpoint serveLoop (events : list simEvent) (l : link) (cfg : simConfig) : Sim (option (option error)) :=
  match events with
  | [] => mret None
  | EvRead :: events' =>
      if ln_reading l then
        r ← readRound clock draw sendErr (ln_reader l) cfg;
        serveLoop events' (mkLink r.2 (match r.1 with None => true | Some _ => false end) r.1) cfg
      else serveLoop events' l cfg
  | EvTick :: events' =>
      e ← sim_try (statusTick clock sendErr cfg);
      match e with
      | Some _ => mret (Some e)
      | None => serveLoop events' l cfg
      end
  | EvErr :: events' =>
      match ln_errCh l with
      | Some e => mret (Some (Some e))
      | None => serveLoop events' l cfg
      end
  | EvDone :: _ => mret (Some None)
  end.

(** [time.NewTicker] panics unless the interval is positive. *)
Definition serveConn (imei : string) (cfg : simConfig) (reader : Reader) (events : list simEvent)
    : Sim (option (option error)) :=
  e ← sim_try (registerController sendErr imei cfg);
  match e with
  | Some _ => mret (Some e)
  | None => if statusInterval cfg <=? 0 then sim_lift Panic else serveLoop events (mkLink reader true None) cfg
  end.

(** [rand.Int63n]: some number below [n]. *)
Definition Int63n (n : Z) : Sim Z := fun s =>
  if n <=? 0 then (Panic, s) else (Ok (draw63 (sim_ticks s) mod n), tick s).

Definition randomJitter (min max : Z) : Sim Z :=
  if (min <=? 0) && (max <=? 0) then mret 0
  else if max <=? min then mret min
  else r ← Int63n (i64 (max - min)); mret (i64 (min + r)).

(** The controller's state outlives its connections. *)
Fixpoint runLoop (attempts : list attempt) (imei : string) (cfg : simConfig) : Sim unit :=
  match attempts with
  | [] | Stopped :: _ => mret tt
  | DialFailed _ :: attempts' => _ ← sleep (2 * second); runLoop attempts' imei cfg
  | Dialed reader events :: attempts' =>
      out ← serveConn imei cfg reader events;
      match out with
      | None => mret tt
      | Some _ =>
          jitter ← randomJitter (reconnectMin cfg) (reconnectMax cfg);
          _ ← sleep jitter;
          runLoop attempts' imei cfg
      end
  end.

Definition runController (attempts : list attempt) (imei : string) (cfg : simConfig) : res unit * simState :=
  runLoop attempts imei cfg (mkSimState (newControllerState (sc_bufferFree cfg)) 0 []).

End Run.

(** ** The controllers *)

Lemma fixedDec_length k n : length (fixedDec k n) = k.
Proof. revert n. induction k as [|k IH]; intros n; cbn [fixedDec]; [done|]. rewrite length_app, IH. cbn. lia. Qed.

Lemma fixedDec_digits k n : Forall (fun b => 48 <= b <= 57) (fixedDec k n).
Proof.
  revert n. induction k as [|k IH]; intros n; cbn [fixedDec]; [done|]. apply Forall_app. split; [done|].
  constructor; [|done]. pose proof (Z.mod_pos_bound n 10). lia.
Qed.

Lemma fixedDec_inj k n m : 0 <= n < 10 ^ Z.of_nat k -> 0 <= m < 10 ^ Z.of_nat k -> fixedDec k n = fixedDec k m -> n = m.
Proof.
  revert n m. induction k as [|k IH]; intros n m Hn Hm; cbn [fixedDec]; [lia|].
  rewrite Nat2Z.inj_succ, Z.pow_succ_r in Hn, Hm by lia. intros [Hq [= Hr]]%app_inj_tail.
  apply IH in Hq; [|split; [apply Z.div_pos|apply Z.div_lt_upper_bound]; lia..].
  rewrite (Z.div_mod n 10), (Z.div_mod m 10) by lia. lia.
Qed.

(** An IMEI: fifteen digits. *)
Definition is_imei (s : string) : Prop := String.length s = 15%nat /\ isDigitsOnly s = true.

Lemma wf_digits l : Forall (fun b => 48 <= b <= 57) l -> wf_bytes l.
Proof. intros Hl. eapply Forall_impl; [exact Hl|]. unfold is_byte. cbn. lia. Qed.

Lemma show015d_imei n : 0 <= n < 10 ^ 15 -> show015d n = string_of_bytes (fixedDec 15 n) /\ is_imei (show015d n).
Proof.
  intros Hn. unfold show015d. rewrite (proj2 (Z.ltb_ge _ _)), (proj2 (Z.ltb_lt _ _)) by lia. split; [done|].
  pose proof (fixedDec_digits 15 n) as Hd. pose proof (wf_digits _ Hd) as Hw. split.
  - rewrite <- length_bytes_of_string, bytes_of_string_of_bytes by done. apply fixedDec_length.
  - rewrite isDigitsOnly_string by done. apply forallb_forall. intros b Hb%list_elem_of_In.
    rewrite Forall_forall in Hd. by apply is_digit_spec, Hd.
Qed.

Lemma show015d_inj n m : 0 <= n < 10 ^ 15 -> 0 <= m < 10 ^ 15 -> show015d n = show015d m -> n = m.
Proof.
  intros Hn Hm. destruct (show015d_imei n Hn) as [-> _], (show015d_imei m Hm) as [-> _]. intros He.
  apply (f_equal bytes_of_string) in He. rewrite !bytes_of_string_of_bytes in He by apply wf_digits, fixedDec_digits.
  by apply fixedDec_inj in He.
Qed.

(** What is required of a controller's configuration. *)
Definition rate (q : Q) : Prop := (0 <= q /\ q <= 1)%Q.

Definition runnable_controller (interval : Z) (c : simConfig) : Prop :=
  rate (ackErrorRate c) /\ rate (ackDropRate c) /\ 0 < burstSize c /\ 0 < sc_bufferFree c < 2 ^ 16
  /\ sc_frameMode c <> FrameModeAuto /\ (0 < statusInterval c \/ profileName c = "flaky" /\ statusInterval c = interval).

Lemma rate_clamp q : rate (clamp01 q).
Proof.
  unfold clamp01, rate. destruct (Qle_bool 0 q) eqn:E0; cbn [negb]; [|by split; discriminate].
  destruct (Qle_bool q 1) eqn:E1; cbn [negb]; [|by split; discriminate]. split; by apply Qle_bool_iff.
Qed.

Lemma applyProfile_runnable base name c :
  applyProfile base name = Ok c -> rate (ackErrorRate base) -> rate (ackDropRate base) -> 0 < burstSize base ->
  0 < sc_bufferFree base < 2 ^ 16 -> sc_frameMode base <> FrameModeAuto -> runnable_controller (statusInterval base) c.
Proof.
  intros Hp He Hd Hb Hf Hm. unfold applyProfile in Hp. unfold runnable_controller, second in *.
  repeat case_match; simplify_eq; cbn in *; unfold maxDuration, maxInt in *.
  all: split_and!; try done; try apply rate_clamp; try lia.
  all: repeat case_match; try (left; lia); try lia.
  all: try (right; split; [by apply String.eqb_eq|done]).
Qed.

Lemma applyProfile_accepts base base' name c : applyProfile base name = Ok c -> exists c', applyProfile base' name = Ok c'.
Proof. unfold applyProfile. repeat case_match; intros; simplify_eq; by eexists. Qed.

(** Trimming what was trimmed. *)
Lemma trimLeft_id l : match l with [] => True | b :: _ => is_space b = false end -> trimLeft l = l.
Proof. destruct l as [|b l]; cbn; [done|]. by intros ->. Qed.

Lemma TrimSpace_idemp l : TrimSpace (TrimSpace l) = TrimSpace l.
Proof.
  pose proof (TrimSpace_head l) as Hh. unfold TrimSpace at 1. rewrite (trimLeft_id (TrimSpace l)) by done.
  unfold TrimSpace. rewrite reverse_involutive. by rewrite trimLeft_id by apply trimLeft_head.
Qed.

Lemma trimSpace_trimmed s : trimSpace (trimSpace s) = trimSpace s.
Proof.
  unfold trimSpace. rewrite bytes_of_string_of_bytes; [by rewrite TrimSpace_idemp|].
  apply Forall_forall. intros b Hb%TrimSpace_incl. by apply (proj1 (Forall_forall _ _) (wf_bytes_of_string s)).
Qed.

Lemma applyProfile_trimmed base base' name c : applyProfile base name = Ok c -> exists c', applyProfile base' (trimSpace name) = Ok c'.
Proof. unfold applyProfile. rewrite trimSpace_trimmed. repeat case_match; intros; simplify_eq; by eexists. Qed.

Definition applicable (p : string) : Prop := forall base, exists c, applyProfile base p = Ok c.

Lemma profileLoop_ok parts out profiles :
  profileLoop parts out = Ok profiles -> Forall applicable out -> Forall applicable profiles.
Proof.
  revert out. induction parts as [|part parts IH]; intros out; cbn [profileLoop]; [by intros [= <-]|].
  destruct (String.eqb _ _); [apply IH|]. intros Hp Ho. apply bind_ok in Hp as (c & Hc & Hp).
  apply (IH _ Hp). apply Forall_app. split; [done|]. constructor; [|done]. intros base. by eapply applyProfile_accepts.
Qed.

(** Every profile of a resolved cycle can be applied. *)
Lemma resolveProfileCycle_ok primary mix profiles :
  resolveProfileCycle primary mix = Ok profiles -> profiles <> [] /\ Forall applicable profiles.
Proof.
  unfold resolveProfileCycle. destruct (String.eqb _ _).
  - intros Hr. apply bind_ok in Hr as (c & Hc & [= <-]). split; [done|]. constructor; [|done]. intros base.
    by eapply applyProfile_trimmed.
  - intros Hr. apply bind_ok in Hr as (out & Hl & Hr). destruct (Z.eqb_spec (len out) 0) as [|Hne]; [done|].
    injection Hr as <-. split; [by intros ->|]. by eapply profileLoop_ok.
Qed.

Lemma startClients_ok n i base baseIMEI profiles :
  profiles <> [] -> Forall applicable profiles -> exists l, startClients n i base baseIMEI profiles = Ok l.
Proof.
  intros Hne Hp. revert i. induction n as [|n IH]; intros i; cbn [startClients]; [by eexists|].
  destruct (lookup_lt_is_Some_2 profiles (i mod length profiles)) as [p Hi].
  { apply Nat.mod_upper_bound. by destruct profiles. }
  rewrite Hi. rewrite Forall_forall in Hp. destruct (Hp p (list_elem_of_lookup_2 _ _ _ Hi) base) as [c Hc].
  destruct (IH (S i)) as [l Hl]. cbn. rewrite Hc. cbn. rewrite Hl. by eexists.
Qed.

Lemma startClients_spec n i base baseIMEI profiles l :
  startClients n i base baseIMEI profiles = Ok l ->
  l.*1 = map (fun j => show015d (i64 (baseIMEI + Z.of_nat j))) (seq i n)
  /\ Forall (fun p => exists profile, profile ∈ profiles /\ applyProfile base profile = Ok p.2) l.
Proof.
  revert i l. induction n as [|n IH]; intros i l; cbn [startClients]; [by intros [= <-]|]. intros Hs.
  apply bind_ok in Hs as (p & Hp & Hs). apply bind_ok in Hs as (c & Hc & Hs). apply bind_ok in Hs as (rest & Hr & [= <-]).
  apply IH in Hr as [Hi Hf]. split; [cbn; by rewrite Hi|]. constructor; [|done]. exists p. split; [|done].
  destruct (profiles !! _) as [p'|] eqn:El; [|done]. injection Hp as ->. by apply list_elem_of_lookup_2 in El.
Qed.

Lemma no_panic_resolve primary mix : no_panic (resolveProfileCycle primary mix).
Proof.
  assert (forall base name, no_panic (applyProfile base name)) as Ha by (intros; unfold applyProfile; by repeat case_match).
  unfold resolveProfileCycle. destruct (String.eqb _ _); [by apply no_panic_bind|]. apply no_panic_bind; [|intros; by case_match].
  generalize (@nil string) as out. induction (Split 44 (bytes_of_string mix)) as [|part parts IH]; intros out; cbn [profileLoop]; [done|].
  destruct (String.eqb _ _); [apply IH|]. by apply no_panic_bind.
Qed.

Lemma rate_checked q : negb (Qle_bool 0 q) || negb (Qle_bool q 1) = false -> rate q.
Proof. intros [H0%negb_false_iff%Qle_bool_iff H1%negb_false_iff%Qle_bool_iff]%orb_false_iff. done. Qed.

(** The flags are checked before anything runs: [main] never panics; it
    exits with an error or starts the requested number of controllers, each with rates that
    are probabilities, a positive burst and a framing.  With a base IMEI that
    leaves room below 10^15 the controllers have distinct IMEIs of fifteen
    digits, so that each registers under an id of its own.  The interval of the
    status messages is positive, except that the profile "flaky" passes on
    whatever the flag says. *)
Lemma simulator_controllers (flags : simFlags) :
  no_panic (simMain flags)
  /\ forall l, simMain flags = Ok l ->
       Z.of_nat (length l) = fl_clients flags
       /\ Forall (fun p => runnable_controller (fl_statusInterval flags) p.2) l
       /\ (0 <= fl_baseIMEI flags -> fl_baseIMEI flags + fl_clients flags <= 10 ^ 15 -> NoDup l.*1 /\ Forall is_imei l.*1).
Proof.
  split.
  - unfold simMain. do 4 (apply no_panic_bind; [apply no_panic_fail_if|intros _ _]).
    apply no_panic_bind; [apply no_panic_resolve|]. intros profiles [Hne Hp]%resolveProfileCycle_ok.
    apply no_panic_bind; [unfold parseFrameMode; by repeat case_match|]. intros mode _.
    by destruct (startClients_ok (Z.to_nat (fl_clients flags)) 0 (baseCfg flags mode) (fl_baseIMEI flags) profiles Hne Hp) as [l ->].
  - intros l Hl. unfold simMain in Hl. apply bind_ok in Hl as ([] & Hc%fail_if_ok%Z.leb_gt & Hl).
    apply bind_ok in Hl as ([] & He%fail_if_ok%rate_checked & Hl). apply bind_ok in Hl as ([] & Hd%fail_if_ok%rate_checked & Hl).
    apply bind_ok in Hl as ([] & Hb%fail_if_ok%Z.leb_gt & Hl). apply bind_ok in Hl as (profiles & _ & Hl).
    apply bind_ok in Hl as (mode & Hm & Hl). apply startClients_spec in Hl as [Hi Hf]. split_and!.
    + rewrite <- (length_fmap fst l), Hi, length_map, length_seq. lia.
    + eapply Forall_impl; [exact Hf|]. intros [id c] (profile & _ & Hp).
      apply (applyProfile_runnable (baseCfg flags mode) profile); cbn; [done..|lia|].
      intros ->. unfold parseFrameMode in Hm. by repeat case_match.
    + intros H0 H15. assert (forall j, j ∈ seq 0 (Z.to_nat (fl_clients flags)) ->
        i64 (fl_baseIMEI flags + Z.of_nat j) = fl_baseIMEI flags + Z.of_nat j /\ 0 <= fl_baseIMEI flags + Z.of_nat j < 10 ^ 15) as Hj.
      { intros j Hj%elem_of_seq. split; [apply i64_small|]; lia. }
      rewrite Hi. split.
      * apply NoDup_fmap_2_strong; [|apply NoDup_seq]. intros j k Hj1 Hk1. destruct (Hj j Hj1) as [-> ?], (Hj k Hk1) as [-> ?].
        intros ?%show015d_inj; lia.
      * apply Forall_fmap, Forall_forall. intros j Hj1. cbn. destruct (Hj j Hj1) as [-> ?]. by apply show015d_imei.
Qed.

(** ** A connection *)

Section Connection.
Variable clock : nat -> Z.
Variable draw : nat -> Q.
Variable draw63 : nat -> Z.
Variable sendErr : nat -> option error.

(** A message after the registration: a status message or an acknowledgement
    the server can parse, with the controller's free space. *)
Definition is_message (cfg : simConfig) (free : Z) (a : action) : Prop :=
  match a with
  | Sleep _ => True
  | Send w => exists payload, EncodeFrame (mkFrame 255 1 payload (sc_frameMode cfg)) = Ok w
      /\ ((exists st, ParseStatus1Payload payload = Ok st /\ BufferFree1 st = free)
          \/ exists ack, ParseAck11Payload payload = Ok ack /\ BufferFreeBytes ack = free)
  end.

(** All a computation sends are such messages; the free space does not
    change. *)
Definition messages {A} (cfg : simConfig) (free : Z) (x : Sim A) : Prop :=
  forall s, bufferFree (sim_ctrl s) = free ->
    bufferFree (sim_ctrl (x s).2) = free
    /\ exists new, sim_out (x s).2 = sim_out s ++ new /\ Forall (is_message cfg free) new.

Lemma messages_bind {A B} cfg free (x : Sim A) (f : A -> Sim B) :
  messages cfg free x -> (forall a, messages cfg free (f a)) -> messages cfg free (x ≫= f).
Proof.
  intros Hx Hf s Hs. destruct (Hx s Hs) as (Hs1 & n1 & Ho1 & Hn1). unfold mbind, Sim_bind.
  destruct (x s) as [[a|e|] s1]; cbn in *; [|by split; [|exists n1]..].
  destruct (Hf a s1 Hs1) as (Hs2 & n2 & Ho2 & Hn2). split; [done|]. exists (n1 ++ n2).
  rewrite Ho2, Ho1, app_assoc. split; [done|]. by apply Forall_app.
Qed.

Lemma messages_quiet {A} cfg free (x : Sim A) :
  (forall s, bufferFree (sim_ctrl (x s).2) = bufferFree (sim_ctrl s) /\ sim_out (x s).2 = sim_out s) -> messages cfg free x.
Proof. intros Hx s Hs. destruct (Hx s) as [Hc Ho]. split; [by rewrite Hc|]. exists []. by rewrite app_nil_r. Qed.

Lemma messages_sleep cfg free d : messages cfg free (sleep d).
Proof. intros s Hs. split; [done|]. exists [Sleep d]. split; [done|]. by constructor. Qed.

Lemma messages_try cfg free x : messages cfg free x -> messages cfg free (sim_try x).
Proof. intros Hx s Hs. specialize (Hx s Hs). unfold sim_try. by destruct (x s) as [[]]. Qed.

Lemma messages_acks {A} cfg free seq (x : Sim A) : 0 <= free < 2 ^ 16 -> acks_only seq free cfg x -> messages cfg free x.
Proof.
  intros Hf Hx s Hs. destruct (Hx s Hs) as (Hb & new & Ho & Hn). split; [done|]. exists new. split; [done|].
  eapply Forall_impl; [exact Hn|]. intros [w|d]; cbn; [|done]. intros (now & code & _ & He). eexists. split; [exact He|].
  right. eexists. split; [by apply parse_ack11|done].
Qed.

(** The state is read when a message is built. *)
Lemma messages_ctrl {B} cfg free (f : controllerState -> Sim B) :
  (forall c, bufferFree c = free -> messages cfg free (f c)) -> messages cfg free (ctrl ≫= f).
Proof. intros Hf s Hs. by apply (Hf (sim_ctrl s)). Qed.

Lemma messages_status cfg free now :
  0 <= free < 2 ^ 16 -> messages cfg free (sim_writeFrame sendErr (sc_frameMode cfg) (buildStatus1Payload now free 0)).
Proof.
  intros Hf s Hs. unfold sim_writeFrame, mbind, Sim_bind, sim_lift.
  destruct (EncodeFrame _) as [w|e|] eqn:E; [|by split; [|exists []; rewrite app_nil_r]..].
  unfold send. destruct (sendErr _); [by split; [|exists []; rewrite app_nil_r]|]. split; [done|].
  exists [Send w]. split; [done|]. constructor; [|done]. eexists. split; [exact E|]. left. eexists.
  split; [by apply parse_status1|done].
Qed.

Lemma messages_burst n cfg free : 0 <= free < 2 ^ 16 -> messages cfg free (statusBurst clock sendErr n cfg).
Proof.
  intros Hf. induction n as [|n IH]; cbn [statusBurst]; [by apply messages_quiet|]. apply messages_ctrl. intros c ->.
  apply messages_bind; [by apply messages_quiet|]. intros now. apply messages_bind; [by apply messages_status|]. intros _.
  apply messages_bind; [|done]. destruct (_ && _); [apply messages_sleep|by apply messages_quiet].
Qed.

Lemma messages_readRound reader cfg free :
  0 <= free < 2 ^ 16 -> messages cfg free (readRound clock draw sendErr reader cfg).
Proof.
  intros Hf. unfold readRound. destruct (ReadFrameWithMode _ _) as [[frame|e|] reader'];
    [|by apply messages_quiet..]. destruct (CommandID frame) as [cmd []]; [|by apply messages_quiet].
  destruct (_ || _); [by apply messages_quiet|]. intros s Hs.
  destruct (messages_acks cfg free (Seq frame) _ Hf (acks_handle clock draw sendErr frame cfg free) s Hs) as (Hb & Hn).
  by destruct (handleServerCommand _ _ _ _ _ s) as [[[]|e|] s'].
Qed.

Lemma messages_serveLoop events cfg free : 0 <= free < 2 ^ 16 -> forall l, messages cfg free (serveLoop clock draw sendErr events l cfg).
Proof.
  intros Hf. induction events as [|[] events IH]; intros l; cbn [serveLoop]; [by apply messages_quiet|..].
  - destruct (ln_reading l); [|apply IH]. apply messages_bind; [by apply messages_readRound|]. intros r. apply IH.
  - apply messages_bind; [by apply messages_try, messages_burst|]. intros [e|]; [by apply messages_quiet|apply IH].
  - destruct (ln_errCh l); [by apply messages_quiet|apply IH].
  - by apply messages_quiet.
Qed.

(** A computation that does not panic. *)
Definition calm {A} (x : Sim A) : Prop := forall s, no_panic (x s).1.

Lemma calm_bind {A B} (x : Sim A) (f : A -> Sim B) : calm x -> (forall a, calm (f a)) -> calm (x ≫= f).
Proof. intros Hx Hf s. specialize (Hx s). unfold mbind, Sim_bind. destruct (x s) as [[a|e|] s']; [apply Hf|done..]. Qed.

Lemma calm_lift {A} (r : res A) : no_panic r -> calm (sim_lift r).
Proof. by intros Hr s. Qed.

Lemma calm_try x : calm x -> calm (sim_try x).
Proof. intros Hx s. specialize (Hx s). unfold sim_try. by destruct (x s) as [[]]. Qed.

Create HintDb calm.
#[local] Hint Resolve calm_lift calm_try : calm.
#[local] Hint Extern 1 (calm _) => (by intros s) : calm.

Ltac calm_tac :=
  repeat match goal with
  | |- forall _, _ => intros ?
  | |- calm (mbind _ _) => apply calm_bind
  | |- calm (if ?b then _ else _) => destruct b
  | |- calm (match ?x with _ => _ end) => destruct x
  | |- calm _ => solve [eauto 3 with calm]
  end.

Lemma calm_writeFrame mode payload : calm (sim_writeFrame sendErr mode payload).
Proof.
  apply calm_bind; [apply calm_lift|].
  - unfold EncodeFrame. repeat no_panic_step.
  - intros w s. unfold send. by destruct (sendErr _).
Qed.

#[local] Hint Resolve calm_writeFrame : calm.

Lemma calm_burst n cfg : calm (statusBurst clock sendErr n cfg).
Proof. induction n as [|n IH]; cbn [statusBurst]; calm_tac. Qed.

Lemma calm_sendCommandAck seq code free cfg : calm (sendCommandAck clock draw sendErr seq code free cfg).
Proof. unfold sendCommandAck. calm_tac. Qed.

Lemma calm_choose cfg : calm (chooseTerminalAckCode draw cfg).
Proof. unfold chooseTerminalAckCode. calm_tac. Qed.

Lemma no_panic_applyTriggerPayload payload c : no_panic (applyTriggerPayload payload c).
Proof.
  unfold applyTriggerPayload. apply no_panic_bind; [apply no_panic_ValidateServerCommandPayload|].
  intros [] Hv. assert (length payload = 16%nat) as Hl.
  { change (ValidateServerCommandPayload 5 payload) with (validateCmd5 payload) in Hv. apply validateCmd5_ok in Hv as (flags & -> & Hf & _).
    by rewrite length_app, Hf. }
  repeat no_panic_step; lia.
Qed.

#[local] Hint Resolve calm_burst calm_sendCommandAck calm_choose no_panic_applyTriggerPayload : calm.

Lemma calm_handle frame cfg : (0 < length (Payload frame))%nat -> calm (handleServerCommand clock draw sendErr frame cfg).
Proof.
  intros Hl. unfold handleServerCommand, restart, answer.
  apply calm_bind; [by apply calm_lift, no_panic_index|]. intros cmd.
  apply calm_bind; [apply calm_lift, no_panic_slice; lia|]. calm_tac.
Qed.

Lemma calm_readRound reader cfg : calm (readRound clock draw sendErr reader cfg).
Proof.
  unfold readRound. pose proof (ReadFrameWithMode_errors reader FrameModeAuto) as [Hp _].
  destruct (ReadFrameWithMode _ _) as [[frame|e|] reader']; [|calm_tac|done].
  unfold CommandID. destruct (Payload frame) as [|cmd p] eqn:Ep; [calm_tac|]. destruct (_ || _); [calm_tac|].
  intros s. pose proof (calm_handle frame cfg ltac:(rewrite Ep; cbn; lia) s) as Hh.
  by destruct (handleServerCommand _ _ _ _ _ s) as [[[]|e|] s'].
Qed.

#[local] Hint Resolve calm_readRound : calm.

Lemma calm_serveLoop events cfg : forall l, calm (serveLoop clock draw sendErr events l cfg).
Proof. induction events as [|[] events IH]; intros l; cbn [serveLoop]; unfold statusTick; calm_tac. Qed.

(** What a connection sends: nothing, or the registration and then messages. *)
Definition registered_session (imei : string) (cfg : simConfig) (free : Z) (new : list action) : Prop :=
  new = [] \/ exists w rest, new = Send w :: rest
    /\ (forall tail e, exists f, ReadFrameWithMode (mkReader (w ++ tail) e) FrameModeAuto = (Ok f, mkReader tail e)
         /\ Mode f = sc_frameMode cfg /\ ParseRegistrationPayload (Payload f) = Ok (mkRegistration imei 1 1))
    /\ Forall (is_message cfg free) rest.

(** C31: what a connection of the simulator sends is a session the server
    accepts: nothing if the registration cannot be written, otherwise first the
    registration, which the server reads as the controller's IMEI in the
    configured framing, and then only status messages and acknowledgements that
    the server can parse, with the controller's free space, whatever the server
    sends and in whatever order reading, ticks and errors come.  With a positive
    status interval nothing panics. *)
Theorem simulator_session (imei : string) (cfg : simConfig) (reader : Reader) (events : list simEvent) (s : simState) :
  (1 <= String.length imei <= 15)%nat -> isDigitsOnly imei = true -> sc_frameMode cfg <> FrameModeAuto ->
  0 <= bufferFree (sim_ctrl s) < 2 ^ 16 ->
  let '(r, s') := serveConn clock draw sendErr imei cfg reader events s in
  (0 < statusInterval cfg -> no_panic r)
  /\ exists new, sim_out s' = sim_out s ++ new
     /\ registered_session imei cfg (bufferFree (sim_ctrl s)) new.
Proof.
  intros Hl Hd Hm Hf. destruct (serveConn _ _ _ _ _ _ _ s) as [r s'] eqn:Es. unfold serveConn, mbind, Sim_bind in Es.
  unfold registerController, sim_try, sim_writeFrame, mbind, Sim_bind, sim_lift in Es.
  pose proof (server_reads_registration imei (sc_frameMode cfg) Hm Hl Hd) as Hreg.
  destruct (EncodeFrame _) as [w|e|] eqn:Ee; [|destruct (Hreg [] ErrEOF) as (? & ? & ? & _); congruence..].
  unfold send in Es. destruct (sendErr _) as [e|].
  { injection Es as <- <-. split; [done|]. exists []. rewrite app_nil_r. split; [done|]. by left. }
  set (s1 := mkSimState _ _ _) in Es.
  assert (forall x : Sim (option (option error)), x s1 = (r, s') -> (0 < statusInterval cfg -> calm x) ->
    messages cfg (bufferFree (sim_ctrl s)) x ->
    (0 < statusInterval cfg -> no_panic r) /\ exists new, sim_out s' = sim_out s ++ new
      /\ registered_session imei cfg (bufferFree (sim_ctrl s)) new) as Hrun.
  { intros x Hx Hc Hms. split; [intros Hi; specialize (Hc Hi s1); by rewrite Hx in Hc|].
    destruct (Hms s1 eq_refl) as (_ & new & Ho & Hn). rewrite Hx in Ho. cbn in Ho. exists (Send w :: new).
    rewrite <- app_assoc in Ho. split; [done|]. right. exists w, new. split_and!; [done| |done].
    intros tail e. destruct (Hreg tail e) as (w' & f & Hw & ? & ? & ?). rewrite Ee in Hw. injection Hw as <-. by exists f. }
  destruct (Z.leb_spec (statusInterval cfg) 0).
  - apply (Hrun _ Es); [lia|]. by apply messages_quiet.
  - apply (Hrun _ Es); [intros _; apply calm_serveLoop|by apply messages_serveLoop].
Qed.

End Connection.

(** The pause before a reconnection is within its bounds. *)
Lemma randomJitter_bounds draw63 min max s :
  0 <= min < max -> max < 2 ^ 63 -> exists d s', randomJitter draw63 min max s = (Ok d, s') /\ min <= d < max.
Proof.
  intros Hm H63. unfold randomJitter. rewrite (proj2 (Z.leb_gt max 0)), andb_false_r by lia.
  rewrite (proj2 (Z.leb_gt max min)) by lia. unfold Int63n, mbind, Sim_bind. rewrite (i64_small (max - min)) by lia.
  rewrite (proj2 (Z.leb_gt (max - min) 0)) by lia. eexists _, _. split; [done|].
  pose proof (Z.mod_pos_bound (draw63 (sim_ticks s)) (max - min)). rewrite i64_small; lia.
Qed.

(** ** Concrete runs *)

Definition demo_flags : simFlags :=
  mkSimFlags 3 0 860000000000000 0 0 0 1 (50 * millisecond) "healthy" "healthy, bursty" "sequenced".

Lemma simulator_controllers_witness :
  exists l, simMain demo_flags = Ok l
    /\ l.*1 = ["860000000000000"; "860000000000001"; "860000000000002"]
    /\ map (fun p => profileName p.2) l = ["healthy"; "bursty"; "healthy"] /\ NoDup l.*1.
Proof.
  destruct (simMain demo_flags) as [l| |] eqn:E; [|vm_compute in E; discriminate E..].
  exists l. split; [reflexivity|].
  assert (Ok (l.*1, map (fun p => profileName p.2) l)
    = Ok (["860000000000000"; "860000000000001"; "860000000000002"], ["healthy"; "bursty"; "healthy"])) as Hl.
  { transitivity (l0 ← simMain demo_flags; Ok (l0.*1, map (fun p => profileName p.2) l0)); [by rewrite E|vm_compute; reflexivity]. }
  injection Hl as H1 H2. split; [exact H1|]. split; [exact H2|].
  destruct (simulator_controllers demo_flags) as [_ Hall]. destruct (Hall l E) as (_ & _ & Hn). by apply Hn.
Defined.

(** A connection on which a reboot arrives between two ticks, and is closed. *)
Definition demo_controller : simConfig :=
  mkSimConfig "healthy" 0 0 0 2 0 second 1500 (500 * millisecond) (1500 * millisecond) 0 FrameModeSequenced.

Definition demo_incoming : Reader :=
  mkReader (wire (frameData (mkFrame 255 40 [2; 1] FrameModeSequenced))) ErrEOF.

Lemma simulator_session_witness :
  let s := mkSimState (newControllerState 1500) 0 [] in
  let out := serveConn Z.of_nat (fun _ => 1%Q) (fun _ => None) "860000000000001" demo_controller demo_incoming
    [EvTick; EvRead; EvTick; EvErr] s in
  out.1 = Ok (Some (Some errSimulatedReconnect))
  /\ map (fun a => match a with Send _ => true | Sleep _ => false end) (sim_out out.2)
     = [true; true; true; true; false; true; false; true; true]
  /\ registered_session "860000000000001" demo_controller 1500 (sim_out out.2).
Proof.
  intros s out. split; [vm_compute; reflexivity|]. split; [vm_compute; reflexivity|].
  pose proof (simulator_session Z.of_nat (fun _ => 1%Q) (fun _ => None) "860000000000001" demo_controller demo_incoming
    [EvTick; EvRead; EvTick; EvErr] s ltac:(cbn; lia) eq_refl ltac:(discriminate) ltac:(cbn; lia)) as Hs.
  fold out in Hs. clearbody out. destruct out as [r s']. destruct Hs as [_ (new & Ho & Hr)]. cbn in Ho. cbn [snd].
  rewrite Ho. exact Hr.
Defined.

(** The profile "flaky" keeps an interval of zero, which the flags accept; the
    ticker then panics on the first connection. *)
Example flaky_interval_panics :
  let flags := mkSimFlags 1 0 860000000000000 0 0 0 1 0 "flaky" "" "compact" in
  exists imei cfg, simMain flags = Ok [(imei, cfg)]
    /\ (runController Z.of_nat (fun _ => 1%Q) Z.of_nat (fun _ => None) [Dialed demo_incoming []] imei cfg).1 = Panic.
Proof. eexists _, _. split; [vm_compute; reflexivity|vm_compute; reflexivity]. Qed.
