(* ===== verification/Exchange.v ===== *)
(** * A command and its acknowledgement ([cmd/controller-sim/main.go] and
      [internal/server/server.go] together)

    The two ends of the protocol composed: the frame the server writes for a
    command goes through the simulator, and what the simulator sends back goes
    through the server's acknowledgement handler, in the order it was sent. *)

From Stdlib Require Import QArith.
From S2P Require Import Prelude Format Messages Frame Validation Builders Queue Store Retry Session Config Policy Metrics Server Delivery Conn Sim.

#[local] Open Scope Z_scope.

(** What was written, in order. *)
Definition replies (l : list action) : list bytes :=
  omap (fun a => match a with Send w => Some w | Sleep _ => None end) l.

Lemma replies_app l l' : replies (l ++ l') = replies l ++ replies l'.
Proof. apply omap_app. Qed.

(** ** The simulator's side *)

Section Controller.
Variable clock : nat -> Z.
Variable draw : nat -> Q.
Variable sendErr : nat -> option error.

(** A controller that neither fails nor drops: its rates are zero, and
    [rand.Float64] is never negative. *)
Definition healthy (cfg : simConfig) : Prop :=
  ackErrorRate cfg = 0%Q /\ ackDropRate cfg = 0%Q /\ (forall n, (0 <= draw n)%Q) /\ (forall n, sendErr n = None).

(** The frame of an acknowledgement. *)
Definition ack_frame (now seq code free : Z) (mode : FrameMode) : Frame :=
  mkFrame 255 1 (buildAck11Payload now seq code free) mode.

Definition acks (seq free : Z) (mode : FrameMode) (codes : list Z) (ws : list bytes) : Prop :=
  Forall2 (fun code w => exists now, w = wire (frameData (ack_frame now seq code free mode))) codes ws.

(** The computation returns [a] and sends acknowledgements with these codes. *)
Definition sends {A} (seq free : Z) (mode : FrameMode) (x : Sim A) (a : A) (codes : list Z) : Prop :=
  forall s, bufferFree (sim_ctrl s) = free -> exists s' ws,
    x s = (Ok a, s') /\ bufferFree (sim_ctrl s') = free
    /\ replies (sim_out s') = replies (sim_out s) ++ ws /\ acks seq free mode codes ws.

Context (seq free : Z) (cfg : simConfig) (Hcfg : healthy cfg).
Abbreviation sends_ := (sends seq free (sc_frameMode cfg)).

Lemma sends_bind {A B} (x : Sim A) (f : A -> Sim B) a b codes codes' :
  sends_ x a codes -> sends_ (f a) b codes' -> sends_ (x ≫= f) b (codes ++ codes').
Proof.
  intros Hx Hf s Hs. destruct (Hx s Hs) as (s1 & ws1 & E1 & Hs1 & Hr1 & Ha1).
  destruct (Hf s1 Hs1) as (s2 & ws2 & E2 & Hs2 & Hr2 & Ha2). exists s2, (ws1 ++ ws2).
  unfold mbind, Sim_bind. rewrite E1, Hr2, Hr1, app_assoc. split_and!; [done..|]. by apply Forall2_app.
Qed.

(** A step that sends nothing. *)
Lemma sends_quiet {A B} (x : Sim A) (f : A -> Sim B) b codes :
  (forall s, bufferFree (sim_ctrl s) = free -> exists a s', x s = (Ok a, s') /\ bufferFree (sim_ctrl s') = free
     /\ replies (sim_out s') = replies (sim_out s) /\ sends_ (f a) b codes) ->
  sends_ (x ≫= f) b codes.
Proof.
  intros Hx s Hs. destruct (Hx s Hs) as (a & s1 & E1 & Hs1 & Hr1 & Hf). destruct (Hf s1 Hs1) as (s2 & ws & E2 & Hs2 & Hr2 & Ha).
  exists s2, ws. unfold mbind, Sim_bind. rewrite E1, Hr2, Hr1. done.
Qed.

Lemma sends_ret {A} (a : A) : sends_ (mret a) a [].
Proof. intros s Hs. exists s, []. rewrite app_nil_r. split_and!; try done. constructor. Qed.

Lemma sends_sleep {B} d (f : unit -> Sim B) b codes : sends_ (f tt) b codes -> sends_ (sleep d ≫= f) b codes.
Proof.
  intros Hf. apply sends_quiet. intros s Hs. eexists tt, _. split; [reflexivity|]. split_and!; [done| |done].
  cbn. by rewrite replies_app, app_nil_r.
Qed.

Lemma sends_writeFrame now code :
  sends_ (sim_writeFrame sendErr (sc_frameMode cfg) (buildAck11Payload now seq code free)) tt [code].
Proof.
  intros s Hs. unfold sim_writeFrame. rewrite sim_frame_encodes; [|done|rewrite buildAck11Payload_wire; cbn; lia].
  fold (ack_frame now seq code free (sc_frameMode cfg)). set (w := wire _).
  assert (acks seq free (sc_frameMode cfg) [code] [w]) as Ha by (constructor; [by exists now|constructor]). clearbody w.
  destruct Hcfg as (_ & _ & _ & Hsend). unfold mbind, Sim_bind, sim_lift, send. rewrite Hsend.
  eexists _, [w]. split; [reflexivity|]. cbn. by rewrite replies_app.
Qed.

Lemma sends_ack code : sends_ (sendCommandAck clock draw sendErr seq code free cfg) tt [code].
Proof.
  unfold sendCommandAck. apply sends_quiet. intros s Hs. destruct Hcfg as (_ & Hdrop & Hdraw & _).
  exists false, (if code =? 5 then s else tick s). split_and!.
  - destruct (code =? 5); [done|]. unfold mbind, Sim_bind, randFloat. rewrite Hdrop.
    by rewrite (proj2 (Qle_bool_iff _ _) (Hdraw _)).
  - by destruct (code =? 5).
  - by destruct (code =? 5).
  - destruct (0 <? ackDelay cfg); [apply sends_sleep|].
    all: apply (sends_quiet); intros s1 Hs1; eexists _, _; (split; [reflexivity|]); split_and!; [done..|].
    2: apply sends_quiet; intros s2 Hs2; eexists _, _; (split; [reflexivity|]); split_and!; [done..|].
    all: apply sends_writeFrame.
Qed.

Lemma sends_choose {B} (f : Z -> Sim B) b codes :
  sends_ (f 0) b codes -> sends_ (chooseTerminalAckCode draw cfg ≫= f) b codes.
Proof.
  intros Hf. apply sends_quiet. intros s Hs. destruct Hcfg as (Herr & _ & Hdraw & _).
  exists 0, (tick s). unfold chooseTerminalAckCode, mbind, Sim_bind, randFloat. rewrite Herr.
  by rewrite (proj2 (Qle_bool_iff _ _) (Hdraw _)).
Qed.

Lemma sends_ctrl {B} (f : controllerState -> Sim B) b codes :
  (forall c, bufferFree c = free -> sends_ (f c) b codes) -> sends_ (ctrl ≫= f) b codes.
Proof. intros Hf. apply sends_quiet. intros s Hs. exists (sim_ctrl s), s. auto. Qed.

Lemma sends_set {B} c (f : unit -> Sim B) b codes :
  bufferFree c = free -> sends_ (f tt) b codes -> sends_ (set_ctrl c ≫= f) b codes.
Proof. intros Hc Hf. apply sends_quiet. intros s Hs. by eexists tt, _. Qed.

Lemma sends_lift {A B} (a : A) (f : A -> Sim B) b codes : sends_ (f a) b codes -> sends_ (sim_lift (Ok a) ≫= f) b codes.
Proof. intros Hf. apply sends_quiet. intros s Hs. by exists a, s. Qed.

(** The commands after which the controller restarts. *)
Definition restarts (cmd : Z) : bool := (cmd =? 2) || (cmd =? 3).

Lemma applyTrigger_valid payload c :
  ValidateServerCommandPayload 5 payload = Ok tt -> bufferFree c = free ->
  exists c', applyTriggerPayload payload c = Ok c' /\ bufferFree c' = free.
Proof.
  intros Hv Hc. unfold applyTriggerPayload. rewrite Hv.
  apply validateCmd5_ok in Hv as (flags & -> & Hl & _).
  do 8 (destruct flags as [|? flags]; [discriminate Hl|]). cbn. by eexists.
Qed.

Lemma sends_answer frame : Seq frame = seq -> sends_ (answer clock draw sendErr frame cfg) false [0].
Proof.
  intros Hs. unfold answer. rewrite Hs. apply sends_ctrl. intros c ->. apply sends_choose.
  apply (sends_bind _ _ tt _ [0] []); [apply sends_ack|apply sends_ret].
Qed.

Lemma sends_restart frame after payload :
  Seq frame = seq -> (forall c, bufferFree (after c) = bufferFree c) ->
  sends_ (restart clock draw sendErr after frame payload cfg) true [5; 0].
Proof.
  intros Hs Ha. unfold restart. rewrite Hs. apply sends_ctrl. intros c Hc. rewrite Hc.
  apply (sends_bind _ _ tt _ [5] [0]); [apply sends_ack|]. apply sends_sleep, sends_choose.
  apply (sends_bind _ _ tt _ [0] []); [apply sends_ack|]. apply sends_set; [by rewrite Ha|]. apply sends_sleep, sends_ret.
Qed.

Lemma sends_handle frame cmd payload :
  Seq frame = seq -> Payload frame = cmd :: payload -> ValidateServerCommandPayload cmd payload = Ok tt ->
  sends_ (handleServerCommand clock draw sendErr frame cfg) (restarts cmd) (if restarts cmd then [5; 0] else [0]).
Proof.
  intros Hs Hp Hv. unfold handleServerCommand. rewrite Hp. apply sends_lift.
  assert (slice (cmd :: payload) 1 (length (cmd :: payload)) = Ok payload) as ->.
  { rewrite <- (app_nil_r payload) at 1. by apply (slice_app_mid [cmd]). }
  apply sends_lift. unfold restarts. destruct (cmd =? 2); [by apply sends_restart|].
  destruct (cmd =? 3); [by apply sends_restart|]. destruct (Z.eqb_spec cmd 5) as [->|]; [|by apply sends_answer].
  apply sends_ctrl. intros c Hc. destruct (applyTrigger_valid payload c Hv Hc) as (c' & -> & Hc').
  apply sends_lift, sends_set; [done|]. by apply sends_answer.
Qed.

End Controller.

(** A sequenced command whose sequence number is no command is read as it was sent. *)
Lemma auto_sequenced_command t seq cmd p w tail e :
  wf_frame (mkFrame t seq (cmd :: p) FrameModeSequenced) ->
  isKnownCommandID seq = false -> isKnownCommandID cmd = true -> cmd <> 1 ->
  EncodeFrame (mkFrame t seq (cmd :: p) FrameModeSequenced) = Ok w ->
  ReadFrameWithMode (mkReader (w ++ tail) e) FrameModeAuto
  = (Ok (mkFrame t seq (cmd :: p) FrameModeSequenced), mkReader tail e).
Proof.
  intros Hwf Hseq Hk Hne Henc. apply frameData_bounds in Henc as [Hb ->].
  rewrite read_wire by auto using wf_frameData. f_equal.
  change (frameOfData FrameModeAuto (frameData (mkFrame t seq (cmd :: p) FrameModeSequenced)))
    with (readAutoFrame (t :: seq :: cmd :: p)).
  assert (forall b l, b <> 1 -> res_is_ok (ParseRegistrationPayload (b :: l)) = false) as Hreg.
  { intros b l Hb1. unfold ParseRegistrationPayload. destruct (fail_if _ _); [|done..]. cbn. by rewrite (proj2 (Z.eqb_neq _ _) Hb1). }
  assert (seq <> 1) as Hs1 by (intros ->; discriminate Hseq).
  unfold readAutoFrame. rewrite compactFrame_cons, sequencedFrame_cons. cbn [length Nat.ltb Nat.leb mbind res_bind Payload].
  rewrite !Hreg by done. cbn [CommandID Payload negb andb]. by rewrite Hseq, Hk.
Qed.

(** ** The server's side *)

Section Exchange.
Context `{MapRange} {S : Type} `{!Store S} `{!StoreLaws S}.
Variable srvCfg : Config.
Variable srvClock : nat -> Z.
Variable c : connState.
Variable traceID : string.
Implicit Types s : Server S.

(** The acknowledgements the server reads from the stream, at most [n]. *)
Fixpoint receive (n : nat) (reader : Reader) : ST S unit :=
  match n with
  | O => mret tt
  | Datatypes.S n' =>
      let '(r, reader') := ReadFrameWithMode reader FrameModeSequenced in
      match r with
      | Ok frame => _ ← onAck11 srvCfg srvClock c frame traceID; receive n' reader'
      | _ => mret tt
      end
  end.

(** One of them arrives, while the store accepts saves. *)
Lemma receive_ack n now seq code free rest err s x e :
  is_byte seq -> is_byte code -> 0 <= free < 2 ^ 16 -> (forall snap st, (SaveSession (S := S) snap st).1 = None) ->
  sessions (srv_sessions s) !! cn_controllerID c = Some x -> InFlight x !! seq = Some e ->
  exists s1 ev x1,
    receive (Datatypes.S n) (mkReader (wire (frameData (ack_frame now seq code free FrameModeSequenced)) ++ rest) err) s
    = receive n (mkReader rest err) s1
    /\ srv_acks s1 = srv_acks s ++ [ev] /\ sessions (srv_sessions s1) !! cn_controllerID c = Some x1
    /\ ev_MessageID ev = cmd_MessageID (if_Command e) /\ (ev_Status ev = "delivered" <-> code = 0)
    /\ BufferFree x1 = free
    /\ InFlight x1 = if decide (code = 5) then InFlight x else delete seq (InFlight x).
Proof.
  intros Hs Hc Hf Hsave Hx He. set (f := ack_frame now seq code free FrameModeSequenced).
  assert (ReadFrameWithMode (mkReader (wire (frameData f) ++ rest) err) FrameModeSequenced = (Ok f, mkReader rest err)) as Hread.
  { apply (frame_reads_back f); [|done|].
    - apply wf_sim_frame. rewrite buildAck11Payload_wire. repeat constructor; try apply Hs; try apply Hc; try lia.
      all: apply Z.mod_pos_bound; lia.
    - apply sim_frame_encodes; [done|]. rewrite buildAck11Payload_wire. cbn. lia. }
  cbn [receive]. rewrite Hread. unfold mbind, ST_bind.
  destruct (ack11_effect srvCfg srvClock c f (mkAck11 seq code (u32 now) free) traceID s x (parse_ack11 now seq code free Hf) Hx)
    as (new & x1 & Ha & Hx1 & Hx0 & Hm).
  destruct (onAck11 srvCfg srvClock c f traceID s) as [d s1]. cbn [snd] in Ha, Hx1. cbn [CommandSeq ExecutionCode] in Hm.
  rewrite He in Hm. destruct Hm as [(ev & -> & Hmsg & _ & _ & Hst & Hin)|(_ & _ & _ & err' & Herr)]; [|by rewrite Hsave in Herr].
  assert (BufferFree x1 = free) as Hfree by (rewrite Hx0; reflexivity). clear Hx0 Hread. clearbody f.
  exists s1, ev, x1. do 3 (split; [assumption || reflexivity|]). do 3 (split; [assumption|]). assumption.
Qed.

(** The last one arrives, and nothing more. *)
Lemma receive_last n now seq free err s x e :
  is_byte seq -> 0 <= free < 2 ^ 16 -> (forall snap st, (SaveSession (S := S) snap st).1 = None) ->
  sessions (srv_sessions s) !! cn_controllerID c = Some x -> InFlight x !! seq = Some e ->
  exists s1 ev x1,
    receive (Datatypes.S n) (mkReader (wire (frameData (ack_frame now seq 0 free FrameModeSequenced))) err) s = (tt, s1)
    /\ srv_acks s1 = srv_acks s ++ [ev] /\ sessions (srv_sessions s1) !! cn_controllerID c = Some x1
    /\ ev_MessageID ev = cmd_MessageID (if_Command e) /\ ev_Status ev = "delivered"
    /\ BufferFree x1 = free /\ InFlight x1 = delete seq (InFlight x).
Proof.
  intros Hs Hf Hsave Hx He. rewrite <- (app_nil_r (wire _)).
  destruct (receive_ack n now seq 0 free [] err s x e Hs ltac:(unfold is_byte; lia) Hf Hsave Hx He)
    as (s1 & ev & x1 & -> & Ha & Hx1 & Hm & Hd & Hf1 & Hi). rewrite decide_False in Hi by done. exists s1, ev, x1.
  split; [by destruct n|]. do 3 (split; [assumption|]). split; [by apply Hd|]. done.
Qed.


End Exchange.

(** ** A concrete exchange *)

#[local] Existing Instance ascending.

(** A healthy controller, and a server that has sent it a reboot under the
    sequence number 30. *)
Definition demo_healthy : simConfig := mkSimConfig "healthy" 0 0 0 1 0 0 1500 0 0 0 FrameModeSequenced.
Definition demo_sim : simState := mkSimState (newControllerState 1500) 0 [].
Definition demo_reboot : Command := mkCommand "m1" "t" "" 2 0 1 [3] "high" 0 0.

Definition demo_rebooting : Server InMemoryStore :=
  let s := demo_online 900 [] in with_manager (RegisterInFlight "A" 30 demo_reboot 7 (srv_sessions s)).2 s.

Definition demo_frame : Frame := mkFrame 255 30 [2; 3] FrameModeSequenced.

(** What the simulator answers, and the server after it has read the answers. *)
Definition demo_answers : list bytes :=
  replies (sim_out (readRound Z.of_nat (fun _ => 0%Q) (fun _ => None) (mkReader (wire (frameData demo_frame)) ErrEOF)
    demo_healthy demo_sim).2).

Definition demo_settled : Server InMemoryStore :=
  (receive default_config ticking demo_state "t" 2 (mkReader (concat demo_answers) ErrEOF) demo_rebooting).2.

