(* ===== verification/System.v ===== *)
(** * The running server ([internal/server/server.go]: [Run], [handleConn], [sweepLoop])

    The accepted connections run their handlers side by side with the sweep and
    the callers of [EnqueueCommand].  A step of the system is one of these
    acting: a connection is accepted or refused, a handler does one round of its
    loop or ends, the sweep passes once, a command is enqueued.  A round is
    taken as one step; within it only calls that take a mutex can be
    interleaved with the others'.

    The theorems hold in every state a server reaches from its start: sessions
    and connections correspond one to one, and whatever is written to a
    connection is a valid command in the framing the controller registered
    with. *)

From S2P Require Import Prelude Format Messages Frame Queue Store Retry Session Config Policy Validation Builders.
From S2P Require Import IPGuard Metrics Server Delivery Conn.

#[global] Instance Conn_countable : Countable Conn.
Proof.
  refine (inj_countable' (fun c => (conn_id c, conn_remote c)) (fun p => mkConn p.1 p.2) _). by intros [].
Defined.

(** ** Which controllers are online *)

Section Online.
Context `{MapRange} {S : Type} `{!Store S} `{!StoreLaws S}.
Implicit Types m : Manager S.

(** The connection and framing of each connected controller. *)
Definition online m : gmap string (Conn * FrameMode) :=
  omap (fun x => (fun c => (c, s_FrameMode x)) <$> s_Conn x) (sessions m).
Arguments online : simpl never.

Lemma online_lookup m id conn mode :
  online m !! id = Some (conn, mode) <->
  exists x, sessions m !! id = Some x /\ s_Conn x = Some conn /\ s_FrameMode x = mode.
Proof.
  unfold online. rewrite lookup_omap. destruct (sessions m !! id) as [x|]; cbn; [|naive_solver].
  destruct (s_Conn x) eqn:Ec; cbn; naive_solver.
Qed.

Lemma online_sessions m m' : sessions m' = sessions m -> online m' = online m.
Proof. unfold online. by intros ->. Qed.

(** A change of a session that keeps its connection and framing. *)
Lemma online_update m m' id x y :
  sessions m !! id = Some x -> sessions m' = <[id := y]> (sessions m) ->
  s_Conn y = s_Conn x -> s_FrameMode y = s_FrameMode x -> online m' = online m.
Proof.
  intros Hx Hs Hc Hf. unfold online. apply map_eq. intros k. rewrite Hs, !lookup_omap.
  destruct (decide (k = id)) as [->|]; [|by rewrite lookup_insert_ne].
  rewrite lookup_insert_eq, Hx. cbn. by rewrite Hc, Hf.
Qed.

(** Any change of a session, by what it does to the connection. *)
Lemma online_insert m m' id y :
  sessions m' = <[id := y]> (sessions m) ->
  online m' = match s_Conn y with
              | Some conn => <[id := (conn, s_FrameMode y)]> (online m)
              | None => delete id (online m)
              end.
Proof.
  intros Hs. unfold online. apply map_eq. intros k. rewrite Hs, lookup_omap.
  destruct (decide (k = id)) as [->|].
  - rewrite lookup_insert_eq. cbn. destruct (s_Conn y); cbn; by rewrite ?lookup_insert_eq, ?lookup_delete_eq.
  - rewrite lookup_insert_ne by done.
    destruct (s_Conn y); cbn; rewrite ?lookup_insert_ne, ?lookup_delete_ne, lookup_omap by done; done.
Qed.

Lemma online_none m id : sessions m !! id = None -> online m !! id = None.
Proof. intros Hn. unfold online. by rewrite lookup_omap, Hn. Qed.

Lemma online_offline m id x : sessions m !! id = Some x -> s_Conn x = None -> online m !! id = None.
Proof. intros Hx Hc. unfold online. rewrite lookup_omap, Hx. cbn. by rewrite Hc. Qed.

(** ** Calls that leave the connections alone *)

Definition quiet_call {A} (op : Manager S -> A * Manager S) : Prop :=
  forall m, online (op m).2 = online m.

Lemma quiet_put {A} (op : Manager S -> A * Manager S) (id : string) :
  (forall m, sessions (op m).2 = sessions m
     \/ exists x y, sessions m !! id = Some x /\ sessions (op m).2 = <[id := y]> (sessions m)
          /\ s_Conn y = s_Conn x /\ s_FrameMode y = s_FrameMode x) ->
  quiet_call op.
Proof.
  intros Hop m. destruct (Hop m) as [He|(x & y & Hx & Hs & Hc & Hf)].
  - by apply online_sessions.
  - by eapply online_update.
Qed.

Lemma online_SetSyncMode id b : quiet_call (SetSyncMode id b).
Proof.
  apply (quiet_put _ id). intros m. unfold SetSyncMode.
  destruct (sessions m !! id) as [x|] eqn:Ex; [right|by left]. exists x, (set_SyncMode b x).
  by rewrite putPersist_sessions'.
Qed.

Lemma online_SetFWMode id b : quiet_call (SetFWMode id b).
Proof.
  apply (quiet_put _ id). intros m. unfold SetFWMode.
  destruct (sessions m !! id) as [x|] eqn:Ex; [right|by left]. exists x, (set_FWMode b x).
  by rewrite putPersist_sessions'.
Qed.

Lemma online_AckSent id : quiet_call (AckSent id).
Proof.
  apply (quiet_put _ id). intros m. left. unfold AckSent.
  destruct (sessions m !! id) as [x|]; [|done]. unfold persistLocked. by destruct (SaveSession _ _).
Qed.

Lemma online_NextCommandSeq id : quiet_call (NextCommandSeq id).
Proof.
  apply (quiet_put _ id). intros m. unfold NextCommandSeq.
  destruct (sessions m !! id) as [x|] eqn:Ex; [right|by left]. exists x, (set_NextSeq (u8 (NextSeq x + 1)) x).
  pose proof (putPersist_sessions' id (set_NextSeq (u8 (NextSeq x + 1)) x) m) as Hp.
  by destruct (putPersist _ _ _).
Qed.

Lemma online_UpdateBufferFree id free : quiet_call (fun m => (tt, UpdateBufferFree id free m)).
Proof.
  apply (quiet_put _ id). intros m. cbn.
  unfold UpdateBufferFree. destruct (sessions m !! id) as [x|] eqn:Ex; [right|by left]. by exists x, (set_BufferFree free x).
Qed.

Lemma online_Touch id t : quiet_call (fun m => (tt, Touch id t m)).
Proof.
  apply (quiet_put _ id). intros m. cbn. unfold Touch.
  destruct (sessions m !! id) as [x|] eqn:Ex; [right|by left].
  destruct (_ <? _); [by exists x, (set_LastSeen t x)|].
  exists x, (set_lastTouched t (set_LastSeen t x)). by rewrite putPersist_sessions'.
Qed.

Lemma online_queueOp id op : quiet_call (queueOp id op).
Proof.
  apply (quiet_put _ id). intros m. unfold queueOp.
  destruct (sessions m !! id) as [x|] eqn:Ex; [right|by left]. destruct (q_step op (s_Queue x)) as [out q].
  by exists x, (set_Queue q x).
Qed.

Lemma online_RegisterInFlight id seq cmd t : quiet_call (RegisterInFlight id seq cmd t).
Proof.
  apply (quiet_put _ id). intros m. unfold RegisterInFlight.
  destruct (sessions m !! id) as [x|] eqn:Ex; [right|by left].
  eexists x, _. rewrite putPersist_sessions'. split_and!; [done|done|done|done].
Qed.

Lemma online_AckInFlight id seq : quiet_call (AckInFlight id seq).
Proof.
  intros m. unfold AckInFlight. destruct (sessions m !! id) as [x|] eqn:Ex; [|done].
  destruct (InFlight x !! seq) as [e|]; [|done].
  destruct (putPersist _ _ _) as [[err|] m1] eqn:E; apply putPersist_sessions in E.
  - eapply online_update with (id := id) (x := x); [done|cbn; rewrite E; apply insert_insert_eq|done|done].
  - by eapply online_update.
Qed.

Lemma online_ProcessInFlight id t resolver visits m :
  online (ProcessInFlight id t resolver visits m).2 = online m.
Proof.
  unfold ProcessInFlight. destruct (sessions m !! id) as [x|] eqn:Ex; [|done].
  destruct (fold_left _ visits _) as [[q i] out].
  destruct (putPersist _ _ _) as [err m1] eqn:E. apply putPersist_sessions in E. by eapply online_update.
Qed.

Lemma online_createDetached id t m e m1 :
  sessions m !! id = None -> createDetachedLocked id t m = (e, m1) ->
  online m1 = online m /\ (e = None -> exists x, sessions m1 !! id = Some x).
Proof.
  intros Hn (st & -> & _)%createDetachedLocked_spec. destruct e; cbn; (split; [|intros [=]]).
  - unfold online. cbn. by rewrite delete_id.
  - etrans; [by apply (online_insert m _ id (newSession id None t))|]. by apply delete_id, online_none.
  - eexists. apply lookup_insert_eq.
Qed.

Lemma checkDedup_conn cmd t1 t2 x e y :
  checkDedup cmd t1 t2 x = (e, y) -> s_Conn y = s_Conn x /\ s_FrameMode y = s_FrameMode x.
Proof. unfold checkDedup. repeat case_match; by intros [= <- <-]. Qed.

Lemma online_EnqueueWithEvents id cmd t0 t1 t2 m :
  online (EnqueueWithEvents id cmd t0 t1 t2 m).2 = online m.
Proof.
  unfold EnqueueWithEvents, enqueueLocked.
  destruct (match sessions m !! id with Some _ => (None, m) | None => createDetachedLocked id t0 m end)
    as [e m1] eqn:E1.
  assert (online m1 = online m) as Ho.
  { destruct (sessions m !! id) eqn:Ex; [by injection E1 as <- <-|]. by eapply online_createDetached. }
  destruct e as [e|]; [done|]. destruct (sessions m1 !! id) as [x|] eqn:Ex; [|done].
  destruct (checkDedup cmd t1 t2 x) as [[e|] y] eqn:Ed; [done|]. apply checkDedup_conn in Ed as [Hc Hf].
  destruct (makeRoom _ _ _ _ _) as [[[e|] q] ev]; cbn.
  - rewrite <- Ho. by eapply online_update.
  - destruct (putPersist _ _ _) as [e m2] eqn:Ep. apply putPersist_sessions in Ep. rewrite <- Ho.
    by eapply online_update.
Qed.

(** ** Calls that connect and disconnect *)

Lemma online_Create id conn t m e m' :
  Create id conn t m = (e, m') ->
  match e with
  | Some _ => online m' = online m
  | None => online m !! id = None /\ exists mode, online m' = <[id := (conn, mode)]> (online m)
  end.
Proof.
  unfold Create. destruct (sessions m !! id) as [x|] eqn:Ex.
  - destruct (s_Conn x) eqn:Ec; [by intros [= <- <-]|].
    set (y := if BufferFree _ <=? 0 then _ else _).
    assert (s_Conn y = Some conn /\ s_FrameMode y = s_FrameMode x) as [Hy Hf] by (unfold y; by case_match).
    clearbody y. destruct (putPersist id y m) as [[err|] m1] eqn:E; apply putPersist_sessions in E;
      intros [= <- <-].
    + eapply online_update with (id := id) (x := x); [done|cbn; rewrite E; apply insert_insert_eq|done|done].
    + split; [by eapply online_offline|]. exists (s_FrameMode y). rewrite (online_insert _ _ _ _ E), Hy. done.
  - destruct (_ <=? _); [by intros [= <- <-]|].
    destruct (putPersist _ _ _) as [[err|] m1] eqn:E; apply putPersist_sessions in E; intros [= <- <-].
    + apply online_sessions. cbn. rewrite E. by apply delete_insert_id.
    + split; [by apply online_none|]. eexists. by rewrite (online_insert _ _ _ _ E).
Qed.

Lemma online_SetFrameMode id mode conn mode0 m :
  online m !! id = Some (conn, mode0) -> online (SetFrameMode id mode m) = <[id := (conn, mode)]> (online m).
Proof.
  intros (x & Hx & Hc & _)%online_lookup. unfold SetFrameMode. rewrite Hx.
  etrans; [by apply (online_insert m _ id (set_FrameMode mode x))|]. cbn. by rewrite Hc.
Qed.

Lemma online_MarkOffline id t m : online (MarkOffline id t m).2 = delete id (online m).
Proof.
  unfold MarkOffline. destruct (sessions m !! id) as [x|] eqn:Ex.
  - by rewrite (online_insert m _ id (set_LastSeen t (set_Conn None x))) by apply putPersist_sessions'.
  - symmetry. by apply delete_id, online_none.
Qed.

End Online.

(** ** What server computations do to connections *)

Section Serving.
Context `{MapRange} {S : Type} `{!Store S} `{!StoreLaws S}.
Variable cfg : Config.
Variable connRemoteHost : Conn -> string.
Variable clock : nat -> Z.
Variable writeErr : nat -> option error.
Implicit Types s : Server S.

(** No controller connects or disconnects, and no connection is opened,
    released or closed. *)
Definition undisturbed s s' : Prop :=
  online (srv_sessions s') = online (srv_sessions s) /\ srv_guard s' = srv_guard s /\ srv_closed s' = srv_closed s.

#[global] Instance undisturbed_preorder : PreOrder undisturbed.
Proof. split; [done|]. intros s1 s2 s3 (?&?&?) (?&?&?). repeat split; congruence. Qed.

Lemma undisturbed_world s s' : same_world s s' -> undisturbed s s'.
Proof. intros (Hm & Hg & _ & _ & _ & Hc). unfold undisturbed. by rewrite Hm. Qed.

(** What is written meanwhile goes to connections of online controllers, as
    valid frames in their framing. *)
Definition sends s s' : Prop :=
  exists new, srv_wire s' = srv_wire s ++ new
    /\ Forall (fun w => exists id mode, online (srv_sessions s) !! id = Some (w.1, mode) /\ good_frame w.1 mode w) new.

Definition served s s' : Prop := undisturbed s s' /\ sends s s'.

#[global] Instance served_preorder : PreOrder served.
Proof.
  split.
  - intros s. split; [done|]. exists []. by rewrite app_nil_r.
  - intros s1 s2 s3 [Hu1 (n1 & Hw1 & Hf1)] [Hu2 (n2 & Hw2 & Hf2)]. split; [by etrans|].
    exists (n1 ++ n2). rewrite Hw2, Hw1, app_assoc. split; [done|]. apply Forall_app. split; [done|].
    destruct Hu1 as [Ho _]. by rewrite Ho in Hf2.
Qed.

Lemma served_quietly s s' : undisturbed s s' -> srv_wire s' = srv_wire s -> served s s'.
Proof. intros Hu Hw. split; [done|]. exists []. by rewrite app_nil_r. Qed.

Lemma served_world s s' : same_world s s' -> served s s'.
Proof. intros Hw. apply served_quietly; [by apply undisturbed_world|]. by destruct Hw as (_ & _ & _ & _ & ? & _). Qed.

(** From states where [P] holds, which must not depend on anything a served
    state changes. *)
Definition stable (P : Server S -> Prop) : Prop := forall s s', undisturbed s s' -> P s -> P s'.

Definition serves (P : Server S -> Prop) {A} (x : ST S A) : Prop := forall s, P s -> served s (x s).2.

Lemma serves_ret P {A} (a : A) : serves P (mret a).
Proof. by intros s _. Qed.

Lemma serves_bind P {A B} (x : ST S A) (f : A -> ST S B) :
  stable P -> serves P x -> (forall a, serves P (f a)) -> serves P (x ≫= f).
Proof.
  intros HP Hx Hf s Hs. specialize (Hx s Hs). unfold mbind, ST_bind. destruct (x s) as [a s'].
  etrans; [exact Hx|]. apply Hf. by apply (HP s); [apply Hx|].
Qed.

Lemma serves_counting P {A} (x : ST S A) : counting x -> serves P x.
Proof. intros Hx s _. apply served_world, Hx. Qed.

Lemma serves_manager P {A} (op : Manager S -> A * Manager S) : quiet_call op -> serves P (manager op).
Proof.
  intros Hop s _. specialize (Hop (srv_sessions s)). unfold manager. destruct (op _). by apply served_quietly.
Qed.

Lemma serves_publishAck P e : serves P (publishAck cfg clock e).
Proof. intros s _. by apply served_quietly. Qed.

Lemma serves_publishWith P e cmd : serves P (publishAckWithCommand cfg clock e cmd).
Proof.
  intros s _. etrans; [|apply served_world, (publishAckWithCommand_effect cfg clock e cmd s)]. by apply served_quietly.
Qed.

Lemma serves_forEach P {A} (f : A -> ST S unit) l :
  stable P -> (forall a, serves P (f a)) -> serves P (forEach f l).
Proof. intros HP Hf. induction l; cbn [forEach]; [apply serves_ret|]. by apply serves_bind. Qed.

(** A controller is connected. *)
Definition connected (id : string) (conn : Conn) (mode : FrameMode) s : Prop :=
  online (srv_sessions s) !! id = Some (conn, mode).

Lemma stable_connected id conn mode : stable (connected id conn mode).
Proof. unfold connected. by intros s s' (-> & _). Qed.

Lemma stable_True : stable (fun _ => True).
Proof. done. Qed.

Lemma serves_writeFrame id conn mode w :
  good_frame conn mode (conn, w) -> serves (connected id conn mode) (writeFrame writeErr conn w).
Proof.
  intros Hg s Hs. unfold writeFrame. destruct (writeErr _); [by apply served_world|]. split; [done|].
  exists [(conn, w)]. split; [done|]. apply Forall_singleton. by exists id, mode.
Qed.

#[local] Hint Resolve serves_ret serves_counting serves_manager serves_publishAck serves_publishWith
  stable_connected stable_True : serving.
#[local] Hint Resolve counting_now counting_debugEvent counting_rawMessage counting_metrics : serving.
#[local] Hint Resolve online_SetSyncMode online_SetFWMode online_AckSent online_NextCommandSeq online_UpdateBufferFree
  online_Touch online_queueOp online_RegisterInFlight online_AckInFlight : serving.

(** Steps through a computation. *)
Ltac serves_tac :=
  repeat match goal with
  | |- forall _, _ => intros ?
  | |- serves _ (mbind _ _) => apply serves_bind; [auto with serving| |]
  | |- serves _ (forEach _ _) => apply serves_forEach; [auto with serving|]
  | |- serves _ (if ?b then _ else _) => destruct b
  | |- serves _ (match ?x with _ => _ end) => destruct x
  | |- serves _ _ => solve [eauto 3 with serving]
  end.

Section Flush.
Variable P : Server S -> Prop.
Hypothesis HP : stable P.

#[local] Hint Resolve HP : serving.

Lemma serves_pushAll id cmds : serves P (pushAll (S := S) id cmds).
Proof. unfold pushAll, queueCall. serves_tac. Qed.

Lemma serves_queueCall id op : serves P (queueCall (S := S) id op).
Proof. unfold queueCall. serves_tac. Qed.

Lemma serves_queueOf id : serves P (queueOf (S := S) id).
Proof. by intros s _. Qed.

Lemma serves_publishFailed id cmd seq reason : serves P (publishFailed (S := S) cfg clock id cmd seq reason).
Proof. unfold publishFailed. serves_tac. Qed.

#[local] Hint Resolve serves_pushAll serves_queueCall serves_queueOf serves_publishFailed : serving.

Lemma serves_endRound id f : serves P (endRound (S := S) id f).
Proof. unfold endRound. serves_tac. Qed.

Lemma serves_processInFlight id visits : serves P (processInFlight (S := S) cfg clock id visits).
Proof.
  unfold processInFlight. apply serves_bind; [done|serves_tac|]. intros t. apply serves_bind; [done| |].
  - apply serves_manager. intros m. pose proof (online_ProcessInFlight id t (Some (deliveryPolicyForCommand cfg)) visits m) as Ho.
    by destruct (ProcessInFlight _ _ _ _ _) as [[out e] m'].
  - intros [out [e|]]; cbn [fst snd]; [serves_tac|]. apply serves_forEach; [done|]. intros o.
    unfold publishOutcome. serves_tac.
Qed.

Lemma serves_EnqueueCommand id cmd : serves P (EnqueueCommand (S := S) clock id cmd).
Proof.
  unfold EnqueueCommand. apply serves_bind; [done|serves_tac|]. intros c.
  destruct (normalizeCommandPriority c); [|serves_tac..].
  do 3 (apply serves_bind; [done|serves_tac|intros ?]). apply serves_bind; [done| |].
  - apply serves_manager. intros m. pose proof (online_EnqueueWithEvents id a a0 a1 a2 m) as Ho.
    by destruct (EnqueueWithEvents _ _ _ _ _ _) as [[ev e] m'].
  - serves_tac.
Qed.

End Flush.

#[local] Hint Resolve serves_pushAll serves_queueCall serves_queueOf serves_publishFailed serves_endRound : serving.

Lemma serves_tryCommand id conn mode f cmd :
  serves (connected id conn mode) (tryCommand (S := S) cfg clock writeErr id conn mode f cmd).
Proof.
  unfold tryCommand. apply serves_bind; [auto with serving|serves_tac|]. intros t.
  destruct (Expired cmd t); [serves_tac|]. destruct (negb _); [serves_tac|].
  destruct (ValidateServerCommandPayload _ _) as [[]|e|] eqn:Ev; [|serves_tac..].
  apply serves_bind; [auto with serving|serves_tac|]. intros [seq|e|]; [|serves_tac..].
  destruct (EncodeFrame _) as [w|e|] eqn:Ee; [|serves_tac..].
  unfold transmit. destruct (_ <? _); [serves_tac|].
  apply serves_bind; [auto with serving| |].
  - apply serves_writeFrame. by eexists _, _, _.
  - unfold afterWrite, recordSent. serves_tac.
Qed.

Lemma serves_scanLoop n id conn mode : forall f,
  serves (connected id conn mode) (scanLoop (S := S) cfg clock writeErr n id conn mode f).
Proof.
  induction n as [|n IH]; intros f; cbn [scanLoop]; [apply serves_ret|].
  apply serves_bind; [auto with serving|serves_tac|]. intros [|cmd rest]; [serves_tac|].
  apply serves_bind; [auto with serving|apply serves_tryCommand|]. intros []; [apply IH|serves_tac..].
Qed.

Lemma serves_flushLoop fuel id conn mode : forall f,
  serves (connected id conn mode) (flushLoop (S := S) cfg clock writeErr fuel id conn mode f).
Proof.
  induction fuel as [|fuel IH]; intros f; cbn [flushLoop]; [apply serves_ret|].
  destruct (_ <=? _); [apply serves_ret|]. do 2 (apply serves_bind; [auto with serving|serves_tac|intros ?]).
  apply serves_bind; [auto with serving|unfold publishExpired; serves_tac|]. intros _.
  apply serves_bind; [auto with serving|serves_tac|]. intros q.
  destruct (_ =? _); [apply serves_ret|]. apply serves_bind; [auto with serving|apply serves_scanLoop|].
  intros [f'|e|f']; [serves_tac..|].
  apply serves_bind; [auto with serving|serves_tac|]. intros _.
  apply serves_bind; [auto with serving|serves_tac|]. intros []; [apply IH|serves_tac|apply IH].
Qed.

Lemma serves_flushQueue P id : serves P (flushQueue (S := S) cfg clock writeErr id).
Proof.
  intros s _. unfold flushQueue, GetDeliveryContext. destruct (sessions (srv_sessions s) !! id) as [x|] eqn:Ex; [|done].
  cbn [dc_Conn dc_FrameMode]. destruct (s_Conn x) as [conn|] eqn:Ec; [|done]. destruct (_ <? _); [done|].
  apply serves_flushLoop. apply online_lookup. by exists x.
Qed.

Lemma serves_sweep visits : serves (fun _ => True) (sweep (S := S) cfg clock writeErr visits).
Proof.
  intros s _. unfold sweep. apply (serves_forEach (fun _ => True)); [done| |done]. intros id.
  apply serves_bind; [done|by apply serves_processInFlight|]. intros _.
  apply serves_bind; [done|apply serves_flushQueue|]. serves_tac.
Qed.


(** ** What a handler's round does *)

Lemma counting_newTraceID id cmdID seq : counting (newTraceID (S := S) clock id cmdID seq).
Proof. unfold newTraceID. auto with go. Qed.

Lemma counting_recordAck id conn mode cid seq n raw ack :
  counting (recordAck (S := S) cfg clock id conn mode cid seq n raw ack).
Proof.
  unfold recordAck. repeat (apply counting_bind; [first [apply counting_now|apply counting_newTraceID|apply counting_metrics]|intros ?]).
  apply counting_metrics.
Qed.

Lemma serves_publishTelemetry P e src : serves P (publishTelemetry (S := S) e src).
Proof. intros s _. by apply served_quietly. Qed.

#[local] Hint Resolve counting_newTraceID counting_recordAck serves_publishTelemetry : serving.

Lemma sendAck_sends id conn mode seq cid built s :
  (forall p, built = Ok p -> ValidateServerCommandPayload cid p = Ok tt) ->
  connected id conn mode s -> served s (sendAck writeErr conn mode seq cid built s).2.
Proof.
  intros Hb Hs. unfold sendAck. destruct built as [p|e|]; [|done|done]. cbn [mbind res_bind].
  destruct (EncodeFrame _) as [w|e|] eqn:Ee; [|done|done]. cbn [mbind res_bind]. revert s Hs.
  change (serves (connected id conn mode) (w0 ← writeFrame (S := S) writeErr conn w;
    match w0 with Some e => mret (Err e) | None => mret (Ok (w, p)) end)).
  apply serves_bind; [auto with serving| |serves_tac].
  apply serves_writeFrame. eexists _, cid, p. split_and!; [done|exact Ee|done|done|]. by apply Hb.
Qed.

Lemma serves_sendControllerAck id conn mode seq code :
  serves (connected id conn mode) (sendControllerAck writeErr conn mode seq code).
Proof. intros s Hs. apply (sendAck_sends id); [|done]. by intros p [? ->]%validated_ok. Qed.

Lemma serves_sendRegistrationAck id conn mode seq :
  serves (connected id conn mode) (sendRegistrationAck clock writeErr conn mode seq).
Proof.
  unfold sendRegistrationAck. apply serves_bind; [auto with serving|serves_tac|]. intros t s Hs.
  apply (sendAck_sends id); [|done]. by intros p [? ->]%validated_ok.
Qed.

#[local] Hint Resolve serves_sendControllerAck : serving.

Lemma serves_dispatch conn c cmdID frame traceID id mode :
  Mode frame = mode ->
  serves (connected id conn mode) (dispatch (S := S) cfg clock writeErr conn c cmdID frame traceID).
Proof.
  intros <-. unfold dispatch, onStatus1, onAck11, onFWStatus4, onTerminalAck, onProgressAck, manager_.
  destruct (cmdID =? 2); [serves_tac|]. destruct (cmdID =? 11); [|serves_tac].
  destruct (ParseAck11Payload _); [|serves_tac..]. apply serves_bind; [auto with serving|serves_tac|]. intros _.
  apply serves_bind; [auto with serving| |serves_tac]. destruct (Terminal _); [serves_tac|].
  intros s Hs. destruct (match _ with Some _ => _ | None => _ end) as [[? ?] ?]. revert s Hs.
  match goal with |- forall s, _ -> served s (?x s).2 => change (serves (connected id conn (Mode frame)) x) end. serves_tac.
Qed.

Lemma serves_handleMessage conn c cmdID frame visits mode :
  Mode frame = mode ->
  serves (connected (cn_controllerID c) conn mode) (handleMessage (S := S) cfg clock writeErr conn c cmdID frame visits).
Proof.
  intros Hm. unfold handleMessage, manager_. do 3 (apply serves_bind; [auto with serving|serves_tac|intros ?]).
  apply serves_bind; [auto with serving|by apply serves_dispatch|]. intros [c' tr src| |]; [|serves_tac..].
  do 2 (apply serves_bind; [auto with serving|serves_tac|intros ?]).
  apply serves_bind; [auto with serving|apply serves_processInFlight; auto with serving|]. intros _.
  apply serves_bind; [auto with serving|apply serves_flushQueue|]. serves_tac.
Qed.

(** A handler that has not registered leaves everything but the violations as
    it was. *)
Definition same_tables (g g' : Guard) : Prop :=
  active g' = active g /\ conns g' = conns g /\ ipConnCount g' = ipConnCount g.

Definition idle s s' : Prop :=
  online (srv_sessions s') = online (srv_sessions s) /\ same_tables (srv_guard s) (srv_guard s')
  /\ srv_wire s' = srv_wire s.

#[global] Instance idle_preorder : PreOrder idle.
Proof.
  split; [by intros s|]. intros s1 s2 s3 (?&(?&?&?)&?) (?&(?&?&?)&?). unfold idle, same_tables. split_and!; congruence.
Qed.

Lemma idle_world s s' : same_world s s' -> idle s s'.
Proof. intros (Hm & Hg & _ & _ & Hw & _). unfold idle. by rewrite Hm, Hg. Qed.

Lemma registerIPViolation_tables host t g : same_tables g (registerIPViolation cfg host t g).
Proof. unfold registerIPViolation. by repeat case_match. Qed.

Definition idles {A} (x : ST S A) : Prop := forall s, idle s (x s).2.

Lemma idles_bind {A B} (x : ST S A) (f : A -> ST S B) : idles x -> (forall a, idles (f a)) -> idles (x ≫= f).
Proof.
  intros Hx Hf s. specialize (Hx s). unfold mbind, ST_bind. destruct (x s) as [a s']. etrans; [exact Hx|apply Hf].
Qed.

Lemma idles_counting {A} (x : ST S A) : counting x -> idles x.
Proof. intros Hx s. apply idle_world, Hx. Qed.

Lemma idles_ret {A} (a : A) : idles (mret a).
Proof. by intros s. Qed.

Lemma idles_violation conn : idles (violation (S := S) cfg connRemoteHost clock conn).
Proof. intros s. split; [done|]. split; [apply registerIPViolation_tables|done]. Qed.

(** A registration: the controller was not connected and now is, on this
    connection; what is written goes to connected controllers. *)
Definition joins conn (id : string) (mode : FrameMode) s s' : Prop :=
  online (srv_sessions s) !! id = None
  /\ online (srv_sessions s') = <[id := (conn, mode)]> (online (srv_sessions s))
  /\ same_tables (srv_guard s) (srv_guard s')
  /\ exists new, srv_wire s' = srv_wire s ++ new
       /\ Forall (fun w => exists id mode, online (srv_sessions s') !! id = Some (w.1, mode) /\ good_frame w.1 mode w) new.

Lemma joins_served conn id mode s s1 s2 : joins conn id mode s s1 -> served s1 s2 -> joins conn id mode s s2.
Proof.
  intros (Hn & Ho & Hg & n1 & Hw1 & Hf1) [(Ho2 & Hg2 & _) (n2 & Hw2 & Hf2)]. unfold joins. rewrite Ho2, Hg2.
  split_and!; [done..|]. exists (n1 ++ n2). rewrite Hw2, Hw1, app_assoc. split; [done|]. by apply Forall_app.
Qed.

Lemma sendAck_world conn mode seq cid built s :
  (forall a, (sendAck writeErr conn mode seq cid built s).1 <> Ok a) ->
  same_world s (sendAck (S := S) writeErr conn mode seq cid built s).2.
Proof.
  unfold sendAck. destruct built as [p|e|]; [|done|done]. cbn [mbind res_bind].
  destruct (EncodeFrame _) as [w|e|]; [|done|done]. unfold mbind, ST_bind, res_bind, writeFrame.
  destruct (writeErr _); [done|]. intros Hn. by destruct (Hn (w, p)).
Qed.

Lemma sendRegistrationAck_world conn mode seq s :
  (forall a, (sendRegistrationAck clock writeErr conn mode seq s).1 <> Ok a) ->
  same_world s (sendRegistrationAck (S := S) clock writeErr conn mode seq s).2.
Proof.
  unfold sendRegistrationAck, mbind, ST_bind. destruct (now clock s) as [t s1] eqn:En. intros Hr.
  etrans; [|by apply sendAck_world]. by injection En as <- <-.
Qed.

Lemma bind_run {A B} (x : ST S A) (f : A -> ST S B) s : (x ≫= f) s = f (x s).1 (x s).2.
Proof. unfold mbind, ST_bind. by destruct (x s). Qed.

(** The acknowledgement of a registration, on the state in which the controller
    is connected. *)
Lemma welcome_effect conn c id frame s s1 :
  joins conn id (Mode frame) s s1 -> srv_wire s1 = srv_wire s ->
  let out := (r ← sendRegistrationAck clock writeErr conn (Mode frame) (Seq frame);
    match r with
    | Panic => mret Crash
    | Err _ => t ← now clock; _ ← manager (MarkOffline id t); mret (Stop c)
    | Ok (rawAck, ackPayload) =>
        _ ← recordAck cfg clock id conn (Mode frame) CmdRegistrationAck (Seq frame) 6 rawAck ackPayload;
        t ← now clock;
        mret (Next (set_registered id (Mode frame) t c))
    end) s1 in
  match out.1 with
  | Next c' => joins conn (cn_controllerID c') (Mode frame) s out.2
  | Stop _ => idle s out.2
  | Crash => True
  end.
Proof.
  intros Hj Hw1 out. unfold out. clear out. rewrite bind_run.
  pose proof (serves_sendRegistrationAck id conn (Mode frame) (Seq frame) s1) as Hsv.
  pose proof (sendRegistrationAck_world conn (Mode frame) (Seq frame) s1) as Hw.
  destruct (sendRegistrationAck clock writeErr conn (Mode frame) (Seq frame) s1) as [r s2]. cbn [fst snd] in *.
  destruct r as [[raw ack]|e|]; [| |done].
  - rewrite !bind_run. cbn. eapply (joins_served _ _ _ _ s1); [done|]. etrans.
    + apply Hsv. destruct Hj as (_ & Ho & _). unfold connected. rewrite Ho. apply lookup_insert_eq.
    + apply served_world. etrans; [exact (counting_recordAck id conn (Mode frame) CmdRegistrationAck (Seq frame) 6 raw ack s2)|done].
  - destruct Hw as (Hs2 & Hg2 & _ & _ & Hw2 & _); [done|]. rewrite bind_run, bind_manager. cbn [now snd fst srv_sessions with_ticks].
    pose proof (online_MarkOffline id (clock (srv_ticks s2)) (srv_sessions s2)) as Hm.
    destruct (MarkOffline _ _ _) as [e' m3]. cbn in *. destruct Hj as (Hn & Ho & Hg & _).
    split_and!; cbn; [|by rewrite Hg2|by rewrite Hw2, Hw1]. rewrite Hm, Hs2, Ho. by apply delete_insert_id.
Qed.

Lemma register_effect conn c cmdID frame s :
  let out := register cfg connRemoteHost clock writeErr conn c cmdID frame s in
  match out.1 with
  | Next c' => joins conn (cn_controllerID c') (Mode frame) s out.2
  | Stop _ => idle s out.2
  | Crash => True
  end.
Proof.
  unfold register. destruct (negb _); [by apply (idles_bind _ _ (idles_violation conn) (fun _ => idles_ret (Stop c)))|].
  destruct (ParseRegistrationPayload _) as [reg|e|];
    [|by apply (idles_bind _ _ (idles_violation conn) (fun _ => idles_ret (Stop c)))|done].
  rewrite bind_run, bind_manager. cbn [now snd fst]. set (s0 := with_ticks _ s).
  destruct (Create (IMEI reg) conn _ (srv_sessions s0)) as [e m1] eqn:Ec. apply online_Create in Ec.
  destruct e as [e|]; [by split_and!|]. destruct Ec as (Hn & mode0 & Ho).
  unfold manager_. rewrite bind_manager. apply welcome_effect; [|done].
  split_and!; [done| |done|exists []; by rewrite app_nil_r]. cbn.
  erewrite online_SetFrameMode; [by rewrite Ho, insert_insert_eq|]. rewrite Ho. apply lookup_insert_eq.
Qed.

(** What a round did, by the handler's state after it. *)
Definition round_effect conn c c' s s' : Prop :=
  if cn_registered c then same_conn c c' /\ served s s'
  else (same_conn c c' /\ idle s s')
    \/ (cn_registered c' = true /\ cn_controllerID c' <> "" /\ cn_frameMode c' <> FrameModeAuto
        /\ joins conn (cn_controllerID c') (cn_frameMode c') s s').

Lemma handleFrame_effect conn c frame visits s :
  Mode frame <> FrameModeAuto ->
  (cn_registered c = true -> connected (cn_controllerID c) conn (cn_frameMode c) s /\ Mode frame = cn_frameMode c) ->
  let out := handleFrame cfg connRemoteHost clock writeErr conn c frame visits s in
  match out.1 with Next c' | Stop c' => round_effect conn c c' s out.2 | Crash => True end.
Proof.
  intros Hauto Hreg out. unfold out, handleFrame, round_effect. clear out.
  destruct (CommandID frame) as [cmdID []].
  2: { destruct (cn_registered c); [by split|]. left. split; [done|].
       apply (idles_bind _ _ (idles_violation conn) (fun _ => idles_ret (Stop c))). }
  rewrite bind_run. set (s0 := (rawMessage _ _ _ s).2).
  assert (same_world s s0) as H0 by apply counting_rawMessage. clearbody s0. rewrite bind_run.
  destruct (cn_registered c) eqn:Ec.
  - cbn [mret ST_ret fst snd]. destruct Hreg as [Hcon Hm]; [done|].
    pose proof (handleMessage_returns cfg clock writeErr conn c cmdID frame visits s0) as Hret.
    pose proof (serves_handleMessage conn c cmdID frame visits (cn_frameMode c) Hm s0) as Hsv.
    destruct (handleMessage _ _ _ _ _ _ _ _ s0) as [r s']. cbn [fst snd] in *.
    assert (served s s') as Hs.
    { etrans; [by apply served_world|]. apply Hsv. destruct H0 as (He & _). unfold connected. by rewrite He. }
    destruct r; by try split.
  - pose proof (register_returns cfg connRemoteHost clock writeErr conn c cmdID frame Ec s0) as Hret.
    pose proof (register_effect conn c cmdID frame s0) as Heff. cbv zeta in Heff.
    destruct (register _ _ _ _ _ _ _ _ s0) as [[c1|c1|] s1]; cbn [fst snd] in *.
    + destruct Hret as (_ & Hr1 & Hid & Hfm & _).
      pose proof (handleMessage_returns cfg clock writeErr conn c1 cmdID frame visits s1) as Hret2.
      pose proof (serves_handleMessage conn c1 cmdID frame visits (cn_frameMode c1) (eq_sym Hfm) s1) as Hsv.
      destruct (handleMessage _ _ _ _ _ _ _ _ s1) as [r s']. cbn [fst snd] in *.
      assert (joins conn (cn_controllerID c1) (cn_frameMode c1) s s') as Hj.
      { rewrite Hfm in *. destruct H0 as (He & Hg & _ & _ & Hw & _). apply (joins_served _ _ _ _ s1).
        - unfold joins in *. rewrite <- He, <- Hg, <- Hw. exact Heff.
        - apply Hsv. destruct Heff as (_ & Ho & _). unfold connected. rewrite Ho. apply lookup_insert_eq. }
      assert (forall c', same_conn c1 c' -> cn_registered c' = true /\ cn_controllerID c' <> ""
        /\ cn_frameMode c' <> FrameModeAuto /\ joins conn (cn_controllerID c') (cn_frameMode c') s s') as Hc'.
      { intros c' (-> & -> & ->). split_and!; [done..| |done]. by rewrite Hfm. }
      destruct r; auto.
    + subst c1. left. split; [done|]. etrans; [by apply idle_world|done].
    + done.
Qed.

Lemma idle_round conn c c' s s' :
  cn_registered c = false -> same_conn c c' -> idle s s' -> round_effect conn c c' s s'.
Proof. intros Hc. unfold round_effect. rewrite Hc. by left. Qed.

Lemma served_round conn c c' s s' :
  cn_registered c = true -> same_conn c c' -> served s s' -> round_effect conn c c' s s'.
Proof. intros Hc. unfold round_effect. by rewrite Hc. Qed.

(** The checks before a read. *)
Lemma beforeRead_effect conn c s :
  let s' := (beforeRead cfg connRemoteHost clock conn c s).2 in
  if cn_registered c then same_world s s' else idle s s'.
Proof.
  cbv zeta. unfold beforeRead. rewrite bind_run. destruct (cn_registered c); cbn [andb].
  - cbn [mret ST_ret fst snd]. destruct (0 <? _); [|done]. rewrite !bind_run. cbn.
    destruct (_ <? _); [done|]. rewrite bind_run. cbn. by destruct (_ <=? 0).
  - rewrite bind_run. cbn [mret ST_ret fst snd now]. destruct (_ <? _); [|done].
    etrans; [|apply (idles_bind _ _ (idles_violation conn) (fun _ => idles_ret None))]. done.
Qed.

Lemma joins_idle conn id mode s s1 s2 : idle s s1 -> joins conn id mode s1 s2 -> joins conn id mode s s2.
Proof.
  intros (Ho & (?&?&?) & Hw). unfold joins, same_tables. rewrite Ho, Hw. intros (? & ? & (?&?&?) & ?).
  split_and!; [done|done|congruence..|done].
Qed.

Lemma round_after conn c c1 c' s s1 s' :
  (if cn_registered c then same_world s s1 else idle s s1) -> same_conn c c1 ->
  round_effect conn c1 c' s1 s' -> round_effect conn c c' s s'.
Proof.
  intros Hb Hc. assert (cn_registered c1 = cn_registered c) as Hr by apply Hc. unfold round_effect. rewrite Hr.
  assert (same_conn c1 c' -> same_conn c c') as Htrans.
  { destruct Hc as (?&?&?). intros (?&?&?). split_and!; congruence. }
  destruct (cn_registered c).
  - intros [Hs Hsv]. split; [by apply Htrans|]. etrans; [by apply served_world|done].
  - intros [[Hs Hi]|(? & ? & ? & Hj)].
    + left. split; [by apply Htrans|]. by etrans.
    + right. split_and!; try done. by eapply joins_idle.
Qed.

Lemma connRound_effect conn c net visits s :
  (cn_registered c = true -> connected (cn_controllerID c) conn (cn_frameMode c) s /\ cn_frameMode c <> FrameModeAuto) ->
  let out := connRound cfg connRemoteHost clock writeErr conn c net visits s in
  match out.1 with Next c' | Stop c' => round_effect conn c c' s out.2 | Crash => False end.
Proof.
  intros Hreg out. assert (out.1 <> Crash) as Hnc.
  { pose proof (connRound_returns cfg connRemoteHost clock writeErr conn c net visits s) as Hr. fold out in Hr. by destruct out.1. }
  enough (match out.1 with Next c' | Stop c' => round_effect conn c c' s out.2 | Crash => True end) by by destruct out.1.
  clear Hnc. unfold out, connRound. clear out. rewrite bind_run.
  pose proof (beforeRead_effect conn c s) as Hb. cbv zeta in Hb.
  destruct (beforeRead _ _ _ _ _ s) as [wait s1]. cbn [fst snd] in *.
  assert (same_conn c c) as Hcc by done.
  assert (forall c1 s2, same_conn c c1 -> round_effect conn c1 c1 s1 s2 -> round_effect conn c c1 s s2) as Hend.
  { intros c1 s2 Hc1 Hr. by eapply round_after. }
  destruct wait as [wait|]; cbn [fst snd mret ST_ret].
  2: { apply Hend; [done|]. destruct (cn_registered c) eqn:Ec; [by apply served_round|by apply idle_round]. }
  rewrite bind_run. cbn [now fst snd]. set (s2 := with_ticks _ s1). assert (same_world s1 s2) as H12 by done. clearbody s2.
  destruct (net _) as [arrived err]. destruct (ReadFrameWithMode _ _) as [r reader] eqn:Er.
  set (c1 := set_buffered (avail reader) c). assert (same_conn c c1) as Hc1 by done. destruct r as [frame|e|]; [| |done].
  - apply ReadFrameWithMode_mode in Er as [Hf Hm].
    assert (if cn_registered c then same_world s s2 else idle s s2) as Hb2.
    { destruct (cn_registered c); [by etrans|]. etrans; [done|by apply idle_world]. }
    pose proof (handleFrame_effect conn c1 frame visits s2 Hf) as He. cbv zeta in He.
    destruct (handleFrame _ _ _ _ _ _ _ _ s2) as [[c'|c'|] s3]; cbn [fst snd] in *; [| |done];
      (apply (round_after _ _ c1 _ _ s2); [done|done|]; apply He; intros Hr; destruct (Hreg Hr) as [Hcon Hauto];
       change (cn_registered c = true) in Hr; rewrite Hr in Hb2; destruct Hb2 as (Hs & _); split; [|by apply Hm]; unfold connected; by rewrite Hs).
  - rewrite bind_run. cbn [fst snd mret ST_ret]. apply Hend; [done|].
    change (cn_registered c1) with (cn_registered c). destruct (cn_registered c) eqn:Ec.
    + rewrite orb_true_r. cbn. apply served_round; [done|done|]. by apply served_world.
    + apply idle_round; [done|done|]. etrans; [by apply idle_world|]. destruct (isTimeout e); [done|]. apply idles_violation.
Qed.

Lemma connCleanup_effect conn c s :
  let s' := (connCleanup connRemoteHost clock conn c s).2 in
  online (srv_sessions s') = (if cn_registered c && negb (String.eqb (cn_controllerID c) "")
                              then delete (cn_controllerID c) (online (srv_sessions s)) else online (srv_sessions s))
  /\ srv_guard s' = releaseConn connRemoteHost conn (srv_guard s) /\ srv_wire s' = srv_wire s.
Proof.
  cbv zeta. unfold connCleanup. rewrite !bind_run. destruct (_ && _); [|done]. rewrite bind_run. unfold manager.
  cbn [now fst snd srv_sessions with_ticks].
  pose proof (online_MarkOffline (cn_controllerID c) (clock (srv_ticks s)) (srv_sessions s)) as Hm.
  by destruct (MarkOffline _ _ _).
Qed.

End Serving.

(** ** The system *)

Section System.
Context `{MapRange} {S : Type} `{!Store S} `{!StoreLaws S}.
Variable cfg : Config.
Variable connRemoteHost : Conn -> string.
Variable clock : nat -> Z.
Variable writeErr : nat -> option error.
Implicit Types s : Server S.

(** The connections whose handlers run, with the handlers' states. *)
Abbreviation handlers := (gmap Conn connState).
Implicit Types live : handlers.

(** The connection an accept returns is a new one. *)
Definition new_conn (conn : Conn) s live : Prop := live !! conn = None /\ conn ∉ (srv_wire s).*1.

Inductive sys_step : Server S * handlers -> Server S * handlers -> Prop :=
  | sys_accept s live conn t g c s' :
      new_conn conn s live -> acceptConn cfg connRemoteHost conn t (srv_guard s) = (true, g) ->
      connStart cfg clock (with_guard g s) = (c, s') -> sys_step (s, live) (s', <[conn := c]> live)
  | sys_refuse s live conn t g :
      new_conn conn s live -> acceptConn cfg connRemoteHost conn t (srv_guard s) = (false, g) ->
      sys_step (s, live) ((closeConn conn (with_guard g s)).2, live)
  | sys_round s live conn c net visits c' s' :
      live !! conn = Some c -> connRound cfg connRemoteHost clock writeErr conn c net visits s = (Next c', s') ->
      sys_step (s, live) (s', <[conn := c']> live)
  | sys_end s live conn c net visits c' s' :
      live !! conn = Some c -> connRound cfg connRemoteHost clock writeErr conn c net visits s = (Stop c', s') ->
      sys_step (s, live) ((connCleanup connRemoteHost clock conn c' s').2, delete conn live)
  | sys_sweep s live visits :
      sys_step (s, live) ((sweep cfg clock writeErr visits s).2, live)
  | sys_enqueue s live id cmd :
      sys_step (s, live) ((EnqueueCommand clock id cmd s).2, live).

(** ** Invariant *)

Record sys_ok s live : Prop := {
  ok_guard : guard_ok cfg connRemoteHost (srv_guard s);
  ok_conns : forall conn, conn ∈ conns (srv_guard s) <-> is_Some (live !! conn);
  ok_online : forall id conn mode, online (srv_sessions s) !! id = Some (conn, mode) <->
    exists c, live !! conn = Some c /\ cn_registered c = true /\ cn_controllerID c = id /\ cn_frameMode c = mode;
  ok_registered : forall conn c, live !! conn = Some c -> cn_registered c = true ->
    cn_controllerID c <> "" /\ cn_frameMode c <> FrameModeAuto;
  ok_wire : exists modes : Conn -> FrameMode,
    Forall (fun w => good_frame w.1 (modes w.1) w) (srv_wire s)
    /\ forall conn c, live !! conn = Some c ->
         if cn_registered c then modes conn = cn_frameMode c else conn ∉ (srv_wire s).*1
}.

(** Changes that leave connections, controllers and tables alone. *)
Definition kept s s' : Prop :=
  online (srv_sessions s') = online (srv_sessions s) /\ same_tables (srv_guard s) (srv_guard s') /\ sends s s'.

Lemma kept_served s s' : served s s' -> kept s s'.
Proof. intros [(Ho & Hg & _) Hs]. unfold kept. by rewrite Ho, Hg. Qed.

Lemma kept_idle s s' : idle s s' -> kept s s'.
Proof. intros (Ho & Hg & Hw). split_and!; [done|done|]. exists []. by rewrite app_nil_r. Qed.

Lemma sys_ok_kept s s' live : sys_ok s live -> kept s s' -> sys_ok s' live.
Proof.
  intros [Hg Hc Ho Hr (modes & Hw & Hm)] (Ho' & (Ha & Hcs & Hn) & new & Hw' & Hf). split.
  - by apply (guard_ok_eq _ _ (srv_guard s)).
  - by rewrite Hcs.
  - by rewrite Ho'.
  - done.
  - assert (Forall (fun w => exists c, live !! w.1 = Some c /\ cn_registered c = true /\ good_frame w.1 (cn_frameMode c) w) new)
      as Hnew.
    { eapply Forall_impl; [exact Hf|]. intros w (id & mode & (c & ? & ? & ? & <-)%Ho & ?). by exists c. }
    exists modes. rewrite Hw'. split.
    + apply Forall_app. split; [done|]. eapply Forall_impl; [exact Hnew|]. intros w (c & Hl & Hrc & Hgf).
      specialize (Hm _ _ Hl). rewrite Hrc in Hm. by rewrite Hm.
    + intros conn c Hl. specialize (Hm _ _ Hl). destruct (cn_registered c) eqn:Ec; [done|].
      rewrite fmap_app, elem_of_app. intros [?|(w & -> & Hin)%list_elem_of_fmap]; [done|].
      rewrite Forall_forall in Hnew. destruct (Hnew w Hin) as (c' & Hl' & Hrc & _). congruence.
Qed.

(** Changes of a handler's deadlines and buffer. *)
Lemma sys_ok_same_conn s live conn c c' :
  sys_ok s live -> live !! conn = Some c -> same_conn c c' -> sys_ok s (<[conn := c']> live).
Proof.
  intros [Hg Hc Ho Hr (modes & Hw & Hm)] Hl (Hreg & Hid & Hmode). split; [done|..].
  - intros conn'. rewrite Hc. destruct (decide (conn' = conn)) as [->|]; [|by rewrite lookup_insert_ne].
    rewrite lookup_insert_eq, Hl. split; by eexists.
  - intros id conn' mode. rewrite Ho. destruct (decide (conn' = conn)) as [->|]; [|by rewrite lookup_insert_ne].
    rewrite lookup_insert_eq, Hl. split; intros (x & [= <-] & ?).
    + exists c'. rewrite Hreg, Hid, Hmode. by split.
    + exists c. rewrite <- Hreg, <- Hid, <- Hmode. by split.
  - intros conn' x [[<- <-]|[? Hx]]%lookup_insert_Some; [|by eauto]. rewrite Hreg, Hid, Hmode. by apply Hr with conn.
  - exists modes. split; [done|]. intros conn' x [[<- <-]|[? Hx]]%lookup_insert_Some; [|by apply Hm].
    rewrite Hreg, Hmode. by apply Hm.
Qed.

(** The tracked connections after an accept and a release. *)
Lemma acceptConn_conns conn t g g' :
  acceptConn cfg connRemoteHost conn t g = (true, g') -> conn ∉ conns g -> conns g' = conn :: conns g.
Proof.
  unfold acceptConn. case_match; [done|]. destruct (isIPBlocked_tables cfg (connRemoteHost conn) t g) as (_ & Hc & _).
  destruct (isIPBlocked _ _ _ _) as [[] g1]; [done|]. unfold tryTrackConn. cbv zeta. destruct (_ && _); [done|]. intros [= <-] Hf.
  cbn in *. by rewrite Hc, remove_notin.
Qed.

Lemma refuseConn_tables conn t g g' :
  acceptConn cfg connRemoteHost conn t g = (false, g') -> same_tables g g'.
Proof.
  unfold acceptConn. case_match; [by intros [= <-]|].
  destruct (isIPBlocked_tables cfg (connRemoteHost conn) t g) as (Ha & Hc & Hn).
  destruct (isIPBlocked _ _ _ _) as [[] g1]; [by intros [= <-]|]. unfold tryTrackConn. cbv zeta. destruct (_ && _); [by intros [= <-]|done].
Qed.

Lemma releaseConn_conns conn g conn' :
  conn' ∈ conns (releaseConn connRemoteHost conn g) <-> conn <> conn' /\ conn' ∈ conns g.
Proof.
  assert (conns (releaseConn connRemoteHost conn g) = remove Conn_eq_dec conn (conns g)) as ->.
  { unfold releaseConn, untrackConn. by case_match. }
  rewrite !list_elem_of_In. split.
  - intros Hin. apply in_remove in Hin as [? ?]. split; congruence.
  - intros [? ?]. apply in_in_remove; congruence.
Qed.

(** A registration. *)
Lemma sys_ok_joins s s' live conn c c' :
  sys_ok s live -> live !! conn = Some c -> cn_registered c = false ->
  cn_registered c' = true -> cn_controllerID c' <> "" -> cn_frameMode c' <> FrameModeAuto ->
  joins conn (cn_controllerID c') (cn_frameMode c') s s' -> sys_ok s' (<[conn := c']> live).
Proof.
  intros [Hg Hc Ho Hr (modes & Hw & Hm)] Hl Hreg Hreg' Hid Hmode (Hn & Ho' & (Ha & Hcs & Hcnt) & new & Hw' & Hf).
  pose proof (Hm _ _ Hl) as Hclean. rewrite Hreg in Hclean.
  assert (forall id conn0 mode, online (srv_sessions s') !! id = Some (conn0, mode) <->
    exists x, <[conn := c']> live !! conn0 = Some x /\ cn_registered x = true /\ cn_controllerID x = id
      /\ cn_frameMode x = mode) as Ho2.
  { intros id conn0 mode. rewrite Ho', lookup_insert_Some, Ho. setoid_rewrite lookup_insert_Some. split.
    - intros [[<- [= <- <-]]|[Hne (x & Hx & Hxr & Hxi & Hxm)]]; [exists c'; naive_solver|].
      exists x. split; [right; split; [|done]|done]. intros <-. congruence.
    - intros (x & [[<- <-]|[Hne Hx]] & Hxr & <- & <-); [by left|]. right. split; [|by eauto].
      intros He. assert (online (srv_sessions s) !! cn_controllerID x = Some (conn0, cn_frameMode x)) as Hx2.
      { apply Ho. by exists x. }
      congruence. }
  split.
  - by apply (guard_ok_eq _ _ (srv_guard s)).
  - intros conn0. rewrite Hcs, Hc, lookup_insert_is_Some. split; [|intros [<-|[? ?]]; [by exists c|done]].
    intros ?. destruct (decide (conn = conn0)); auto.
  - exact Ho2.
  - intros conn0 x [[<- <-]|[? Hx]]%lookup_insert_Some; [done|by eauto].
  - exists (fun conn0 => if decide (conn0 = conn) then cn_frameMode c' else modes conn0). rewrite Hw'. split.
    + apply Forall_app. split.
      * apply Forall_forall. intros w Hin. rewrite Forall_forall in Hw. rewrite decide_False; [by apply Hw|].
        intros <-. apply Hclean, list_elem_of_fmap. by exists w.
      * eapply Forall_impl; [exact Hf|]. intros w (id & mode & (x & Hx & Hxr & _ & <-)%Ho2 & Hgf).
        apply lookup_insert_Some in Hx as [[Heq <-]|[Hne Hx]]; [by rewrite decide_True|]. rewrite decide_False by done.
        specialize (Hm _ _ Hx). rewrite Hxr in Hm. by rewrite Hm.
    + intros conn0 x [[<- <-]|[Hne Hx]]%lookup_insert_Some; [by rewrite Hreg', decide_True|].
      rewrite decide_False by done. pose proof (Hm _ _ Hx) as Hmx. destruct (cn_registered x) eqn:Exr; [done|].
      rewrite fmap_app, elem_of_app. intros [?|(w & -> & Hin)%list_elem_of_fmap]; [done|].
      rewrite Forall_forall in Hf. destruct (Hf w Hin) as (id & mode & (y & Hy & Hyr & _)%Ho2 & _).
      rewrite lookup_insert_ne in Hy by done. congruence.
Qed.

(** The end of a handler. *)
Lemma sys_ok_cleanup s live conn c :
  sys_ok s live -> live !! conn = Some c -> sys_ok (connCleanup connRemoteHost clock conn c s).2 (delete conn live).
Proof.
  intros [Hg Hc Ho Hr (modes & Hw & Hm)] Hl. destruct (connCleanup_effect connRemoteHost clock conn c s) as (Ho' & Hg' & Hw').
  assert (conn ∈ conns (srv_guard s)) as Hin by (apply Hc; by exists c).
  split.
  - rewrite Hg'. by apply release_ok.
  - intros conn0. rewrite Hg', lookup_delete_is_Some. rewrite <- Hc. apply releaseConn_conns.
  - intros id conn0 mode. rewrite Ho'. setoid_rewrite lookup_delete_Some. destruct (cn_registered c) eqn:Ec.
    + destruct (Hr _ _ Hl Ec) as [Hid _]. rewrite (proj2 (String.eqb_neq _ _) Hid). cbn [andb negb].
      rewrite lookup_delete_Some, Ho. split.
      * intros [Hne (x & Hx & Hxr & <- & <-)]. exists x. split; [split; [|done]|done]. intros <-. congruence.
      * intros (x & [Hne Hx] & Hxr & <- & <-). split; [|by exists x]. intros He.
        assert (online (srv_sessions s) !! cn_controllerID x = Some (conn0, cn_frameMode x)) as H1 by (apply Ho; by exists x).
        assert (online (srv_sessions s) !! cn_controllerID c = Some (conn, cn_frameMode c)) as H2 by (apply Ho; by exists c).
        rewrite He in H2. congruence.
    + cbn [andb]. rewrite Ho. split; intros (x & Hx & Hxr & ?); exists x.
      * split; [split; [|done]|done]. intros <-. congruence.
      * split; [apply Hx|done].
  - intros conn0 x [? Hx]%lookup_delete_Some. by eauto.
  - exists modes. rewrite Hw'. split; [done|]. intros conn0 x [? Hx]%lookup_delete_Some. by apply Hm.
Qed.

(** A new connection. *)
Lemma sys_ok_accept s live conn t g c s' :
  sys_ok s live -> new_conn conn s live -> acceptConn cfg connRemoteHost conn t (srv_guard s) = (true, g) ->
  connStart cfg clock (with_guard g s) = (c, s') -> sys_ok s' (<[conn := c]> live).
Proof.
  intros [Hg Hc Ho Hr (modes & Hw & Hm)] [Hnew Hclean] Hacc Hst. unfold connStart in Hst. rewrite !bind_run in Hst.
  injection Hst as <- <-. set (c := mkConnState _ _ _ _ _ _).
  assert (conn ∉ conns (srv_guard s)) as Hfresh by (rewrite Hc, Hnew; by intros [? [=]]).
  pose proof (accept_ok cfg connRemoteHost conn t (srv_guard s) Hg Hfresh) as Hg'. rewrite Hacc in Hg'.
  pose proof (acceptConn_conns _ _ _ _ Hacc Hfresh) as Hcs.
  split; cbn [srv_guard srv_sessions srv_wire with_guard with_ticks snd now].
  - done.
  - intros conn0. rewrite Hcs, lookup_insert_is_Some, elem_of_cons, Hc.
    destruct (decide (conn = conn0)); naive_solver.
  - intros id conn0 mode. rewrite Ho. setoid_rewrite lookup_insert_Some. split; intros (x & Hx & Hxr & ?); exists x.
    + split; [right; split; [|done]|done]. intros <-. congruence.
    + destruct Hx as [[<- <-]|[_ Hx]]; [done|by split].
  - intros conn0 x [[<- <-]|[? Hx]]%lookup_insert_Some; [done|by eauto].
  - exists modes. split; [done|]. intros conn0 x [[<- <-]|[? Hx]]%lookup_insert_Some; [done|by apply Hm].
Qed.

(** One round of a handler, whether or not it is the last. *)
Lemma sys_ok_round s live conn c net visits c' s' r :
  sys_ok s live -> live !! conn = Some c ->
  connRound cfg connRemoteHost clock writeErr conn c net visits s = (r, s') -> r = Next c' \/ r = Stop c' ->
  sys_ok s' (<[conn := c']> live).
Proof.
  intros Hok Hl Hrun Hr. pose proof (connRound_effect cfg connRemoteHost clock writeErr conn c net visits s) as He.
  cbv zeta in He. rewrite Hrun in He. cbn [fst snd] in He.
  assert (round_effect conn c c' s s') as Heff.
  { assert (match r with Next c' | Stop c' => round_effect conn c c' s s' | Crash => False end) as H1.
    { apply He. intros Hreg. split; [|by apply (ok_registered _ _ Hok conn)]. apply (ok_online _ _ Hok). by exists c. }
    by destruct Hr as [-> | ->]. }
  unfold round_effect in Heff. destruct (cn_registered c) eqn:Ec.
  - destruct Heff as [Hsame Hs]. apply (sys_ok_same_conn _ _ _ c); [|done|done].
    apply (sys_ok_kept s); [done|]. by apply kept_served.
  - destruct Heff as [[Hsame Hs]|(? & ? & ? & ?)].
    + apply (sys_ok_same_conn _ _ _ c); [|done|done]. apply (sys_ok_kept s); [done|]. by apply kept_idle.
    + by apply (sys_ok_joins s _ _ _ c).
Qed.

Lemma sys_ok_step s live s' live' : sys_step (s, live) (s', live') -> sys_ok s live -> sys_ok s' live'.
Proof.
  intros Hstep Hok. inversion Hstep; subst; clear Hstep.
  - by eapply sys_ok_accept.
  - apply (sys_ok_kept s); [done|]. apply kept_idle. split_and!; [done|by eapply refuseConn_tables|done].
  - eapply sys_ok_round; [done..|]. by left.
  - match goal with Hr : connRound _ _ _ _ _ _ _ _ _ = (Stop ?c', ?s') |- _ => rename c' into c1, s' into s1 end.
    rewrite <- (delete_insert_eq live conn c1). apply sys_ok_cleanup; [|apply lookup_insert_eq].
    eapply sys_ok_round; [done..|]. by right.
  - apply (sys_ok_kept s); [done|]. by apply kept_served, serves_sweep.
  - apply (sys_ok_kept s); [done|]. by apply kept_served, (serves_EnqueueCommand clock (fun _ => True)).
Qed.

Lemma sys_ok_reach p p' : rtc sys_step p p' -> sys_ok p.1 p.2 -> sys_ok p'.1 p'.2.
Proof.
  induction 1 as [|[s live] [s1 live1] p Hs _ IH]; [done|]. intros Hok. apply IH. by eapply sys_ok_step.
Qed.

(** ** Start *)

(** [main], from the store it opened to the server it runs; [None] when it
    exits because the sessions cannot be restored. *)
Definition boot (st : S) : option (Server S) :=
  let sessions := NewManager (cfg_MaxConnections cfg) (cfg_MaxQueueDepth cfg) (cfg_MaxQueueBytes cfg)
                    (cfg_QueueOverflow cfg) st in
  match Manager_Restore sessions with
  | (Ok _, sessions) => Some (newServer sessions)
  | _ => None
  end.

Lemma restoreLoop_online snaps (m : Manager S) count : online m = ∅ -> online (restoreLoop snaps m count).2 = ∅.
Proof.
  revert m count. induction snaps as [|x snaps IH]; intros m count Hm; cbn [restoreLoop]; [done|].
  destruct (String.eqb _ _); [by apply IH|]. apply IH.
  rewrite (online_insert m _ (snap_ControllerID x) (restoreSession x)) by done.
  assert (s_Conn (restoreSession x) = None) as -> by (unfold restoreSession; by case_match).
  rewrite Hm. apply delete_empty.
Qed.

Lemma boot_ok st s : boot st = Some s -> sys_ok s ∅.
Proof.
  unfold boot, Manager_Restore. destruct (ListSessions _) as [[snaps|e|] st']; [|done..].
  pose proof (restoreLoop_online snaps (with_store st' (NewManager (cfg_MaxConnections cfg) (cfg_MaxQueueDepth cfg)
    (cfg_MaxQueueBytes cfg) (cfg_QueueOverflow cfg) st)) 0) as Ho.
  destruct (restoreLoop _ _ _) as [count m]. intros [= <-]. cbn in Ho. split; cbn.
  - apply guard_ok_new.
  - intros conn. split; [by intros ?%not_elem_of_nil|by intros [? ?]].
  - intros id conn mode. rewrite Ho by (by apply map_eq; intros; rewrite lookup_omap, !lookup_empty).
    split; [done|by intros (? & ? & _)].
  - done.
  - exists (fun _ => FrameModeAuto). by split.
Qed.

Lemma reachable_ok st s0 s live : boot st = Some s0 -> rtc sys_step (s0, ∅) (s, live) -> sys_ok s live.
Proof. intros Hboot Hreach. apply (sys_ok_reach _ _ Hreach). cbn. by eapply boot_ok. Qed.



End System.

(** ** A concrete run: a controller connects, registers and is acknowledged *)

#[local] Existing Instance ascending.

Definition demo_start : Server InMemoryStore := newServer (NewManager (cfg_MaxConnections default_config)
  (cfg_MaxQueueDepth default_config) (cfg_MaxQueueBytes default_config) (cfg_QueueOverflow default_config)
  NewInMemoryStore).

(** The bytes of a registration, in the sequenced framing. *)
Definition demo_registration : bytes :=
  match EncodeFrame (mkFrame 255 1 (registration_wire [49; 50; 51] 2 3 []) FrameModeSequenced) with
  | Ok w => w
  | _ => []
  end.

Definition demo_accepted : connState * Server InMemoryStore :=
  connStart default_config ticking
    (with_guard (acceptConn default_config demo_remote demo_conn 0 (srv_guard demo_start)).2 demo_start).

Definition demo_round : round * Server InMemoryStore :=
  connRound default_config demo_remote ticking no_write_error demo_conn demo_accepted.1
    (fun _ => (demo_registration, ErrTimeout)) [] demo_accepted.2.

Definition demo_live : gmap Conn connState :=
  match demo_round.1 with Next c => <[demo_conn := c]> (<[demo_conn := demo_accepted.1]> ∅) | _ => ∅ end.

Lemma demo_boot : boot default_config NewInMemoryStore = Some demo_start.
Proof. reflexivity. Qed.

Lemma demo_run :
  rtc (sys_step default_config demo_remote ticking no_write_error) (demo_start, ∅) (demo_round.2, demo_live).
Proof.
  eapply rtc_l with (y := (demo_accepted.2, <[demo_conn := demo_accepted.1]> ∅)).
  - eapply sys_accept with (t := 0); [split; [done|cbn; apply not_elem_of_nil]| |apply surjective_pairing].
    rewrite (surjective_pairing (acceptConn _ _ _ _ _)). f_equal.
  - apply rtc_once. assert (match demo_round.1 with Next _ => true | _ => false end = true) as Hn by (vm_compute; reflexivity).
    unfold demo_live. destruct demo_round.1 as [c| |] eqn:Er; [|discriminate Hn|discriminate Hn].
    apply (sys_round _ _ _ _ _ _ _ demo_accepted.1 (fun _ => (demo_registration, ErrTimeout)) []); [apply lookup_insert_eq|].
    pose proof (surjective_pairing demo_round) as Hp. rewrite Er in Hp. unfold demo_round at 1 in Hp. exact Hp.
Qed.


