(* ===== verification/Main.v ===== *)
(** * The program ([cmd/tcpadapter/main.go])

    [main] opens the store its configuration names, restores the sessions from
    it and runs the server on them.  What outlives a process is the machine: the
    directory of the state file and the database.  A machine's history is a
    sequence of processes, each with a configuration of its own, each of which
    may be stopped after any number of steps of its server.

    The theorem composes the whole development: in every history, a command
    the server accepted is in the queue of the server that a later process
    starts on what the first one left behind. *)

From S2P Require Import Prelude Format Messages Frame Queue Store FileStore Postgres Retry Session Config Policy.
From S2P Require Import Validation Builders IPGuard Metrics Server Delivery Conn System.

(** ** Invariants of the session manager in a running server *)

Section Keeps.
Context `{MapRange} {S : Type} `{!Store S}.
Variable cfg : Config.
Variable connRemoteHost : Conn -> string.
Variable clock : nat -> Z.
Variable writeErr : nat -> option error.

(** An assertion every call of the manager keeps. *)
Variable I : Manager S -> Prop.
Hypothesis I_apply : forall op m, I m -> I (m_apply op m).
Hypothesis I_register : forall id seq cmd t m, I m -> I (RegisterInFlight id seq cmd t m).2.

Definition keeps {A} (x : ST S A) : Prop := forall s, I (srv_sessions s) -> I (srv_sessions (x s).2).

Lemma keeps_ret {A} (a : A) : keeps (mret a).
Proof. by intros s. Qed.

Lemma keeps_bind {A B} (x : ST S A) (f : A -> ST S B) : keeps x -> (forall a, keeps (f a)) -> keeps (x ≫= f).
Proof. intros Hx Hf s Hs. specialize (Hx s Hs). unfold mbind, ST_bind. destruct (x s). by apply Hf. Qed.

(** Anything but a call of the manager. *)
Lemma keeps_same {A} (x : ST S A) : (forall s, srv_sessions (x s).2 = srv_sessions s) -> keeps x.
Proof. intros Hx s. by rewrite Hx. Qed.

Lemma keeps_counting {A} (x : ST S A) : counting x -> keeps x.
Proof. intros Hx. apply keeps_same. intros s. apply Hx. Qed.

Lemma keeps_manager {A} (call : Manager S -> A * Manager S) op : (forall m, (call m).2 = m_apply op m) -> keeps (manager call).
Proof.
  intros Hc s Hs. specialize (Hc (srv_sessions s)). unfold manager. destruct (call _). cbn in *. subst. by apply I_apply.
Qed.

Lemma keeps_forEach {A} (f : A -> ST S unit) l : (forall a, keeps (f a)) -> keeps (forEach f l).
Proof. intros Hf. induction l; cbn [forEach]; [apply keeps_ret|]. by apply keeps_bind. Qed.

Lemma keeps_SetSyncMode id b : keeps (manager (SetSyncMode id b)).
Proof. by apply (keeps_manager _ (OSetSyncMode id b)). Qed.
Lemma keeps_SetFWMode id b : keeps (manager (SetFWMode id b)).
Proof. by apply (keeps_manager _ (OSetFWMode id b)). Qed.
Lemma keeps_AckSent id : keeps (manager (AckSent id)).
Proof. by apply (keeps_manager _ (OAckSent id)). Qed.
Lemma keeps_NextCommandSeq id : keeps (manager (NextCommandSeq id)).
Proof. by apply (keeps_manager _ (ONextCommandSeq id)). Qed.
Lemma keeps_AckInFlight id seq : keeps (manager (AckInFlight id seq)).
Proof. by apply (keeps_manager _ (OAck id seq)). Qed.
Lemma keeps_Create id conn t : keeps (manager (Create id conn t)).
Proof. by apply (keeps_manager _ (OCreate id conn t)). Qed.
Lemma keeps_MarkOffline id t : keeps (manager (MarkOffline id t)).
Proof. by apply (keeps_manager _ (OMarkOffline id t)). Qed.
Lemma keeps_queueCall id op : keeps (queueCall id op).
Proof. by apply (keeps_manager _ (OQueue id op)). Qed.
Lemma keeps_UpdateBufferFree id free : keeps (manager_ (UpdateBufferFree id free)).
Proof. by apply (keeps_manager _ (OUpdateBufferFree id free)). Qed.
Lemma keeps_SetFrameMode id mode : keeps (manager_ (SetFrameMode id mode)).
Proof. by apply (keeps_manager _ (OSetFrameMode id mode)). Qed.
Lemma keeps_Touch id t : keeps (manager_ (Touch id t)).
Proof. by apply (keeps_manager _ (OTouch id t)). Qed.
Lemma keeps_Enqueue id cmd t0 t1 t2 :
  keeps (manager (fun m => let '(events, e, m) := EnqueueWithEvents id cmd t0 t1 t2 m in ((events, e), m))).
Proof. apply (keeps_manager _ (OEnqueue id cmd t0 t1 t2)). intros m. cbn. by destruct (EnqueueWithEvents _ _ _ _ _ _) as [[]]. Qed.
Lemma keeps_Process id t r visits :
  keeps (manager (fun m => let '(outcomes, e, m) := ProcessInFlight id t r visits m in ((outcomes, e), m))).
Proof. apply (keeps_manager _ (OProcess id t r visits)). intros m. cbn. by destruct (ProcessInFlight _ _ _ _ _) as [[]]. Qed.
Lemma keeps_RegisterInFlight id seq cmd t : keeps (manager (RegisterInFlight id seq cmd t)).
Proof.
  intros s Hs. apply (I_register id seq cmd t) in Hs. unfold manager. by destruct (RegisterInFlight _ _ _ _ _).
Qed.

Lemma keeps_publishWith e cmd : keeps (publishAckWithCommand cfg clock e cmd).
Proof. apply keeps_same. intros s. by destruct (publishAckWithCommand_effect cfg clock e cmd s) as [He _]. Qed.

Lemma keeps_writeFrame conn w : keeps (writeFrame writeErr conn w).
Proof. apply keeps_same. intros s. unfold writeFrame. by destruct (writeErr _). Qed.

Create HintDb keeping.
#[local] Hint Resolve keeps_SetSyncMode keeps_SetFWMode keeps_AckSent keeps_NextCommandSeq keeps_AckInFlight keeps_Create
  keeps_MarkOffline keeps_queueCall keeps_UpdateBufferFree keeps_SetFrameMode keeps_Touch keeps_Enqueue keeps_Process
  keeps_RegisterInFlight keeps_ret keeps_writeFrame keeps_publishWith : keeping.
#[local] Hint Extern 4 (keeps _) => (by apply keeps_same) : keeping.

(** Steps through a computation. *)
Ltac keeps_tac :=
  repeat match goal with
  | |- forall _, _ => intros ?
  | |- keeps (mbind _ _) => apply keeps_bind
  | |- keeps (forEach _ _) => apply keeps_forEach
  | |- keeps (if ?b then _ else _) => destruct b
  | |- keeps (match ?x with _ => _ end) => destruct x
  | |- keeps _ => solve [eauto 3 with keeping]
  end.

Lemma keeps_publishFailed id cmd seq reason : keeps (publishFailed (S := S) cfg clock id cmd seq reason).
Proof. unfold publishFailed. keeps_tac. Qed.

Lemma keeps_pushAll id cmds : keeps (pushAll (S := S) id cmds).
Proof. unfold pushAll. keeps_tac. Qed.

#[local] Hint Resolve keeps_publishFailed keeps_pushAll : keeping.

Lemma keeps_tryCommand id conn mode f cmd : keeps (tryCommand (S := S) cfg clock writeErr id conn mode f cmd).
Proof. unfold tryCommand, transmit, afterWrite, recordSent. keeps_tac. Qed.

Lemma keeps_endRound id f : keeps (endRound (S := S) id f).
Proof. unfold endRound. keeps_tac. Qed.

#[local] Hint Resolve keeps_tryCommand keeps_endRound : keeping.

Lemma keeps_scanLoop n id conn mode : forall f, keeps (scanLoop (S := S) cfg clock writeErr n id conn mode f).
Proof. induction n as [|n IH]; intros f; cbn [scanLoop]; keeps_tac. Qed.

#[local] Hint Resolve keeps_scanLoop : keeping.

Lemma keeps_flushLoop fuel id conn mode : forall f, keeps (flushLoop (S := S) cfg clock writeErr fuel id conn mode f).
Proof. induction fuel as [|fuel IH]; intros f; cbn [flushLoop]; unfold publishExpired; keeps_tac. Qed.

Lemma keeps_flushQueue id : keeps (flushQueue (S := S) cfg clock writeErr id).
Proof.
  intros s Hs. unfold flushQueue. destruct (GetDeliveryContext _ _) as [dctx|]; [|done].
  destruct (dc_Conn dctx); [|done]. destruct (_ <? _); [done|]. by apply keeps_flushLoop.
Qed.

Lemma keeps_processInFlight id visits : keeps (processInFlight (S := S) cfg clock id visits).
Proof. unfold processInFlight, publishOutcome. keeps_tac. Qed.

Lemma keeps_EnqueueCommand id cmd : keeps (EnqueueCommand (S := S) clock id cmd).
Proof. unfold EnqueueCommand. keeps_tac. Qed.

#[local] Hint Resolve keeps_flushQueue keeps_processInFlight : keeping.

Lemma keeps_sweep visits : keeps (sweep (S := S) cfg clock writeErr visits).
Proof. intros s. unfold sweep. apply keeps_forEach. keeps_tac. Qed.

(** *** Connections *)

Lemma keeps_violation conn : keeps (violation (S := S) cfg connRemoteHost clock conn).
Proof. unfold violation. keeps_tac. Qed.

Lemma keeps_sendAck conn mode seq cid built : keeps (sendAck writeErr conn mode seq cid built).
Proof. unfold sendAck. keeps_tac. Qed.

#[local] Hint Resolve keeps_violation keeps_sendAck : keeping.

Lemma keeps_register conn c cmdID frame : keeps (register (S := S) cfg connRemoteHost clock writeErr conn c cmdID frame).
Proof. unfold register, sendRegistrationAck. keeps_tac. Qed.

Lemma keeps_onProgressAck id ack interp traceID : keeps (onProgressAck (S := S) cfg clock id ack interp traceID).
Proof. apply keeps_same. intros s. unfold onProgressAck. by destruct (match _ with Some _ => _ | None => _ end) as [[]]. Qed.

#[local] Hint Resolve keeps_onProgressAck : keeping.

Lemma keeps_dispatch conn c cmdID frame traceID : keeps (dispatch (S := S) cfg clock writeErr conn c cmdID frame traceID).
Proof. unfold dispatch, onStatus1, onAck11, onFWStatus4, onTerminalAck, sendControllerAck. keeps_tac. Qed.

#[local] Hint Resolve keeps_register keeps_dispatch : keeping.

Lemma keeps_handleFrame conn c frame visits :
  keeps (handleFrame (S := S) cfg connRemoteHost clock writeErr conn c frame visits).
Proof. unfold handleFrame, handleMessage. keeps_tac. Qed.

#[local] Hint Resolve keeps_handleFrame : keeping.

Lemma keeps_connRound conn c net visits :
  keeps (connRound (S := S) cfg connRemoteHost clock writeErr conn c net visits).
Proof. unfold connRound, beforeRead. keeps_tac. Qed.

Lemma keeps_connCleanup conn c : keeps (connCleanup (S := S) connRemoteHost clock conn c).
Proof. unfold connCleanup. keeps_tac. Qed.

(** It holds in every state the server reaches from one where it holds. *)
Lemma keeps_step p p' : sys_step cfg connRemoteHost clock writeErr p p' -> I (srv_sessions p.1) -> I (srv_sessions p'.1).
Proof.
  intros [s live conn t g c s' _ _ Hst|s live conn t g _ _|s live conn c net visits c' s' _ Hr
    |s live conn c net visits c' s' _ Hr|s live visits|s live id cmd] Hs; cbn [fst] in *.
  - by injection Hst as _ <-.
  - done.
  - pose proof (keeps_connRound conn c net visits s Hs) as Hk. by rewrite Hr in Hk.
  - apply keeps_connCleanup. pose proof (keeps_connRound conn c net visits s Hs) as Hk. by rewrite Hr in Hk.
  - by apply keeps_sweep.
  - by apply keeps_EnqueueCommand.
Qed.

Lemma keeps_reach p p' :
  rtc (sys_step cfg connRemoteHost clock writeErr) p p' -> I (srv_sessions p.1) -> I (srv_sessions p'.1).
Proof. induction 1; eauto using keeps_step. Qed.

End Keeps.

(** ** The program *)

(** What outlives a process. *)
Record Machine := mkMachine { m_disk : Disk; m_db : DB }.

(** The cases of [switch cfg.StoreBackend]. *)
Inductive backend := Memory | OnFile | InPostgres.

#[global] Instance backend_eq_dec : EqDecision backend.
Proof. solve_decision. Defined.

Definition backendOf (name : string) : option backend :=
  if String.eqb name "memory" then Some Memory
  else if String.eqb name "file" then Some OnFile
  else if String.eqb name "postgres" then Some InPostgres
  else None.

Section Main.
Context `{MapRange} `{JSON} (base : string) `{!World base} `{Database}.
Variable Atoi : string -> option Z.
Variable ParseDuration : string -> option Z.
Variable ParseBool : string -> option bool.

(** The dynamic type of [sessionStore].  [cfg.StateFile] is the file [base] in
    the machine's directory and [cfg.PostgresDSN] names the machine's database,
    for every process. *)
Definition StoreOf (b : backend) : Type :=
  match b with Memory => InMemoryStore | OnFile => FileStore base | InPostgres => PostgresStore end.

#[global] Instance StoreOf_store b : Store (StoreOf b) :=
  match b with Memory => InMemoryStore_store | OnFile => FileStore_store | InPostgres => PostgresStore_store end.

(** The store of a backend; [None] when it cannot be opened. *)
Definition openStore (cfg : Config) (b : backend) (w : Machine) : option (StoreOf b) * Machine :=
  match b with
  | Memory => (Some NewInMemoryStore, w)
  | OnFile => (Some (NewFileStore base (m_disk w)), w)
  | InPostgres =>
      match NewPostgresStore (cfg_PostgresDSN cfg) (m_db w) with
      | (Ok _, db) => (Some (mkPostgresStore db), mkMachine (m_disk w) db)
      | (_, db) => (None, mkMachine (m_disk w) db)
      end
  end.

(** The machine a process leaves behind. *)
Definition leave (b : backend) (w : Machine) : StoreOf b -> Machine :=
  match b with
  | Memory => fun _ => w
  | OnFile => fun st => mkMachine (disk st) (m_db w)
  | InPostgres => fun st => mkMachine (m_disk w) (pg_db st)
  end.

(** A process that called [os.Exit(1)], or one whose server runs. *)
Inductive process :=
  | Exited (w : Machine)
  | Running (cfg : Config) (b : backend) (s : Server (StoreOf b)).

(** Until the server runs; [listenErr] is the error of [net.Listen] in
    [tcpServer.Run(ctx)]. *)
Definition main (Getenv : string -> string) (listenErr : option error) (w : Machine) : process :=
  match Load Getenv Atoi ParseDuration ParseBool with
  | Ok cfg =>
      match backendOf (cfg_StoreBackend cfg) with
      | None => Exited w
      | Some b =>
          match openStore cfg b w with
          | (None, w) => Exited w
          | (Some sessionStore, w) =>
              let sessions := NewManager (cfg_MaxConnections cfg) (cfg_MaxQueueDepth cfg) (cfg_MaxQueueBytes cfg)
                                (cfg_QueueOverflow cfg) sessionStore in
              match Manager_Restore sessions with
              | (Ok _, sessions) =>
                  match listenErr with
                  | None => Running cfg b (newServer sessions)
                  | Some _ => Exited (leave b w (store sessions))
                  end
              | (_, sessions) => Exited (leave b w (store sessions))
              end
          end
      end
  | _ => Exited w
  end.

(** ** Histories *)

(** The sessions a machine keeps for a backend. *)
Definition kept (b : backend) (w : Machine) : gmap string SessionSnapshot :=
  match b with
  | Memory => ∅
  | OnFile => saved base (files (m_disk w))
  | InPostgres => pgContents (table (m_db w))
  end.

(** The machines processes can leave behind, one after the other, each started
    on what was left by the one before and stopped after any steps of its
    server. *)
Inductive history : Machine -> Prop :=
  | history_fresh w : kept OnFile w = ∅ -> kept InPostgres w = ∅ -> history w
  | history_exit w Getenv listenErr w' : history w -> main Getenv listenErr w = Exited w' -> history w'
  | history_stop w Getenv listenErr cfg b s0 connRemoteHost clock writeErr s live :
      history w -> main Getenv listenErr w = Running cfg b s0 ->
      rtc (sys_step cfg connRemoteHost clock writeErr) (s0, ∅) (s, live) ->
      history (leave b w (store (srv_sessions s))).

Context `{!Reliable}.

#[global] Instance StoreOf_laws b : StoreLaws (StoreOf b) :=
  match b with Memory => InMemoryStore_laws | OnFile => FileStore_laws | InPostgres => PostgresStore_laws end.

(** Nothing is known of the sequence numbers commands come with. *)
Abbreviation anySeq := (fun _ : Z => True).

Definition well_filed (w : Machine) : Prop := forall b, map_Forall (wf_snapshot anySeq) (kept b w).

Lemma kept_leave b b' w (st : StoreOf b) :
  kept b' (leave b w st) = if decide (b = b' /\ b <> Memory) then contents st else kept b' w.
Proof. destruct b, b'; cbn; case_decide; naive_solver. Qed.

Lemma openStore_kept cfg b w r w' :
  openStore cfg b w = (r, w') ->
  (forall b', kept b' w' = kept b' w) /\ (forall st, r = Some st -> contents st = kept b w)
  /\ (forall st, leave b w' st = leave b w st) /\ (r = None -> b = InPostgres).
Proof.
  destruct b; cbn; [by intros [= <- <-]; split_and!; try done; intros ? [= <-]..|].
  assert (forall r db, NewPostgresStore (cfg_PostgresDSN cfg) (m_db w) = (r, db) ->
    pgContents (table db) = pgContents (table (m_db w))) as Hnew.
  { intros r0 db. unfold NewPostgresStore, pgWrap, exec, mbind, PG_bind, createTable.
    destruct (openErr _); [by intros [= <- <-]|]. destruct (replyTo _); cbn; [|by intros [= <- <-]|by intros [= <- <-]].
    destruct (replyTo _); cbn; intros [= <- <-]; cbn; unfold pgContents; by destruct (table (m_db w)). }
  destruct (NewPostgresStore _ _) as [r0 db]. specialize (Hnew _ _ eq_refl).
  assert (forall b', kept b' (mkMachine (m_disk w) db) = kept b' w) as Hk by by intros [].
  destruct r0; intros [= <- <-]; split_and!; try done; by intros ? [= <-].
Qed.

Lemma restored_kept b conns depth nbytes policy (st : StoreOf b) r m :
  Manager_Restore (NewManager conns depth nbytes policy st) = (r, m) -> contents (store m) = contents st.
Proof.
  unfold Manager_Restore. cbn [store NewManager]. pose proof (ListSessions_contents st) as Hc.
  destruct (ListSessions st) as [[l|e|] st']; cbn in Hc; [|by intros [= <- <-]..].
  assert (forall l (m : Manager (StoreOf b)) n, store (restoreLoop l m n).2 = store m) as Hl.
  { clear. induction l as [|x l IH]; intros m n; cbn [restoreLoop]; [done|]. case_match; by rewrite IH. }
  match goal with |- context [restoreLoop l ?m0 0] => specialize (Hl l m0 0); destruct (restoreLoop l m0 0) as [n m1] end.
  intros [= <- <-]. cbn in Hl. by rewrite Hl.
Qed.

(** What [main] did. *)
Lemma main_started Getenv listenErr w cfg b s0 :
  main Getenv listenErr w = Running cfg b s0 ->
  Load Getenv Atoi ParseDuration ParseBool = Ok cfg /\ backendOf (cfg_StoreBackend cfg) = Some b
  /\ exists st count m, contents st = kept b w /\ s0 = newServer m
     /\ Manager_Restore (NewManager (cfg_MaxConnections cfg) (cfg_MaxQueueDepth cfg) (cfg_MaxQueueBytes cfg)
          (cfg_QueueOverflow cfg) st) = (Ok count, m).
Proof.
  unfold main. destruct (Load _ _ _ _) as [cfg0| |]; [|done..]. destruct (backendOf _) as [b0|] eqn:Eb; [|done].
  destruct (openStore cfg0 b0 w) as [[st|] w'] eqn:Eo; [|done]. apply openStore_kept in Eo as (_ & Hst & _).
  destruct (Manager_Restore _) as [[count| |] m] eqn:Er; [|done..]. destruct listenErr; [done|]. intros Hrun.
  simplify_eq. match goal with He : existT _ _ = existT _ _ |- _ => apply (Eqdep_dec.inj_pair2_eq_dec backend backend_eq_dec) in He; subst s0 end.
  split_and!; [done..|]. exists st, count, m. split_and!; [by apply Hst|done|done].
Qed.

Lemma wf_booted w b (st : StoreOf b) cfg count m :
  well_filed w -> contents st = kept b w ->
  Manager_Restore (NewManager (cfg_MaxConnections cfg) (cfg_MaxQueueDepth cfg) (cfg_MaxQueueBytes cfg)
    (cfg_QueueOverflow cfg) st) = (Ok count, m) ->
  wf_manager anySeq m.
Proof.
  intros Hw Hst Hr. set (m0 := NewManager _ _ _ _ st) in Hr. change m with (Ok count, m).2. rewrite <- Hr.
  apply wf_Manager_Restore. split; [done|]. cbn. rewrite Hst. apply Hw.
Qed.

Lemma wf_running w Getenv listenErr cfg b s0 connRemoteHost clock writeErr s live :
  well_filed w -> main Getenv listenErr w = Running cfg b s0 ->
  rtc (sys_step cfg connRemoteHost clock writeErr) (s0, ∅) (s, live) -> wf_manager anySeq (srv_sessions s).
Proof.
  intros Hw (_ & _ & st & count & m & Hst & -> & Hr)%main_started Hreach.
  apply (keeps_reach cfg connRemoteHost clock writeErr (wf_manager anySeq)) in Hreach; [done|..].
  - intros op m0. by apply wf_m_apply.
  - intros id seq cmd t m0. by apply wf_RegisterInFlight.
  - by eapply wf_booted.
Qed.

Lemma history_well_filed w : history w -> well_filed w.
Proof.
  induction 1 as [w Hf Hp|w Getenv listenErr w' _ IH Hm|w Getenv listenErr cfg b s0 connRemoteHost clock writeErr s live _ IH Hm Hr].
  - intros []; [done|by rewrite Hf|by rewrite Hp].
  - unfold main in Hm. destruct (Load _ _ _ _) as [cfg| |]; [|by simplify_eq..].
    destruct (backendOf _) as [b|]; [|by simplify_eq]. destruct (openStore cfg b w) as [[st|] w1] eqn:Eo;
      apply openStore_kept in Eo as (Hk & Hst & _).
    + destruct (Manager_Restore _) as [[count| |] m] eqn:Er; [destruct listenErr; [|done]|..]; injection Hm as <-; apply restored_kept in Er;
        intros b'; rewrite kept_leave; case_decide; rewrite ?Er, ?Hk, ?(Hst st eq_refl); apply IH.
    + injection Hm as <-. intros b'. rewrite Hk. apply IH.
  - pose proof (wf_running _ _ _ _ _ _ _ _ _ _ _ IH Hm Hr) as [_ Hc]. intros b'. rewrite kept_leave. case_decide; [done|apply IH].
Qed.

(** The command [EnqueueCommand] queues: with the priority of its id, and the
    time of the call if it has no time of creation. *)
Definition accepted_as (cmd c : Command) : Prop :=
  exists p created, canonicalPriorityForCommand (cmd_CommandID cmd) = Some p
    /\ c = set_Priority p (set_CreatedAt created cmd) /\ (cmd_CreatedAt cmd <> 0 -> created = cmd_CreatedAt cmd).

Lemma EnqueueCommand_accepted {S} `{!Store S} clock id cmd (s s' : Server S) :
  EnqueueCommand clock id cmd s = (None, s') ->
  exists c t0 t1 t2 events, accepted_as cmd c
    /\ EnqueueWithEvents id c t0 t1 t2 (srv_sessions s) = (events, None, srv_sessions s').
Proof.
  unfold EnqueueCommand. rewrite bind_run. set (first := (if cmd_CreatedAt cmd =? 0 then t ← now clock; mret (set_CreatedAt t cmd) else mret cmd) s).
  assert (srv_sessions first.2 = srv_sessions s /\ exists created, first.1 = set_CreatedAt created cmd
    /\ (cmd_CreatedAt cmd <> 0 -> created = cmd_CreatedAt cmd)) as (Hs & created & Hc & Hcr).
  { unfold first. destruct (Z.eqb_spec (cmd_CreatedAt cmd) 0); cbn; (split; [done|]); [by eexists|].
    exists (cmd_CreatedAt cmd). split; [by destruct cmd|done]. }
  destruct first as [c1 s1]. cbn in Hs, Hc. cbn [fst snd]. subst c1. unfold normalizeCommandPriority. cbn [set_CreatedAt cmd_CommandID].
  destruct (canonicalPriorityForCommand (cmd_CommandID cmd)) as [p|] eqn:Ep; [|done].
  do 3 rewrite bind_run. rewrite bind_manager. cbn [now fst snd srv_sessions with_ticks]. rewrite Hs.
  set (c := set_Priority p (set_CreatedAt created cmd)).
  destruct (EnqueueWithEvents id c _ _ _ (srv_sessions s)) as [[events e] m] eqn:Ee. rewrite bind_run.
  set (s2 := with_manager m _). assert (forall l, srv_sessions (forEach (fun e => metrics_ (recordOverflowMetric e)) l s2).2 = m) as Hl.
  { intros l. change m with (srv_sessions s2). generalize s2. clear. induction l as [|x l IH]; intros s2; cbn [forEach]; [done|].
    rewrite bind_run. by rewrite IH. }
  specialize (Hl events). cbn [fst snd]. destruct (forEach _ _ s2) as [u s3]. intros [= -> <-]. cbn in Hl.
  eexists c, _, _, _, events. split; [by exists p, created|]. rewrite Hl. exact Ee.
Qed.

Lemma file_unreadable conns depth nbytes policy (st : StoreOf OnFile) r m :
  Manager_Restore (NewManager conns depth nbytes policy st) = (r, m) -> (forall n, r <> Ok n) -> faulty base.
Proof.
  unfold Manager_Restore. cbn. unfold on_disk. pose proof (list_outcome (base := base) (disk st)) as [_ Hl].
  destruct (file_ListSessions base (disk st)) as [[l|e|] d]; cbn in *; [|done|done].
  destruct (restoreLoop _ _ _) as [n m0]. intros [= <- _] Hr. by destruct (Hr n).
Qed.


End Main.

(** ** A concrete history *)

#[local] Existing Instance ascending.
#[local] Existing Instance demo_json.
#[local] Existing Instance demo_codec.
#[local] Instance demo_disk : World "sessions.json" := demo_world (fun _ => false).
#[local] Instance demo_db : Database := demo_database (fun _ => false).

#[local] Instance demo_reliable : Reliable.
Proof. intros n e [=]. Qed.

(** A process with the default configuration, on an empty machine on which
    nothing fails, accepts two commands. *)
Definition demo_machine : Machine := mkMachine (mkDisk ∅ 0 []) (mkDB None 0).
Definition demo_env : string -> string := fun _ => "".

Definition demo_main : Machine -> process "sessions.json" :=
  main "sessions.json" (fun _ => None) (fun _ => None) (fun _ => None) demo_env None.

Definition demo_started : Server (StoreOf "sessions.json" OnFile) :=
  newServer (Manager_Restore (NewManager 10000 1000 1048576 "drop_oldest"
    (NewFileStore "sessions.json" (mkDisk ∅ 0 []) : StoreOf "sessions.json" OnFile))).2.

Definition demo_first : Server (StoreOf "sessions.json" OnFile) :=
  (EnqueueCommand ticking "A" (status_request "m1") demo_started).2.

Definition demo_second : option error * Server (StoreOf "sessions.json" OnFile) :=
  EnqueueCommand ticking "A" (status_request "m2") demo_first.

(** The messages queued for "A" in a process. *)
Definition process_queue (p : process "sessions.json") : option (list string) :=
  match p with
  | Exited _ _ => None
  | Running _ _ _ s => (fun x => map cmd_MessageID (Snapshot (s_Queue x))) <$> sessions (srv_sessions s) !! "A"
  end.

