(* ===== verification/Pages.v ===== *)
(** * The observability endpoints ([internal/server/observability.go])

    The metrics page, the JSON pages behind the dashboard, and the page that
    enqueues a command.  A page is a function of the server's state; a response
    is a status with the value that is encoded as JSON, or an error text.

    The metrics page is text: the model gives its lines.  [%q] is modelled on
    printable ASCII, and [%g] of a number of seconds is an argument, a function
    of the duration in nanoseconds.  The HTML pages are constants without a
    parameter and are not modelled. *)

From stdpp Require Import pretty sorting.
From S2P Require Import Prelude Format Sort Messages Frame Queue Store Retry Session Stats Config Policy Validation.
From S2P Require Import Builders IPGuard Metrics CommandBuilder Server Delivery Conn Shutdown.

(** ** The text format *)

Definition doubleQuote : Ascii.ascii := Ascii.ascii_of_nat 34.
Definition backslash : Ascii.ascii := Ascii.ascii_of_nat 92.

(** [%q]. *)
Fixpoint escape (s : string) : string :=
  match s with
  | String.EmptyString => ""
  | String.String c s' =>
      if Ascii.eqb c doubleQuote || Ascii.eqb c backslash
      then String.String backslash (String.String c (escape s'))
      else String.String c (escape s')
  end.

Definition quote (s : string) : string :=
  String.String doubleQuote (escape s +:+ String.String doubleQuote "").

(** [name{label="value",...} n]. *)
Definition showLabels (labels : list (string * string)) : string :=
  String.concat "," (map (fun l => l.1 +:+ "=" +:+ quote l.2) labels).

Definition sample (name : string) (labels : list (string * string)) (value : string) : string :=
  match labels with
  | [] => name +:+ " " +:+ value
  | _ => name +:+ "{" +:+ showLabels labels +:+ "} " +:+ value
  end.

(** The two lines that introduce a metric. *)
Definition about (name help kind : string) : list string :=
  ["# HELP " +:+ name +:+ " " +:+ help; "# TYPE " +:+ name +:+ " " +:+ kind].

(** A metric with a single number. *)
Definition single (name help kind : string) (n : Z) : list string := about name help kind ++ [sample name [] (pretty n)].

(** [out[k]] on a map of strings. *)
Definition labelOf (k : string) (m : gmap string string) : string := default "" (m !! k).

Section Metrics.
Context `{MapRange}.

(** The keys of a counter, sorted by [sort.Strings]. *)
Definition sortedKeys (m : gmap string Z) : list string := sortSlice (byName id) (map_range m).*1.

(** A line per key. *)
Definition counterLines (line : string -> Z -> string) (m : gmap string Z) : list string :=
  map (fun k => line k (default 0 (m !! k))) (sortedKeys m).

Definition ackLine (status : string) (n : Z) : string := sample "tcpadapter_ack_total" [("status", status)] (pretty n).

Definition terminalLine (key : string) (n : Z) : string :=
  let labels := parseAckTerminalReasonKey key in
  sample "tcpadapter_ack_terminal_total" [("status", labelOf "status" labels); ("reason", labelOf "reason" labels)] (pretty n).

Definition telemetryLine (key : string) (n : Z) : string :=
  let labels := parseTelemetryKey key in
  sample "tcpadapter_telemetry_total"
    [("command_id", labelOf "command_id" labels); ("trace_source", labelOf "trace_source" labels)] (pretty n).

Definition overflowLine (key : string) (n : Z) : string :=
  let labels := parseOverflowKey key in
  sample "tcpadapter_queue_overflow_total"
    [("limit", labelOf "limit" labels); ("policy", labelOf "policy" labels); ("action", labelOf "action" labels)] (pretty n).

(** [strconv.FormatFloat(le, 'f', -1, 64)] of the bounds, in seconds. *)
Definition boundLabels : list string := ["0.1"; "0.5"; "1"; "2"; "5"; "10"; "30"; "60"].

Definition bucketLine (le : string) (n : Z) : string :=
  sample "tcpadapter_ack_latency_seconds_bucket" [("le", le)] (pretty n).

(** The loop over the buckets with its running total. *)
Fixpoint bucketLines (labels : list string) (counts : list Z) (cumulative : Z) : list string :=
  match labels, counts with
  | le :: labels', n :: counts' =>
      let cumulative := u64 (cumulative + n) in bucketLine le cumulative :: bucketLines labels' counts' cumulative
  | _, _ => []
  end.

(** [showSeconds] is [%g] of a duration in seconds. *)
Definition histogramLines (showSeconds : Z -> string) (m : Metrics) : list string :=
  bucketLines boundLabels (ackLatencyBucketCounts m) 0
  ++ [bucketLine "+Inf" (ackLatencyCount m);
      sample "tcpadapter_ack_latency_seconds_sum" [] (showSeconds (ackLatencySum m));
      sample "tcpadapter_ack_latency_seconds_count" [] (pretty (ackLatencyCount m))].

Definition statsLines (stats : Stats) : list string :=
  single "tcpadapter_sessions_total" "Known controller sessions" "gauge" (st_SessionCount stats)
  ++ single "tcpadapter_online_sessions_total" "Connected controller sessions" "gauge" (st_OnlineSessionCount stats)
  ++ single "tcpadapter_queue_depth_sum" "Total commands queued across all controllers" "gauge" (st_QueueDepthSum stats)
  ++ single "tcpadapter_queue_depth_max" "Max queue depth among controllers" "gauge" (st_QueueDepthMax stats)
  ++ single "tcpadapter_queue_bytes_sum" "Total estimated queue bytes across all controllers" "gauge" (st_QueueBytesSum stats)
  ++ single "tcpadapter_queue_bytes_max" "Max estimated queue bytes among controllers" "gauge" (st_QueueBytesMax stats)
  ++ single "tcpadapter_inflight_sum" "Total in-flight commands across all controllers" "gauge" (st_InFlightCountSum stats)
  ++ single "tcpadapter_inflight_max" "Max in-flight commands among controllers" "gauge" (st_InFlightCountMax stats).

Definition guardLines (g : Guard) : list string :=
  single "tcpadapter_ip_violations_total" "Protocol violations tracked per source IP" "counter" (ipViolationTotal g)
  ++ about "tcpadapter_ip_rejected_total" "Rejected connections by IP protection reason" "counter"
  ++ [sample "tcpadapter_ip_rejected_total" [("reason", "per_ip_limit")] (pretty (ipPerIPRejectTotal g));
      sample "tcpadapter_ip_rejected_total" [("reason", "blocked")] (pretty (ipBlockedRejectTotal g))]
  ++ single "tcpadapter_ip_blocks_applied_total" "Temporary IP blocks applied after violations" "counter" (ipBlockAppliedTotal g).

Definition drainLines (showSeconds : Z -> string) (d : DrainStats) : list string :=
  about "tcpadapter_shutdown_drain_seconds" "Time spent draining connections during shutdown" "summary"
  ++ [sample "tcpadapter_shutdown_drain_seconds_sum" [] (showSeconds (shutdownDrainSum d));
      sample "tcpadapter_shutdown_drain_seconds_count" [] (pretty (shutdownDrainCount d))]
  ++ about "tcpadapter_shutdown_drain_last_seconds" "Last observed shutdown drain duration" "gauge"
  ++ [sample "tcpadapter_shutdown_drain_last_seconds" [] (showSeconds (shutdownDrainLast d))]
  ++ single "tcpadapter_shutdown_drain_timeouts_total" "Number of shutdown drains that hit timeout" "counter"
       (shutdownDrainTimeouts d).

(** The lines of the page; each ends with a newline. *)
Definition metricsHandler {S} (showSeconds : Z -> string) (d : DrainStats) (s : Server S) : list string :=
  let m := srv_metrics s in
  single "tcpadapter_active_connections" "Active TCP connections" "gauge" (active (srv_guard s))
  ++ statsLines (SnapshotStats (srv_sessions s))
  ++ about "tcpadapter_ack_total" "ACK outcomes by status" "counter"
  ++ counterLines ackLine (ackStats m)
  ++ about "tcpadapter_ack_terminal_total" "Terminal ACK outcomes by status and normalized reason" "counter"
  ++ counterLines terminalLine (ackTerminalReasonStats m)
  ++ about "tcpadapter_ack_latency_seconds" "End-to-end latency from command enqueue to terminal ack" "histogram"
  ++ histogramLines showSeconds m
  ++ about "tcpadapter_telemetry_total" "Incoming telemetry frames by command and trace source" "counter"
  ++ counterLines telemetryLine (telemetryStats m)
  ++ about "tcpadapter_queue_overflow_total" "Queue overflow events by limit and policy" "counter"
  ++ counterLines overflowLine (ovfStats m)
  ++ guardLines (srv_guard s)
  ++ drainLines showSeconds d.

End Metrics.

(** ** The JSON pages *)

Record dashboardSummary := mkDashboardSummary {
  ds_ActiveConnections : Z;
  ds_KnownSessions : Z;
  ds_OnlineSessions : Z;
  ds_QueueDepthSum : Z;
  ds_QueueDepthMax : Z;
  ds_InFlightSum : Z;
  ds_InFlightMax : Z;
  ds_IPViolations : Z;
  ds_IPBlockedRejects : Z;
  ds_IPPerIPRejects : Z;
  ds_ShutdownDrainLast : Z;
  ds_ShutdownDrainTimeouts : Z;
  ds_AckAccepted : Z;
  ds_AckRetrying : Z;
  ds_AckFailed : Z;
  ds_AckExpired : Z;
  ds_AckDelivered : Z;
  ds_TelemetryFramesObserved : Z;
  ds_BuildVersion : string;
  ds_BuildCommit : string;
  ds_BuildTime : string
}.

(** The variables of [internal/buildinfo], set when the program is linked. *)
Record buildinfo := mkBuildinfo { Version : string; Commit : string; BuildTime : string }.

(** A page that lists items, with their number. *)
Record items (A : Type) := mkItems { it_count : Z; it_items : list A }.
Arguments mkItems {A}.
Arguments it_count {A}.
Arguments it_items {A}.

Definition listed {A} (l : list A) : items A := mkItems (len l) l.

Section Pages.
Context `{MapRange} {S : Type}.
Variable cfg : Config.
Variable Atoi : string -> option Z.
Implicit Types s : Server S.

(** The loop over the telemetry counters. *)
Definition telemetryTotal (m : Metrics) : Z :=
  fold_left (fun total kv => u64 (total + kv.2)) (map_range (telemetryStats m)) 0.

Definition Server_dashboardSummary (b : buildinfo) (d : DrainStats) s : dashboardSummary :=
  let stats := SnapshotStats (srv_sessions s) in
  let acks status := default 0 (ackStats (srv_metrics s) !! status) in
  let g := srv_guard s in
  mkDashboardSummary (active g) (st_SessionCount stats) (st_OnlineSessionCount stats)
    (st_QueueDepthSum stats) (st_QueueDepthMax stats) (st_InFlightCountSum stats) (st_InFlightCountMax stats)
    (ipViolationTotal g) (ipBlockedRejectTotal g) (ipPerIPRejectTotal g)
    (shutdownDrainLast d) (shutdownDrainTimeouts d)
    (acks "accepted") (acks "retrying") (acks "failed") (acks "expired") (acks "delivered")
    (telemetryTotal (srv_metrics s)) (Version b) (Commit b) (BuildTime b).

(** The pages exist only with [DebugLogs]. *)
Definition debugPage {A} (page : A) : http A :=
  if negb (cfg_DebugLogs cfg) then HTTPError 404 "404 page not found" else Reply 200 page.

(** [limit] is the query parameter. *)
Definition debugDashboardHandler (b : buildinfo) (d : DrainStats) (limit : string) s
    : http (dashboardSummary * list ControllerSessionStat * list DebugEvent) :=
  debugPage (Server_dashboardSummary b d s, SessionStats (parseDebugLimit Atoi limit 50 200) (srv_sessions s),
    debugEventsSnapshot (parseDebugLimit Atoi limit 60 200) (srv_metrics s)).

Definition debugConnectionsHandler (limit : string) s : http (items ControllerSessionStat) :=
  debugPage (listed (SessionStats (parseDebugLimit Atoi limit 100 500) (srv_sessions s))).

Definition debugEventsHandler (limit : string) s : http (items DebugEvent) :=
  debugPage (listed (debugEventsSnapshot (parseDebugLimit Atoi limit 100 250) (srv_metrics s))).

Definition debugRawMessagesHandler (limit : string) s : http (items RawDebugMessage) :=
  debugPage (listed (rawMessagesSnapshot (parseDebugLimit Atoi limit 100 250) (srv_metrics s))).

Definition debugQueuesHandler (limit : string) s : http (items ControllerQueueStat) :=
  let n :=
    if String.eqb limit "" then 20 else
    match Atoi limit with
    | Some v => if 0 <? v then (if 200 <? v then 200 else v) else 20
    | None => 20
    end in
  debugPage (listed (TopQueueStats n (srv_sessions s))).

End Pages.

(** ** Enqueueing a command *)

Record debugEnqueueRequest := mkEnqueueRequest {
  eq_ControllerID : string;
  eq_CommandID : Z;
  eq_TTLSeconds : Z;
  eq_PayloadHex : string;
  eq_MessageID : string;
  eq_TraceID : string;
  eq_DedupKey : string
}.

(** The body of the response; its status is "queued". *)
Record enqueueReply := mkEnqueueReply {
  er_controller_id : string;
  er_command_id : Z;
  er_message_id : string;
  er_trace_id : string
}.

Section Enqueue.
Context `{MapRange} {S : Type} `{!Store S}.
Variable cfg : Config.
Variable clock : nat -> Z.

(** [s] if it is not empty, otherwise [prefix] and the time. *)
Definition orStamp (prefix s : string) : ST S string :=
  if String.eqb s "" then t ← now clock; mret (sprintf (prefix +:+ "-%d") [AZ t]) else mret s.

(** The payload posted as hexadecimal; none is the empty payload. *)
Definition postedPayload (hex : string) : option bytes :=
  if String.eqb (trimmed hex) "" then Some [] else DecodeString (trimmed hex).

(** The identifiers and the time of a command that passed the checks, and its
    enqueueing. *)
Definition enqueuePosted (req : debugEnqueueRequest) (requestID : string) (payload : bytes) : ST S (http enqueueReply) :=
  let controllerID := trimmed (eq_ControllerID req) in
  let ttl := i64 (eq_TTLSeconds req * second) in
  messageID ← orStamp "debug" (trimmed (eq_MessageID req));
  let traceID := trimmed (eq_TraceID req) in
  traceID ← orStamp "trace" (if String.eqb traceID "" then trimmed requestID else traceID);
  createdAt ← now clock;
  e ← EnqueueCommand clock controllerID
        (mkCommand messageID traceID (trimmed (eq_DedupKey req)) (eq_CommandID req) ttl createdAt payload "" 0 0);
  mret match e with
       | Some e => HTTPError 400 ("enqueue failed: " +:+ render e)
       | None => Reply 202 (mkEnqueueReply controllerID (eq_CommandID req) messageID traceID)
       end.

(** [req] is the decoded body, [None] if it is not valid JSON; [requestID] is
    the header "X-Request-ID". *)
Definition debugEnqueueHandler (method : string) (req : option debugEnqueueRequest) (requestID : string)
    : ST S (http enqueueReply) :=
  if negb (cfg_DebugLogs cfg) then mret (HTTPError 404 "404 page not found") else
  if negb (String.eqb method "POST") then mret (HTTPError 405 "method not allowed") else
  match req with
  | None => mret (HTTPError 400 "invalid json body")
  | Some req =>
      if String.eqb (trimmed (eq_ControllerID req)) "" then mret (HTTPError 400 "controller_id is required") else
      if eq_CommandID req =? 0 then mret (HTTPError 400 "command_id is required") else
      match postedPayload (eq_PayloadHex req) with
      | None => mret (HTTPError 400 "payload_hex must be valid hex string")
      | Some payload =>
          match ValidateServerCommandPayload (eq_CommandID req) payload with
          | Panic => mret (HTTPError 500 "panic")
          | Err e => mret (HTTPError 400 ("invalid payload for command: " +:+ render e))
          | Ok _ =>
              if eq_TTLSeconds req <? 0 then mret (HTTPError 400 "ttl_seconds must be >= 0")
              else enqueuePosted req requestID payload
          end
      end
  end.

End Enqueue.

(** ** What the metrics page counts *)

(** What the server records about its work: the operations on its counters and
    logs. *)
Inductive observation :=
  | OAck (event : AckEvent)
  | OLatency (latency : Z)
  | OTelemetry (event : TelemetryEvent) (traceSource : string)
  | OOverflow (event : OverflowEvent)
  | OEvent (event : DebugEvent)
  | ORaw (msg : RawDebugMessage).

Definition observe (cfg : Config) (m : Metrics) (o : observation) : Metrics :=
  match o with
  | OAck e => countAck e m
  | OLatency l => countLatency l m
  | OTelemetry e src => countTelemetry e src m
  | OOverflow e => recordOverflowMetric e m
  | OEvent e => recordDebugEvent cfg e m
  | ORaw msg => recordRawMessage cfg msg m
  end.

Definition statusesOf (obs : list observation) : list string :=
  omap (fun o => match o with OAck e => Some (ev_Status e) | _ => None end) obs.

Definition latenciesOf (obs : list observation) : list Z :=
  omap (fun o => match o with OLatency l => if l <? 0 then None else Some l | _ => None end) obs.

Definition framesOf (obs : list observation) : list string :=
  omap (fun o => match o with OTelemetry e src => Some (telemetryKey (tel_CommandID e) src) | _ => None end) obs.

(** How many elements of a list satisfy a test. *)
Definition count {A} (P : A -> bool) (l : list A) : Z := len (List.filter P l).

Lemma count_app {A} (P : A -> bool) l1 l2 : count P (l1 ++ l2) = count P l1 + count P l2.
Proof. unfold count, len. rewrite List.filter_app, length_app. lia. Qed.

Lemma count_cons {A} (P : A -> bool) a l : count P (a :: l) = Z.b2z (P a) + count P l.
Proof. unfold count, len. cbn. destruct (P a); cbn [length Z.b2z]; lia. Qed.

Lemma count_bounds {A} (P : A -> bool) l : 0 <= count P l <= len l.
Proof.
  unfold count, len. induction l as [|a l IH]; cbn; [lia|]. destruct (P a); cbn in *; lia.
Qed.

Lemma count_pos (k : string) ks : 0 < count (String.eqb k) ks <-> k ∈ ks.
Proof.
  unfold count, len. rewrite list_elem_of_In. split.
  - intros Hpos. destruct (List.filter (String.eqb k) ks) as [|x l] eqn:E; [cbn in Hpos; lia|].
    assert (In x (List.filter (String.eqb k) ks)) as [Hx <-%String.eqb_eq]%filter_In by (rewrite E; by left). done.
  - intros Hk. assert (In k (List.filter (String.eqb k) ks)) as Hf by (apply filter_In; by rewrite String.eqb_refl).
    destruct (List.filter _ _); [done|cbn; lia].
Qed.

Lemma u64_small z : 0 <= z < 2 ^ 64 -> u64 z = z.
Proof. intros. by apply Z.mod_small. Qed.

(** *** Counters *)

Definition bumps (ks : list string) (m : gmap string Z) : gmap string Z := fold_left (fun m k => bump k m) ks m.

Lemma bumps_lookup ks k :
  len ks < 2 ^ 64 ->
  bumps ks ∅ !! k = if 0 <? count (String.eqb k) ks then Some (count (String.eqb k) ks) else None.
Proof.
  induction ks as [|k' ks IH] using rev_ind; intros Hl.
  { done. }
  unfold len in Hl. rewrite length_app in Hl. cbn in Hl.
  assert (len ks < 2 ^ 64) as Hl' by (unfold len; lia). specialize (IH Hl').
  pose proof (count_bounds (String.eqb k) ks) as Hb.
  unfold bumps. rewrite fold_left_app. cbn. fold (bumps ks ∅). rewrite count_app. unfold bump.
  assert (count (String.eqb k) [k'] = if String.eqb k k' then 1 else 0) as -> by (unfold count; cbn; by destruct (String.eqb k k')).
  destruct (String.eqb_spec k k') as [<-|Hne].
  - rewrite lookup_insert_eq, IH, (proj2 (Z.ltb_lt 0 (count (String.eqb k) ks + 1))) by lia. f_equal.
    destruct (Z.ltb_spec 0 (count (String.eqb k) ks)); cbn [default from_option id]; rewrite u64_small; unfold len in *; lia.
  - rewrite lookup_insert_ne by done. by rewrite IH, Z.add_0_r.
Qed.

(** The lines of a counter: one for each key that was counted, in order, with
    its number. *)
Lemma counterLines_bumps `{MapRange} line ks :
  len ks < 2 ^ 64 ->
  exists keys, counterLines line (bumps ks ∅) = map (fun k => line k (count (String.eqb k) ks)) keys
    /\ NoDup keys /\ StronglySorted (not_after (byName id)) keys /\ forall k, k ∈ keys <-> k ∈ ks.
Proof.
  intros Hl. exists (sortedKeys (bumps ks ∅)).
  assert (sortedKeys (bumps ks ∅) ≡ₚ (map_to_list (bumps ks ∅)).*1) as Hp.
  { unfold sortedKeys. by rewrite sortSlice_perm, map_range_perm. }
  assert (forall k, k ∈ sortedKeys (bumps ks ∅) <-> 0 < count (String.eqb k) ks) as Hin.
  { intros k. rewrite Hp, list_elem_of_fmap. pose proof (bumps_lookup ks k Hl) as Hk. split.
    - intros ([k' v] & -> & Hv%elem_of_map_to_list). cbn in *. rewrite Hv in Hk.
      by destruct (Z.ltb_spec 0 (count (String.eqb k') ks)).
    - intros Hc. rewrite (proj2 (Z.ltb_lt _ _) Hc) in Hk. exists (k, count (String.eqb k) ks).
      by rewrite elem_of_map_to_list. }
  split_and!.
  - unfold counterLines. apply map_ext_in. intros k Hk%list_elem_of_In%Hin. rewrite bumps_lookup by done.
    by rewrite (proj2 (Z.ltb_lt _ _) Hk).
  - rewrite Hp. apply NoDup_fst_map_to_list.
  - unfold sortedKeys. apply sortSlice_sorted, _.
  - intros k. by rewrite Hin, count_pos.
Qed.

(** The sum of all counters is the number of things counted. *)
Fixpoint total (l : list Z) : Z :=
  match l with
  | [] => 0
  | x :: l' => x + total l'
  end.

Lemma total_eqb (k : string) keys : NoDup keys -> k ∈ keys -> total (map (fun k' => Z.b2z (String.eqb k' k)) keys) = 1.
Proof.
  induction 1 as [|k' keys Hk' Hnd IH]; intros Hk; [by apply not_elem_of_nil in Hk|]. cbn.
  destruct (String.eqb_spec k' k) as [->|Hne]; cbn.
  - enough (total (map (fun k' => Z.b2z (String.eqb k' k)) keys) = 0) by lia. clear -Hk'.
    induction keys as [|a keys IHk]; cbn; [done|]. apply not_elem_of_cons in Hk' as [Hne Hk'].
    rewrite IHk by done. by rewrite (proj2 (String.eqb_neq a k)) by done.
  - apply IH. by apply elem_of_cons in Hk as [->|].
Qed.

Lemma total_counts keys ks :
  NoDup keys -> (forall k, k ∈ ks -> k ∈ keys) -> total (map (fun k => count (String.eqb k) ks) keys) = len ks.
Proof.
  intros Hnd. induction ks as [|k ks IH]; intros Hin.
  { clear. induction keys as [|k keys IH]; cbn; [done|]. by rewrite IH. }
  assert (total (map (fun k' => count (String.eqb k') (k :: ks)) keys)
    = total (map (fun k' => Z.b2z (String.eqb k' k)) keys) + total (map (fun k' => count (String.eqb k') ks) keys)) as ->.
  { clear. induction keys as [|k' keys IH]; cbn; [done|]. rewrite IH.
    change (k :: ks) with ([k] ++ ks). rewrite count_app. 
    assert (count (String.eqb k') [k] = Z.b2z (String.eqb k' k)) as -> by (unfold count; cbn; by destruct (String.eqb k' k)). lia. }
  rewrite IH by set_solver. rewrite total_eqb by set_solver. unfold len. cbn. lia.
Qed.

Lemma total_u64 (kvs : list (string * Z)) acc :
  Forall (fun kv => 0 <= kv.2) kvs -> 0 <= acc -> acc + total kvs.*2 < 2 ^ 64 ->
  fold_left (fun total kv => u64 (total + kv.2)) kvs acc = acc + total kvs.*2.
Proof.
  intros Hf. revert acc. induction Hf as [|[k v] kvs Hv Hf IH]; intros acc Ha Hl; cbn in *; [lia|].
  assert (0 <= total kvs.*2) by (clear -Hf; induction Hf; cbn; lia).
  rewrite u64_small by lia. rewrite IH; lia.
Qed.

Lemma telemetryTotal_bumps `{MapRange} m ks :
  telemetryStats m = bumps ks ∅ -> len ks < 2 ^ 64 -> telemetryTotal m = len ks.
Proof.
  intros Hm Hl. unfold telemetryTotal. rewrite Hm.
  assert (Forall (fun kv => kv.2 = count (String.eqb kv.1) ks /\ 0 < kv.2) (map_range (bumps ks ∅))) as Hf.
  { rewrite map_range_perm. apply Forall_forall. intros [k v] Hkv%elem_of_map_to_list. rewrite bumps_lookup in Hkv by done.
    destruct (Z.ltb_spec 0 (count (String.eqb k) ks)); naive_solver. }
  assert ((map_range (bumps ks ∅)).*2 = map (fun k => count (String.eqb k) ks) (map_range (bumps ks ∅)).*1) as Hv.
  { clear -Hf. induction Hf as [|[k v] l [He _] Hf IH]; cbn in *; [done|]. by rewrite He, IH. }
  assert (total (map_range (bumps ks ∅)).*2 = len ks) as Ht.
  { rewrite Hv. apply total_counts.
    - rewrite map_range_perm. apply NoDup_fst_map_to_list.
    - intros k Hk. rewrite map_range_perm. apply list_elem_of_fmap. exists (k, count (String.eqb k) ks). split; [done|].
      apply elem_of_map_to_list. rewrite bumps_lookup, (proj2 (Z.ltb_lt _ _)); [done| |done].
      by apply count_pos. }
  rewrite total_u64; [lia| |lia|lia]. eapply Forall_impl; [exact Hf|]. cbn. lia.
Qed.

(** *** The histogram *)

Definition buckets (bounds ls counts : list Z) : list Z := fold_left (fun c l => countBucket l bounds c) ls counts.

(** The first bucket takes what it may, the others share the rest. *)
Lemma buckets_cons b bounds ls n counts :
  0 <= n -> n + len ls < 2 ^ 64 ->
  buckets (b :: bounds) ls (n :: counts)
  = n + count (fun l => l <=? b) ls :: buckets bounds (List.filter (fun l => b <? l) ls) counts.
Proof.
  unfold buckets, count, len. revert n counts. induction ls as [|l ls IH]; intros n counts Hn Hl; cbn in *.
  { by rewrite Z.add_0_r. }
  rewrite Z.ltb_antisym. destruct (l <=? b); cbn.
  - rewrite u64_small by lia. rewrite IH by lia. f_equal. lia.
  - rewrite IH by lia. done.
Qed.

Lemma count_split b b' ls : b <= b' ->
  count (fun l => l <=? b) ls + count (fun l => l <=? b') (List.filter (fun l => b <? l) ls) = count (fun l => l <=? b') ls.
Proof.
  intros Hb. induction ls as [|l ls IH]; [done|]. cbn [List.filter]. rewrite !count_cons.
  destruct (Z.ltb_spec b l); rewrite ?count_cons; destruct (Z.leb_spec l b), (Z.leb_spec l b'); cbn [Z.b2z]; lia.
Qed.

Lemma len_filter_split b ls : count (fun l => l <=? b) ls + len (List.filter (fun l => b <? l) ls) = len ls.
Proof.
  induction ls as [|l ls IH]; [done|]. cbn [List.filter]. rewrite count_cons. unfold len in *.
  destruct (Z.ltb_spec b l), (Z.leb_spec l b); cbn [Z.b2z length]; lia.
Qed.

(** The running total over the buckets. *)
Lemma bucketLines_buckets labels bounds ls c :
  StronglySorted Z.le bounds -> length labels = length bounds -> 0 <= c -> c + len ls < 2 ^ 64 ->
  bucketLines labels (buckets bounds ls (replicate (length bounds) 0)) c
  = zip_with (fun le b => bucketLine le (c + count (fun l => l <=? b) ls)) labels bounds.
Proof.
  intros Hs. revert labels ls c. induction Hs as [|b bounds Hs IH Hb]; intros [|le labels] ls c Hlen Hc Hl; try done.
  injection Hlen as Hlen. cbn [length replicate]. rewrite buckets_cons by lia. cbn [bucketLines zip_with].
  pose proof (count_bounds (fun l => l <=? b) ls) as Hcb. rewrite Z.add_0_l, u64_small by lia. f_equal.
  pose proof (len_filter_split b ls) as Hlen'.
  rewrite IH; [|done|lia|lia]. clear -Hb.
  revert labels. induction Hb as [|b' bounds Hb' Hb IH]; intros [|le labels]; try done. cbn [zip_with].
  rewrite IH. do 2 f_equal. pose proof (count_split b b' ls Hb'). lia.
Qed.

(** *** The page *)

Section Observed.
Variable cfg : Config.

Abbreviation run obs := (fold_left (observe cfg) obs newMetrics).

Lemma len_omap_le {A B} (f : A -> option B) l : len (omap f l) <= len l.
Proof.
  unfold len. induction l as [|a l IH]; [done|]. cbn. destruct (f a); cbn in *; lia.
Qed.

(** What a run does to each counter. *)
Lemma observed obs :
  ackStats (run obs) = bumps (statusesOf obs) ∅
  /\ telemetryStats (run obs) = bumps (framesOf obs) ∅
  /\ ackLatencyBucketCounts (run obs) = buckets ackLatencyBounds (latenciesOf obs) (replicate 8 0)
  /\ ackLatencyCount (run obs) = u64 (len (latenciesOf obs)).
Proof.
  induction obs as [|o obs (IH1 & IH2 & IH3 & IH4)] using rev_ind; [done|].
  unfold statusesOf, framesOf, latenciesOf, bumps, buckets in *. rewrite !omap_app, !fold_left_app. cbn [fold_left].
  destruct o as [e|l|e src|e|e|msg]; cbn [observe omap list_omap].
  all: unfold countTelemetry, recordOverflowMetric, recordDebugEvent, recordRawMessage.
  1,3,4,5,6: try destruct (negb _); cbn; rewrite ?app_nil_r, ?IH1, ?IH2; by split_and!.
  unfold countLatency. destruct (l <? 0); cbn; rewrite ?app_nil_r, ?IH3, ?IH4; [by split_and!|].
  split_and!; try done. unfold len. rewrite length_app. unfold u64. rewrite Zplus_mod_idemp_l. f_equal. cbn. lia.
Qed.

(** C28: the metrics page is exact: whatever sequence of acknowledgements,
    latencies, telemetry frames, overflows and debug records the server has
    counted, the page lists each acknowledgement status that occurred once, in
    order, with the number of acknowledgements of that status; each bucket of
    the latency histogram shows how many latencies did not exceed its bound and
    the last one how many there were; and the dashboard shows the number of
    telemetry frames. *)
Theorem metrics_page_exact `{MapRange} {S} (showSeconds : Z -> string) (b : buildinfo) (d : DrainStats) (s : Server S)
    (obs : list observation) :
  srv_metrics s = fold_left (observe cfg) obs newMetrics -> len obs < 2 ^ 64 ->
  let page := metricsHandler showSeconds d s in
  (exists keys before after,
    page = before ++ map (fun k => ackLine k (count (String.eqb k) (statusesOf obs))) keys ++ after
    /\ NoDup keys /\ StronglySorted (not_after (byName id)) keys /\ forall k, k ∈ keys <-> k ∈ statusesOf obs)
  /\ (exists before after,
    page = before
      ++ zip_with (fun le bound => bucketLine le (count (fun l => l <=? bound) (latenciesOf obs))) boundLabels ackLatencyBounds
      ++ bucketLine "+Inf" (len (latenciesOf obs)) :: after)
  /\ ds_TelemetryFramesObserved (Server_dashboardSummary b d s) = len (framesOf obs).
Proof.
  intros Hm Hl page. destruct (observed obs) as (Ha & Ht & Hb & Hc). rewrite <- Hm in Ha, Ht, Hb, Hc.
  assert (forall B (f : observation -> option B), len (omap f obs) < 2 ^ 64) as Hlen.
  { intros B f. pose proof (len_omap_le f obs). lia. }
  split_and!.
  - destruct (counterLines_bumps ackLine (statusesOf obs)) as (keys & Hk & Hrest); [apply Hlen|].
    exists keys. rewrite <- Hk. unfold page, metricsHandler. rewrite Ha. rewrite !(app_assoc _ _ (counterLines ackLine _ ++ _)).
    eexists _, _. split; [reflexivity|exact Hrest].
  - unfold page, metricsHandler. set (post := about "tcpadapter_telemetry_total" _ _ ++ _).
    unfold histogramLines. rewrite Hb, Hc, u64_small by (split; [unfold len; lia|apply Hlen]).
    change (replicate 8 0) with (replicate (length ackLatencyBounds) 0).
    rewrite bucketLines_buckets; [|by repeat constructor|done|done|apply Hlen].
    set (hist := zip_with _ _ _). rewrite <- app_assoc. rewrite !(app_assoc _ _ (hist ++ _)). eexists _, _. reflexivity.
  - cbn. apply telemetryTotal_bumps; [exact Ht|apply Hlen].
Qed.

End Observed.

(** ** From the builder page to the queue *)

(** Text that decodes as hexadecimal has no space to trim. *)
Lemma trimLeft_nospace l : Forall (fun b => is_space b = false) l -> trimLeft l = l.
Proof. intros Hl. destruct l as [|b l]; [done|]. cbn. apply Forall_cons in Hl as [Hb _]. by rewrite Hb. Qed.

Lemma TrimSpace_nospace l : Forall (fun b => is_space b = false) l -> TrimSpace l = l.
Proof.
  intros Hl. unfold TrimSpace. rewrite (trimLeft_nospace l) by done.
  rewrite trimLeft_nospace by by apply Forall_reverse. apply reverse_involutive.
Qed.

Lemma fromHexChar_nospace c v : fromHexChar c = Some v -> is_space c = false.
Proof.
  unfold fromHexChar, is_space. intros Hv. destruct (Z.eqb_spec c 32) as [->|]; [done|]. cbn [orb].
  destruct (Z.leb_spec 9 c), (Z.leb_spec c 13); cbn [andb]; try done.
  rewrite !(proj2 (Z.leb_gt _ c)) in Hv by lia. done.
Qed.

Lemma DecodeString_nospace : forall s l, DecodeString s = Some l -> Forall (fun b => is_space b = false) (bytes_of_string s).
Proof.
  fix IH 1. intros [|a [|b s']] l; [constructor|done|]. cbn [DecodeString bytes_of_string].
  destruct (fromHexChar (byte_of_ascii a)) eqn:Ea; [|done]. destruct (fromHexChar (byte_of_ascii b)) eqn:Eb; [|done].
  destruct (DecodeString s') as [l'|] eqn:Es; [|done]. intros _. specialize (IH s' l' Es).
  constructor; [by eapply fromHexChar_nospace|]. constructor; [by eapply fromHexChar_nospace|exact IH].
Qed.

Lemma postedPayload_hex hex payload : DecodeString hex = Some payload -> postedPayload hex = Some payload.
Proof.
  intros Hd. assert (trimmed hex = hex) as Ht.
  { unfold trimmed. rewrite TrimSpace_nospace by by eapply DecodeString_nospace. apply string_of_bytes_of_string. }
  unfold postedPayload. rewrite Ht. destruct (String.eqb_spec hex "") as [->|]; [|done]. by rewrite <- Hd.
Qed.

Lemma counting_forEach {S A} (f : A -> ST S unit) l : (forall a, counting (f a)) -> counting (forEach f l).
Proof. intros Hf. induction l; cbn [forEach]; [apply counting_ret|]. by apply counting_bind. Qed.

Section Built.
Context `{!Unmarshal Cmd2RebootPayload} `{!Unmarshal Cmd3FactoryResetPayload} `{!Unmarshal Cmd5TriggerFlags}
  `{!Unmarshal Cmd6CaptureIDPayload} `{!Unmarshal Cmd7PhotoRequestPayload} `{!Unmarshal Cmd8OutputControlPayload}
  `{!Unmarshal Cmd11SendSMSPayload} `{!Unmarshal Cmd18CRCBlockPayload} `{!Unmarshal Cmd19StartFWPayload}
  `{!Unmarshal Cmd23SetTimePayload} `{!Unmarshal recordRequest} `{!Unmarshal recordsRequest} `{!Unmarshal holidayRequest}
  `{!Unmarshal fwBlockRequest} `{!Unmarshal bindingRequest} `{!Unmarshal customRequest}
  `{!Unmarshal Cmd12SettingsRecord} `{!Unmarshal (list Cmd13IDRecord)} `{!Unmarshal (list Cmd14ScheduleRecord)}
  `{!Unmarshal (list Cmd15GroupRecord)}.
Context `{MapRange} {S : Type} `{!Store S} `{!StoreLaws S}.
Variable cfg : Config.
Variable clock : nat -> Z.
Implicit Types s : Server S.

(** The builder's commands all have a priority. *)
Lemma supported_priority commandID raw payload :
  buildCommandPayload commandID raw = Ok payload -> exists p, canonicalPriorityForCommand commandID = Some p.
Proof.
  unfold buildCommandPayload.
  match goal with |- switch ?x ?cs ?d = _ -> _ => destruct (switch_cases x cs d) as [(vs & r & Hin & Hid & _)|[_ ->]] end;
    [intros _|done].
  repeat (apply elem_of_cons in Hin as [[= -> ->]|Hin]); [..|by apply not_elem_of_nil in Hin].
  all: repeat (apply elem_of_cons in Hid as [->|Hid]); try (eexists; reflexivity); by apply not_elem_of_nil in Hid.
Qed.

(** What a response of the builder page says. *)
Lemma built_response method breq status resp :
  debugBuildCommandHandler cfg method (Some breq) = Reply status resp ->
  exists payload, cfg_DebugLogs cfg = true
    /\ buildCommandPayload (br_CommandID breq) (br_Parameters breq) = Ok payload
    /\ resp_CommandID resp = br_CommandID breq /\ DecodeString (resp_PayloadHex resp) = Some payload.
Proof.
  unfold debugBuildCommandHandler. destruct (cfg_DebugLogs cfg); [|done]. cbn [negb]. destruct (negb _); [done|].
  destruct (_ =? 0); [done|]. destruct (buildCommandPayload _ _) as [payload|e|] eqn:Eb; [|done..].
  destruct (EncodeFrame _) as [w|e|]; [|done..]. intros [= _ <-]. exists payload. cbn.
  rewrite DecodeString_ToUpper, DecodeString_EncodeToString by by eapply (sound_buildCommandPayload _ _ _ Eb).
  done.
Qed.

(** Enqueueing is the session manager's, with the command's priority. *)
Lemma EnqueueCommand_manager id cmd p s :
  canonicalPriorityForCommand (cmd_CommandID cmd) = Some p ->
  exists created t0 t1 t2,
    let c := set_Priority p (if cmd_CreatedAt cmd =? 0 then set_CreatedAt created cmd else cmd) in
    let '(events, e, m) := EnqueueWithEvents id c t0 t1 t2 (srv_sessions s) in
    (EnqueueCommand clock id cmd s).1 = e /\ srv_sessions (EnqueueCommand clock id cmd s).2 = m.
Proof.
  intros Hp. assert (forall c, cmd_CommandID c = cmd_CommandID cmd -> normalizeCommandPriority c = Ok (set_Priority p c)) as Hn.
  { intros c Hc. unfold normalizeCommandPriority. by rewrite Hc, Hp. }
  set (n := srv_ticks s). exists (clock n).
  destruct (cmd_CreatedAt cmd =? 0) eqn:E.
  1: exists (clock (1 + n)%nat), (clock (2 + n)%nat), (clock (3 + n)%nat).
  2: exists (clock n), (clock (1 + n)%nat), (clock (2 + n)%nat).
  all: unfold EnqueueCommand; rewrite E; unfold mbind, ST_bind, now, mret, ST_ret;
    cbn -[normalizeCommandPriority EnqueueWithEvents]; rewrite Hn by done; unfold manager;
    cbn -[EnqueueWithEvents set_Priority].
  all: destruct (EnqueueWithEvents _ _ _ _ _ _) as [[evs e] m]; cbn.
  all: match goal with |- context [forEach ?f ?l ?s1] =>
         pose proof (counting_forEach f l (fun e => counting_metrics _) s1) as (Hm & _);
         destruct (forEach f l s1) as [[] s2] end.
  all: by split.
Qed.

Lemma orStamp_ticks prefix text s : exists v n, orStamp clock prefix text s = (v, with_ticks n s).
Proof. unfold orStamp. destruct (String.eqb text ""); [by eexists _, _|]. exists text, (srv_ticks s). by destruct s. Qed.

(** What the enqueue page asks of the session manager, and its answer. *)
Lemma enqueuePosted_manager req requestID payload p s :
  canonicalPriorityForCommand (eq_CommandID req) = Some p ->
  exists messageID traceID createdAt t0 t1 t2,
    let c := mkCommand messageID traceID (trimmed (eq_DedupKey req)) (eq_CommandID req)
               (i64 (eq_TTLSeconds req * second)) createdAt payload p 0 0 in
    let '(events, e, m) := EnqueueWithEvents (trimmed (eq_ControllerID req)) c t0 t1 t2 (srv_sessions s) in
    (enqueuePosted clock req requestID payload s).1
    = match e with
      | Some e => HTTPError 400 ("enqueue failed: " +:+ render e)
      | None => Reply 202 (mkEnqueueReply (trimmed (eq_ControllerID req)) (eq_CommandID req) messageID traceID)
      end
    /\ srv_sessions (enqueuePosted clock req requestID payload s).2 = m.
Proof.
  intros Hp. unfold enqueuePosted, mbind, ST_bind.
  destruct (orStamp_ticks "debug" (trimmed (eq_MessageID req)) s) as (messageID & n1 & ->). exists messageID.
  match goal with |- context [orStamp clock "trace" ?t ?s1] => destruct (orStamp_ticks "trace" t s1) as (traceID & n2 & ->) end.
  exists traceID. cbn [now]. unfold now.
  match goal with |- context [EnqueueCommand clock ?id ?c ?s1] =>
    destruct (EnqueueCommand_manager id c p s1 Hp) as (created & t0 & t1 & t2 & Hm);
    destruct (EnqueueCommand clock id c s1) as [e1 s2] end.
  match type of Hm with context [cmd_CreatedAt (mkCommand _ _ _ _ _ ?now _ _ _ _)] =>
    exists (if now =? 0 then created else now) end.
  exists t0, t1, t2. cbn [fst snd srv_sessions with_ticks] in Hm |- *.
  match type of Hm with context [set_Priority p ?c0] => match goal with |- context [EnqueueWithEvents _ ?c _ _ _ _] =>
    assert (set_Priority p c0 = c) as Hc by (unfold set_Priority, set_CreatedAt; cbn; by destruct (_ =? 0)); rewrite Hc in Hm end end.
  destruct (EnqueueWithEvents _ _ _ _ _ _) as [[evs e] m]. destruct Hm as [<- <-]. by destruct e1.
Qed.

(** C26: a command composed on the builder page reaches the queue as it was
    previewed: posting the command and the hexadecimal payload of a response of
    the builder page to the enqueue page, for a controller and with a time to
    live that is not negative, either puts a command with exactly the payload
    that was built into the controller's queue, and its session with it into
    the store, or fails with the error of the session manager; the page itself
    refuses nothing. *)
Theorem built_command_is_queued method breq status resp id ttl message trace key requestID s :
  debugBuildCommandHandler cfg method (Some breq) = Reply status resp ->
  trimmed id <> "" -> 0 <= ttl ->
  let req := mkEnqueueRequest id (resp_CommandID resp) ttl (resp_PayloadHex resp) message trace key in
  let '(r, s') := debugEnqueueHandler cfg clock "POST" (Some req) requestID s in
  exists cmd t0 t1 t2 events e,
    EnqueueWithEvents (trimmed id) cmd t0 t1 t2 (srv_sessions s) = (events, e, srv_sessions s')
    /\ cmd_CommandID cmd = br_CommandID breq /\ cmd_TTL cmd = i64 (ttl * second)
    /\ buildCommandPayload (br_CommandID breq) (br_Parameters breq) = Ok (cmd_Payload cmd)
    /\ match e with
       | Some e => r = HTTPError 400 ("enqueue failed: " +:+ render e)
       | None => exists body sess, r = Reply 202 body /\ er_message_id body = cmd_MessageID cmd
           /\ sessions (srv_sessions s') !! trimmed id = Some sess /\ cmd ∈ Snapshot (s_Queue sess)
           /\ contents (store (srv_sessions s')) !! ControllerID sess = Some (keptSnapshot (sessionSnapshot sess))
       end.
Proof.
  intros Hb Hid Httl req. destruct (debugEnqueueHandler cfg clock "POST" (Some req) requestID s) as [r s'] eqn:Eh.
  apply built_response in Hb as (payload & Hd & Hpay & Hcmd & Hdec).
  destruct (supported_priority _ _ _ Hpay) as [p Hp]. pose proof (sound_buildCommandPayload _ _ _ Hpay) as [Hv _].
  unfold debugEnqueueHandler in Eh. rewrite Hd in Eh. cbn [negb] in Eh. change (String.eqb "POST" "POST") with true in Eh.
  cbn [negb req eq_ControllerID eq_CommandID eq_PayloadHex eq_TTLSeconds] in Eh.
  rewrite (proj2 (String.eqb_neq _ _) Hid), Hcmd in Eh.
  destruct (Z.eqb_spec (br_CommandID breq) 0) as [H0|_]; [by rewrite H0 in Hp|].
  rewrite (postedPayload_hex _ _ Hdec), Hv, (proj2 (Z.ltb_ge ttl 0) Httl) in Eh. fold req in Eh.
  assert (canonicalPriorityForCommand (eq_CommandID req) = Some p) as Hp' by (cbn; by rewrite Hcmd).
  destruct (enqueuePosted_manager req requestID payload p s Hp') as (mid & tid & at_ & t0 & t1 & t2 & Hm). rewrite Eh in Hm.
  cbv zeta in Hm. match type of Hm with context [EnqueueWithEvents ?a ?b ?c ?d ?e ?f] =>
    destruct (EnqueueWithEvents a b c d e f) as [[evs e'] m] eqn:Ee end.
  destruct Hm as [Hr Hs]. cbn [fst snd] in Hr, Hs.
  eexists _, t0, t1, t2, evs, e'. rewrite Hs. split; [exact Ee|]. split; [exact Hcmd|]. do 2 (split; [done|]).
  destruct e' as [e|]; [exact Hr|]. apply enqueue_queued in Ee as (sess & Hl & Hc & Hq).
  eexists _, sess. split; [exact Hr|]. done.
Qed.

End Built.

(** ** Concrete runs *)

#[local] Existing Instance ascending.
#[local] Existing Instance refuse | 100.
#[local] Existing Instance decode_reboot.

Definition demo_empty : Server InMemoryStore := newServer (NewManager 10 10 1000 "reject" NewInMemoryStore).

Definition demo_observations : list observation :=
  [OLatency (second / 2); OAck (mkAckEvent "m" "t" "A" 2 1 "delivered" "ok"); OLatency (3 * second);
   OTelemetry (mkTelemetryEvent "A" 2 "t" []) ""; OAck (mkAckEvent "n" "t" "A" 3 2 "delivered" "ok")].

Definition demo_observed : Server InMemoryStore :=
  with_metrics (fold_left (observe debug_config) demo_observations newMetrics) demo_empty.

Lemma metrics_page_exact_witness :
  ackLine "delivered" 2 ∈ metricsHandler pretty (mkDrainStats 0 0 0 0) demo_observed
  /\ bucketLine "2" 1 ∈ metricsHandler pretty (mkDrainStats 0 0 0 0) demo_observed
  /\ bucketLine "5" 2 ∈ metricsHandler pretty (mkDrainStats 0 0 0 0) demo_observed.
Proof.
  destruct (metrics_page_exact debug_config pretty (mkBuildinfo "dev" "unknown" "unknown") (mkDrainStats 0 0 0 0)
    demo_observed demo_observations eq_refl) as ((keys & bef & aft & Hk & _ & _ & Hin) & (bef' & aft' & Hh) & _); [done|].
  split_and!.
  - rewrite Hk. apply elem_of_app. right. apply elem_of_app. left. apply list_elem_of_In, in_map_iff.
    exists "delivered". split; [reflexivity|]. apply list_elem_of_In, Hin. vm_compute. left.
  - rewrite Hh. apply elem_of_app. right. apply elem_of_app. left. do 3 right. left.
  - rewrite Hh. apply elem_of_app. right. apply elem_of_app. left. do 4 right. left.
Defined.

Lemma built_command_is_queued_witness :
  exists resp body sess cmd s',
    debugBuildCommandHandler debug_config "POST" (Some (mkBuildRequest 2 [])) = Reply 200 resp
    /\ debugEnqueueHandler debug_config ticking "POST" (Some (mkEnqueueRequest "A" 2 60 (resp_PayloadHex resp) "" "" "")) ""
         demo_empty = (Reply 202 body, s')
    /\ sessions (srv_sessions s') !! "A" = Some sess /\ cmd ∈ Snapshot (s_Queue sess) /\ cmd_Payload cmd = [3].
Proof.
  destruct (debugBuildCommandHandler debug_config "POST" (Some (mkBuildRequest 2 []))) as [status resp|] eqn:Eb;
    [|vm_compute in Eb; discriminate Eb].
  assert (status = 200 /\ resp_CommandID resp = 2 /\ resp_PayloadHex resp = "03") as (-> & Hc & Hx)
    by (vm_compute in Eb; injection Eb as <- <-; done).
  pose proof (built_command_is_queued debug_config ticking "POST" (mkBuildRequest 2 []) 200 resp "A" 60 "" "" "" ""
    demo_empty Eb ltac:(done) ltac:(lia)) as Hq. cbv zeta in Hq. rewrite Hc in Hq.
  destruct (debugEnqueueHandler debug_config ticking "POST" _ "" demo_empty) as [r s'] eqn:Er.
  destruct Hq as (cmd & t0 & t1 & t2 & events & e & _ & _ & _ & Hp & Hr).
  assert (exists body, r = Reply 202 body) as [body ->].
  { rewrite Hx in Er. vm_compute in Er. injection Er as <- _. by eexists. }
  destruct e as [e|]; [done|]. destruct Hr as (body' & sess & [= <-] & _ & Hs & Hin & _).
  exists resp, body, sess, cmd, s'. split_and!; [done..|]. vm_compute in Hp. by injection Hp.
Defined.

(** A time to live of 584 years wraps around to less than a second. *)
Example ttl_wraps_around :
  let req := mkEnqueueRequest "A" 2 18446744074 "03" "" "" "" in
  let s' := (debugEnqueueHandler debug_config ticking "POST" (Some req) "" demo_empty).2 in
  (fun sess => map cmd_TTL (Snapshot (s_Queue sess))) <$> sessions (srv_sessions s') !! "A" = Some [290448384].
Proof. vm_compute. reflexivity. Qed.
