(* ===== verification/Endpoints.v ===== *)
(** * The HTTP server ([internal/server/observability.go]: [startObservability]
      and the handlers of the HTML pages)

    The routes and the request as the handlers see it: the path (without percent
    escapes), the method, the query parameter, the header and the body, decoded
    for the two handlers that read one.  The texts of the HTML pages are arguments ([html]): constants
    without a parameter.  The state of the server is what the handlers may
    change. *)

From S2P Require Import Prelude Format Sort Messages Frame Queue Store Retry Session Stats Config Policy Validation.
From S2P Require Import Builders IPGuard Metrics CommandBuilder Schema Server Delivery Conn Shutdown Pages.

(** ** Requests and pages *)

Record request := mkRequest {
  req_Path : string;
  req_Method : string;
  req_Limit : string;
  req_RequestID : string;
  req_Build : option buildRequest;
  req_Enqueue : option debugEnqueueRequest
}.

Inductive page :=
  | PRedirect (path : string)
  | PHTML (text : string)
  | PText (text : string)
  | PMetrics (lines : list string)
  | PDashboard (d : dashboardSummary * list ControllerSessionStat * list DebugEvent)
  | PConnections (l : items ControllerSessionStat)
  | PEvents (l : items DebugEvent)
  | PRawMessages (l : items RawDebugMessage)
  | PQueues (l : items ControllerQueueStat)
  | PSchema (l : list commandBuilderSpec)
  | PBuilt (r : commandBuildResponse)
  | PEnqueued (r : enqueueReply).

Definition http_map {A B} (f : A -> B) (h : http A) : http B :=
  match h with Reply status body => Reply status (f body) | HTTPError status msg => HTTPError status msg end.

Definition probe (p : Z * string) : http page := Reply p.1 (PText p.2).

(** ** Routes *)

Inductive endpoint :=
  | Index | Healthz | Readyz | MetricsPage | DebugDashboard | DebugConnections | DebugEvents | DebugRaw | DebugRawMessages
  | DebugLogsPage | DebugCommandBuilder | DebugCommandSchema | DebugBuildCommand | DebugQueues | DebugEnqueue.

Definition routes : list (string * endpoint) :=
  [("/", Index);
   ("/healthz", Healthz);
   ("/readyz", Readyz);
   ("/metrics", MetricsPage);
   ("/debug/dashboard", DebugDashboard);
   ("/debug/connections", DebugConnections);
   ("/debug/events", DebugEvents);
   ("/debug/raw", DebugRaw);
   ("/debug/raw-messages", DebugRawMessages);
   ("/debug/logs", DebugLogsPage);
   ("/debug/command-builder", DebugCommandBuilder);
   ("/debug/command-schema", DebugCommandSchema);
   ("/debug/build-command", DebugBuildCommand);
   ("/debug/queues", DebugQueues);
   ("/debug/enqueue", DebugEnqueue)].

(** [http.ServeMux]: a pattern without a final slash matches its own path; the
    pattern "/" matches what no other does. *)
Fixpoint mux (table : list (string * endpoint)) (path : string) : endpoint :=
  match table with
  | [] => Index
  | (pattern, e) :: table' => if String.eqb pattern path then e else mux table' path
  end.

(** The elements of a path, [path.Clean] of a rooted one, and the mux's
    [cleanPath]: the answer to another path than its clean form is a redirect. *)
Fixpoint elements (cur path : string) : list string :=
  match path with
  | "" => [cur]
  | String.String c rest =>
      if Ascii.eqb c (Ascii.ascii_of_nat 47) then cur :: elements "" rest else elements (cur +:+ String.String c "") rest
  end.

Definition push (stack : list string) (elem : string) : list string :=
  if String.eqb elem "" || String.eqb elem "." then stack
  else if String.eqb elem ".." then tail stack
  else elem :: stack.

Definition pathClean (path : string) : string :=
  match rev (foldl push [] (elements "" path)) with
  | [] => "/"
  | l => foldr (fun elem rest => "/" +:+ elem +:+ rest) "" l
  end.

Definition cleanPath (path : string) : string :=
  let path := if String.eqb (String.substring 0 1 path) "/" then path else "/" +:+ path in
  let np := pathClean path in
  if String.eqb (String.substring (String.length path - 1) 1 path) "/" && negb (String.eqb np "/") then np +:+ "/" else np.

Definition moved (r : request) : bool :=
  negb (String.eqb (req_Method r) "CONNECT") && negb (String.eqb (cleanPath (req_Path r)) (req_Path r)).

Example clean_paths :
  map cleanPath [""; "/"; "metrics"; "/debug//enqueue"; "/debug/./logs/"; "/debug/../../healthz"; "/debug/enqueue"]
  = ["/"; "/"; "/metrics"; "/debug/enqueue"; "/debug/logs/"; "/healthz"; "/debug/enqueue"].
Proof. reflexivity. Qed.

(** The texts of the pages. *)
Record html := mkHTML { dashboardHTML : string; rawMessagesHTML : string; logsHTML : string; commandBuilderHTML : string }.

Section Endpoints.
Context `{MapRange} {S : Type} `{!Store S}.
Context `{!Unmarshal Cmd2RebootPayload} `{!Unmarshal Cmd3FactoryResetPayload} `{!Unmarshal Cmd5TriggerFlags}
  `{!Unmarshal Cmd6CaptureIDPayload} `{!Unmarshal Cmd7PhotoRequestPayload} `{!Unmarshal Cmd8OutputControlPayload}
  `{!Unmarshal Cmd11SendSMSPayload} `{!Unmarshal Cmd18CRCBlockPayload} `{!Unmarshal Cmd19StartFWPayload}
  `{!Unmarshal Cmd23SetTimePayload} `{!Unmarshal recordRequest} `{!Unmarshal recordsRequest} `{!Unmarshal holidayRequest}
  `{!Unmarshal fwBlockRequest} `{!Unmarshal bindingRequest} `{!Unmarshal customRequest}
  `{!Unmarshal Cmd12SettingsRecord} `{!Unmarshal (list Cmd13IDRecord)} `{!Unmarshal (list Cmd14ScheduleRecord)}
  `{!Unmarshal (list Cmd15GroupRecord)}.
Variable cfg : Config.
Variable clock : nat -> Z.
Variable Atoi : string -> option Z.
Variable showSeconds : Z -> string.
Variable texts : html.
Variable info : buildinfo.

Definition indexHandler (path : string) : http page :=
  if negb (String.eqb path "/") then HTTPError 404 "404 page not found" else Reply 200 (PHTML (dashboardHTML texts)).

Definition debugRawHandler : http page :=
  if negb (cfg_DebugLogs cfg) then HTTPError 404 "404 page not found" else Reply 200 (PHTML (rawMessagesHTML texts)).

Definition debugLogsHandler : http page :=
  if negb (cfg_DebugLogs cfg) then HTTPError 404 "404 page not found" else Reply 200 (PHTML (logsHTML texts)).

(** A handler; [unixNow] is the clock of the schema's time stamps. *)
Definition handle (e : endpoint) (life : Life) (drain : DrainStats) (unixNow : Z) (r : request) : ST S (http page) := fun s =>
  match e with
  | Index => (indexHandler (req_Path r), s)
  | Healthz => (probe healthzHandler, s)
  | Readyz => (probe (readyzHandler life), s)
  | MetricsPage => (Reply 200 (PMetrics (metricsHandler showSeconds drain s)), s)
  | DebugDashboard => (http_map PDashboard (debugDashboardHandler cfg Atoi info drain (req_Limit r) s), s)
  | DebugConnections => (http_map PConnections (debugConnectionsHandler cfg Atoi (req_Limit r) s), s)
  | DebugEvents => (http_map PEvents (debugEventsHandler cfg Atoi (req_Limit r) s), s)
  | DebugRaw => (debugRawHandler, s)
  | DebugRawMessages => (http_map PRawMessages (debugRawMessagesHandler cfg Atoi (req_Limit r) s), s)
  | DebugLogsPage => (debugLogsHandler, s)
  | DebugCommandBuilder => (http_map PHTML (debugCommandBuilderHandler (commandBuilderHTML texts) cfg (req_Method r)), s)
  | DebugCommandSchema => (http_map PSchema (debugCommandSchemaHandler cfg (req_Method r) unixNow), s)
  | DebugBuildCommand => (http_map PBuilt (debugBuildCommandHandler cfg (req_Method r) (req_Build r)), s)
  | DebugQueues => (http_map PQueues (debugQueuesHandler cfg Atoi (req_Limit r) s), s)
  | DebugEnqueue =>
      let '(resp, s') := debugEnqueueHandler cfg clock (req_Method r) (req_Enqueue r) (req_RequestID r) s in
      (http_map PEnqueued resp, s')
  end.

(** [startObservability]: what answers a request; no server if no address is
    configured. *)
Definition startObservability : option (Life -> DrainStats -> Z -> request -> ST S (http page)) :=
  if String.eqb (cfg_MetricsAddr cfg) "" then None
  else Some (fun life drain unixNow r =>
    if moved r then mret (Reply 301 (PRedirect (cleanPath (req_Path r))))
    else handle (mux routes (req_Path r)) life drain unixNow r).

(** ** What can be reached *)

Definition notFound {A} : http A := HTTPError 404 "404 page not found".

(** The endpoints that answer whether or not debugging is on. *)
Definition always_open (e : endpoint) : bool :=
  match e with Index | Healthz | Readyz | MetricsPage => true | _ => false end.

Lemma handle_closed e life drain unixNow r s :
  cfg_DebugLogs cfg = false -> always_open e = false -> handle e life drain unixNow r s = (notFound, s).
Proof.
  intros Hd He. destruct e; try discriminate He; cbn [handle].
  all: unfold debugDashboardHandler, debugConnectionsHandler, debugEventsHandler, debugRawMessagesHandler, debugQueuesHandler,
    debugRawHandler, debugLogsHandler, debugCommandBuilderHandler, debugCommandSchemaHandler, debugBuildCommandHandler,
    debugEnqueueHandler, debugPage.
  all: by rewrite Hd.
Qed.

Lemma handle_changes e life drain unixNow r s :
  (handle e life drain unixNow r s).2 <> s -> e = DebugEnqueue /\ cfg_DebugLogs cfg = true /\ req_Method r = "POST".
Proof.
  destruct e; try (by intros []). cbn [handle]. unfold debugEnqueueHandler.
  destruct (cfg_DebugLogs cfg); [|by intros []]. destruct (String.eqb_spec (req_Method r) "POST") as [->|]; [done|by intros []].
Qed.

(** Which endpoint a path leads to. *)
Lemma mux_spec table path : (path, mux table path) ∈ table \/ (path ∉ table.*1 /\ mux table path = Index).
Proof.
  induction table as [|[pattern e] table IH]; cbn [mux fmap list_fmap]; [right; split; [by intros ?%not_elem_of_nil|done]|].
  destruct (String.eqb_spec pattern path) as [->|Hne]; [by left; left|]. destruct IH as [Hi|[Hn Hi]]; [left; by right|].
  right. split; [|done]. by intros [->|?]%elem_of_cons.
Qed.

Lemma routes_open path :
  path ∉ ["/"; "/healthz"; "/readyz"; "/metrics"] ->
  always_open (mux routes path) = false \/ (mux routes path = Index /\ path <> "/").
Proof.
  intros Hn. destruct (mux_spec routes path) as [Hin|[Hp Hi]].
  - left. set (e := mux routes path) in *. clearbody e.
    repeat (apply elem_of_cons in Hin as [[= -> ->]|Hin]; [first [reflexivity|exfalso; apply Hn; apply list_elem_of_In; cbn; tauto]|]).
    by apply not_elem_of_nil in Hin.
  - right. split; [done|]. intros ->. apply Hp. left.
Qed.

(** C29: the debug pages are closed unless they are switched on: without
    [DebugLogs] a request for a path other than those of the dashboard page, the
    probes and the metrics is answered with 404 "page not found" (or, if the path
    is not a clean one, with a redirect), and no request changes the server's
    state.  With [DebugLogs] the only request that can change it is a POST to
    "/debug/enqueue". *)
Theorem debug_pages_closed (serve : Life -> DrainStats -> Z -> request -> ST S (http page)) life drain unixNow r s :
  startObservability = Some serve ->
  (cfg_DebugLogs cfg = false -> req_Path r ∉ ["/"; "/healthz"; "/readyz"; "/metrics"] ->
     serve life drain unixNow r s = (if moved r then Reply 301 (PRedirect (cleanPath (req_Path r))) else notFound, s))
  /\ ((serve life drain unixNow r s).2 <> s ->
     cfg_DebugLogs cfg = true /\ req_Path r = "/debug/enqueue" /\ req_Method r = "POST").
Proof.
  unfold startObservability. destruct (String.eqb _ _); [done|]. intros <-%(inj Some).
  cbn beta. destruct (moved r); [by split; [|intros []]|]. split.
  - intros Hd [Hc|[Hi Hp]]%routes_open; [by apply handle_closed|]. rewrite Hi. cbn [handle]. unfold indexHandler.
    by destruct (String.eqb_spec (req_Path r) "/").
  - intros (He & Hd & Hm)%handle_changes. split_and!; [done| |done].
    destruct (mux_spec routes (req_Path r)) as [Hin|[_ Hi]]; [|congruence]. rewrite He in Hin.
    unfold routes in Hin. by repeat (apply elem_of_cons in Hin as [[=]|Hin]); [|apply not_elem_of_nil in Hin].
Qed.

End Endpoints.

(** ** Concrete requests *)

#[local] Existing Instance ascending.
#[local] Existing Instance refuse | 100.

Definition demo_page : html := mkHTML "dashboard" "raw" "logs" "builder".
Definition demo_info : buildinfo := mkBuildinfo "dev" "unknown" "unknown".

(** A POST that would queue a reboot for controller A. *)
Definition demo_post : request :=
  mkRequest "/debug/enqueue" "POST" "" "" None (Some (mkEnqueueRequest "A" 2 60 "03" "" "" "")).

(** The default configuration: debugging is off. *)
Definition quiet_config : Config := loadEnv (fun _ => "") (fun _ => None) (fun _ => None) (fun _ => None).

Definition demo_serve (cfg : Config) := startObservability (S := InMemoryStore) cfg ticking (fun _ => None) pretty.pretty demo_page demo_info.

Lemma debug_pages_closed_witness :
  (exists serve, demo_serve quiet_config = Some serve
    /\ serve life_starting (mkDrainStats 0 0 0 0) 0 demo_post demo_empty = (notFound, demo_empty))
  /\ (exists serve, demo_serve debug_config = Some serve
    /\ (serve life_starting (mkDrainStats 0 0 0 0) 0 demo_post demo_empty).2 <> demo_empty
    /\ cfg_DebugLogs debug_config = true).
Proof.
  split; eexists; (split; [reflexivity|]).
  - apply (debug_pages_closed quiet_config ticking (fun _ => None) pretty.pretty demo_page demo_info _ life_starting
      (mkDrainStats 0 0 0 0) 0 demo_post demo_empty eq_refl); [reflexivity|].
    cbn. intros Hin. repeat (apply elem_of_cons in Hin as [[=]|Hin]). by apply not_elem_of_nil in Hin.
  - match goal with |- ?P /\ _ => assert P as Hne end; [|split; [exact Hne|]].
    + intros He%(f_equal (fun s => size (sessions (srv_sessions s)))). vm_compute in He. discriminate He.
    + apply (debug_pages_closed debug_config ticking (fun _ => None) pretty.pretty demo_page demo_info _ life_starting
        (mkDrainStats 0 0 0 0) 0 demo_post demo_empty eq_refl). exact Hne.
Defined.
